(* ===== verification/_CoqProject ===== *)
-Q . S2P
Prelude.v
PyText.v
Base64.v
Sha256.v
LoadNumbers.v
DateTime.v
PyFloat.v
Json.v
Database.v
Sha1.v
MissingDocs.v
Shipments.v
Reconciliation.v
SlaScanner.v
Extraction.v
Workflow.v
WorkflowSafety.v
Frame.v
BusinessState.v
WorkflowRoutes.v
Health.v
InvoiceJob.v
Redis.v
InvoiceQueue.v
QueueOperations.v
QueueRoutes.v
InvoiceWorker.v
DeliveryLifecycle.v
Notifier.v
WorkerLoop.v
GmailPoller.v
Schedulers.v
GmailAuth.v
Process.v
Settings.v
RateConfirmationRoutes.v
ShipmentRoutes.v
Migrations.v
ResultFrame.v
ThreadStages.v
SystemInvariant.v
SystemHandlers.v
SystemDelivery.v
SystemSafety.v
Reviewers.v
Dispatchers.v
QueueFrame.v
RunsKept.v
Pipeline.v
JobRace.v
Schema.v
SchemaRows.v
Vocabulary.v
