(* ===== verification/Prelude.v ===== *)
(** * Freight AP workflow: a verification library

    The program turns freight paperwork (rate confirmations, bills of lading, proofs
    of delivery, invoices) into shipments that are reconciled and released for
    posting.  Mail is polled, its attachments are queued as jobs on a Redis stream, a
    worker runs a LangGraph workflow on each job, a human decides the runs that the
    workflow does not release by itself, and a scanner flags the shipments whose
    documents are late.  This library is a shallow embedding of the Python code under
    [app/] and of its data migrations, with the theorems that make it correct.

    ** How the program is represented

    - A function that touches state is a computation of the monad [M S], from a state
      to a result, a value or a raised exception, and a new state: what was written
      before an exception stays written, as in Python.  [isinstance_exn] is the class
      hierarchy of the [except] clauses.
    - The database is the tables of Database, one record per row.  A session reads its
      working copy; [commit] publishes it, [rollback] and the end of the [async with]
      drop it.  A row that breaks a constraint raises [IntegrityError].
    - The Redis server is the class [Redis]: any server whose commands answer and change
      a keyspace as documented.  A property is proved on the keyspace and carried to
      every server by [follows].
    - The compiled graph with its checkpointer is the class [GraphEngine], the mailbox
      the class [Gmail], the coercions of pydantic the class [JobCodec] and the
      parameters [model_fields] and [triage_fields].  Each class has a reference
      instance, which meets its laws and on which the examples are evaluated.
    - Integers are [Z]; a float is a [spec_float] of binary64; an instant is a number
      of microseconds; hashes, base64, JSON and ISO dates are computed, not assumed.
      Text is ASCII, or the UTF-8 bytes of the text where it is only copied.

    ** The files, from the bottom to the top

    Python and its libraries.  PyText: [str]; also [app/load_numbers.py] and
    [app/services/json_utils.py] in LoadNumbers and Extraction.  Base64, Sha256, Sha1:
    [base64], [hashlib], [uuid5].  DateTime, PyFloat, Json: [datetime], [float], [json].

    Business data.  Database: [app/models/], [app/database.py],
    [app/services/audit.py].  LoadNumbers: the normal form of load numbers and the
    migration 202607190003.  Migrations: the data of the other migrations.  Schema: the
    schema that [alembic/versions/] builds and the one [app/models/] declares;
    SchemaRows: the rows they admit, against the inserts of Database.  MissingDocs
    and SlaScanner: [app/services/missing_document_sla.py].  Shipments:
    [app/services/shipment.py].  Reconciliation: [app/services/reconciliation.py].
    Extraction: [app/services/extraction.py], [app/services/triage.py].

    The workflow.  Workflow: [app/workflow/].  WorkflowSafety: what a run guarantees.
    Frame: which tables the nodes leave alone.  BusinessState:
    [app/services/business_state.py].  WorkflowRoutes: [app/api/routes/workflow.py].
    Vocabulary: [app/schemas/business_state.py], against what the tables admit.

    The queue.  InvoiceJob: [app/schemas/invoice_job.py].  Redis: the server.
    InvoiceQueue: [app/services/invoice_queue.py].  QueueOperations and QueueRoutes:
    [app/services/queue_operations.py] and its routes.  InvoiceWorker,
    DeliveryLifecycle and WorkerLoop: [app/services/invoice_worker.py], a delivery,
    its abstract lifecycle, and the loop.

    The rest of the process.  GmailPoller: [app/services/gmail_poller.py].  Notifier:
    [app/services/notifier.py].  Health: [app/services/health.py].  Schedulers: the
    loops of [app/main.py].  GmailAuth: [app/services/gmail_auth.py].  Process: the lifespan
    of [app/main.py], with what each task can write to the shared health.  Settings:
    [app/core/config.py].  RateConfirmationRoutes and ShipmentRoutes: the remaining routes.

    The whole.  ResultFrame: what every session leaves to the runs of others.
    ThreadStages: what a checkpoint can hold, for a run of the graph that may be cut off.
    SystemInvariant: the invariant of tables and checkpoints.  SystemHandlers and
    SystemDelivery: the upload, the decision and the delivery keep it.  SystemSafety: the
    program as one transition system, with the death of its processes.  Reviewers: the
    decision requests of many clients at once, with the lock of the row, against the
    atomic requests of that system.  Dispatchers: the dispatches of many processes at once,
    with [SKIP LOCKED].  JobRace: the workers that create the rows of one job at once, with the
    [except IntegrityError] clause.  QueueFrame: which keys the clients of the server leave alone;
    RunsKept: the runs and the keyed documents that stay; Pipeline: mailbox, poller, queue,
    workers and the rest of the program as one system.

    ** What the theorems show

    - The system: [system_releases_safely] says that in every state the program can reach,
      through any sequence of requests, deliveries, scans and crashes between two commits, a
      run that is ready for posting was approved by a reviewer or has a committed
      reconciliation in which everything passed; [decisions_agree_with_checkpoints] that the
      tables and the checkpoints never disagree on a decision; [mail_reaches_workflow] that a
      message that was unread stays unread, or each of its attachments has a job that waits, is a
      dead letter with its payload, or has a committed run.
    - Concurrency: [concurrent_reviews_atomic] says that decision requests that overlap cannot
      be told from requests one after the other, [concurrent_reviews_complete] that none of them
      waits for ever, not for the row its own request holds either, and
      [awaiting_run_can_be_decided] that no run is stuck before its reviewer.
      [notices_sent_once]: dispatchers that overlap and die anywhere send no notice twice
      (with [dispatch_is_a_turn]: their steps have what the function of Notifier does).
      [concurrent_jobs_agree]: workers that create the rows of one job at once end with the same
      document and run, and never with an exception (with [phases_are_the_function]).
    - Release: [release_without_review_safe] says that no run is released without a
      human unless its shipment is complete and every check passed;
      [completed_outcome] and [workflow_terminates] (with [decision_completes_paused_run])
      give the outcome of every run, and that each ends.
    - Review: [review_decisions_final] and [review_roundtrip] (with
      [decide_review_correct] and [decide_review_repeated]): a decision is taken once, is never lost or replaced,
      through any sequence of requests, failures and crashes.
    - Jobs: [worker_refines_lifecycle] shows that the worker implements an abstract
      lifecycle of deliveries, [worker_loop_correct] that its loop goes on whatever
      fails, with jobs arriving between its turns; [no_delivery_lost], [redelivery_does_no_work_twice],
      [job_outcome_recorded] and [polled_mail_is_queued] say that no job disappears on
      the way from the mailbox to a committed run, and that none is done twice.
      [enqueue_once], [dead_letter_replay_roundtrip], [replay_once] and [purge_correct] (with
      [queue_routes_answer]) are about the operations of the queue;
      [attachment_bytes_arrive] follows the bytes of an attachment.
    - Reconciliation: [verdict_correct], [reconcile_shipment_correct],
      [reconcile_shipment_idempotent], [amount_tolerance_bounds] (in binary64) and
      [rate_confirmation_created].
    - Assembly: [shipment_assembled_in_any_order] (with [upsert_shipment_correct] and
      [upsert_shipment_idempotent]); the extraction that precedes it:
      [read_document_canonical] (with [extract_document_atomic]).
    - Service levels: [exception_history_sound], [scan_terminates], [dispatch_correct] and
      [sla_turn_reports] (with [missing_document_policy_correct]).
    - Operation: [readiness_correct] and [capability_reflects_history];
      [dead_tasks_reported], that a worker or a scanner that has ended is never reported as
      alive and that a shutdown can be completed; [silent_authentication], that the poll
      gets its service exactly where the probe of the token finds nothing wrong;
      [carrier_analytics_correct].  Of the settings, [settings_in_bounds],
      [settings_read_once] and [defaults_serve]; of the statuses,
      [run_statuses_are_members] and the theorems beside it.
    - The schema: [migrations_roundtrip], [migrations_build_models], [inserts_enforce_schema]
      and, for the data, [status_migration_correct] (with [load_number_migration_correct]).

    ** Bounds and fuel

    The graph has the default limit of LangGraph, 25 steps, and needs four
    ([workflow_terminates]).  The loop of the scanner has a fuel greater than the
    number of claimable shipments ([scan_terminates]), the loop of the dispatch one
    greater than the number of events to notify ([dispatch_correct]), the loop of the
    purge [max_delete] ([purge_correct]): each theorem shows that the loop ends within
    its fuel.  The parser of JSON has twice the length of the text, which the round
    trip proves enough for what the program prints.

    ** What the examples record

    [worker_reason_lost]: the reason a worker ends for is replaced by a generic one.
    [replay_alias_duplicates]: a dead letter addressed by an alias of its id can be
    replayed twice.  [empty_attachment_blocks]: a message with an empty attachment
    stops every poll.  [dead_poll_forgotten]: a request that polls replaces the report that
    the poll task has ended.  [unexpired_token_refused]: credentials that are neither valid
    nor expired pass the probe, and the service says that there is no token.
    [hours_overflow]: a number of hours that the settings accept and [timedelta] does not.
    [amount_tolerance_bounds] gives the amounts at the edge of the
    tolerance.

    ** What is not modelled

    - Connection failures of Redis and of the database: a command answers.  Exceptions
      of the graph, of Claude, of Gmail and of the constraints are modelled.
    - Concurrency: but for the decision requests of Reviewers, the dispatches of Dispatchers and the
      new rows of JobRace, sessions do not overlap, so the other row locks find no other holder.  In Reviewers the rest of the program
      leaves the row, the decision and the thread of a run alone while a request holds it: the
      first two by the lock, the thread because the worker does not touch a run that awaits
      review; a transaction commits its writes in one step.  The deliveries of a batch are
      processed one after the other, and the heartbeat of a delivery is a number of beats.  Other clients of the server act
      between the turns of the worker, not within one; a script is one step.  Within the
      transition system of SystemSafety the handlers are interleaved whole, or cut off at
      any of their commits, and Pipeline adds the polls, whole or cut off between attachments; the
      replay and the purge of dead letters are not among its steps, nor is a person who marks mail as read.
    - Time passes between the operations where the code reads a clock (the clocks are
      sequences of readings); the expiry of the deduplication keys is stored and not
      acted on; instants do not leave the range of [datetime].
    - The columns [updated_at] (a parameter where a route orders by it) and
      [RuntimeHealth.started_at].
    - The sleeps between turns, the registration of routers and CORS in [app/main.py], the
      engine, the Redis clients and their timeouts, the texts of the prompts, the MIME encoding of mail, [alembic/env.py], the length
      limits of text columns and the ranges of integer columns, FastAPI's parsing of
      requests, and the frontend. *)

From stdpp Require Export base list strings option sets.
From Stdlib Require Export ZArith Lia Sorted.

#[export] Set Default Proof Using "Type".

(** ** Exceptions

    The exception classes the source raises, catches or inspects.  The
    subclass relation is the one of the class statements
    ([class PermanentJobError(ValueError)] and so on). *)

Inductive exn_class :=
  | ValueError | TypeError | KeyError | LookupError | RuntimeError
  | PermanentJobError
  | ExtractionError | UnsupportedFileTypeError | ValidationError
  | IntegrityError
  | QueueOperationError | DLQNotFound | DLQNotReplayable | ReplayInProgress
  | BusinessStateConflict
  | TimeoutError | RedisError | ResponseError | RedisTimeoutError
  | HTTPException
  | CancelledError
  | OtherError (name : string).

Record exn := Exn { exn_cls : exn_class; exn_msg : string }.

(** [isinstance(exc, cls)], for the classes that appear in an [except] clause. *)
Definition isinstance_exn (e : exn) (cls : exn_class) : bool :=
  match cls, exn_cls e with
  | ValueError, (ValueError | PermanentJobError) => true
  | TypeError, TypeError => true
  | LookupError, (LookupError | KeyError) => true
  | RuntimeError,
      (RuntimeError | QueueOperationError | DLQNotFound | DLQNotReplayable
       | ReplayInProgress) => true
  | QueueOperationError,
      (QueueOperationError | DLQNotFound | DLQNotReplayable | ReplayInProgress) => true
  | PermanentJobError, PermanentJobError => true
  | ExtractionError, ExtractionError => true
  | UnsupportedFileTypeError, UnsupportedFileTypeError => true
  | IntegrityError, IntegrityError => true
  | DLQNotFound, DLQNotFound => true
  | DLQNotReplayable, DLQNotReplayable => true
  | ReplayInProgress, ReplayInProgress => true
  | BusinessStateConflict, BusinessStateConflict => true
  | TimeoutError, TimeoutError => true
  | RedisError, (RedisError | ResponseError | RedisTimeoutError) => true
  | ResponseError, ResponseError => true
  | RedisTimeoutError, RedisTimeoutError => true
  | CancelledError, CancelledError => true
  | _, _ => false
  end.

(** [except Exception]: everything but [asyncio.CancelledError], which is a
    [BaseException]. *)
Definition is_Exception (e : exn) : bool :=
  match exn_cls e with CancelledError => false | _ => true end.

(** ** The state and exception monad

    A computation of type [M S A] reads and writes a state of type [S] and
    returns a value or raises; the state at the raise point is kept, as an
    effect that happened before a Python [raise] is. *)

Inductive res (A : Type) :=
  | Ok (a : A)
  | Raise (e : exn).
Arguments Ok {A} a.
Arguments Raise {A} e.

Definition M (S A : Type) : Type := S → res A * S.

#[export] Instance M_ret S : MRet (M S) := λ A a s, (Ok a, s).
#[export] Instance M_bind S : MBind (M S) := λ A B f m s,
  match m s with
  | (Ok a, s') => f a s'
  | (Raise e, s') => (Raise e, s')
  end.

Definition raise {S A} (e : exn) : M S A := λ s, (Raise e, s).
Definition gets {S A} (f : S → A) : M S A := λ s, (Ok (f s), s).
Definition modify {S} (f : S → S) : M S unit := λ s, (Ok tt, f s).

(** [try: m except ...: h], where [h] returns [None] for an exception the
    clause does not catch. *)
Definition try_except {S A} (m : M S A) (h : exn → option (M S A)) : M S A := λ s,
  match m s with
  | (Ok a, s') => (Ok a, s')
  | (Raise e, s') =>
      match h e with
      | Some k => k s'
      | None => (Raise e, s')
      end
  end.

Definition res_ok {A} (r : res A) : bool := match r with Ok _ => true | Raise _ => false end.

Definition of_res {S A} (r : res A) : M S A := λ s, (r, s).

Lemma bind_unfold {S A B} (m : M S A) (f : A → M S B) s :
  (m ≫= f) s = match m s with
               | (Ok a, s') => f a s'
               | (Raise e, s') => (Raise e, s')
               end.
Proof. reflexivity. Qed.

Lemma bind_ok_inv {S A B} (m : M S A) (f : A → M S B) s b s' :
  (m ≫= f) s = (Ok b, s') → ∃ a s1, m s = (Ok a, s1) ∧ f a s1 = (Ok b, s').
Proof. rewrite bind_unfold. destruct (m s) as [[a|e] s1]; naive_solver. Qed.

(** Unfold the monad operations of a computation applied to a state. *)
Ltac munfold :=
  unfold mbind, mret, M_bind, M_ret, raise, gets, modify, try_except, of_res in *; simpl in *.

(** ** Python truthiness and membership *)

Definition str_truthy (s : string) : bool := negb (String.eqb s "").

Definition opt_truthy {A} (f : A → bool) (o : option A) : bool :=
  match o with Some a => f a | None => false end.

(** [s in {...}] for a literal set of strings. *)
Definition in_strs (s : string) (l : list string) : bool := existsb (String.eqb s) l.

Lemma in_strs_In s l : in_strs s l = true ↔ s ∈ l.
Proof.
  unfold in_strs. rewrite existsb_exists. rewrite list_elem_of_In. split.
  - intros (x & Hx & ->%String.eqb_eq). done.
  - intros H. exists s. split; [done | apply String.eqb_refl].
Qed.

(** [a or b] on optional strings: the first operand when it is truthy. *)
Definition str_or (a b : option string) : option string :=
  if opt_truthy str_truthy a then a else b.

(** [not l] *)
Definition is_nil {A} (l : list A) : bool := match l with [] => true | _ => false end.

(** ** Generic list lemmas *)

Lemma existsb_false_Forall {A} (f : A → bool) l :
  existsb f l = false ↔ Forall (λ x, f x = false) l.
Proof.
  induction l as [|x l IH]; simpl; [split; auto|].
  rewrite Bool.orb_false_iff, Forall_cons_iff, IH. done.
Qed.

(** The first element satisfying a boolean predicate, and the [scalar]
    readings of a select built on it. *)
Definition find_first {A} (p : A → bool) (l : list A) : option A := List.find p l.

Lemma find_first_Some {A} (p : A → bool) l x :
  find_first p l = Some x → x ∈ l ∧ p x = true.
Proof. intros H%List.find_some. by rewrite list_elem_of_In. Qed.

Lemma find_first_None {A} (p : A → bool) l :
  find_first p l = None ↔ ∀ x, x ∈ l → p x = false.
Proof.
  split.
  - intros H x Hx%list_elem_of_In. by eapply List.find_none.
  - induction l as [|y l IH]; intros H; simpl; [done|].
    rewrite (H y) by set_solver. apply IH. set_solver.
Qed.

Lemma find_first_app {A} (p : A → bool) l1 l2 :
  find_first p (l1 ++ l2) =
  match find_first p l1 with Some x => Some x | None => find_first p l2 end.
Proof. induction l1 as [|x l1 IH]; simpl; [done|]. by destruct (p x). Qed.

(** ** Stable sorting

    [sorted(l, key=...)] and [ORDER BY]: a stable insertion sort by a boolean
    comparison. *)

Section Sort.
Context {A : Type} (leb : A → A → bool).
Implicit Types (l : list A) (x : A).

Fixpoint insert_by x l : list A :=
  match l with
  | [] => [x]
  | y :: l' => if leb x y then x :: l else y :: insert_by x l'
  end.

Fixpoint sort_by l : list A :=
  match l with
  | [] => []
  | x :: l' => insert_by x (sort_by l')
  end.

Lemma insert_by_perm x l : insert_by x l ≡ₚ x :: l.
Proof.
  induction l as [|y l IH]; simpl; [done|].
  destruct (leb x y); [done|]. rewrite IH. by constructor.
Qed.

Lemma sort_by_perm l : sort_by l ≡ₚ l.
Proof. induction l as [|x l IH]; simpl; [done|]. by rewrite insert_by_perm, IH. Qed.

Lemma elem_of_sort_by x l : x ∈ sort_by l ↔ x ∈ l.
Proof. by rewrite sort_by_perm. Qed.

Lemma length_sort_by l : length (sort_by l) = length l.
Proof. apply Permutation_length, sort_by_perm. Qed.

Context (leb_total : ∀ x y, leb x y = false → leb y x = true).

Lemma insert_by_sorted x l :
  Sorted (λ a b, leb a b = true) l → Sorted (λ a b, leb a b = true) (insert_by x l).
Proof using All.
  induction 1 as [|y l Hs IH Hhd]; simpl; [by repeat constructor|].
  destruct (leb x y) eqn:Hxy; [by repeat constructor|].
  constructor; [done|]. destruct Hhd as [|z l Hyz]; simpl.
  - constructor. auto.
  - destruct (leb x z); constructor; auto.
Qed.

Lemma sort_by_sorted l : Sorted (λ a b, leb a b = true) (sort_by l).
Proof using All. induction l as [|x l IH]; simpl; [constructor|]. by apply insert_by_sorted. Qed.
End Sort.

(** The same when the order is total on the elements only. *)
Lemma sort_by_sorted_on {A} (P : A → Prop) (leb : A → A → bool) (l : list A) :
  (∀ x y, P x → P y → leb x y = false → leb y x = true) → Forall P l →
  Sorted (λ a b, leb a b = true) (sort_by leb l).
Proof.
  intros Ht. induction 1 as [|x l Hx Hl IH]; cbn [sort_by]; [constructor|].
  rewrite <- (sort_by_perm leb l) in Hl. induction IH as [|y l' Hs IH Hhd]; cbn; [by repeat constructor|].
  apply Forall_cons in Hl as [Hy Hl]. destruct (leb x y) eqn:Hxy; [by repeat constructor|].
  constructor; [by apply IH|]. destruct Hhd as [|z l' Hyz]; cbn; [by constructor; apply Ht|].
  destruct (leb x z); constructor; [by apply Ht|done].
Qed.

Lemma sort_by_fmap {A B} (leb : A → A → bool) (leb' : B → B → bool) (g : A → B) (l : list A) :
  (∀ a b, leb' (g a) (g b) = leb a b) → sort_by leb' (g <$> l) = g <$> sort_by leb l.
Proof.
  intros Hg. induction l as [|x l IH]; [done|].
  rewrite fmap_cons. cbn [sort_by]. rewrite IH. clear IH.
  induction (sort_by leb l) as [|y l' IH]; [done|].
  rewrite fmap_cons. cbn [insert_by]. rewrite Hg.
  destruct (leb x y); [done|]. by rewrite IH.
Qed.

(** ** Counting *)

Definition count_by {A} (p : A → bool) (l : list A) : nat := length (List.filter p l).

Lemma count_by_cons {A} (p : A → bool) x l :
  count_by p (x :: l) = (if p x then 1 else 0) + count_by p l.
Proof. unfold count_by. simpl. by destruct (p x). Qed.

Lemma count_by_app {A} (p : A → bool) l1 l2 :
  count_by p (l1 ++ l2) = count_by p l1 + count_by p l2.
Proof. unfold count_by. by rewrite List.filter_app, length_app. Qed.

Lemma count_by_le {A} (p q : A → bool) l :
  (∀ x, x ∈ l → p x = true → q x = true) → count_by p l ≤ count_by q l.
Proof.
  induction l as [|x l IH]; intros H; [done|]. rewrite !count_by_cons.
  assert (count_by p l ≤ count_by q l) by (apply IH; set_solver).
  destruct (p x) eqn:Hp; [rewrite (H x) by set_solver|]; lia.
Qed.

Lemma filter_and {A} (p q : A → bool) (l : list A) :
  List.filter p (List.filter q l) = List.filter (λ x, q x && p x) l.
Proof.
  induction l as [|x l IH]; [done|]. cbn. destruct (q x); cbn; [|done]. by rewrite IH.
Qed.

Lemma count_by_0 {A} (p : A → bool) l : count_by p l = 0 ↔ ∀ x, x ∈ l → p x = false.
Proof.
  induction l as [|x l IH]; [split; [set_solver|done]|].
  rewrite count_by_cons. split.
  - intros H y Hy. apply elem_of_cons in Hy.
    destruct (p x) eqn:Hp; [lia|].
    destruct Hy as [->|Hy]; [done|]. apply IH; [lia|done].
  - intros H. rewrite (H x) by set_solver. apply IH. set_solver.
Qed.

(** ** Tactics *)

(** Decide every string comparison in the goal and hypotheses by cases. *)
Ltac case_streqb :=
  repeat match goal with
  | |- context [String.eqb ?a ?b] => destruct (String.eqb_spec a b); subst; simpl
  | H : context [String.eqb ?a ?b] |- _ => destruct (String.eqb_spec a b); subst; simpl in H
  end.

Create HintDb ap discriminated.
#[export] Hint Resolve String.eqb_refl : ap.
