(* ===== verification/PyText.v ===== *)
(** * Text: the Python [str] operations the source uses

    Text is ASCII: a [string] of character codes below 128, on which Python's
    [str] methods and these functions agree ([isspace] holds of the codes 9 to
    13, 28 to 31 and 32).  On top of them: [app/load_numbers.py] and
    [app/services/json_utils.py]. *)

From S2P Require Import Prelude.
From Stdlib Require Import Ascii DecimalString DecimalZ Decimal.
Local Open Scope string_scope.
Local Open Scope list_scope.
Local Open Scope nat_scope.

Abbreviation chars := (list ascii).
Abbreviation to_chars := String.list_ascii_of_string.
Abbreviation of_chars := String.string_of_list_ascii.

Definition code (c : ascii) : nat := nat_of_ascii c.
Definition in_range (lo hi n : nat) : bool := (Nat.leb lo n) && (Nat.leb n hi).

(** [str.isspace] on one ASCII character. *)
Definition py_isspace (c : ascii) : bool :=
  in_range 9 13 (code c) || in_range 28 32 (code c).

Definition py_upper_char (c : ascii) : ascii :=
  if in_range 97 122 (code c) then ascii_of_nat (code c - 32) else c.

Definition py_lower_char (c : ascii) : ascii :=
  if in_range 65 90 (code c) then ascii_of_nat (code c + 32) else c.

Definition py_upper (s : string) : string := of_chars (py_upper_char <$> to_chars s).
Definition py_lower (s : string) : string := of_chars (py_lower_char <$> to_chars s).

(** Drop the longest prefix (suffix, both) of characters satisfying [p]. *)
Fixpoint drop_while {A} (p : A → bool) (l : list A) : list A :=
  match l with
  | [] => []
  | x :: l' => if p x then drop_while p l' else l
  end.

Definition drop_while_end {A} (p : A → bool) (l : list A) : list A :=
  reverse (drop_while p (reverse l)).

Definition strip_by (p : ascii → bool) (s : string) : string :=
  of_chars (drop_while_end p (drop_while p (to_chars s))).

(** [s.strip()] and [s.strip(chars)]. *)
Definition py_strip : string → string := strip_by py_isspace.
Definition py_strip_chars (cs : string) : string → string :=
  strip_by (λ c, existsb (Ascii.eqb c) (to_chars cs)).

(** [s.split()]: the maximal runs of non-space characters. *)
Fixpoint split_ws_aux (cur : chars) (l : chars) : list chars :=
  match l with
  | [] => match cur with [] => [] | _ => [reverse cur] end
  | c :: l' =>
      if py_isspace c
      then match cur with [] => split_ws_aux [] l' | _ => reverse cur :: split_ws_aux [] l' end
      else split_ws_aux (c :: cur) l'
  end.

Definition py_split (s : string) : list string := of_chars <$> split_ws_aux [] (to_chars s).

(** [sep.join(parts)]. *)
Fixpoint py_join (sep : string) (parts : list string) : string :=
  match parts with
  | [] => ""
  | [p] => p
  | p :: ps => p +:+ sep +:+ py_join sep ps
  end.

Definition py_startswith (prefix s : string) : bool := String.prefix prefix s.
Definition py_endswith (suffix s : string) : bool :=
  String.prefix (of_chars (reverse (to_chars suffix))) (of_chars (reverse (to_chars s))).

(** [sub in s]. *)
Fixpoint py_contains (sub s : string) : bool :=
  String.prefix sub s ||
  match s with
  | String.EmptyString => false
  | String.String _ s' => py_contains sub s'
  end.

(** [s[:n]]. *)
Definition py_take (n : nat) (s : string) : string := of_chars (take n (to_chars s)).

(** [s.split(sep, 1)[1] if sep in s], for a one-character separator. *)
Fixpoint after_first (sep : ascii) (l : chars) : option chars :=
  match l with
  | [] => None
  | c :: l' => if Ascii.eqb c sep then Some l' else after_first sep l'
  end.

Definition newline : ascii := ascii_of_nat 10.

(** ** Decimal integers: [str(n)] and [int(s)] *)

Definition str_of_Z (z : Z) : string := NilZero.string_of_int (Z.to_int z).

Definition is_digit (c : ascii) : bool := in_range 48 57 (code c).
Definition digit_val (c : ascii) : Z := Z.of_nat (code c) - 48.

(** Digits with single underscores between them, as [int] accepts. *)
Fixpoint digits_us (acc : Z) (last_digit : bool) (l : chars) : option Z :=
  match l with
  | [] => if last_digit then Some acc else None
  | c :: l' =>
      if is_digit c then digits_us (10 * acc + digit_val c) true l'
      else if Ascii.eqb c "_" && last_digit then digits_us acc false l'
      else None
  end.

Definition py_int (s : string) : option Z :=
  match to_chars (py_strip s) with
  | "-"%char :: l => Z.opp <$> digits_us 0 false l
  | "+"%char :: l => digits_us 0 false l
  | l => digits_us 0 false l
  end.

(** ** File suffixes: [Path(filename).suffix] *)

Definition rsplit_dot (l : chars) : option (chars * chars) :=
  (fix go (seen : chars) (l : chars) : option (chars * chars) :=
     match l with
     | [] => None
     | c :: l' => if Ascii.eqb c "." then Some (reverse l', seen) else go (c :: seen) l'
     end) [] (reverse l).

(** The final path component: the last non-empty, non-["."] part. *)
Fixpoint split_on (sep : ascii) (cur : chars) (l : chars) : list chars :=
  match l with
  | [] => [reverse cur]
  | c :: l' => if Ascii.eqb c sep then reverse cur :: split_on sep [] l'
               else split_on sep (c :: cur) l'
  end.

Definition path_name (s : string) : chars :=
  let parts := List.filter
    (λ p, negb (String.eqb (of_chars p) "") && negb (String.eqb (of_chars p) "."))
    (split_on "/" [] (to_chars s)) in
  default [] (last parts).

(** [PurePath.suffix]: with [i = name.rfind('.')], [name[i:]] when
    [0 < i < len(name) - 1] and [''] otherwise. *)
Definition path_suffix (s : string) : string :=
  match rsplit_dot (path_name s) with
  | Some (stem, ext) =>
      match stem, ext with
      | [], _ | _, [] => ""
      | _, _ => of_chars ("."%char :: ext)
      end
  | None => ""
  end.

(** ** Lemmas: characters and conversions *)

Lemma to_of_chars l : to_chars (of_chars l) = l.
Proof. apply String.list_ascii_of_string_of_list_ascii. Qed.

Lemma of_to_chars s : of_chars (to_chars s) = s.
Proof. apply String.string_of_list_ascii_of_string. Qed.

Create Rewrite HintDb text.
#[export] Hint Rewrite to_of_chars of_to_chars : text.

Lemma to_chars_inj s1 s2 : to_chars s1 = to_chars s2 → s1 = s2.
Proof. intros H. by rewrite <- (of_to_chars s1), <- (of_to_chars s2), H. Qed.

Lemma to_chars_app s1 s2 : to_chars (s1 +:+ s2) = to_chars s1 ++ to_chars s2.
Proof. induction s1 as [|c s1 IH]; simpl; [done|]. by rewrite IH. Qed.

#[export] Hint Rewrite to_chars_app : text.

(** Case analysis over the 256 characters. *)
Ltac all_chars c := destruct c as [[] [] [] [] [] [] [] []]; vm_compute; reflexivity.

Lemma isspace_upper c : py_isspace (py_upper_char c) = py_isspace c.
Proof. all_chars c. Qed.

Lemma upper_char_idemp c : py_upper_char (py_upper_char c) = py_upper_char c.
Proof. all_chars c. Qed.

(** ** Lemmas: stripping *)

Section Strip.
Context {A : Type} (p : A → bool).
Implicit Types (l : list A) (x : A).

Lemma drop_while_head l x : head (drop_while p l) = Some x → p x = false.
Proof.
  induction l as [|y l IH]; simpl; [done|].
  destruct (p y) eqn:Hy; [done|]. naive_solver.
Qed.

Lemma drop_while_suffix l :
  ∃ k, l = k ++ drop_while p l ∧ Forall (λ x, p x = true) k.
Proof.
  induction l as [|y l (k & Hk & Hf)]; simpl; [by exists []|].
  destruct (p y) eqn:Hy; [|by exists []].
  exists (y :: k). simpl. rewrite <- Hk. auto.
Qed.

Lemma drop_while_end_prefix l :
  ∃ k, l = drop_while_end p l ++ k ∧ Forall (λ x, p x = true) k.
Proof.
  unfold drop_while_end. destruct (drop_while_suffix (reverse l)) as (k & Hk & Hf).
  exists (reverse k). split.
  - rewrite <- reverse_app, <- Hk. by rewrite reverse_involutive.
  - by apply Forall_reverse.
Qed.

Lemma drop_while_end_last l x : last (drop_while_end p l) = Some x → p x = false.
Proof. unfold drop_while_end. rewrite last_reverse. apply drop_while_head. Qed.

Lemma drop_while_id l : (∀ x, head l = Some x → p x = false) → drop_while p l = l.
Proof. destruct l as [|y l]; simpl; [done|]. intros H. by rewrite H. Qed.

Lemma drop_while_end_id l : (∀ x, last l = Some x → p x = false) → drop_while_end p l = l.
Proof.
  intros H. unfold drop_while_end. rewrite drop_while_id.
  - apply reverse_involutive.
  - intros x Hx. apply H. by rewrite <- head_reverse.
Qed.

(** Neither end of the list satisfies [p]. *)
Definition trimmed l : Prop :=
  (∀ x, head l = Some x → p x = false) ∧ (∀ x, last l = Some x → p x = false).

Lemma strip_trimmed l : trimmed (drop_while_end p (drop_while p l)).
Proof.
  split; [|apply drop_while_end_last].
  intros x Hx. destruct (drop_while_end_prefix (drop_while p l)) as (k & Hk & _).
  apply (drop_while_head l). rewrite Hk.
  destruct (drop_while_end p (drop_while p l)); simpl in *; [done|congruence].
Qed.

Lemma trimmed_strip l : trimmed l → drop_while_end p (drop_while p l) = l.
Proof. intros [Hh Hl]. rewrite (drop_while_id l Hh). by apply drop_while_end_id. Qed.

Lemma drop_while_fmap (f : A → A) l :
  (∀ x, p (f x) = p x) → drop_while p (f <$> l) = f <$> drop_while p l.
Proof.
  intros Hf. induction l as [|y l IH]; simpl; [done|].
  rewrite Hf. by destruct (p y).
Qed.

Lemma drop_while_end_fmap (f : A → A) l :
  (∀ x, p (f x) = p x) → drop_while_end p (f <$> l) = f <$> drop_while_end p l.
Proof.
  intros Hf. unfold drop_while_end.
  rewrite <- fmap_reverse, drop_while_fmap by done. by rewrite fmap_reverse.
Qed.
End Strip.

Lemma py_upper_idemp s : py_upper (py_upper s) = py_upper s.
Proof.
  unfold py_upper. autorewrite with text. rewrite <- list_fmap_compose.
  f_equal. apply list_fmap_ext. intros _ c _. apply upper_char_idemp.
Qed.

Lemma py_strip_idemp s : py_strip (py_strip s) = py_strip s.
Proof.
  unfold py_strip, strip_by. autorewrite with text. f_equal.
  apply trimmed_strip, strip_trimmed.
Qed.

Lemma py_strip_upper s : py_strip (py_upper s) = py_upper (py_strip s).
Proof.
  unfold py_strip, strip_by, py_upper. autorewrite with text.
  rewrite drop_while_fmap by apply isspace_upper.
  by rewrite drop_while_end_fmap by apply isspace_upper.
Qed.

(** ** Lemmas: splitting on white space *)

(** A word: a non-empty run of non-space characters. *)
Definition word (w : chars) : Prop := w ≠ [] ∧ Forall (λ c, py_isspace c = false) w.

Lemma split_ws_words cur l :
  Forall (λ c, py_isspace c = false) cur → Forall word (split_ws_aux cur l).
Proof.
  revert cur. induction l as [|c l IH]; intros cur Hcur; simpl.
  - destruct cur as [|x cur]; constructor; [|done]. split.
    + rewrite reverse_cons. by destruct (reverse cur).
    + by apply Forall_reverse.
  - destruct (py_isspace c) eqn:Hc; [|apply IH; by constructor].
    destruct cur as [|x cur]; [by apply IH|]. constructor; [|by apply IH]. split.
    + rewrite reverse_cons. by destruct (reverse cur).
    + by apply Forall_reverse.
Qed.

Lemma split_ws_spaces cur sp :
  Forall (λ c, py_isspace c = true) sp → split_ws_aux cur sp = split_ws_aux cur [].
Proof.
  intros H. revert cur. induction H as [|c l Hc _ IH]; intros cur; [done|].
  simpl. rewrite Hc. destruct cur; rewrite IH; done.
Qed.

Lemma split_ws_trailing cur l sp :
  Forall (λ c, py_isspace c = true) sp → split_ws_aux cur (l ++ sp) = split_ws_aux cur l.
Proof.
  intros H. revert cur. induction l as [|c l IH]; intros cur; [by apply split_ws_spaces|].
  simpl. destruct (py_isspace c); [destruct cur|]; by rewrite ?IH.
Qed.

Lemma split_ws_leading sp l :
  Forall (λ c, py_isspace c = true) sp → split_ws_aux [] (sp ++ l) = split_ws_aux [] l.
Proof. induction 1 as [|c sp Hc _ IH]; simpl; [done|]. by rewrite Hc. Qed.

Lemma py_split_strip s : py_split (py_strip s) = py_split s.
Proof.
  unfold py_split, py_strip, strip_by. autorewrite with text. f_equal.
  destruct (drop_while_suffix py_isspace (to_chars s)) as (k1 & H1 & F1).
  destruct (drop_while_end_prefix py_isspace (drop_while py_isspace (to_chars s)))
    as (k2 & H2 & F2).
  rewrite H1 at 2. rewrite split_ws_leading by done.
  rewrite H2 at 2. by rewrite split_ws_trailing.
Qed.

Lemma split_ws_upper (cur l : chars) :
  split_ws_aux (py_upper_char <$> cur) (py_upper_char <$> l) =
  (λ w : chars, py_upper_char <$> w) <$> split_ws_aux cur l.
Proof.
  revert cur. induction l as [|c l IH]; intros cur; simpl.
  - destruct cur as [|x cur]; simpl; [done|]. by rewrite (fmap_reverse _ (x :: cur)).
  - rewrite isspace_upper. destruct (py_isspace c).
    + pose proof (IH []) as IH0. rewrite fmap_nil in IH0.
      destruct cur as [|x cur]; simpl; [exact IH0|].
      f_equal; [|exact IH0]. by rewrite (fmap_reverse _ (x :: cur)).
    + apply (IH (c :: cur)).
Qed.

Lemma py_split_upper s : py_split (py_upper s) = py_upper <$> py_split s.
Proof.
  unfold py_split, py_upper. autorewrite with text.
  pose proof (split_ws_upper [] (to_chars s)) as E. rewrite fmap_nil in E. rewrite E.
  rewrite <- !list_fmap_compose.
  apply list_fmap_ext. intros _ w _. simpl. by rewrite to_of_chars.
Qed.

Lemma split_ws_word cur w l :
  Forall (λ c, py_isspace c = false) w →
  split_ws_aux cur (w ++ l) = split_ws_aux (reverse w ++ cur) l.
Proof.
  intros H. revert cur. induction H as [|c w Hc _ IH]; intros cur; [done|].
  simpl. rewrite Hc, IH. by rewrite reverse_cons, <- (assoc_L (++)).
Qed.

Lemma split_join_words ws :
  Forall (λ w, word (to_chars w)) ws → py_split (py_join " " ws) = ws.
Proof.
  unfold py_split. induction 1 as [|w ws [Hne Hw] Hws IH]; [done|].
  assert (Hrev : reverse (reverse (to_chars w) ++ []) = to_chars w).
  { by rewrite app_nil_r, reverse_involutive. }
  assert (reverse (to_chars w) ++ [] ≠ []) as Hn.
  { rewrite app_nil_r. intros E. apply Hne.
    by rewrite <- (reverse_involutive (to_chars w)), E. }
  destruct ws as [|w2 ws]; simpl py_join.
  - rewrite <- (app_nil_r (to_chars w)), split_ws_word by done. simpl.
    destruct (reverse (to_chars w) ++ []) eqn:E; [done|]. rewrite Hrev. simpl.
    by rewrite of_to_chars.
  - rewrite !to_chars_app, split_ws_word by done. simpl in IH |- *.
    destruct (reverse (to_chars w) ++ []) eqn:E; [done|]. rewrite Hrev.
    rewrite fmap_cons, of_to_chars. f_equal. exact IH.
Qed.

(** ** [int] reads back what [str] prints *)

Section Decimals.
Local Open Scope Z_scope.

Fixpoint uint_value (acc : Z) (u : Decimal.uint) : Z :=
  match u with
  | Decimal.Nil => acc
  | Decimal.D0 u => uint_value (10 * acc) u | Decimal.D1 u => uint_value (10 * acc + 1) u
  | Decimal.D2 u => uint_value (10 * acc + 2) u | Decimal.D3 u => uint_value (10 * acc + 3) u
  | Decimal.D4 u => uint_value (10 * acc + 4) u | Decimal.D5 u => uint_value (10 * acc + 5) u
  | Decimal.D6 u => uint_value (10 * acc + 6) u | Decimal.D7 u => uint_value (10 * acc + 7) u
  | Decimal.D8 u => uint_value (10 * acc + 8) u | Decimal.D9 u => uint_value (10 * acc + 9) u
  end.
Lemma uint_value_acc u : ∀ p, uint_value (Zpos p) u = Zpos (Pos.of_uint_acc u p).
Proof.
  induction u as [|u IH|u IH|u IH|u IH|u IH|u IH|u IH|u IH|u IH|u IH]; intros p;
    cbn [uint_value Pos.of_uint_acc]; rewrite <- ?IH; f_equal; lia.
Qed.

Lemma uint_value_of_uint u : uint_value 0 u = Z.of_N (Pos.of_uint u).
Proof.
  induction u as [|u IH|u IH|u IH|u IH|u IH|u IH|u IH|u IH|u IH|u IH]; [done|exact IH|..];
    cbn [Pos.of_uint]; cbn [Z.of_N]; rewrite <- uint_value_acc; reflexivity.
Qed.

Lemma digits_of_uint u : ∀ acc b,
  digits_us acc b (to_chars (NilEmpty.string_of_uint u))
  = match u with Decimal.Nil => if b then Some acc else None | _ => Some (uint_value acc u) end.
Proof.
  induction u as [|u IH|u IH|u IH|u IH|u IH|u IH|u IH|u IH|u IH|u IH]; intros acc b; [done|..];
  cbn [NilEmpty.string_of_uint]; unfold to_chars; cbn [String.list_ascii_of_string];
  fold (to_chars (NilEmpty.string_of_uint u)); cbn [digits_us];
  (match goal with |- context [digit_val ?c] => change (is_digit c) with true; 
     let v := eval vm_compute in (digit_val c) in change (digit_val c) with v end);
  cbn iota; rewrite IH; destruct u; cbn [uint_value]; try reflexivity; rewrite ?Z.add_0_r; done.
Qed.

Lemma uint_digits u : Forall (λ c, is_digit c = true) (to_chars (NilEmpty.string_of_uint u)).
Proof.
  induction u as [|u IH|u IH|u IH|u IH|u IH|u IH|u IH|u IH|u IH|u IH]; cbn; [done|..];
    (constructor; [reflexivity|exact IH]).
Qed.

Lemma digit_not_space c : is_digit c = true → py_isspace c = false.
Proof. destruct c as [[] [] [] [] [] [] [] []]; vm_compute; congruence. Qed.

Lemma py_strip_id s :
  Forall (λ c, py_isspace c = false) (to_chars s) → py_strip s = s.
Proof.
  intros H. unfold py_strip, strip_by. rewrite Forall_forall in H.
  rewrite trimmed_strip; [apply of_to_chars|].
  split; intros x Hx; apply H; [by apply head_Some_elem_of|by apply last_Some_elem_of].
Qed.

(** [int(str(z))] *)
Lemma py_int_str_of_Z z : py_int (str_of_Z z) = Some z.
Proof.
  assert (Hv : ∀ p, to_chars (NilZero.string_of_uint (Pos.to_uint p))
                    = to_chars (NilEmpty.string_of_uint (Pos.to_uint p))
     ∧ digits_us 0 false (to_chars (NilEmpty.string_of_uint (Pos.to_uint p))) = Some (Zpos p)).
  { intros p. pose proof (DecimalPos.Unsigned.to_uint_nonnil p) as Hn.
    rewrite digits_of_uint, uint_value_of_uint, DecimalPos.Unsigned.of_to.
    destruct (Pos.to_uint p) eqn:Eu; [by destruct Hn|split; reflexivity..]. }
  unfold py_int. rewrite py_strip_id.
  - unfold str_of_Z. destruct z as [|p|p]; [reflexivity|..]; cbn [Z.to_int NilZero.string_of_int];
      destruct (Hv p) as [H1 H2].
    + rewrite H1. pose proof (uint_digits (Pos.to_uint p)) as Hd. revert Hd.
      rewrite <- H2. clear.
      destruct (to_chars (NilEmpty.string_of_uint _)) as [|c l]; [intros _; reflexivity|].
      intros [Hc _]%Forall_cons.
      clear - Hc. destruct c as [[] [] [] [] [] [] [] []]; first [reflexivity|discriminate Hc|idtac].
    + cbn [String.list_ascii_of_string]. by rewrite H1, H2.
  - assert (Hd : ∀ p, Forall (λ c, py_isspace c = false)
                        (to_chars (NilZero.string_of_uint (Pos.to_uint p)))).
    { intros p. rewrite (proj1 (Hv p)). eapply Forall_impl; [apply uint_digits|].
      apply digit_not_space. }
    unfold str_of_Z. destruct z as [|p|p]; cbn [Z.to_int NilZero.string_of_int].
    + by repeat constructor.
    + apply Hd.
    + cbn. constructor; [done|apply Hd].
Qed.
End Decimals.
