(* ===== verification/Base64.v ===== *)
(** * Base64, as [base64.b64encode] and [b64decode] do it

    Bytes are characters.  [a2b_base64] is the loop of [binascii.a2b_base64] with its
    strict mode ([validate=True]); [b64decode_b64encode] is the round trip the queue
    envelope relies on. *)

From S2P Require Import Prelude PyText.
From Stdlib Require Import Ascii ZifyNat.
Local Open Scope list_scope.
Local Open Scope nat_scope.

(** The digit of a 6-bit value, and back. *)
Definition b64_char (n : nat) : ascii :=
  if n <? 26 then ascii_of_nat (65 + n)
  else if n <? 52 then ascii_of_nat (71 + n)
  else if n <? 62 then ascii_of_nat (n - 4)
  else if n =? 62 then "+"%char else "/"%char.

Definition b64_value (c : ascii) : option nat :=
  let n := code c in
  if in_range 65 90 n then Some (n - 65)
  else if in_range 97 122 n then Some (n - 71)
  else if in_range 48 57 n then Some (n + 4)
  else if n =? 43 then Some 62
  else if n =? 47 then Some 63
  else None.

Fixpoint b64encode (l : chars) : chars :=
  match l with
  | a :: b :: c :: l' =>
      let '(x, y, z) := (code a, code b, code c) in
      b64_char (x / 4) :: b64_char (x mod 4 * 16 + y / 16) :: b64_char (y mod 16 * 4 + z / 64)
        :: b64_char (z mod 64) :: b64encode l'
  | [a; b] =>
      let '(x, y) := (code a, code b) in
      [b64_char (x / 4); b64_char (x mod 4 * 16 + y / 16); b64_char (y mod 16 * 4); "="%char]
  | [a] => [b64_char (code a / 4); b64_char (code a mod 4 * 16); "="%char; "="%char]
  | [] => []
  end.

(** [binascii.a2b_base64]: the position in the group, the bits left over, the
    padding seen; [None] is [binascii.Error]. *)
Fixpoint a2b_base64 (strict : bool) (quad left pads : nat) (padding : bool) (l : chars)
  : option chars :=
  match l with
  | [] => if quad =? 0 then Some [] else None
  | c :: l' =>
      if Ascii.eqb c "=" then
        if strict && (quad =? 0) then None
        else if (2 <=? quad) && (4 <=? quad + S pads) then
          if strict && negb (match l' with [] => true | _ => false end) then None else Some []
        else a2b_base64 strict quad left (if 2 <=? quad then S pads else pads) true l'
      else
        match b64_value c with
        | None => if strict then None else a2b_base64 strict quad left pads padding l'
        | Some v =>
            if strict && padding then None
            else
              match quad with
              | 0 => a2b_base64 strict 1 v 0 padding l'
              | 1 => r ← a2b_base64 strict 2 (v mod 16) 0 padding l';
                     Some (ascii_of_nat (left * 4 + v / 16) :: r)
              | 2 => r ← a2b_base64 strict 3 (v mod 4) 0 padding l';
                     Some (ascii_of_nat (left * 16 + v / 4) :: r)
              | _ => r ← a2b_base64 strict 0 0 0 padding l';
                     Some (ascii_of_nat (left * 64 + v) :: r)
              end
        end
  end.

(** [base64.b64decode(s, validate=strict)] *)
Definition b64decode (strict : bool) (l : chars) : option chars :=
  a2b_base64 strict 0 0 0 false l.

(** [base64.urlsafe_b64decode]: the two URL-safe digits are translated, other
    characters are skipped. *)
Definition url_char (c : ascii) : ascii :=
  if Ascii.eqb c "-" then "+"%char else if Ascii.eqb c "_" then "/"%char else c.
Definition urlsafe_b64decode (l : chars) : option chars := b64decode false (url_char <$> l).

(** ** Lemmas *)

Lemma b64_value_char n : n < 64 → b64_value (b64_char n) = Some n ∧ Ascii.eqb (b64_char n) "=" = false.
Proof.
  intros H.
  assert (Hall : forallb (λ n, bool_decide (b64_value (b64_char n) = Some n)
                               && negb (Ascii.eqb (b64_char n) "=")) (seq 0 64) = true)
    by (vm_compute; reflexivity).
  rewrite forallb_forall in Hall. specialize (Hall n).
  destruct (andb_prop _ _ (Hall (proj2 (in_seq _ _ _) (conj (Nat.le_0_l n) H)))) as [H1 H2].
  split; [by apply bool_decide_eq_true in H1|by apply Bool.negb_true_iff].
Qed.

Lemma a2b_step strict quad left pads n l :
  n < 64 →
  a2b_base64 strict quad left pads false (b64_char n :: l)
  = match quad with
    | 0 => a2b_base64 strict 1 n 0 false l
    | 1 => r ← a2b_base64 strict 2 (n mod 16) 0 false l;
           Some (ascii_of_nat (left * 4 + n / 16) :: r)
    | 2 => r ← a2b_base64 strict 3 (n mod 4) 0 false l;
           Some (ascii_of_nat (left * 16 + n / 4) :: r)
    | _ => r ← a2b_base64 strict 0 0 0 false l; Some (ascii_of_nat (left * 64 + n) :: r)
    end.
Proof.
  intros Hn. destruct (b64_value_char n Hn) as [E1 E2]. cbn [a2b_base64].
  by rewrite E2, E1, Bool.andb_false_r.
Qed.

Lemma ascii_code c n : n = code c → ascii_of_nat n = c.
Proof. intros ->. apply ascii_nat_embedding. Qed.

Lemma code_lt c : code c < 256.
Proof. apply nat_ascii_bounded. Qed.

(** Linear arithmetic with division and remainder by constants. *)
#[local] Ltac Zify.zify_post_hook ::= Z.to_euclidean_division_equations.

Lemma digits_of_bytes x y z :
  x < 256 → y < 256 → z < 256 →
  x / 4 < 64 ∧ x mod 4 * 16 + y / 16 < 64 ∧ y mod 16 * 4 + z / 64 < 64 ∧ z mod 64 < 64
  ∧ x / 4 * 4 + (x mod 4 * 16 + y / 16) / 16 = x
  ∧ (x mod 4 * 16 + y / 16) mod 16 * 16 + (y mod 16 * 4 + z / 64) / 4 = y
  ∧ (y mod 16 * 4 + z / 64) mod 4 * 64 + z mod 64 = z.
Proof. intros Hx Hy Hz. repeat split; lia. Qed.

Lemma b64decode_b64encode_aux strict n : ∀ l, length l <= n →
  a2b_base64 strict 0 0 0 false (b64encode l) = Some l.
Proof.
  induction n as [|n IH]; intros l Hl; [by destruct l; [|simpl in Hl; lia]|].
  destruct l as [|a [|b [|c l]]]; [done|..].
  - destruct (digits_of_bytes (code a) 0 0 (code_lt a)) as (H0 & H1 & _ & _ & E0 & _); [lia..|].
    rewrite Nat.Div0.div_0_l, Nat.add_0_r in *. cbn [b64encode].
    rewrite a2b_step, a2b_step by done. rewrite E0. cbn.
    by rewrite (ascii_code a), !Bool.andb_false_r.
  - destruct (digits_of_bytes (code a) (code b) 0 (code_lt a) (code_lt b))
      as (H0 & H1 & H2 & _ & E0 & E1 & _); [lia|].
    rewrite Nat.Div0.div_0_l, Nat.add_0_r in *. cbn [b64encode].
    rewrite a2b_step, a2b_step, a2b_step by done. rewrite E0, E1. cbn.
    by rewrite (ascii_code a), (ascii_code b), !Bool.andb_false_r.
  - destruct (digits_of_bytes (code a) (code b) (code c) (code_lt a) (code_lt b) (code_lt c))
      as (H0 & H1 & H2 & H3 & E0 & E1 & E2). cbn [b64encode].
    rewrite !a2b_step by done. rewrite E0, E1, E2, IH by (simpl in Hl; lia). cbn.
    by rewrite (ascii_code a), (ascii_code b), (ascii_code c).
Qed.

(** Decoding what was encoded, in both modes. *)
Lemma b64decode_b64encode strict l : b64decode strict (b64encode l) = Some l.
Proof. by apply (b64decode_b64encode_aux strict (length l)). Qed.
