(* ===== verification/Sha256.v ===== *)
(** * SHA-256, as [hashlib.sha256(...).hexdigest()] computes it

    Words are 32-bit integers in [Z], every addition reduced modulo [2^32] (FIPS
    180-4).  Bytes are characters, as in Base64. *)

From S2P Require Import Prelude PyText.
From Stdlib Require Import Ascii.
Local Open Scope string_scope.
Local Open Scope list_scope.
Local Open Scope Z_scope.

Definition w32 (x : Z) : Z := Z.land x 0xffffffff.
Definition rotr (n x : Z) : Z :=
  Z.lor (Z.shiftr x n) (Z.land (Z.shiftl x (32 - n)) 0xffffffff).
Definition not32 (x : Z) : Z := Z.lxor x 0xffffffff.

Definition big_sigma0 (x : Z) : Z := Z.lxor (rotr 2 x) (Z.lxor (rotr 13 x) (rotr 22 x)).
Definition big_sigma1 (x : Z) : Z := Z.lxor (rotr 6 x) (Z.lxor (rotr 11 x) (rotr 25 x)).
Definition small_sigma0 (x : Z) : Z := Z.lxor (rotr 7 x) (Z.lxor (rotr 18 x) (Z.shiftr x 3)).
Definition small_sigma1 (x : Z) : Z := Z.lxor (rotr 17 x) (Z.lxor (rotr 19 x) (Z.shiftr x 10)).
Definition choose (x y z : Z) : Z := Z.lxor (Z.land x y) (Z.land (not32 x) z).
Definition majority (x y z : Z) : Z :=
  Z.lxor (Z.land x y) (Z.lxor (Z.land x z) (Z.land y z)).

(** *** The constants

    The standard defines them: the first 32 bits of the fractional parts of the cube
    roots of the first 64 primes, and of the square roots of the first 8. *)

Definition is_prime (n : nat) : bool :=
  forallb (λ d, negb (Nat.eqb (Nat.modulo n d) 0)) (seq 2 (Nat.sqrt n - 1)).

Definition primes : list Z := Z.of_nat <$> List.filter is_prime (seq 2 310).

(** The cube root, one bit at a time from the highest. *)
Fixpoint cube_root (bits : nat) (x r : Z) : Z :=
  match bits with
  | O => r
  | S b => let r' := r + 2 ^ Z.of_nat b in cube_root b x (if r' ^ 3 <=? x then r' else r)
  end.

Definition round_constants : list Z :=
  Eval vm_compute in (λ p, w32 (cube_root 36 (p * 2 ^ 96) 0)) <$> primes.

Definition initial_hash : list Z :=
  Eval vm_compute in (λ p, w32 (Z.sqrt (p * 2 ^ 64))) <$> take 8 primes.

(** The bytes of a [w]-byte big-endian integer. *)
Fixpoint be_bytes (w : nat) (n : Z) : list Z :=
  match w with
  | O => []
  | S w' => Z.land (Z.shiftr n (8 * Z.of_nat w')) 255 :: be_bytes w' n
  end.

Definition be_word (l : list Z) : Z := fold_left (λ acc b, acc * 256 + b) l 0.

(** The padded message. *)
Definition padded (l : list Z) : list Z :=
  let n := Z.of_nat (length l) in
  l ++ 128 :: replicate (Z.to_nat ((55 - n) mod 64)) 0 ++ be_bytes 8 (8 * n).

Fixpoint words (fuel : nat) (l : list Z) : list Z :=
  match fuel, l with
  | S fuel', _ :: _ => be_word (take 4 l) :: words fuel' (drop 4 l)
  | _, _ => []
  end.

(** The schedule, the latest word first. *)
Fixpoint extend (n : nat) (ws : list Z) : list Z :=
  match n with
  | O => ws
  | S n' =>
      let at_ i := nth i ws 0 in
      extend n' (w32 (small_sigma1 (at_ 1%nat) + at_ 6%nat + small_sigma0 (at_ 14%nat) + at_ 15%nat)
                 :: ws)
  end.

Definition round (h : list Z) (kw : Z * Z) : list Z :=
  match h with
  | [a; b; c; d; e; f; g; x] =>
      let t1 := x + big_sigma1 e + choose e f g + kw.1 + kw.2 in
      let t2 := big_sigma0 a + majority a b c in
      [w32 (t1 + t2); a; b; c; w32 (d + t1); e; f; g]
  | _ => h
  end.

Definition compress (h : list Z) (block : list Z) : list Z :=
  let schedule := reverse (extend 48 (reverse block)) in
  zip_with (λ x y, w32 (x + y)) h (fold_left round (zip round_constants schedule) h).

Fixpoint blocks (fuel : nat) (h ws : list Z) : list Z :=
  match fuel, ws with
  | S fuel', _ :: _ => blocks fuel' (compress h (take 16 ws)) (drop 16 ws)
  | _, _ => h
  end.

Definition hex_of_nibble (n : Z) : ascii :=
  ascii_of_nat (if n <? 10 then 48 + Z.to_nat n else 87 + Z.to_nat n).

Definition hex_byte (b : Z) : chars := [hex_of_nibble (Z.shiftr b 4); hex_of_nibble (Z.land b 15)].

Definition sha256_hex (l : chars) : string :=
  let p := padded ((λ c, Z.of_nat (code c)) <$> l) in
  let ws := words (length p) p in
  of_chars (blocks (length ws) initial_hash ws ≫= λ w, be_bytes 4 w ≫= hex_byte).

(** Test vectors of the standard. *)
Example sha256_empty :
  sha256_hex [] = "e3b0c44298fc1c149afbf4c8996fb92427ae41e4649b934ca495991b7852b855".
Proof. vm_compute. reflexivity. Qed.

Example sha256_abc :
  sha256_hex (to_chars "abc") = "ba7816bf8f01cfea414140de5dae2223b00361a396177a9cb410ff61f20015ad".
Proof. vm_compute. reflexivity. Qed.

Example sha256_two_blocks :
  sha256_hex (to_chars "abcdbcdecdefdefgefghfghighijhijkijkljklmklmnlmnomnopnopq")
  = "248d6a61d20638b8e5c026930c3e6039a33ce45964ff2167f6ecedd419db06c1".
Proof. vm_compute. reflexivity. Qed.
