(* ===== verification/LoadNumbers.v ===== *)
(** * Load numbers: the identity shipments are assembled by

    [app/load_numbers.py], the CHECK constraint of [app/models/shipment.py] and
    [app/models/rate_confirmation.py], and the data migration
    [alembic/versions/202607190003_normalize_load_numbers.py]. *)

From S2P Require Import Prelude PyText.
From Stdlib Require Import Ascii.
Local Open Scope string_scope.
Local Open Scope list_scope.
Local Open Scope nat_scope.

(** [normalize_load_number]: [None] is kept, the empty number is refused. *)
Definition normalize_load_number (value : option string) : res (option string) :=
  match value with
  | None => Ok None
  | Some v =>
      let normalized := py_upper (py_strip v) in
      if str_truthy normalized then Ok (Some normalized)
      else Raise (Exn ValueError "load_number cannot be empty")
  end.

(** PostgreSQL's [[:space:]] on ASCII: the codes 9 to 13 and 32 (Python's
    [isspace] also holds of 28 to 31). *)
Definition pg_isspace (c : ascii) : bool := in_range 9 13 (code c) || Nat.eqb (code c) 32.

(** [upper(regexp_replace(load_number, '^[[:space:]]+|[[:space:]]+$', '', 'g'))] *)
Definition NORMALIZED_LOAD_NUMBER_SQL (s : string) : string :=
  py_upper (strip_by pg_isspace s).

(** [ck_shipments_load_number_normalized] and its rate-confirmation twin. *)
Definition ck_load_number_normalized (s : string) : bool :=
  String.eqb s (NORMALIZED_LOAD_NUMBER_SQL s) && str_truthy s.

Module Migration.

(** The [GROUP BY ... HAVING count( * ) > 1] of [_reject_invalid_load_numbers]. *)
Definition collisions (norm : list string) : list string :=
  sort_by String.leb
    (remove_dups (List.filter (λ n, Nat.ltb 1 (count_by (String.eqb n) norm)) norm)).

Definition reject_invalid_load_numbers (table_name : string) (rows : list string) : res unit :=
  let norm := NORMALIZED_LOAD_NUMBER_SQL <$> rows in
  let empty_count := count_by (String.eqb "") norm in
  if negb (Nat.eqb empty_count 0) then
    Raise (Exn RuntimeError ("Cannot normalize " +:+ table_name +:+ ".load_number: "
             +:+ str_of_Z (Z.of_nat empty_count) +:+ " empty value(s)"))
  else
    let duplicate_load_numbers := py_join ", " (collisions norm) in
    if str_truthy duplicate_load_numbers then
      Raise (Exn RuntimeError ("Cannot normalize " +:+ table_name
               +:+ ".load_number; collisions: " +:+ duplicate_load_numbers))
    else Ok tt.

(** [UPDATE ... SET load_number = norm WHERE load_number <> norm]. *)
Definition update_load_numbers (rows : list string) : list string :=
  (λ s, let n := NORMALIZED_LOAD_NUMBER_SQL s in if String.eqb s n then s else n) <$> rows.

Definition upgrade_table (table_name : string) (rows : list string) : res (list string) :=
  match reject_invalid_load_numbers table_name rows with
  | Ok _ => Ok (update_load_numbers rows)
  | Raise e => Raise e
  end.

(** [upgrade]: the two tables in order; an error in the second one undoes the
    first (the migration is one transaction), so only the final state is
    returned. *)
Definition upgrade (shipments rate_confirmations : list string)
  : res (list string * list string) :=
  match upgrade_table "shipments" shipments with
  | Raise e => Raise e
  | Ok shipments' =>
      match upgrade_table "rate_confirmations" rate_confirmations with
      | Raise e => Raise e
      | Ok rate_confirmations' => Ok (shipments', rate_confirmations')
      end
  end.

End Migration.

(** ** Lemmas *)

Lemma pg_isspace_isspace c : pg_isspace c = true → py_isspace c = true.
Proof. destruct c as [[] [] [] [] [] [] [] []]; vm_compute; done. Qed.

Lemma pg_isspace_upper c : pg_isspace (py_upper_char c) = pg_isspace c.
Proof. all_chars c. Qed.

Lemma NORMALIZED_fix s :
  trimmed pg_isspace (to_chars s) → py_upper s = s → NORMALIZED_LOAD_NUMBER_SQL s = s.
Proof.
  intros Ht Hu. unfold NORMALIZED_LOAD_NUMBER_SQL, strip_by.
  rewrite trimmed_strip by done. by rewrite of_to_chars.
Qed.

Lemma py_strip_trimmed s : trimmed py_isspace (to_chars (py_strip s)).
Proof. unfold py_strip, strip_by. rewrite to_of_chars. apply strip_trimmed. Qed.

Lemma trimmed_pg l : trimmed py_isspace l → trimmed pg_isspace l.
Proof.
  intros [Hh Hl]. split; intros x Hx; apply Bool.not_true_is_false;
    intros H%pg_isspace_isspace; [rewrite Hh in H|rewrite Hl in H]; done.
Qed.

Lemma normalized_trimmed v : trimmed py_isspace (to_chars (py_upper (py_strip v))).
Proof. rewrite <- py_strip_upper. apply py_strip_trimmed. Qed.

Lemma NORMALIZED_idemp s :
  NORMALIZED_LOAD_NUMBER_SQL (NORMALIZED_LOAD_NUMBER_SQL s) = NORMALIZED_LOAD_NUMBER_SQL s.
Proof.
  apply NORMALIZED_fix; [|apply py_upper_idemp].
  unfold NORMALIZED_LOAD_NUMBER_SQL, strip_by, py_upper. rewrite !to_of_chars.
  rewrite <- drop_while_end_fmap by apply pg_isspace_upper.
  rewrite <- drop_while_fmap by apply pg_isspace_upper. apply strip_trimmed.
Qed.

Lemma str_truthy_ne s : str_truthy s = true ↔ s ≠ "".
Proof. unfold str_truthy. case_streqb; naive_solver. Qed.

Lemma update_is_normalized rows :
  Migration.update_load_numbers rows = NORMALIZED_LOAD_NUMBER_SQL <$> rows.
Proof.
  apply list_fmap_ext. intros _ s _. simpl. by destruct (String.eqb_spec s (NORMALIZED_LOAD_NUMBER_SQL s)).
Qed.

Lemma count_by_eqb_NoDup (l : list string) :
  (∀ n, n ∈ l → count_by (String.eqb n) l ≤ 1) ↔ NoDup l.
Proof.
  induction l as [|x l IH]; [split; [constructor|set_solver]|].
  rewrite NoDup_cons, <- IH. split.
  - intros H. pose proof (H x (list_elem_of_here _ _)) as Hx.
    rewrite count_by_cons, String.eqb_refl in Hx.
    assert (Hz : count_by (String.eqb x) l = 0) by lia. rewrite count_by_0 in Hz.
    assert (Hnot : x ∉ l) by (intros Hin%Hz; by rewrite String.eqb_refl in Hin).
    split; [done|]. intros n Hn. pose proof (H n (list_elem_of_further _ _ _ Hn)) as Hc.
    rewrite count_by_cons in Hc. lia.
  - intros [Hnot H] n Hn. rewrite count_by_cons.
    destruct (String.eqb_spec n x) as [->|Hne].
    + replace (count_by (String.eqb x) l) with 0; [lia|]. symmetry. apply count_by_0.
      intros y Hy. destruct (String.eqb_spec x y); naive_solver.
    + apply H. set_solver.
Qed.

Lemma collisions_nil norm : Migration.collisions norm = [] ↔ NoDup norm.
Proof.
  rewrite <- count_by_eqb_NoDup. unfold Migration.collisions. split.
  - intros E n Hn. destruct (Nat.ltb 1 (count_by (String.eqb n) norm)) eqn:Hc;
      [|apply Nat.ltb_ge in Hc; lia].
    exfalso. assert (n ∈ @nil string) as Hin; [|set_solver].
    rewrite <- E. apply elem_of_sort_by, elem_of_remove_dups, list_elem_of_In.
    apply filter_In. by rewrite <- list_elem_of_In.
  - intros H. destruct (sort_by _ _) as [|n rest] eqn:E; [done|].
    assert (n ∈ n :: rest) as Hn by set_solver.
    rewrite <- E, elem_of_sort_by, elem_of_remove_dups, list_elem_of_In, filter_In,
      <- list_elem_of_In in Hn.
    destruct Hn as [Hn Hc%Nat.ltb_lt]. specialize (H n Hn). lia.
Qed.

Lemma py_join_truthy sep parts :
  "" ∉ parts → str_truthy (py_join sep parts) = negb (bool_decide (parts = [])).
Proof.
  destruct parts as [|[|c s] ps]; simpl; intros H; [done|set_solver|].
  by destruct ps.
Qed.

(** The whole outcome of migrating one table. *)
Lemma upgrade_table_cases t rows :
  (Migration.upgrade_table t rows = Ok (NORMALIZED_LOAD_NUMBER_SQL <$> rows)
   ∧ NoDup (NORMALIZED_LOAD_NUMBER_SQL <$> rows)
   ∧ "" ∉ NORMALIZED_LOAD_NUMBER_SQL <$> rows)
  ∨ (∃ m, Migration.upgrade_table t rows = Raise (Exn RuntimeError m)
     ∧ ("" ∈ NORMALIZED_LOAD_NUMBER_SQL <$> rows
        ∨ ¬ NoDup (NORMALIZED_LOAD_NUMBER_SQL <$> rows))).
Proof.
  unfold Migration.upgrade_table, Migration.reject_invalid_load_numbers.
  rewrite update_is_normalized. set (norm := NORMALIZED_LOAD_NUMBER_SQL <$> rows).
  destruct (Nat.eqb (count_by (String.eqb "") norm) 0) eqn:Hz; simpl.
  - apply Nat.eqb_eq in Hz. rewrite count_by_0 in Hz.
    assert (Hne : "" ∉ norm) by (intros H%Hz; done).
    rewrite py_join_truthy.
    + case_bool_decide as Hc; simpl.
      * left. apply collisions_nil in Hc. done.
      * right. eexists. split; [done|]. right. by rewrite <- collisions_nil.
    + unfold Migration.collisions.
      rewrite elem_of_sort_by, elem_of_remove_dups, list_elem_of_In, filter_In,
        <- list_elem_of_In. naive_solver.
  - right. eexists. split; [done|]. left.
    destruct (decide ("" ∈ norm)) as [|Hn]; [done|]. exfalso.
    apply Nat.eqb_neq in Hz. apply Hz, count_by_0. intros x Hx.
    destruct (String.eqb_spec "" x); naive_solver.
Qed.

Lemma ck_NORMALIZED s :
  NORMALIZED_LOAD_NUMBER_SQL s ≠ "" → ck_load_number_normalized (NORMALIZED_LOAD_NUMBER_SQL s) = true.
Proof.
  intros Hne. unfold ck_load_number_normalized. rewrite NORMALIZED_idemp, String.eqb_refl.
  by apply str_truthy_ne.
Qed.

Lemma NORMALIZED_map_idemp (rows : list string) :
  NORMALIZED_LOAD_NUMBER_SQL <$> (NORMALIZED_LOAD_NUMBER_SQL <$> rows)
  = NORMALIZED_LOAD_NUMBER_SQL <$> rows.
Proof. rewrite <- list_fmap_compose. apply list_fmap_ext. intros _ s _. apply NORMALIZED_idemp. Qed.

(** ** Properties *)

(** The normal form of a load number: a number that normalises satisfies the
    CHECK constraint of the tables, is the stripped upper case of the input, and
    is a fixed point; the only inputs refused are blank, with a ValueError. *)
Theorem normalize_load_number_canonical v :
  match normalize_load_number (Some v) with
  | Ok (Some s) =>
      ck_load_number_normalized s = true
      ∧ normalize_load_number (Some s) = Ok (Some s)
      ∧ s = py_upper (py_strip v)
  | Ok None => False
  | Raise e => exn_cls e = ValueError ∧ py_strip v = ""
  end.
Proof.
  simpl. destruct (str_truthy (py_upper (py_strip v))) eqn:Ht.
  - assert (Hfix : py_upper (py_strip (py_upper (py_strip v))) = py_upper (py_strip v)).
    { by rewrite py_strip_upper, py_strip_idemp, py_upper_idemp. }
    repeat split.
    + unfold ck_load_number_normalized. rewrite NORMALIZED_fix, String.eqb_refl; [done| |].
      * apply trimmed_pg, normalized_trimmed.
      * apply py_upper_idemp.
    + simpl. by rewrite Hfix, Ht.
  - split; [done|]. unfold str_truthy in Ht. apply Bool.negb_false_iff, String.eqb_eq in Ht.
    unfold py_upper in Ht. by destruct (py_strip v).
Qed.

(** The load-number migration: on success every row of both tables satisfies
    the constraint, no two rows of a table share a number, and running it again
    changes nothing; it refuses, with a RuntimeError, only tables in which a number
    is blank or two numbers have the same normal form. *)
Theorem load_number_migration_correct shipments rate_confirmations :
  match Migration.upgrade shipments rate_confirmations with
  | Ok (s', r') =>
      Forall (λ s, ck_load_number_normalized s = true) s'
      ∧ Forall (λ s, ck_load_number_normalized s = true) r'
      ∧ NoDup s' ∧ NoDup r'
      ∧ Migration.upgrade s' r' = Ok (s', r')
  | Raise e =>
      exn_cls e = RuntimeError
      ∧ ∃ rows, (rows = shipments ∨ rows = rate_confirmations)
        ∧ ("" ∈ NORMALIZED_LOAD_NUMBER_SQL <$> rows
           ∨ ¬ NoDup (NORMALIZED_LOAD_NUMBER_SQL <$> rows))
  end.
Proof.
  unfold Migration.upgrade.
  destruct (upgrade_table_cases "shipments" shipments) as [(E1 & N1 & H1)|(m & E1 & H1)];
    rewrite E1; [|naive_solver].
  destruct (upgrade_table_cases "rate_confirmations" rate_confirmations)
    as [(E2 & N2 & H2)|(m & E2 & H2)]; rewrite E2; [|naive_solver].
  assert (Hck : ∀ rows, "" ∉ NORMALIZED_LOAD_NUMBER_SQL <$> rows →
    Forall (λ s, ck_load_number_normalized s = true) (NORMALIZED_LOAD_NUMBER_SQL <$> rows)).
  { intros rows Hr. apply Forall_forall. intros s Hs. apply list_elem_of_fmap in Hs as (x & -> & Hx).
    apply ck_NORMALIZED. intros E. apply Hr. rewrite <- E. by apply list_elem_of_fmap_2. }
  repeat split; auto.
  destruct (upgrade_table_cases "shipments" (NORMALIZED_LOAD_NUMBER_SQL <$> shipments))
    as [(-> & _)|(m & _ & F)]; rewrite ?NORMALIZED_map_idemp in *; [|naive_solver].
  destruct (upgrade_table_cases "rate_confirmations" (NORMALIZED_LOAD_NUMBER_SQL <$> rate_confirmations))
    as [(-> & _)|(m & _ & F)]; rewrite ?NORMALIZED_map_idemp in *; naive_solver.
Qed.
