(* ===== verification/DateTime.v ===== *)
(** * Dates and times: the part of Python's [datetime] the source uses

    A [date] is its day number, with day 0 the 1st of January 1970; an aware
    [datetime] is its instant in microseconds since that day at 00:00 UTC; a
    [timedelta] is a number of microseconds.  [isoformat], [fromisoformat] (the
    grammar of Python 3.12) and the proleptic Gregorian calendar are below. *)

From S2P Require Import Prelude PyText.
From Stdlib Require Import Ascii DecimalString.
Local Open Scope string_scope.
Local Open Scope list_scope.
Local Open Scope Z_scope.

Abbreviation date := Z (only parsing).
Abbreviation datetime := Z (only parsing).
Abbreviation timedelta := Z (only parsing).

Definition second : Z := 1000000.
Definition hours (n : Z) : timedelta := n * 3600 * second.
Definition day_us : Z := 86400 * second.

(** ** The calendar *)

(** Day number of year [y], month [m], day [d]. *)
Definition days_of_civil (y m d : Z) : Z :=
  let y' := if m <=? 2 then y - 1 else y in
  let yoe := y' mod 400 in
  let mp := if m <=? 2 then m + 9 else m - 3 in
  let doy := (153 * mp + 2) / 5 + d - 1 in
  y' / 400 * 146097 + (yoe * 365 + yoe / 4 - yoe / 100 + doy) - 719468.

(** Year, month and day of a day number counted from 1st March 0000, inside one
    400-year era ([civil_of_doe]) and in general. *)
Definition civil_of_doe (doe : Z) : Z * Z * Z :=
  let yoe := (doe - doe / 1460 + doe / 36524 - doe / 146096) / 365 in
  let doy := doe - (365 * yoe + yoe / 4 - yoe / 100) in
  let mp := (5 * doy + 2) / 153 in
  (yoe, mp, doy - (153 * mp + 2) / 5 + 1).

Definition civil_of_days (n : Z) : Z * Z * Z :=
  let z := n + 719468 in
  let '(yoe, mp, d) := civil_of_doe (z mod 146097) in
  let m := if mp <? 10 then mp + 3 else mp - 9 in
  (yoe + z / 146097 * 400 + (if m <=? 2 then 1 else 0), m, d).

Definition is_leap (y : Z) : bool :=
  (y mod 4 =? 0) && (negb (y mod 100 =? 0) || (y mod 400 =? 0)).

Definition days_in_month (y m : Z) : Z :=
  if m =? 2 then (if is_leap y then 29 else 28)
  else if (m =? 4) || (m =? 6) || (m =? 9) || (m =? 11) then 30 else 31.

Definition valid_civil (y m d : Z) : bool :=
  (1 <=? y) && (y <=? 9999) && (1 <=? m) && (m <=? 12) && (1 <=? d) && (d <=? days_in_month y m).

(** ** Formatting *)

(** The decimal digits of [n] in a field of [w] characters, as [%0wd] prints a
    number below [10 ^ w] (the only ones printed here: [datetime] years have at
    most four digits). *)
Definition digit_char (d : Z) : ascii := ascii_of_nat (48 + Z.to_nat d).

Fixpoint pad (w : nat) (n : Z) : string :=
  match w with
  | O => ""
  | S w' => pad w' (n / 10) +:+ of_chars [digit_char (n mod 10)]
  end.

Definition date_isoformat (n : date) : string :=
  let '(y, m, d) := civil_of_days n in
  pad 4 y +:+ "-" +:+ pad 2 m +:+ "-" +:+ pad 2 d.

(** [dt.isoformat()] of an aware UTC datetime. *)
Definition datetime_isoformat (t : datetime) : string :=
  let us := t mod day_us in
  let s := us / second in
  let f := us mod second in
  date_isoformat (t / day_us) +:+ "T"
    +:+ pad 2 (s / 3600) +:+ ":" +:+ pad 2 (s / 60 mod 60) +:+ ":" +:+ pad 2 (s mod 60)
    +:+ (if f =? 0 then "" else "." +:+ pad 6 f) +:+ "+00:00".

(** ** Parsing: [datetime.fromisoformat] *)

(** A parsed datetime: its date, the microseconds of its day, its offset. *)
Record pydatetime := mk_pydatetime {
  dt_date : date;
  dt_time : Z;
  dt_tz : option Z
}.

(** The instant, a naive datetime being read in the given offset. *)
Definition instant (default_tz : Z) (p : pydatetime) : datetime :=
  dt_date p * day_us + dt_time p - default default_tz (dt_tz p).

(** Exactly [n] decimal digits. *)
Fixpoint take_digits (n : nat) (acc : Z) (l : chars) : option (Z * chars) :=
  match n, l with
  | O, _ => Some (acc, l)
  | S n', c :: l' => if is_digit c then take_digits n' (10 * acc + digit_val c) l' else None
  | S _, [] => None
  end.

Definition char_at (l : chars) (n : nat) : option ascii := nth_error l n.
Definition is_char (o : option ascii) (c : ascii) : bool :=
  match o with Some x => Ascii.eqb x c | None => false end.

(** [_find_isoformat_datetime_separator]: where the time part begins. *)
Definition count_digits (l : chars) : nat :=
  (length l - length (drop_while is_digit l))%nat.

Definition find_separator (l : chars) : option nat :=
  let len := length l in
  if Nat.eqb len 7 then Some 7%nat
  else if is_char (char_at l 4) "-" then
    if is_char (char_at l 5) "W" then
      if Nat.ltb 8 len && is_char (char_at l 8) "-" then
        if Nat.eqb len 9 then None
        else if Nat.ltb 10 len && opt_truthy is_digit (char_at l 10) then Some 8%nat
        else Some 10%nat
      else Some 8%nat
    else Some 10%nat
  else if is_char (char_at l 4) "W" then
    let idx := (7 + count_digits (drop 7 l))%nat in
    if Nat.ltb idx 9 then Some idx
    else if Nat.even idx then Some 7%nat else Some 8%nat
  else Some 8%nat.

(** [_isoweek_to_gregorian]: the Monday of week 1 is the Monday on or before
    the 4th of January. *)
Definition isoweek1_monday (y : Z) : Z :=
  let jan4 := days_of_civil y 1 4 in
  jan4 - (jan4 + 3) mod 7.

Definition weeks_in_year (y : Z) : Z := (isoweek1_monday (y + 1) - isoweek1_monday y) / 7.

Definition isoweek_to_date (y w d : Z) : option date :=
  if (1 <=? y) && (y <=? 9999) && (1 <=? w) && (w <=? weeks_in_year y) && (1 <=? d) && (d <=? 7)
  then
    let n := isoweek1_monday y + (w - 1) * 7 + (d - 1) in
    let '(y', _, _) := civil_of_days n in
    if (1 <=? y') && (y' <=? 9999) then Some n else None
  else None.

Definition skip_char (c : ascii) (b : bool) (l : chars) : option chars :=
  if b then match l with x :: l' => if Ascii.eqb x c then Some l' else None | [] => None end
  else Some l.

(** [_parse_isoformat_date]. *)
Definition parse_date_part (l : chars) : option date :=
  '(y, l) ← take_digits 4 0 l;
  let has_sep := is_char (head l) "-" in
  l ← skip_char "-" has_sep l;
  if is_char (head l) "W" then
    '(w, l) ← take_digits 2 0 (tail l);
    match l with
    | [] => isoweek_to_date y w 1
    | _ =>
        l ← skip_char "-" has_sep l;
        '(d, l) ← take_digits 1 0 l;
        match l with [] => isoweek_to_date y w d | _ => None end
    end
  else
    '(m, l) ← take_digits 2 0 l;
    l ← skip_char "-" has_sep l;
    '(d, l) ← take_digits 2 0 l;
    match l with
    | [] => if valid_civil y m d then Some (days_of_civil y m d) else None
    | _ => None
    end.

(** The fraction: the first six digits count, the others must be digits. *)
Definition parse_fraction (l : chars) : option Z :=
  let n := Nat.min 6 (length l) in
  '(f, rest) ← take_digits n 0 l;
  if (0 <? Z.of_nat n) && forallb is_digit rest then Some (f * 10 ^ (6 - Z.of_nat n)) else None.

Definition parse_opt_fraction (l : chars) : option Z :=
  match l with
  | [] => Some 0
  | c :: l' => if Ascii.eqb c "." || Ascii.eqb c "," then parse_fraction l' else None
  end.

(** [_parse_hh_mm_ss_ff]: the microseconds of [HH[:?MM[:?SS[.ffffff]]]], with
    its hours, minutes and seconds. *)
Definition parse_hms (l : chars) : option (Z * Z * Z * Z) :=
  '(h, l) ← take_digits 2 0 l;
  match l with
  | [] => Some (h, 0, 0, 0)
  | _ =>
      let has_sep := is_char (head l) ":" in
      l ← skip_char ":" has_sep l;
      '(m, l) ← take_digits 2 0 l;
      match l with
      | [] => Some (h, m, 0, 0)
      | _ =>
          l ← skip_char ":" has_sep l;
          '(s, l) ← take_digits 2 0 l;
          f ← parse_opt_fraction l;
          Some (h, m, s, f)
      end
  end.

Fixpoint split_at_char (c : ascii) (seen l : chars) : option (chars * chars) :=
  match l with
  | [] => None
  | x :: l' => if Ascii.eqb x c then Some (reverse seen, l') else split_at_char c (x :: seen) l'
  end.

Definition us_of_hms (c : Z * Z * Z * Z) : Z :=
  let '(h, m, s, f) := c in ((h * 60 + m) * 60 + s) * second + f.

Definition parse_tz (sign : Z) (l : chars) : option Z :=
  c ← parse_hms l;
  let off := us_of_hms c in
  if off <? day_us then Some (sign * off) else None.

(** [_parse_isoformat_time]: the time of day and the offset. *)
Definition parse_time_part (l : chars) : option (Z * option Z) :=
  '(t, tz) ←
    (match split_at_char "-" [] l with
     | Some (t, z) => o ← parse_tz (-1) z; Some (t, Some o)
     | None =>
         match split_at_char "+" [] l with
         | Some (t, z) => o ← parse_tz 1 z; Some (t, Some o)
         | None =>
             match split_at_char "Z" [] l with
             | Some (t, []) => Some (t, Some 0)
             | Some (t, z) => o ← parse_tz 1 z; Some (t, Some o)
             | None => Some (l, None)
             end
         end
     end);
  '(h, m, s, f) ← parse_hms t;
  if (h <? 24) && (m <? 60) && (s <? 60) then Some (us_of_hms (h, m, s, f), tz) else None.

Definition fromisoformat (s : string) : option pydatetime :=
  let l := to_chars s in
  if Nat.ltb (length l) 7 then None else
  sep ← find_separator l;
  d ← parse_date_part (take sep l);
  match drop (S sep) l with
  | [] => if Nat.leb (length l) sep then Some (mk_pydatetime d 0 None) else None
  | tl => '(t, tz) ← parse_time_part tl; Some (mk_pydatetime d t tz)
  end.

(** ** The calendar is a bijection

    One era is checked exhaustively; the other eras are translations of it. *)

(** [p] holds of [start], ..., [start + n - 1]. *)
Fixpoint forallZ_upto (n : nat) (start : Z) (p : Z → bool) : bool :=
  match n with
  | O => true
  | S n' => p start && forallZ_upto n' (start + 1) p
  end.

Lemma forallZ_upto_spec n start p :
  forallZ_upto n start p = true → ∀ z, start <= z < start + Z.of_nat n → p z = true.
Proof.
  revert start. induction n as [|n IH]; intros start H z Hz; [lia|].
  simpl in H. apply andb_prop in H as [H1 H2].
  destruct (decide (z = start)) as [->|]; [done|]. apply (IH (start + 1)); [done|lia].
Qed.

Section Doe.
Variables doe yoe : Z.
Hypothesis Hdoe : 0 <= doe < 146097.
Hypothesis Hyoe : yoe = (doe - doe / 1460 + doe / 36524 - doe / 146096) / 365.
Let doy := doe - (365 * yoe + yoe / 4 - yoe / 100).

Lemma yoe_bounds : 0 <= yoe < 400.
Proof using All. subst yoe. clear doy. Z.div_mod_to_equations. lia. Qed.

Lemma doy_bounds : 0 <= doy <= 365.
Proof using All.
  pose proof yoe_bounds. subst doy. split; Z.div_mod_to_equations; lia.
Qed.

Lemma doy_leap : doy = 365 → is_leap (yoe + 1) = true.
Proof using All.
  intros H. pose proof yoe_bounds.
  assert ((yoe + 1) mod 4 = 0) as Hd4 by (subst doy; Z.div_mod_to_equations; lia).
  assert ((yoe + 1) mod 100 ≠ 0 ∨ (yoe + 1) mod 400 = 0) as Hd
    by (subst doy; Z.div_mod_to_equations; lia).
  unfold is_leap. rewrite Hd4. simpl. destruct Hd as [Hd|Hd].
  - apply Z.eqb_neq in Hd. by rewrite Hd.
  - rewrite Hd. simpl. apply Bool.orb_true_r.
Qed.
End Doe.

(** Month and day of a day of the March-based year. *)
Definition doy_ok (doy : Z) : bool :=
  let mp := (5 * doy + 2) / 153 in
  let d := doy - (153 * mp + 2) / 5 + 1 in
  let m := if mp <? 10 then mp + 3 else mp - 9 in
  (0 <=? mp) && (mp <? 12) && (1 <=? d)
  && (d <=? (if m =? 2 then (if doy =? 365 then 29 else 28) else days_in_month 0 m)).

Lemma doy_ok_all doy : 0 <= doy <= 365 → doy_ok doy = true.
Proof.
  intros H. apply (forallZ_upto_spec 366 0); [vm_compute; reflexivity|lia].
Qed.

Lemma days_in_month_not_feb y m : m ≠ 2 → days_in_month y m = days_in_month 0 m.
Proof. intros H. unfold days_in_month. by destruct (Z.eqb_spec m 2). Qed.

Lemma civil_of_doe_ok doe yoe mp d :
  0 <= doe < 146097 → civil_of_doe doe = (yoe, mp, d) →
  let m := if mp <? 10 then mp + 3 else mp - 9 in
  0 <= yoe < 400 ∧ 0 <= mp < 12 ∧ 1 <= d
  ∧ d <= days_in_month (yoe + (if m <=? 2 then 1 else 0)) m.
Proof.
  intros H [= E1 E2 E3]. rewrite E1 in E2, E3. symmetry in E1.
  pose proof (yoe_bounds _ _ H E1) as Hy.
  pose proof (doy_bounds _ _ H E1) as Hdoy.
  pose proof (doy_leap _ _ H E1) as Hleap.
  set (doy := doe - (365 * yoe + yoe / 4 - yoe / 100)) in *.
  pose proof (doy_ok_all _ Hdoy) as Hok. unfold doy_ok in Hok. rewrite E2 in E3.
  rewrite E2, E3, !andb_true_iff in Hok. destruct Hok as [[[Hc Hd] He] Hf].
  apply Z.leb_le in Hc, He, Hf. apply Z.ltb_lt in Hd. cbv zeta. split_and!; try lia.
  destruct (Z.ltb_spec mp 10) as [Hlt|Hge].
  - rewrite (proj2 (Z.leb_gt _ _)) by lia. rewrite (proj2 (Z.eqb_neq _ _)) in Hf by lia.
    by rewrite days_in_month_not_feb by lia.
  - rewrite (proj2 (Z.leb_le _ _)) by lia.
    destruct (Z.eqb_spec (mp - 9) 2) as [E|E].
    + rewrite E. unfold days_in_month. simpl.
      destruct (Z.eqb_spec doy 365) as [E'|E'].
      * by rewrite Hleap.
      * destruct (is_leap (yoe + 1)); lia.
    + by rewrite days_in_month_not_feb by lia.
Qed.

Lemma is_leap_era y k : is_leap (y + k * 400) = is_leap y.
Proof.
  unfold is_leap.
  replace ((y + k * 400) mod 400) with (y mod 400) by (by rewrite Z.mod_add).
  replace ((y + k * 400) mod 100) with (y mod 100)
    by (replace (y + k * 400) with (y + k * 4 * 100) by lia; by rewrite Z.mod_add).
  replace ((y + k * 400) mod 4) with (y mod 4)
    by (replace (y + k * 400) with (y + k * 100 * 4) by lia; by rewrite Z.mod_add).
  done.
Qed.

Lemma days_in_month_era y k m : days_in_month (y + k * 400) m = days_in_month y m.
Proof. unfold days_in_month. by rewrite is_leap_era. Qed.

(** What [civil_of_days] returns, and that [days_of_civil] inverts it. *)
Lemma civil_of_days_spec n y m d :
  civil_of_days n = (y, m, d) →
  1 <= m <= 12 ∧ 1 <= d <= days_in_month y m ∧ days_of_civil y m d = n.
Proof.
  unfold civil_of_days. set (z := n + 719468).
  assert (Hr : 0 <= z mod 146097 < 146097) by (apply Z.mod_pos_bound; lia).
  assert (Hz : z = 146097 * (z / 146097) + z mod 146097) by (apply Z.div_mod; lia).
  destruct (civil_of_doe (z mod 146097)) as [[yoe mp] d0] eqn:E.
  destruct (civil_of_doe_ok _ _ _ _ Hr E) as (Hy & Hmp & Hd & Hf). cbv zeta in Hf.
  unfold civil_of_doe in E. injection E as E1 E2 E3.
  set (m0 := if mp <? 10 then mp + 3 else mp - 9) in *.
  intros [= <- <- <-].
  assert (Hm : 1 <= m0 <= 12) by (unfold m0; destruct (Z.ltb_spec mp 10); lia).
  split; [done|]. split.
  { replace (yoe + z / 146097 * 400 + (if m0 <=? 2 then 1 else 0))
      with (yoe + (if m0 <=? 2 then 1 else 0) + z / 146097 * 400) by lia.
    by rewrite days_in_month_era. }
  unfold days_of_civil.
  assert (Hmp' : (if m0 <=? 2 then m0 + 9 else m0 - 3) = mp).
  { unfold m0. destruct (Z.ltb_spec mp 10).
    - destruct (Z.leb_spec (mp + 3) 2); lia.
    - destruct (Z.leb_spec (mp - 9) 2); lia. }
  rewrite Hmp'.
  replace (if m0 <=? 2 then _ else _) with (yoe + z / 146097 * 400)
    by (destruct (m0 <=? 2); lia).
  rewrite Z.mod_add, Z.div_add by lia. rewrite (Z.mod_small yoe 400), (Z.div_small yoe 400) by lia.
  rewrite E1 in E2, E3. rewrite E2 in E3. unfold z in *. lia.
Qed.

(** ** Parsing back what [isoformat] prints *)

Lemma take_digits_app n acc l v r :
  take_digits n acc l = Some (v, []) → take_digits n acc (l ++ r) = Some (v, r).
Proof.
  revert acc l. induction n as [|n IH]; intros acc [|c l]; simpl; try done.
  - by intros [= ->].
  - destruct (is_digit c); [|done]. apply IH.
Qed.

Lemma digit_char_ok d : 0 <= d < 10 → is_digit (digit_char d) = true ∧ digit_val (digit_char d) = d.
Proof.
  intros H.
  assert (Hb : is_digit (digit_char d) && (digit_val (digit_char d) =? d) = true).
  { apply (forallZ_upto_spec 10 0 (λ d, is_digit (digit_char d) && (digit_val (digit_char d) =? d)));
      [vm_compute; reflexivity|lia]. }
  apply andb_prop in Hb as [H1 H2%Z.eqb_eq]. done.
Qed.

Lemma take_digits_step w acc l v c :
  take_digits w acc l = Some (v, []) → is_digit c = true →
  take_digits (S w) acc (l ++ [c]) = Some (10 * v + digit_val c, []).
Proof.
  revert acc l. induction w as [|w IH]; intros acc [|x l] H Hc; try done.
  - injection H as ->. simpl. by rewrite Hc.
  - change (take_digits (S (S w)) acc ((x :: l) ++ [c]))
      with (if is_digit x then take_digits (S w) (10 * acc + digit_val x) (l ++ [c]) else None).
    simpl in H. destruct (is_digit x); [|done]. by apply IH.
Qed.

Lemma length_pad w n : length (to_chars (pad w n)) = w.
Proof.
  revert n. induction w as [|w IH]; intros n; simpl; [done|].
  rewrite to_chars_app, length_app, IH. simpl. lia.
Qed.

Lemma pad_digits w n :
  0 <= n < 10 ^ Z.of_nat w → take_digits w 0 (to_chars (pad w n)) = Some (n, []).
Proof.
  revert n. induction w as [|w IH]; intros n H.
  - simpl in *. by replace n with 0 by lia.
  - simpl pad. rewrite to_chars_app. simpl (to_chars (of_chars _)).
    rewrite Nat2Z.inj_succ, Z.pow_succ_r in H by lia.
    destruct (digit_char_ok (n mod 10)) as [Hd Hv]; [apply Z.mod_pos_bound; lia|].
    assert (Hn : n = 10 * (n / 10) + n mod 10) by (apply Z.div_mod; lia).
    rewrite Hn at 3. rewrite <- Hv at 2. apply take_digits_step; [|exact Hd].
    apply IH. split; [apply Z.div_pos; lia|apply Z.div_lt_upper_bound; lia].
Qed.

Lemma days_in_month_le y m : days_in_month y m <= 31.
Proof. unfold days_in_month. repeat case_match; lia. Qed.

Section ParseDate.
Variables (ly lm ld : chars) (y m d : Z).
Hypothesis L4 : length ly = 4%nat.
Hypothesis D4 : take_digits 4 0 ly = Some (y, []).
Hypothesis D2m : take_digits 2 0 lm = Some (m, []).
Hypothesis D2d : take_digits 2 0 ld = Some (d, []).
Abbreviation l := (ly ++ "-"%char :: lm ++ "-"%char :: ld).

Lemma two_digits lx v :
  take_digits 2 0 lx = Some (v, []) →
  ∃ a b, lx = [a; b] ∧ is_digit a = true ∧ is_digit b = true
    ∧ 10 * (10 * 0 + digit_val a) + digit_val b = v.
Proof using.
  destruct lx as [|c5 [|c6 r]]; cbn -[Z.mul Z.add]; [done| |];
    destruct (is_digit c5) eqn:Hc5; try done.
  destruct (is_digit c6) eqn:Hc6; [|done]. intros [= Hv ->]. by exists c5, c6.
Qed.

Lemma month_head : ∃ c5 c6, lm = [c5; c6] ∧ Ascii.eqb c5 "W" = false.
Proof using D2m.
  destruct (two_digits _ _ D2m) as (c5 & c6 & -> & Hc5 & _ & _). exists c5, c6.
  split; [done|]. destruct (Ascii.eqb_spec c5 "W") as [->|]; done.
Qed.

Lemma find_separator_date : length l = 10%nat → find_separator l = Some 10%nat.
Proof using L4 D2m ld.
  intros Hlen. destruct month_head as (c5 & c6 & -> & Hc5).
  unfold find_separator. rewrite Hlen. clear -L4 Hc5.
  destruct ly as [|c1 [|c2 [|c3 [|c4 [|]]]]]; try discriminate. simpl. by rewrite Hc5.
Qed.

Lemma parse_date_part_date :
  valid_civil y m d = true → parse_date_part l = Some (days_of_civil y m d).
Proof using D4 D2m D2d.
  intros Hv. destruct month_head as (c5 & c6 & -> & Hc5).
  unfold parse_date_part. rewrite (take_digits_app _ _ _ _ _ D4). simpl. rewrite Hc5.
  destruct (two_digits _ _ D2m) as (? & ? & [= <- <-] & H5 & H6 & Hm).
  destruct (two_digits _ _ D2d) as (e1 & e2 & -> & H7 & H8 & Hd).
  cbn -[Z.mul Z.add]. rewrite H5, H6. cbn -[Z.mul Z.add].
  rewrite H7, H8. cbn -[Z.mul Z.add]. by rewrite Hm, Hd, Hv.
Qed.
End ParseDate.

(** [fromisoformat] reads back what [date.isoformat] prints. *)
Lemma fromisoformat_date_isoformat n y m d :
  civil_of_days n = (y, m, d) → 1 <= y <= 9999 →
  fromisoformat (date_isoformat n) = Some (mk_pydatetime n 0 None).
Proof.
  intros E Hy. destruct (civil_of_days_spec _ _ _ _ E) as (Hm & Hd & <-).
  pose proof (days_in_month_le y m) as Hdim.
  assert (Hv : valid_civil y m d = true).
  { unfold valid_civil. rewrite !andb_true_iff, !Z.leb_le. lia. }
  unfold fromisoformat, date_isoformat. rewrite E, !to_chars_app.
  pose proof (length_pad 4 y) as L4.
  pose proof (length_pad 2 m) as L2m. pose proof (length_pad 2 d) as L2d.
  assert (D4 : take_digits 4 0 (to_chars (pad 4 y)) = Some (y, [])) by (apply pad_digits; lia).
  assert (D2m : take_digits 2 0 (to_chars (pad 2 m)) = Some (m, [])) by (apply pad_digits; lia).
  assert (D2d : take_digits 2 0 (to_chars (pad 2 d)) = Some (d, [])) by (apply pad_digits; lia).
  revert L4 L2m L2d D4 D2m D2d.
  generalize (to_chars (pad 4 y)) as ly, (to_chars (pad 2 m)) as lm, (to_chars (pad 2 d)) as ld.
  intros ly lm ld L4 L2m L2d D4 D2m D2d. simpl (to_chars "-" ++ _).
  pose proof (find_separator_date ly lm ld m L4 D2m) as Hs.
  pose proof (parse_date_part_date ly lm ld y m d D4 D2m D2d Hv) as Hp.
  simpl in Hs, Hp |- *. set (l := ly ++ "-"%char :: lm ++ "-"%char :: ld) in *.
  assert (Hlen : length l = 10%nat) by (unfold l; rewrite !length_app; simpl; rewrite length_app; simpl; lia).
  rewrite Hlen, (Hs Hlen). simpl. rewrite take_ge, drop_ge by lia. by rewrite Hp.
Qed.
