(* ===== verification/PyFloat.v ===== *)
(** * Python floats

    A Python [float] is an IEEE 754 binary64 number: the [spec_float] of the
    Standard Library at precision 53 and maximal exponent 1024, with its
    correctly rounded operations.  Conversions: [float(n)] of an integer,
    [float(s)] of a string, [repr], and the format [:,.2f]. *)

From S2P Require Import Prelude PyText.
From Stdlib Require Import Ascii SpecFloat.
Local Open Scope string_scope.
Local Open Scope list_scope.
Local Open Scope Z_scope.

Abbreviation float := spec_float.

Definition fsub : float → float → float := SFsub 53 1024.
Definition fmul : float → float → float := SFmul 53 1024.
Definition fabs : float → float := SFabs.
Definition fleb : float → float → bool := SFleb.
Definition fltb : float → float → bool := SFltb.
Definition feqb : float → float → bool := SFeqb.

(** The float nearest to [± num / den]. *)
Definition round_ratio (s : bool) (num den : Z) : float :=
  if num =? 0 then S754_zero s
  else let '(q, e, l) := SFdiv_core_binary 53 1024 num 0 den 0 in
       binary_round_aux 53 1024 s q e l.

(** The float nearest to [± m * 10 ^ e]. *)
Definition float_of_decimal (s : bool) (m e : Z) : float :=
  if 0 <=? e then round_ratio s (m * 10 ^ e) 1 else round_ratio s m (10 ^ (- e)).

(** [float(n)]: [None] is [OverflowError]. *)
Definition float_of_int (n : Z) : option float :=
  match round_ratio (n <? 0) (Z.abs n) 1 with
  | S754_infinity _ => None
  | f => Some f
  end.

Definition fzero : float := S754_zero false.

(** [int(f)] of a finite float. *)
Definition float_trunc (f : float) : Z :=
  match f with
  | S754_finite s m e =>
      let a := if 0 <=? e then Zpos m * 2 ^ e else Zpos m / 2 ^ (- e) in
      if s then - a else a
  | _ => 0
  end.

(** [n / d] of integers; [dt.timestamp()], also [delta.total_seconds()], of
    microseconds. *)
Definition true_div (n d : Z) : float := round_ratio (n <? 0) (Z.abs n) d.
Definition timestamp (t : Z) : float := true_div t 1000000.

(** ** [float(s)] *)

Fixpoint digit_run (acc : Z) (n : nat) (l : chars) : Z * nat * chars :=
  match l with
  | c :: l' => if is_digit c then digit_run (10 * acc + digit_val c) (S n) l' else (acc, n, l)
  | [] => (acc, n, [])
  end.

(** Single underscores between digits are dropped, others make the text
    invalid. *)
Fixpoint drop_underscores (prev_digit : bool) (l : chars) : option chars :=
  match l with
  | [] => Some []
  | c :: l' =>
      if Ascii.eqb c "_" then
        if prev_digit && opt_truthy is_digit (head l') then drop_underscores false l' else None
      else cons c <$> drop_underscores (is_digit c) l'
  end.

Definition signed_exponent (l : chars) : option Z :=
  let '(neg, l) := match l with
                   | "-"%char :: l' => (true, l')
                   | "+"%char :: l' => (false, l')
                   | _ => (false, l)
                   end in
  let '(e, n, rest) := digit_run 0 0 l in
  match n, rest with
  | S _, [] => Some (if neg then - e else e)
  | _, _ => None
  end.

(** An unsigned decimal literal: digits, optional fraction, optional exponent. *)
Definition decimal_literal (s : bool) (l : chars) : option float :=
  let '(m, n1, l1) := digit_run 0 0 l in
  let '(m, n2, l2) := match l1 with
                      | "."%char :: l' => digit_run m 0 l'
                      | _ => (m, O, l1)
                      end in
  if Nat.eqb (n1 + n2) 0 then None else
  let scale := - Z.of_nat n2 in
  match l2 with
  | [] => Some (float_of_decimal s m scale)
  | c :: l' =>
      if Ascii.eqb (py_lower_char c) "e" then
        e ← signed_exponent l'; Some (float_of_decimal s m (scale + e))
      else None
  end.

Definition float_of_str (t : string) : option float :=
  l ← drop_underscores false (to_chars (py_strip t));
  let '(s, l) := match l with
                 | "-"%char :: l' => (true, l')
                 | "+"%char :: l' => (false, l')
                 | _ => (false, l)
                 end in
  let low := py_lower (of_chars l) in
  if String.eqb low "inf" || String.eqb low "infinity" then Some (S754_infinity s)
  else if String.eqb low "nan" then Some S754_nan
  else decimal_literal s l.

(** ** [repr] *)

(** The magnitude of a finite float as a ratio. *)
Definition ratio_of (m : positive) (e : Z) : Z * Z :=
  if 0 <=? e then (Zpos m * 2 ^ e, 1) else (Zpos m, 2 ^ (- e)).

(** [floor(log10(num / den))]. *)
Definition floor_log10 (num den : Z) : Z :=
  let est := (Z.log2 num - Z.log2 den) * 30103 / 100000 in
  let ge_pow k := if 0 <=? k then den * 10 ^ k <=? num else den <=? num * 10 ^ (- k) in
  let fix up n k := match n with O => k | S n' => if ge_pow (k + 1) then up n' (k + 1) else k end in
  let fix down n k := match n with O => k | S n' => if ge_pow k then k else down n' (k - 1) end in
  up 4%nat (down 4%nat est).

(** [floor(num / den * 10 ^ p)] and whether the next integer is nearer. *)
Definition scaled_floor (num den p : Z) : Z * bool :=
  let '(a, b) := if 0 <=? p then (num * 10 ^ p, den) else (num, den * 10 ^ (- p)) in
  (a / b, b <? 2 * (a mod b)).

(** The shortest decimal [digits * 10 ^ -p] that rounds to the float, the
    nearest one among those. *)
Fixpoint shortest_digits (fuel : nat) (n : Z) (f : float) (num den k : Z) : Z * Z :=
  let p := n - 1 - k in
  let '(lo, up_nearer) := scaled_floor num den p in
  let back d := feqb (float_of_decimal false d (- p)) f in
  let '(fst_try, snd_try) := if up_nearer then (lo + 1, lo) else (lo, lo + 1) in
  if back fst_try then (fst_try, p)
  else if back snd_try then (snd_try, p)
  else match fuel with
       | O => (fst_try, p)
       | S fuel' => shortest_digits fuel' (n + 1) f num den k
       end.

Definition strip_zeros (s : string) : string :=
  of_chars (drop_while_end (λ c, Ascii.eqb c "0") (to_chars s)).

Definition zeros (n : Z) : string := of_chars (replicate (Z.to_nat n) "0"%char).

Definition pad2 (n : Z) : string := if n <? 10 then "0" +:+ str_of_Z n else str_of_Z n.

(** The digits [ds] with the decimal point after [decpt] of them. *)
Definition repr_layout (ds : string) (decpt : Z) : string :=
  let n := Z.of_nat (String.length ds) in
  let l := to_chars ds in
  if (-4 <? decpt) && (decpt <=? 16) then
    if decpt <=? 0 then "0." +:+ zeros (- decpt) +:+ ds
    else if n <=? decpt then ds +:+ zeros (decpt - n) +:+ ".0"
    else of_chars (take (Z.to_nat decpt) l) +:+ "." +:+ of_chars (drop (Z.to_nat decpt) l)
  else
    of_chars (take 1 l) +:+ (if n =? 1 then "" else "." +:+ of_chars (drop 1 l)) +:+ "e"
      +:+ (if decpt - 1 <? 0 then "-" else "+") +:+ pad2 (Z.abs (decpt - 1)).

Definition float_repr (f : float) : string :=
  match f with
  | S754_nan => "nan"
  | S754_infinity s => (if s then "-" else "") +:+ "inf"
  | S754_zero s => (if s then "-" else "") +:+ "0.0"
  | S754_finite s m e =>
      let '(num, den) := ratio_of m e in
      let k := floor_log10 num den in
      let '(d, p) := shortest_digits 16 1 (S754_finite false m e) num den k in
      let ds := str_of_Z d in
      (if s then "-" else "") +:+ repr_layout (strip_zeros ds) (Z.of_nat (String.length ds) - p)
  end.

(** ** The format [:,.2f] *)

Fixpoint group3 (fuel : nat) (n : Z) : string :=
  match fuel with
  | O => str_of_Z n
  | S fuel' =>
      if n <? 1000 then str_of_Z n
      else let r := n mod 1000 in
           group3 fuel' (n / 1000) +:+ ","
             +:+ (if r <? 10 then "00" else if r <? 100 then "0" else "") +:+ str_of_Z r
  end.

(** [num / den] to the nearest integer, ties to even. *)
Definition round_half_even (num den : Z) : Z :=
  let q := num / den in
  let r := 2 * (num mod den) in
  if (den <? r) || ((r =? den) && Z.odd q) then q + 1 else q.

(** A binary64 number has at most 309 integer digits: 110 groups suffice. *)
Definition format_2f (f : float) : string :=
  match f with
  | S754_nan => "nan"
  | S754_infinity s => (if s then "-" else "") +:+ "inf"
  | S754_zero s => (if s then "-" else "") +:+ "0.00"
  | S754_finite s m e =>
      let '(num, den) := ratio_of m e in
      let cents := round_half_even (num * 100) den in
      (if s then "-" else "") +:+ group3 110 (cents / 100) +:+ "." +:+ pad2 (cents mod 100)
  end.

(** ** Products and differences *)

Lemma iter_pos_ind {A} (f : A → A) (P : A → Prop) :
  (∀ x, P x → P (f x)) → ∀ n x, P x → P (iter_pos f n x).
Proof. intros Hf n. induction n as [n IH|n IH|]; intros x Hx; simpl; auto. Qed.

Lemma shr_1_nonneg mrs : 0 <= shr_m mrs → 0 <= shr_m (shr_1 mrs).
Proof. destruct mrs as [[|[]|] r s]; simpl; lia. Qed.

Lemma shr_record_m m l : shr_m (shr_record_of_loc m l) = m.
Proof. by destruct l as [|[]]. Qed.

Lemma shr_fexp_nonneg prec emax m e l : 0 <= m → 0 <= shr_m (shr_fexp prec emax m e l).1.
Proof.
  intros Hm. unfold shr_fexp, shr.
  destruct (fexp prec emax (Zdigits2 m + e) - e) as [|p|p]; simpl; rewrite ?shr_record_m; try done.
  apply iter_pos_ind; [exact shr_1_nonneg|]. by rewrite shr_record_m.
Qed.

Lemma round_nearest_even_nonneg m l : 0 <= m → 0 <= round_nearest_even m l.
Proof. intros H. unfold round_nearest_even. destruct l as [|[]]; try lia. destruct (Z.even m); lia. Qed.

(** Rounding a non-negative mantissa keeps the sign and never gives a NaN. *)
Lemma binary_round_aux_sign prec emax m e l :
  0 <= m →
  match binary_round_aux prec emax false m e l with
  | S754_zero false | S754_finite false _ _ | S754_infinity false => True
  | _ => False
  end.
Proof.
  intros Hm. unfold binary_round_aux.
  destruct (shr_fexp prec emax m e l) as [mrs e1] eqn:E1.
  destruct (shr_fexp prec emax (round_nearest_even (shr_m mrs) (loc_of_shr_record mrs)) e1 loc_Exact)
    as [mrs2 e2] eqn:E2.
  assert (H1 : 0 <= shr_m mrs).
  { pose proof (shr_fexp_nonneg prec emax m e l Hm) as H. by rewrite E1 in H. }
  assert (H2 : 0 <= shr_m mrs2).
  { pose proof (shr_fexp_nonneg prec emax _ e1 loc_Exact
      (round_nearest_even_nonneg _ (loc_of_shr_record mrs) H1)) as H. by rewrite E2 in H. }
  destruct (shr_m mrs2) as [|p|p]; [done| |lia]. by destruct (_ <=? _).
Qed.

Definition is_finite (f : float) : bool :=
  match f with S754_zero _ | S754_finite _ _ _ => true | _ => false end.

(** [x - x] is a zero. *)
Lemma fsub_self f : is_finite f = true → ∃ s, fabs (fsub f f) = S754_zero s.
Proof.
  destruct f as [s| | |s m e]; try done; intros _.
  - exists false. by destruct s.
  - exists false. unfold fsub, SFsub. rewrite Z.min_id.
    destruct (shl_align m e e) as [m' e'] eqn:E. cbn [fst].
    rewrite Z.sub_diag. reflexivity.
Qed.

(** A product of a magnitude and a positive constant is at least zero. *)
Lemma fleb_zero_fmul f s m e : is_finite f = true →
  fleb (S754_zero s) (fmul (fabs f) (S754_finite false m e)) = true.
Proof.
  destruct f as [s'| | |s' m' e']; try done; intros _.
  unfold fmul, fabs, SFabs, SFmul. cbn [xorb].
  pose proof (binary_round_aux_sign 53 1024 (Zpos (m' * m)) (e' + e) loc_Exact) as H.
  unfold fleb, SFleb. destruct (binary_round_aux _ _ _ _ _ _) as [[]|[]| |[] ? ?]; try done;
    destruct H; lia.
Qed.

(** ** Order *)

Definition is_nan (f : float) : bool := match f with S754_nan => true | _ => false end.

Lemma fleb_total a b : is_nan a = false → is_nan b = false → fleb a b = false → fleb b a = true.
Proof.
  unfold fleb, SFleb, SFcompare.
  destruct a as [sa|sa| |sa ma ea], b as [sb|sb| |sb mb eb]; try done; intros _ _;
    destruct sa, sb; try done; cbn.
  all: pose proof (Pos.compare_antisym ma mb) as Hp; unfold Pos.compare in Hp; rewrite Hp.
  all: rewrite (Z.compare_antisym ea eb); by destruct (ea ?= eb), (Pos.compare_cont Eq ma mb).
Qed.

(** A quotient of integers is a number. *)
Lemma true_div_number n d : 0 <= n → 0 < d → is_nan (true_div n d) = false.
Proof.
  intros Hn Hd. unfold true_div, round_ratio. rewrite Z.abs_eq by done.
  replace (n <? 0) with false by lia. destruct (Z.eqb_spec n 0) as [|Hne]; [done|].
  destruct (SFdiv_core_binary 53 1024 n 0 d 0) as [[q e] l] eqn:E.
  assert (Hq : 0 <= q).
  { unfold SFdiv_core_binary in E.
    set (m := match Z.sub (Z.sub 0 0) _ with Z0 => _ | Zpos _ => _ | Zneg _ => _ end) in E.
    assert (Hm : 0 <= m).
    { unfold m. destruct (Z.sub (Z.sub 0 0) _); [done|by apply Z.shiftl_nonneg|done]. }
    destruct (Z.div_eucl m d) as [q' r] eqn:Ed. injection E as <- _ _.
    change q' with (q', r).1. rewrite <- Ed. change (0 <= m / d). by apply Z.div_pos. }
  pose proof (binary_round_aux_sign 53 1024 q e l Hq) as H.
  by destruct (binary_round_aux 53 1024 false q e l) as [[]|[]| |[] ? ?].
Qed.
