(* ===== verification/Json.v ===== *)
(** * JSON values and Python's [json] module

    A [dict] is the list of its items in insertion order.  [json_loads] is the
    parser of [json.loads] with its error messages, [json_dumps] the printer of
    [json.dumps] with its default separators and [ensure_ascii]; both agree
    with Python's on ASCII text.  [parse_dumps_str_dict] is the round trip of
    the string-to-string objects stored as dead-letter evidence. *)

From S2P Require Import Prelude PyText PyFloat.
From Stdlib Require Import Ascii SpecFloat.
Local Open Scope string_scope.
Local Open Scope list_scope.
Local Open Scope nat_scope.

#[warnings="-register-all"]
Inductive json :=
  | JNull
  | JBool (b : bool)
  | JInt (z : Z)
  | JFloat (f : float)
  | JStr (s : string)
  | JArr (l : list json)
  | JObj (kvs : list (string * json)).

(** ** Dictionaries *)

Fixpoint dict_get {V} (k : string) (d : list (string * V)) : option V :=
  match d with
  | [] => None
  | (k', v) :: d' => if String.eqb k k' then Some v else dict_get k d'
  end.

(** [d[k] = v]: an existing key keeps its place. *)
Fixpoint dict_set {V} (k : string) (v : V) (d : list (string * V)) : list (string * V) :=
  match d with
  | [] => [(k, v)]
  | (k', v') :: d' => if String.eqb k k' then (k', v) :: d' else (k', v') :: dict_set k v d'
  end.

(** [d.update(e)], also [{**d, **e}]. *)
Definition dict_update {V} (d e : list (string * V)) : list (string * V) :=
  fold_left (λ acc kv, dict_set kv.1 kv.2 acc) e d.

(** [j.get(k)] when [j] is an object, [None] otherwise. *)
Definition jget (k : string) (j : json) : option json :=
  match j with JObj d => dict_get k d | _ => None end.

(** [bool(j)]. *)
Definition jtruthy (j : json) : bool :=
  match j with
  | JNull => false
  | JBool b => b
  | JInt z => negb (Z.eqb z 0)
  | JFloat (S754_zero _) => false
  | JFloat _ => true
  | JStr s => str_truthy s
  | JArr l => match l with [] => false | _ => true end
  | JObj d => match d with [] => false | _ => true end
  end.

(** [x or y] where [x] is a missing key or a value. *)
Definition jor (x y : option json) : option json :=
  if opt_truthy jtruthy x then x else y.

Definition jstr (o : option string) : json := match o with Some s => JStr s | None => JNull end.

Definition as_str (o : option json) : option string :=
  match o with Some (JStr s) => Some s | _ => None end.

Definition jstrs (l : list string) : json := JArr (JStr <$> l).

(** ** Printing *)

Definition hex_digit (n : nat) : ascii :=
  if Nat.ltb n 10 then ascii_of_nat (48 + n) else ascii_of_nat (87 + n).

Definition escape_u (n : nat) : chars :=
  ["\"%char; "u"%char; "0"%char; "0"%char; hex_digit (n / 16); hex_digit (n mod 16)].

Definition dquote : ascii := ascii_of_nat 34.
Definition backslash : ascii := ascii_of_nat 92.

(** [py_encode_basestring_ascii], one character. *)
Definition escape_char (c : ascii) : chars :=
  let n := code c in
  if Nat.eqb n 34 then [backslash; dquote]
  else if Nat.eqb n 92 then [backslash; backslash]
  else if Nat.eqb n 10 then [backslash; "n"%char]
  else if Nat.eqb n 13 then [backslash; "r"%char]
  else if Nat.eqb n 9 then [backslash; "t"%char]
  else if Nat.eqb n 12 then [backslash; "f"%char]
  else if Nat.eqb n 8 then [backslash; "b"%char]
  else if in_range 32 126 n then [c]
  else escape_u n.

Definition dumps_str_chars (l : chars) : chars :=
  dquote :: (l ≫= escape_char) ++ [dquote].

Definition dumps_str (s : string) : string := of_chars (dumps_str_chars (to_chars s)).

Definition key_leb {V} (a b : string * V) : bool := String.leb a.1 b.1.

Fixpoint json_dumps (sort_keys : bool) (j : json) : string :=
  match j with
  | JNull => "null"
  | JBool b => if b then "true" else "false"
  | JInt z => str_of_Z z
  | JFloat S754_nan => "NaN"
  | JFloat (S754_infinity s) => if s then "-Infinity" else "Infinity"
  | JFloat f => float_repr f
  | JStr s => dumps_str s
  | JArr l => "[" +:+ py_join ", " ((fix go l := match l with
                                              | [] => []
                                              | x :: l' => json_dumps sort_keys x :: go l'
                                              end) l) +:+ "]"
  | JObj d =>
      let items := (fix go d := match d with
                                | [] => []
                                | (k, v) :: d' => (k, json_dumps sort_keys v) :: go d'
                                end) d in
      let items := if sort_keys then sort_by key_leb items else items in
      "{" +:+ py_join ", " ((λ kv : string * string, dumps_str kv.1 +:+ ": " +:+ kv.2) <$> items) +:+ "}"
  end.

(** ** [repr] and [str] *)

(** [repr] of a string (ASCII): single quotes unless only double quotes avoid
    escapes. *)
Definition repr_char (q c : ascii) : chars :=
  let n := code c in
  if Ascii.eqb c q || Nat.eqb n 92 then [backslash; c]
  else if Nat.eqb n 10 then [backslash; "n"%char]
  else if Nat.eqb n 13 then [backslash; "r"%char]
  else if Nat.eqb n 9 then [backslash; "t"%char]
  else if in_range 32 126 n then [c]
  else [backslash; "x"%char; hex_digit (n / 16); hex_digit (n mod 16)].

Definition squote : ascii := ascii_of_nat 39.

Definition str_repr (s : string) : string :=
  let l := to_chars s in
  let q := if existsb (Ascii.eqb squote) l && negb (existsb (Ascii.eqb dquote) l)
           then dquote else squote in
  of_chars (q :: (l ≫= repr_char q) ++ [q]).

Fixpoint py_repr (j : json) : string :=
  match j with
  | JNull => "None"
  | JBool b => if b then "True" else "False"
  | JInt z => str_of_Z z
  | JFloat f => float_repr f
  | JStr s => str_repr s
  | JArr l => "[" +:+ py_join ", " ((fix go l := match l with
                                              | [] => []
                                              | x :: l' => py_repr x :: go l'
                                              end) l) +:+ "]"
  | JObj d => "{" +:+ py_join ", " ((fix go d := match d with
                                | [] => []
                                | (k, v) :: d' => (str_repr k +:+ ": " +:+ py_repr v) :: go d'
                                end) d) +:+ "}"
  end.

(** [str(v)]. *)
Definition py_str (j : json) : string := match j with JStr s => s | _ => py_repr j end.

(** ** Parsing *)

Inductive jres (A : Type) :=
  | JOk (a : A)
  | JErr (msg : string).
Arguments JOk {A} a.
Arguments JErr {A} msg.

#[export] Instance jres_bind : MBind jres := λ A B f m,
  match m with JOk a => f a | JErr e => JErr e end.

Definition is_json_ws (c : ascii) : bool :=
  let n := code c in Nat.eqb n 32 || Nat.eqb n 9 || Nat.eqb n 10 || Nat.eqb n 13.

Definition skip_ws (l : chars) : chars := drop_while is_json_ws l.

Definition hex_val (c : ascii) : option Z :=
  let n := code c in
  if in_range 48 57 n then Some (Z.of_nat n - 48)%Z
  else if in_range 97 102 n then Some (Z.of_nat n - 87)%Z
  else if in_range 65 70 n then Some (Z.of_nat n - 55)%Z
  else None.

Definition hex4 (l : chars) : option (Z * chars) :=
  match l with
  | a :: b :: c :: d :: l' =>
      a ← hex_val a; b ← hex_val b; c ← hex_val c; d ← hex_val d;
      Some ((((a * 16 + b) * 16 + c) * 16 + d)%Z, l')
  | _ => None
  end.

(** The UTF-8 bytes of a code point. *)
Definition utf8 (n : Z) : chars :=
  (λ b : Z, ascii_of_nat (Z.to_nat b)) <$>
  (if n <? 128 then [n]
   else if n <? 2048 then [192 + n / 64; 128 + n mod 64]
   else if n <? 65536 then [224 + n / 4096; 128 + n / 64 mod 64; 128 + n mod 64]
   else [240 + n / 262144; 128 + n / 4096 mod 64; 128 + n / 64 mod 64; 128 + n mod 64])%Z.

Definition is_high_surrogate (n : Z) : bool := (55296 <=? n)%Z && (n <=? 56319)%Z.
Definition is_low_surrogate (n : Z) : bool := (56320 <=? n)%Z && (n <=? 57343)%Z.

(** The code point after [\u], a surrogate pair being joined. *)
Definition unescape_u (l : chars) : jres (chars * chars) :=
  match hex4 l with
  | None => JErr "Invalid \uXXXX escape"
  | Some (hi, l1) =>
      match l1 with
      | b :: u :: l2 =>
          match hex4 l2 with
          | Some (lo, l3) =>
              if is_high_surrogate hi && Ascii.eqb b backslash && Ascii.eqb u "u"
                 && is_low_surrogate lo
              then JOk (utf8 (65536 + (hi - 55296) * 1024 + (lo - 56320))%Z, l3)
              else JOk (utf8 hi, l1)
          | None => JOk (utf8 hi, l1)
          end
      | _ => JOk (utf8 hi, l1)
      end
  end.

Definition unescape (c : ascii) : option ascii :=
  let n := code c in
  if Nat.eqb n 34 || Nat.eqb n 92 || Nat.eqb n 47 then Some c
  else if Nat.eqb n 98 then Some (ascii_of_nat 8)
  else if Nat.eqb n 102 then Some (ascii_of_nat 12)
  else if Nat.eqb n 110 then Some (ascii_of_nat 10)
  else if Nat.eqb n 114 then Some (ascii_of_nat 13)
  else if Nat.eqb n 116 then Some (ascii_of_nat 9)
  else None.

(** [py_scanstring], after the opening quote; [acc] is the text read, reversed. *)
Fixpoint scan_string (fuel : nat) (acc l : chars) : jres (string * chars) :=
  match fuel with
  | O => JErr "Unterminated string starting at"
  | S fuel' =>
      match l with
      | [] => JErr "Unterminated string starting at"
      | c :: l' =>
          if Ascii.eqb c dquote then JOk (of_chars (reverse acc), l')
          else if Ascii.eqb c backslash then
            match l' with
            | [] => JErr "Unterminated string starting at"
            | e :: l'' =>
                if Ascii.eqb e "u" then
                  '(cs, rest) ← unescape_u l''; scan_string fuel' (reverse cs ++ acc) rest
                else match unescape e with
                     | Some c' => scan_string fuel' (c' :: acc) l''
                     | None => JErr "Invalid \escape: "
                     end
            end
          else if Nat.ltb (code c) 32 then JErr "Invalid control character at"
          else scan_string fuel' (c :: acc) l'
      end
  end.

(** [-?(0|[1-9][0-9]* )(\.[0-9]+)?([eE][-+]?[0-9]+)?] *)
Definition scan_number (l : chars) : option (json * chars) :=
  let '(neg, l) := match l with "-"%char :: l' => (true, l') | _ => (false, l) end in
  let '(m, n, l1) := match l with
                     | "0"%char :: l' => (0%Z, 1, l')
                     | _ => digit_run 0 0 l
                     end in
  if Nat.eqb n 0 then None else
  let '(m2, nf, l2) := match l1 with
                       | "."%char :: l' =>
                           match digit_run m 0 l' with
                           | (m', S k, l'') => (m', S k, l'')
                           | _ => (m, 0, l1)
                           end
                       | _ => (m, 0, l1)
                       end in
  let '(e, has_e, l3) :=
    match l2 with
    | c :: l' =>
        if Ascii.eqb (py_lower_char c) "e" then
          let '(sg, l'') := match l' with
                            | "-"%char :: r => ((-1)%Z, r)
                            | "+"%char :: r => (1%Z, r)
                            | _ => (1%Z, l')
                            end in
          match digit_run 0 0 l'' with
          | (e, S _, r) => ((sg * e)%Z, true, r)
          | _ => (0%Z, false, l2)
          end
        else (0%Z, false, l2)
    | [] => (0%Z, false, l2)
    end in
  if Nat.eqb nf 0 && negb has_e then Some (JInt (if neg then - m else m)%Z, l3)
  else Some (JFloat (float_of_decimal neg m2 (e - Z.of_nat nf)), l3).

Fixpoint strip_prefix (p l : chars) : option chars :=
  match p, l with
  | [], _ => Some l
  | c :: p', x :: l' => if Ascii.eqb c x then strip_prefix p' l' else None
  | _, _ => None
  end.

Definition keywords : list (string * json) :=
  [("null", JNull); ("true", JBool true); ("false", JBool false); ("NaN", JFloat S754_nan);
   ("Infinity", JFloat (S754_infinity false)); ("-Infinity", JFloat (S754_infinity true))].

Fixpoint scan_keyword (ks : list (string * json)) (l : chars) : option (json * chars) :=
  match ks with
  | [] => None
  | (k, j) :: ks' =>
      match strip_prefix (to_chars k) l with
      | Some l' => Some (j, l')
      | None => scan_keyword ks' l
      end
  end.

Definition is_code (n : nat) (c : ascii) : bool := Nat.eqb (code c) n.

(** The scanner: [parse_value] is [scan_once], [parse_members] the loop of
    [JSONObject] before a key, [parse_items] that of [JSONArray] before a value. *)
Fixpoint parse_value (fuel : nat) (l : chars) : jres (json * chars) :=
  match fuel with
  | O => JErr "Expecting value"
  | S fuel' =>
      match l with
      | [] => JErr "Expecting value"
      | c :: l' =>
          if is_code 34 c then '(s, r) ← scan_string (S (length l')) [] l'; JOk (JStr s, r)
          else if is_code 123 c then
            match skip_ws l' with
            | c2 :: r => if is_code 125 c2 then JOk (JObj [], r)
                         else '(d, r) ← parse_members fuel' [] (c2 :: r); JOk (JObj d, r)
            | [] => JErr "Expecting property name enclosed in double quotes"
            end
          else if is_code 91 c then
            match skip_ws l' with
            | c2 :: r => if is_code 93 c2 then JOk (JArr [], r)
                         else '(xs, r) ← parse_items fuel' [] (c2 :: r); JOk (JArr xs, r)
            | [] => JErr "Expecting value"
            end
          else match scan_number l with
               | Some (j, r) => JOk (j, r)
               | None => match scan_keyword keywords l with
                         | Some (j, r) => JOk (j, r)
                         | None => JErr "Expecting value"
                         end
               end
      end
  end
with parse_members (fuel : nat) (acc : list (string * json)) (l : chars)
  : jres (list (string * json) * chars) :=
  match fuel with
  | O => JErr "Expecting value"
  | S fuel' =>
      match l with
      | c :: l' =>
          if is_code 34 c then
            '(k, r) ← scan_string (S (length l')) [] l';
            match skip_ws r with
            | c2 :: r =>
                if is_code 58 c2 then
                  '(v, r) ← parse_value fuel' (skip_ws r);
                  let acc := dict_set k v acc in
                  match skip_ws r with
                  | c3 :: r =>
                      if is_code 125 c3 then JOk (acc, r)
                      else if is_code 44 c3 then parse_members fuel' acc (skip_ws r)
                      else JErr "Expecting ',' delimiter"
                  | [] => JErr "Expecting ',' delimiter"
                  end
                else JErr "Expecting ':' delimiter"
            | [] => JErr "Expecting ':' delimiter"
            end
          else JErr "Expecting property name enclosed in double quotes"
      | [] => JErr "Expecting property name enclosed in double quotes"
      end
  end
with parse_items (fuel : nat) (acc : list json) (l : chars) : jres (list json * chars) :=
  match fuel with
  | O => JErr "Expecting value"
  | S fuel' =>
      '(v, r) ← parse_value fuel' l;
      let acc := acc ++ [v] in
      match skip_ws r with
      | c3 :: r =>
          if is_code 93 c3 then JOk (acc, r)
          else if is_code 44 c3 then parse_items fuel' acc (skip_ws r)
          else JErr "Expecting ',' delimiter"
      | [] => JErr "Expecting ',' delimiter"
      end
  end.

(** [json.loads].  Every call of the scanner consumes a character, so the
    length of the text (twice, for the loops) is enough fuel. *)
Definition json_loads (s : string) : jres json :=
  let l := skip_ws (to_chars s) in
  '(j, r) ← parse_value (S (2 * length l)) l;
  match skip_ws r with [] => JOk j | _ => JErr "Extra data" end.

(** ** The round trip of string-to-string objects *)

(** Text below code 128, on which printer and parser agree with Python's. *)
Definition ascii_text (s : string) : Prop := Forall (λ c, code c < 128) (to_chars s).

Lemma unescape_u_low l n l1 :
  hex4 l = Some (n, l1) → is_high_surrogate n = false → unescape_u l = JOk (utf8 n, l1).
Proof.
  unfold unescape_u. intros -> ->. destruct l1 as [|b [|u l2]]; [done..|].
  by destruct (hex4 l2) as [[lo l3]|].
Qed.

Lemma scan_escape_char c fuel acc k :
  code c < 128 →
  scan_string (S fuel) acc (escape_char c ++ k) = scan_string fuel (c :: acc) k.
Proof.
  destruct c as [[] [] [] [] [] [] [] []]; intros H;
    first [ reflexivity
          | apply Nat.ltb_lt in H; vm_compute in H; discriminate H
          | match goal with
            | |- scan_string _ _ (?e ++ k) = _ => let v := eval vm_compute in e in change e with v
            end;
            cbn -[unescape_u]; erewrite unescape_u_low by reflexivity; reflexivity ].
Qed.

Lemma scan_string_dumps l : ∀ fuel acc k,
  Forall (λ c, code c < 128) l → length l < fuel →
  scan_string fuel acc ((l ≫= escape_char) ++ dquote :: k)
  = JOk (of_chars (reverse acc ++ l), k).
Proof.
  induction l as [|c l IH]; intros fuel acc k Hl Hf; destruct fuel as [|fuel]; simpl in Hf; try lia.
  - simpl. by rewrite app_nil_r.
  - apply Forall_cons_iff in Hl as [Hc Hl].
    change ((c :: l) ≫= escape_char) with (escape_char c ++ (l ≫= escape_char)).
    rewrite <- (assoc_L (++)), scan_escape_char by done.
    rewrite IH by (done || lia). do 3 f_equal. by rewrite reverse_cons, <- (assoc_L (++)).
Qed.

Lemma escape_char_length c : 1 ≤ length (escape_char c).
Proof. unfold escape_char. repeat case_match; simpl; lia. Qed.

Lemma escape_length l : length l ≤ length (l ≫= escape_char).
Proof.
  induction l as [|c l IH]; [done|]. rewrite bind_cons, length_app.
  cbn [length]. pose proof (escape_char_length c). lia.
Qed.

(** The scanner on a printed string, called at its opening quote. *)
Lemma scan_dumped s k :
  ascii_text s →
  ∃ l', dumps_str_chars (to_chars s) ++ k = dquote :: l'
        ∧ scan_string (S (length l')) [] l' = JOk (s, k).
Proof.
  intros Hs. unfold dumps_str_chars.
  exists ((to_chars s ≫= escape_char) ++ dquote :: k). split.
  - simpl. by rewrite <- (assoc_L (++)).
  - rewrite scan_string_dumps; [|done|].
    + simpl. by rewrite of_to_chars.
    + rewrite length_app. pose proof (escape_length (to_chars s)). lia.
Qed.

Lemma dict_get_set {V} k k' (v : V) d :
  dict_get k (dict_set k' v d) = if String.eqb k k' then Some v else dict_get k d.
Proof.
  induction d as [|[k2 v2] d IH]; cbn; [by destruct (String.eqb k k')|].
  destruct (String.eqb_spec k' k2) as [->|Hn]; cbn.
  - by destruct (String.eqb k k2).
  - destruct (String.eqb_spec k k2) as [->|]; [|exact IH].
    destruct (String.eqb_spec k2 k') as [->|]; [done|done].
Qed.

Lemma dict_get_app {V} k (d e : list (string * V)) :
  dict_get k (d ++ e) = match dict_get k d with Some v => Some v | None => dict_get k e end.
Proof. induction d as [|[k' v] d IH]; cbn; [done|]. by destruct (String.eqb k k'). Qed.

(** A key of an update, and a key that the update does not have. *)
Lemma dict_get_update_fresh {V} k (d e : list (string * V)) :
  k ∉ e.*1 → dict_get k (dict_update d e) = dict_get k d.
Proof.
  unfold dict_update. revert d. induction e as [|[k' v] e IH]; intros d Hk; [done|].
  cbn in *. apply not_elem_of_cons in Hk as [H1 H2]. rewrite IH by done.
  by rewrite dict_get_set, (proj2 (String.eqb_neq _ _) H1).
Qed.

Lemma dict_get_update {V} k v (d e : list (string * V)) :
  NoDup e.*1 → (k, v) ∈ e → dict_get k (dict_update d e) = Some v.
Proof.
  unfold dict_update. revert d. induction e as [|[k' v'] e IH]; intros d Hnd Hk.
  { by apply elem_of_nil in Hk. }
  cbn in *. apply NoDup_cons in Hnd as [Hn Hnd]. apply elem_of_cons in Hk as [[= <- <-]|Hk].
  - fold (dict_update (dict_set k v d) e). rewrite dict_get_update_fresh by done.
    by rewrite dict_get_set, String.eqb_refl.
  - by apply IH.
Qed.

Lemma dict_get_In {V} k (v : V) d : NoDup d.*1 → dict_get k d = Some v ↔ (k, v) ∈ d.
Proof.
  induction d as [|[k' v'] d IH]; cbn; intros Hnd; [set_solver|].
  apply NoDup_cons in Hnd as [Hn Hnd]. rewrite elem_of_cons.
  destruct (String.eqb_spec k k') as [->|Hne].
  - split; [intros [= ->]; by left|]. intros [[= ->]|Hin]; [done|].
    exfalso. apply Hn. by apply (list_elem_of_fmap_2' fst _ (k', v)).
  - rewrite IH by done. naive_solver.
Qed.

Lemma dict_get_perm {V} k (d e : list (string * V)) :
  NoDup d.*1 → d ≡ₚ e → dict_get k d = dict_get k e.
Proof.
  intros Hnd Hp. assert (Hnd' : NoDup e.*1) by (by rewrite <- Hp).
  apply option_eq. intros v. by rewrite !dict_get_In, Hp.
Qed.

Lemma dict_set_fresh {V} k (v : V) d : k ∉ d.*1 → dict_set k v d = d ++ [(k, v)].
Proof.
  induction d as [|[k' v'] d IH]; simpl; [done|]. intros H.
  destruct (String.eqb_spec k k'); [set_solver|]. rewrite IH by set_solver. done.
Qed.

Definition member_chars (kv : string * string) : chars :=
  dumps_str_chars (to_chars kv.1) ++ to_chars ": " ++ dumps_str_chars (to_chars kv.2).

Fixpoint members_chars (d : list (string * string)) : chars :=
  match d with
  | [] => []
  | [kv] => member_chars kv
  | kv :: d' => member_chars kv ++ to_chars ", " ++ members_chars d'
  end.

Definition str_item (kv : string * string) : string * json := (kv.1, JStr kv.2).

Lemma parse_members_step fuel acc l' key r r2 v r3 c3 r4 :
  scan_string (S (length l')) [] l' = JOk (key, r) → skip_ws r = ":"%char :: r2 →
  parse_value fuel (skip_ws r2) = JOk (v, r3) → skip_ws r3 = c3 :: r4 →
  parse_members (S fuel) acc (dquote :: l') =
  if is_code 125 c3 then JOk (dict_set key v acc, r4)
  else if is_code 44 c3 then parse_members fuel (dict_set key v acc) (skip_ws r4)
  else JErr "Expecting ',' delimiter".
Proof.
  intros H1 H2 H3 H4. cbn -[scan_string parse_value skip_ws]. rewrite H1.
  cbn -[scan_string parse_value skip_ws]. rewrite H2.
  cbn -[scan_string parse_value skip_ws]. rewrite H3.
  cbn -[scan_string parse_value skip_ws]. by rewrite H4.
Qed.

Lemma parse_value_string fuel l2 s r :
  scan_string (S (length l2)) [] l2 = JOk (s, r) →
  parse_value (S fuel) (dquote :: l2) = JOk (JStr s, r).
Proof. intros H. cbn -[scan_string]. by rewrite H. Qed.

Lemma parse_members_dumped d : ∀ fuel acc k,
  d ≠ [] → Forall (λ kv, ascii_text kv.1 ∧ ascii_text kv.2) d →
  NoDup (acc.*1 ++ d.*1) → 2 * length d ≤ fuel →
  parse_members fuel acc (members_chars d ++ "}"%char :: k) = JOk (acc ++ (str_item <$> d), k).
Proof.
  induction d as [|[key v] d IH]; intros fuel acc k Hne Ha Hnd Hf; [done|].
  apply Forall_cons_iff in Ha as [[Hk Hv] Ha]. simpl in Hk, Hv.
  destruct fuel as [|[|fuel]]; simpl in Hf; try lia.
  assert (Hfresh : key ∉ acc.*1).
  { apply NoDup_app in Hnd as (_ & Hd & _). intros Hin. apply (Hd key Hin). set_solver. }
  set (tail_ := match d with [] => "}"%char :: k | _ => to_chars ", " ++ members_chars d ++ "}"%char :: k end).
  assert (E : members_chars ((key, v) :: d) ++ "}"%char :: k
              = dumps_str_chars (to_chars key) ++ to_chars ": "
                ++ dumps_str_chars (to_chars v) ++ tail_).
  { unfold tail_. destruct d; unfold members_chars; fold members_chars; unfold member_chars;
      cbn [fst snd]; by rewrite <- !(assoc_L (++)). }
  rewrite E.
  destruct (scan_dumped key (to_chars ": " ++ dumps_str_chars (to_chars v) ++ tail_) Hk)
    as (l1 & -> & H1).
  destruct (scan_dumped v tail_ Hv) as (l2 & E2 & H2).
  pose proof (parse_value_string fuel _ _ _ H2) as Hval.
  assert (Hskip : skip_ws (members_chars d ++ "}"%char :: k) = members_chars d ++ "}"%char :: k)
    by (destruct d as [|[k2 v2] [|]]; reflexivity).
  destruct d as [|kv2 d2].
  - rewrite (parse_members_step _ _ _ _ _ _ (JStr v) tail_ "}"%char k H1 eq_refl);
      [by rewrite dict_set_fresh| |done]. by rewrite E2.
  - rewrite (parse_members_step _ _ _ _ _ _ (JStr v) tail_ ","%char
      (" "%char :: members_chars (kv2 :: d2) ++ "}"%char :: k) H1 eq_refl);
      [|by rewrite E2|done].
    cbn -[parse_members members_chars skip_ws dict_set].
    change (skip_ws (" "%char :: ?x)) with (skip_ws x).
    rewrite Hskip, dict_set_fresh by done.
    rewrite IH; [by rewrite <- (assoc_L (++))|done|done| |simpl in *; lia].
    rewrite fmap_app, <- (assoc_L (++)). exact Hnd.
Qed.

(** [json.dumps(d, sort_keys=True)] of a [dict[str, str]]. *)
Definition dumps_str_dict (d : list (string * string)) : string :=
  json_dumps true (JObj (str_item <$> d)).

Lemma dumps_items_chars (d : list (string * string)) :
  to_chars (py_join ", " ((λ kv, dumps_str kv.1 +:+ ": " +:+ dumps_str kv.2) <$> d))
  = members_chars d.
Proof.
  assert (H1 : ∀ kv : string * string,
    to_chars (dumps_str kv.1 +:+ ": " +:+ dumps_str kv.2) = member_chars kv).
  { intros kv. unfold member_chars, dumps_str. by rewrite !to_chars_app, !to_of_chars. }
  induction d as [|kv d IH]; [done|].
  destruct d as [|kv2 d]; [apply H1|].
  change (members_chars (kv :: kv2 :: d))
    with (member_chars kv ++ to_chars ", " ++ members_chars (kv2 :: d)).
  rewrite <- IH, <- (H1 kv). cbn [fmap list_fmap py_join]. by rewrite !to_chars_app.
Qed.

Lemma dumps_str_dict_chars d :
  to_chars (dumps_str_dict d) = "{"%char :: members_chars (sort_by key_leb d) ++ ["}"%char].
Proof.
  unfold dumps_str_dict. cbn [json_dumps].
  set (items := (fix go (d : list (string * json)) : list (string * string) :=
         match d with [] => [] | (k, v) :: d' => (k, json_dumps true v) :: go d' end)
         (str_item <$> d)).
  assert (Hi : items = (λ kv, (kv.1, dumps_str kv.2)) <$> d).
  { unfold items. induction d as [|[k v] d IH]; simpl; [done|]. by f_equal. }
  rewrite Hi, (sort_by_fmap key_leb) by done.
  rewrite !to_chars_app, <- list_fmap_compose. simpl (to_chars "{"). simpl (to_chars "}").
  pose proof (dumps_items_chars (sort_by key_leb d)) as E.
  cbn [app]. f_equal. f_equal. rewrite <- E. done.
Qed.

Lemma length_members d : length d ≤ length (members_chars d).
Proof.
  assert (H1 : ∀ kv, 1 ≤ length (member_chars kv)).
  { intros kv. unfold member_chars, dumps_str_chars. rewrite length_app. simpl. lia. }
  induction d as [|kv d IH]; [done|]. pose proof (H1 kv).
  destruct d as [|kv2 d]; [simpl; lia|].
  change (members_chars (kv :: kv2 :: d))
    with (member_chars kv ++ to_chars ", " ++ members_chars (kv2 :: d)).
  rewrite !length_app, length_cons. lia.
Qed.

(** The evidence round trip: loading the dump of a string-to-string dictionary
    gives back its items, sorted by key. *)
Lemma parse_dumps_str_dict d :
  Forall (λ kv, ascii_text kv.1 ∧ ascii_text kv.2) d → NoDup d.*1 →
  json_loads (dumps_str_dict d) = JOk (JObj (str_item <$> sort_by key_leb d)).
Proof.
  intros Ha Hnd. unfold json_loads. rewrite dumps_str_dict_chars.
  set (sd := sort_by key_leb d).
  assert (Hp : sd ≡ₚ d) by apply sort_by_perm.
  assert (Ha' : Forall (λ kv, ascii_text kv.1 ∧ ascii_text kv.2) sd) by (by rewrite Hp).
  assert (Hnd' : NoDup sd.*1) by (by rewrite Hp).
  clearbody sd. clear Hp Ha Hnd d. rename sd into d.
  change (skip_ws ("{"%char :: ?x)) with ("{"%char :: x).
  destruct d as [|kv d]; [reflexivity|].
  set (body := members_chars (kv :: d) ++ ["}"%char]).
  assert (Hb : ∃ l', body = dquote :: l').
  { unfold body. destruct d; eexists; reflexivity. }
  assert (Hlen : 2 * length (kv :: d) ≤ 2 * length ("{"%char :: body)).
  { unfold body. pose proof (length_members (kv :: d)).
    rewrite (length_cons "{"%char), length_app. lia. }
  pose proof (parse_members_dumped (kv :: d) (2 * length ("{"%char :: body)) [] [] ltac:(done)
    Ha' ltac:(simpl; exact Hnd') Hlen) as Hpm.
  fold body in Hpm. destruct Hb as (l' & Hb). rewrite Hb in *.
  set (n := 2 * length ("{"%char :: dquote :: l')) in *. clearbody n.
  cbn -[parse_members skip_ws]. change (skip_ws (dquote :: l')) with (dquote :: l').
  cbn -[parse_members skip_ws]. rewrite Hpm. reflexivity.
Qed.
