(* ===== verification/Database.v ===== *)
(** * The relational store

    The rows of [app/models/], one record per table, the tables themselves, and
    the session the services receive ([app/database.py]): reads see the working
    copy, [commit] publishes it, [rollback] and leaving the session drop it.

    The constraints are those the models and the migrations declare: primary
    keys, unique indexes, foreign keys and CHECK constraints are tested when a row
    is inserted, the CHECK constraints also when one is written back, and raise
    [IntegrityError].  Not kept: the bookkeeping columns [updated_at] and the
    length limits of text columns.  [func.now()] is the clock of the
    environment, [uuid4()] the next draw of its random source, the integer
    primary keys its sequences; none of these is undone by a rollback. *)

From S2P Require Import Prelude PyText LoadNumbers PyFloat DateTime Json.
From Stdlib Require Import Ascii.
Local Open Scope string_scope.
Local Open Scope list_scope.
Local Open Scope nat_scope.

(** A UUID is its 128-bit number; its text is the canonical one. *)
Abbreviation uuid := N (only parsing).

Fixpoint hex_field (w : nat) (n : N) : chars :=
  match w with
  | O => []
  | S w' => hex_field w' (n / 16)%N ++ [hex_digit (N.to_nat (n mod 16))]
  end.

(** [str(uuid)]: 32 hexadecimal digits in groups of 8, 4, 4, 4 and 12. *)
Definition uuid_str (u : uuid) : string :=
  let h := hex_field 32 u in
  of_chars (take 8 h ++ "-"%char :: take 4 (drop 8 h) ++ "-"%char :: take 4 (drop 12 h)
            ++ "-"%char :: take 4 (drop 16 h) ++ "-"%char :: drop 20 h).

#[global] Arguments uuid_str : simpl never.
#[global] Arguments datetime_isoformat : simpl never.
#[global] Arguments date_isoformat : simpl never.

(** ** Rows *)

(** [app/models/document.py] *)
Record Document := mkDocument {
  doc_id : Z;
  filename : string;
  doc_type : string;
  doc_status : string;
  raw_text : option string;
  extracted_data : option json;
  source_type : option string;
  source_idempotency_key : option string;
  source_message_id : option string;
  source_part_id : option string;
  source_enqueued_at : option datetime;
  content_sha256 : option string;
  doc_shipment_id : option uuid;
  doc_created_at : datetime
}.

Definition set_filename (v : string) (r : Document) : Document :=
  mkDocument (doc_id r) v (doc_type r) (doc_status r) (raw_text r) (extracted_data r) (source_type r) (source_idempotency_key r) (source_message_id r) (source_part_id r) (source_enqueued_at r) (content_sha256 r) (doc_shipment_id r) (doc_created_at r).

Definition set_doc_type (v : string) (r : Document) : Document :=
  mkDocument (doc_id r) (filename r) v (doc_status r) (raw_text r) (extracted_data r) (source_type r) (source_idempotency_key r) (source_message_id r) (source_part_id r) (source_enqueued_at r) (content_sha256 r) (doc_shipment_id r) (doc_created_at r).

Definition set_doc_status (v : string) (r : Document) : Document :=
  mkDocument (doc_id r) (filename r) (doc_type r) v (raw_text r) (extracted_data r) (source_type r) (source_idempotency_key r) (source_message_id r) (source_part_id r) (source_enqueued_at r) (content_sha256 r) (doc_shipment_id r) (doc_created_at r).

Definition set_raw_text (v : option string) (r : Document) : Document :=
  mkDocument (doc_id r) (filename r) (doc_type r) (doc_status r) v (extracted_data r) (source_type r) (source_idempotency_key r) (source_message_id r) (source_part_id r) (source_enqueued_at r) (content_sha256 r) (doc_shipment_id r) (doc_created_at r).

Definition set_extracted_data (v : option json) (r : Document) : Document :=
  mkDocument (doc_id r) (filename r) (doc_type r) (doc_status r) (raw_text r) v (source_type r) (source_idempotency_key r) (source_message_id r) (source_part_id r) (source_enqueued_at r) (content_sha256 r) (doc_shipment_id r) (doc_created_at r).

Definition set_doc_shipment_id (v : option uuid) (r : Document) : Document :=
  mkDocument (doc_id r) (filename r) (doc_type r) (doc_status r) (raw_text r) (extracted_data r) (source_type r) (source_idempotency_key r) (source_message_id r) (source_part_id r) (source_enqueued_at r) (content_sha256 r) v (doc_created_at r).

(** [app/models/workflow_run.py] *)
Record WorkflowRun := mkWorkflowRun {
  run_pk : Z;
  run_id : string;
  document_id : Z;
  status : string;
  processing_status : string;
  posting_status : string;
  interrupt_payload : option json;
  run_created_at : datetime
}.

Definition set_status (v : string) (r : WorkflowRun) : WorkflowRun :=
  mkWorkflowRun (run_pk r) (run_id r) (document_id r) v (processing_status r) (posting_status r) (interrupt_payload r) (run_created_at r).

Definition set_processing_status (v : string) (r : WorkflowRun) : WorkflowRun :=
  mkWorkflowRun (run_pk r) (run_id r) (document_id r) (status r) v (posting_status r) (interrupt_payload r) (run_created_at r).

Definition set_posting_status (v : string) (r : WorkflowRun) : WorkflowRun :=
  mkWorkflowRun (run_pk r) (run_id r) (document_id r) (status r) (processing_status r) v (interrupt_payload r) (run_created_at r).

Definition set_interrupt_payload (v : option json) (r : WorkflowRun) : WorkflowRun :=
  mkWorkflowRun (run_pk r) (run_id r) (document_id r) (status r) (processing_status r) (posting_status r) v (run_created_at r).

(** [app/models/review_decision.py] *)
Record ReviewDecision := mkReviewDecision {
  decision_id : uuid;
  decision_run_id : string;
  disposition : string;
  decided_at : datetime;
  reviewer_id : option string
}.

(** [app/models/workflow_audit_log.py] *)
Record WorkflowAuditLog := mkWorkflowAuditLog {
  audit_id : Z;
  audit_run_id : string;
  event_type : string;
  audit_payload : option json;
  actor : option string;
  audit_created_at : datetime
}.

(** [app/models/rate_confirmation.py] *)
Record RateConfirmation := mkRateConfirmation {
  rc_id : uuid;
  rc_load_number : string;
  rc_carrier_name : string;
  origin : string;
  destination : string;
  agreed_rate : float;
  currency : string;
  shipment_date : date;
  rc_created_at : datetime
}.

(** [app/models/shipment.py] *)
Record Shipment := mkShipment {
  shipment_id : uuid;
  load_number : string;
  carrier_name : option string;
  has_invoice : bool;
  has_rate_con : bool;
  has_bol : bool;
  has_pod : bool;
  invoice_id : option Z;
  rate_con_id : option Z;
  bol_id : option Z;
  pod_id : option Z;
  reconciliation_status : string;
  created_at : datetime
}.

Definition set_carrier_name (v : option string) (r : Shipment) : Shipment :=
  mkShipment (shipment_id r) (load_number r) v (has_invoice r) (has_rate_con r) (has_bol r) (has_pod r) (invoice_id r) (rate_con_id r) (bol_id r) (pod_id r) (reconciliation_status r) (created_at r).

Definition set_has_invoice (v : bool) (r : Shipment) : Shipment :=
  mkShipment (shipment_id r) (load_number r) (carrier_name r) v (has_rate_con r) (has_bol r) (has_pod r) (invoice_id r) (rate_con_id r) (bol_id r) (pod_id r) (reconciliation_status r) (created_at r).

Definition set_has_rate_con (v : bool) (r : Shipment) : Shipment :=
  mkShipment (shipment_id r) (load_number r) (carrier_name r) (has_invoice r) v (has_bol r) (has_pod r) (invoice_id r) (rate_con_id r) (bol_id r) (pod_id r) (reconciliation_status r) (created_at r).

Definition set_has_bol (v : bool) (r : Shipment) : Shipment :=
  mkShipment (shipment_id r) (load_number r) (carrier_name r) (has_invoice r) (has_rate_con r) v (has_pod r) (invoice_id r) (rate_con_id r) (bol_id r) (pod_id r) (reconciliation_status r) (created_at r).

Definition set_has_pod (v : bool) (r : Shipment) : Shipment :=
  mkShipment (shipment_id r) (load_number r) (carrier_name r) (has_invoice r) (has_rate_con r) (has_bol r) v (invoice_id r) (rate_con_id r) (bol_id r) (pod_id r) (reconciliation_status r) (created_at r).

Definition set_invoice_id (v : option Z) (r : Shipment) : Shipment :=
  mkShipment (shipment_id r) (load_number r) (carrier_name r) (has_invoice r) (has_rate_con r) (has_bol r) (has_pod r) v (rate_con_id r) (bol_id r) (pod_id r) (reconciliation_status r) (created_at r).

Definition set_rate_con_id (v : option Z) (r : Shipment) : Shipment :=
  mkShipment (shipment_id r) (load_number r) (carrier_name r) (has_invoice r) (has_rate_con r) (has_bol r) (has_pod r) (invoice_id r) v (bol_id r) (pod_id r) (reconciliation_status r) (created_at r).

Definition set_bol_id (v : option Z) (r : Shipment) : Shipment :=
  mkShipment (shipment_id r) (load_number r) (carrier_name r) (has_invoice r) (has_rate_con r) (has_bol r) (has_pod r) (invoice_id r) (rate_con_id r) v (pod_id r) (reconciliation_status r) (created_at r).

Definition set_pod_id (v : option Z) (r : Shipment) : Shipment :=
  mkShipment (shipment_id r) (load_number r) (carrier_name r) (has_invoice r) (has_rate_con r) (has_bol r) (has_pod r) (invoice_id r) (rate_con_id r) (bol_id r) v (reconciliation_status r) (created_at r).

Definition set_reconciliation_status (v : string) (r : Shipment) : Shipment :=
  mkShipment (shipment_id r) (load_number r) (carrier_name r) (has_invoice r) (has_rate_con r) (has_bol r) (has_pod r) (invoice_id r) (rate_con_id r) (bol_id r) (pod_id r) v (created_at r).

(** [app/models/reconciliation_result.py] *)
Record ReconciliationResult := mkReconciliationResult {
  result_id : uuid;
  result_shipment_id : uuid;
  result_run_id : option string;
  evaluation_source : string;
  evaluation_key : option string;
  checks : list json;
  missing_docs : list string;
  exception_reasons : list string;
  result_created_at : datetime
}.

(** [app/models/shipment_exception.py] *)
Record ShipmentException := mkShipmentException {
  exc_id : uuid;
  exc_shipment_id : uuid;
  kind : string;
  exc_status : string;
  exc_missing_docs : list string;
  reason_codes : list string;
  deadline_at : datetime;
  version : Z;
  opened_at : datetime;
  resolved_at : option datetime
}.

(** The JSON object [_exception_state] builds, kept as a record. *)
Record exception_state := mk_exception_state {
  st_status : string;
  st_missing_docs : list string;
  st_reason_codes : list string;
  st_deadline_at : string
}.

(** [app/models/shipment_exception.py] *)
Record ShipmentExceptionEvent := mkShipmentExceptionEvent {
  event_id : uuid;
  event_exception_id : uuid;
  event_result_id : option uuid;
  event_version : Z;
  transition : string;
  before_state : option exception_state;
  after_state : exception_state;
  occurred_at : datetime;
  notification_status : string;
  notification_attempt_count : Z;
  notification_last_error : option string;
  notification_sent_at : option datetime
}.

Definition set_notification_status (v : string) (r : ShipmentExceptionEvent) : ShipmentExceptionEvent :=
  mkShipmentExceptionEvent (event_id r) (event_exception_id r) (event_result_id r) (event_version r) (transition r) (before_state r) (after_state r) (occurred_at r) v (notification_attempt_count r) (notification_last_error r) (notification_sent_at r).

Definition set_notification_attempt_count (v : Z) (r : ShipmentExceptionEvent) : ShipmentExceptionEvent :=
  mkShipmentExceptionEvent (event_id r) (event_exception_id r) (event_result_id r) (event_version r) (transition r) (before_state r) (after_state r) (occurred_at r) (notification_status r) v (notification_last_error r) (notification_sent_at r).

Definition set_notification_last_error (v : option string) (r : ShipmentExceptionEvent) : ShipmentExceptionEvent :=
  mkShipmentExceptionEvent (event_id r) (event_exception_id r) (event_result_id r) (event_version r) (transition r) (before_state r) (after_state r) (occurred_at r) (notification_status r) (notification_attempt_count r) v (notification_sent_at r).

Definition set_notification_sent_at (v : option datetime) (r : ShipmentExceptionEvent) : ShipmentExceptionEvent :=
  mkShipmentExceptionEvent (event_id r) (event_exception_id r) (event_result_id r) (event_version r) (transition r) (before_state r) (after_state r) (occurred_at r) (notification_status r) (notification_attempt_count r) (notification_last_error r) v.

(** [app/models/notification.py] *)
Record Notification := mkNotification {
  notif_id : Z;
  sent_at : datetime;
  total_count : Z;
  complete_count : Z;
  awaiting_review_count : Z;
  failed_count : Z;
  approved_count : Z;
  rejected_count : Z;
  ready_for_posting_count : Z
}.

(** ** CHECK constraints of [app/models/] and of the migrations 202607190002 to
    202607190004 *)

Definition ck_workflow_run (r : WorkflowRun) : bool :=
  in_strs (processing_status r)
    ["pending"; "running"; "retrying"; "awaiting_review"; "complete"; "failed"]
  && in_strs (posting_status r)
       ["not_ready"; "ready_for_posting"; "posting"; "posted"; "payment_scheduled"; "paid";
        "blocked"; "failed"].
Definition ck_review_decision (r : ReviewDecision) : bool :=
  in_strs (disposition r) ["approved"; "rejected"].
Definition ck_rate_confirmation (r : RateConfirmation) : bool :=
  ck_load_number_normalized (rc_load_number r).
Definition ck_shipment (s : Shipment) : bool :=
  ck_load_number_normalized (load_number s)
  && in_strs (reconciliation_status s) ["pending"; "partial"; "reconciled"; "exception"].
Definition ck_exception (e : ShipmentException) : bool :=
  String.eqb (kind e) "missing_required_documents"
  && in_strs (exc_status e) ["active"; "resolved"].
Definition ck_event (ev : ShipmentExceptionEvent) : bool :=
  in_strs (transition ev) ["opened"; "changed"; "resolved"]
  && in_strs (notification_status ev) ["pending"; "sending"; "sent"; "failed"].

(** The tables, rows in insertion order. *)
Record database := mkdatabase {
  documents : list Document;
  workflow_runs : list WorkflowRun;
  review_decisions : list ReviewDecision;
  audit_logs : list WorkflowAuditLog;
  rate_confirmations : list RateConfirmation;
  shipments : list Shipment;
  reconciliation_results : list ReconciliationResult;
  shipment_exceptions : list ShipmentException;
  exception_events : list ShipmentExceptionEvent;
  notifications : list Notification
}.

Definition on_documents (f : list Document → list Document) (d : database) : database :=
  mkdatabase (f (documents d)) (workflow_runs d) (review_decisions d) (audit_logs d) (rate_confirmations d) (shipments d) (reconciliation_results d) (shipment_exceptions d) (exception_events d) (notifications d).

Definition on_workflow_runs (f : list WorkflowRun → list WorkflowRun) (d : database) : database :=
  mkdatabase (documents d) (f (workflow_runs d)) (review_decisions d) (audit_logs d) (rate_confirmations d) (shipments d) (reconciliation_results d) (shipment_exceptions d) (exception_events d) (notifications d).

Definition on_review_decisions (f : list ReviewDecision → list ReviewDecision) (d : database) : database :=
  mkdatabase (documents d) (workflow_runs d) (f (review_decisions d)) (audit_logs d) (rate_confirmations d) (shipments d) (reconciliation_results d) (shipment_exceptions d) (exception_events d) (notifications d).

Definition on_audit_logs (f : list WorkflowAuditLog → list WorkflowAuditLog) (d : database) : database :=
  mkdatabase (documents d) (workflow_runs d) (review_decisions d) (f (audit_logs d)) (rate_confirmations d) (shipments d) (reconciliation_results d) (shipment_exceptions d) (exception_events d) (notifications d).

Definition on_rate_confirmations (f : list RateConfirmation → list RateConfirmation) (d : database) : database :=
  mkdatabase (documents d) (workflow_runs d) (review_decisions d) (audit_logs d) (f (rate_confirmations d)) (shipments d) (reconciliation_results d) (shipment_exceptions d) (exception_events d) (notifications d).

Definition on_shipments (f : list Shipment → list Shipment) (d : database) : database :=
  mkdatabase (documents d) (workflow_runs d) (review_decisions d) (audit_logs d) (rate_confirmations d) (f (shipments d)) (reconciliation_results d) (shipment_exceptions d) (exception_events d) (notifications d).

Definition on_reconciliation_results (f : list ReconciliationResult → list ReconciliationResult) (d : database) : database :=
  mkdatabase (documents d) (workflow_runs d) (review_decisions d) (audit_logs d) (rate_confirmations d) (shipments d) (f (reconciliation_results d)) (shipment_exceptions d) (exception_events d) (notifications d).

Definition on_shipment_exceptions (f : list ShipmentException → list ShipmentException) (d : database) : database :=
  mkdatabase (documents d) (workflow_runs d) (review_decisions d) (audit_logs d) (rate_confirmations d) (shipments d) (reconciliation_results d) (f (shipment_exceptions d)) (exception_events d) (notifications d).

Definition on_exception_events (f : list ShipmentExceptionEvent → list ShipmentExceptionEvent) (d : database) : database :=
  mkdatabase (documents d) (workflow_runs d) (review_decisions d) (audit_logs d) (rate_confirmations d) (shipments d) (reconciliation_results d) (shipment_exceptions d) (f (exception_events d)) (notifications d).

Definition on_notifications (f : list Notification → list Notification) (d : database) : database :=
  mkdatabase (documents d) (workflow_runs d) (review_decisions d) (audit_logs d) (rate_confirmations d) (shipments d) (reconciliation_results d) (shipment_exceptions d) (exception_events d) (f (notifications d)).

(** ** Environment, session, world *)

Record env := mk_env {
  doc_seq : Z;
  run_seq : Z;
  audit_seq : Z;
  notif_seq : Z;
  clock : datetime;
  rng : nat → uuid;
  rng_pos : nat
}.

Record world := mk_world { w_db : database; w_env : env }.

Record session := mk_session { committed : database; working : database; senv : env }.

Definition on_working (f : database → database) (s : session) : session :=
  mk_session (committed s) (f (working s)) (senv s).

Definition commit : M session unit := modify (λ s, mk_session (working s) (working s) (senv s)).
Definition rollback : M session unit :=
  modify (λ s, mk_session (committed s) (committed s) (senv s)).

(** [async with AsyncSessionLocal() as db: ...] *)
Definition run_session {A} (m : M session A) : M world A := λ w,
  let '(r, s) := m (mk_session (w_db w) (w_db w) (w_env w)) in
  (r, mk_world (committed s) (senv s)).

Definition select {A} (q : database → A) : M session A := gets (λ s, q (working s)).
Definition db_clock : M session datetime := gets (λ s, clock (senv s)).

Definition with_env (f : env → env) : M session unit :=
  modify (λ s, mk_session (committed s) (working s) (f (senv s))).

(** [uuid4()] *)
Definition uuid4 : M session uuid :=
  u ← gets (λ s, rng (senv s) (rng_pos (senv s)));
  _ ← with_env (λ e, mk_env (doc_seq e) (run_seq e) (audit_seq e) (notif_seq e) (clock e)
                            (rng e) (S (rng_pos e)));
  mret u.

Definition next_doc_id : M session Z :=
  i ← gets (λ s, doc_seq (senv s));
  _ ← with_env (λ e, mk_env (doc_seq e + 1) (run_seq e) (audit_seq e) (notif_seq e) (clock e)
                            (rng e) (rng_pos e));
  mret i.

Definition next_run_pk : M session Z :=
  i ← gets (λ s, run_seq (senv s));
  _ ← with_env (λ e, mk_env (doc_seq e) (run_seq e + 1) (audit_seq e) (notif_seq e) (clock e)
                            (rng e) (rng_pos e));
  mret i.

Definition next_audit_id : M session Z :=
  i ← gets (λ s, audit_seq (senv s));
  _ ← with_env (λ e, mk_env (doc_seq e) (run_seq e) (audit_seq e + 1) (notif_seq e) (clock e)
                            (rng e) (rng_pos e));
  mret i.

Definition next_notif_id : M session Z :=
  i ← gets (λ s, notif_seq (senv s));
  _ ← with_env (λ e, mk_env (doc_seq e) (run_seq e) (audit_seq e) (notif_seq e + 1) (clock e)
                            (rng e) (rng_pos e));
  mret i.

(** ** Results of a select *)

(** [scalar_one_or_none()] and [scalar_one()]. *)
Definition scalar_one_or_none {S A} (l : list A) : M S (option A) :=
  match l with
  | [] => mret None
  | [x] => mret (Some x)
  | _ => raise (Exn (OtherError "MultipleResultsFound") "Multiple rows were found")
  end.

Definition scalar_one {S A} (l : list A) : M S A :=
  match l with
  | [x] => mret x
  | [] => raise (Exn (OtherError "NoResultFound") "No row was found when one was required")
  | _ => raise (Exn (OtherError "MultipleResultsFound") "Multiple rows were found")
  end.

Definition opt_eqb {A} (eqb : A → A → bool) (x y : option A) : bool :=
  match x, y with
  | Some a, Some b => eqb a b
  | None, None => true
  | _, _ => false
  end.

(** [column == value]: SQL equality, which no NULL satisfies. *)
Definition sql_eq {A} (eqb : A → A → bool) (col : option A) (v : A) : bool :=
  match col with Some a => eqb a v | None => false end.

Definition where_ {A} (p : A → bool) (l : list A) : list A := List.filter p l.

Definition update_where {A} (p : A → bool) (f : A → A) (l : list A) : list A :=
  (λ r, if p r then f r else r) <$> l.

(** ** Inserts, with the constraints of the models *)

Definition integrity_error {S A} (what : string) : M S A := raise (Exn IntegrityError what).

Definition insist {S} (b : bool) (what : string) : M S unit :=
  if b then mret tt else integrity_error what.

Definition has_run (rid : string) (d : database) : bool :=
  existsb (λ r, String.eqb (run_id r) rid) (workflow_runs d).
Definition has_shipment (sid : uuid) (d : database) : bool :=
  existsb (λ s, N.eqb (shipment_id s) sid) (shipments d).

(** [db.add(Document(...)); await db.flush()] *)
Definition insert_document (mk : Z → datetime → Document) : M session Document :=
  i ← next_doc_id;
  now ← db_clock;
  let doc := mk i now in
  docs ← select documents;
  _ ← insist (negb (existsb (λ x, Z.eqb (doc_id x) i) docs)) "documents_pkey";
  _ ← insist (match source_idempotency_key doc with
              | None => true
              | Some k => negb (existsb (λ d, sql_eq String.eqb (source_idempotency_key d) k) docs)
              end) "ix_documents_source_idempotency_key";
  _ ← modify (on_working (on_documents (λ t, t ++ [doc])));
  mret doc.

Definition insert_run (mk : Z → datetime → WorkflowRun) : M session WorkflowRun :=
  i ← next_run_pk;
  now ← db_clock;
  let run := mk i now in
  d ← select (λ d, d);
  _ ← insist (ck_workflow_run run) "ck_workflow_runs";
  _ ← insist (negb (existsb (λ x, Z.eqb (run_pk x) i) (workflow_runs d))) "workflow_runs_pkey";
  _ ← insist (negb (has_run (run_id run) d)) "ix_workflow_runs_run_id";
  _ ← insist (existsb (λ x, Z.eqb (doc_id x) (document_id run)) (documents d))
             "workflow_runs_document_id_fkey";
  _ ← modify (on_working (on_workflow_runs (λ t, t ++ [run])));
  mret run.

Definition insert_decision (mk : uuid → datetime → ReviewDecision) : M session ReviewDecision :=
  i ← uuid4;
  now ← db_clock;
  let dec := mk i now in
  d ← select (λ d, d);
  _ ← insist (negb (existsb (λ x, N.eqb (decision_id x) i) (review_decisions d)))
             "review_decisions_pkey";
  _ ← insist (ck_review_decision dec) "ck_review_decisions";
  _ ← insist (negb (existsb (λ x, String.eqb (decision_run_id x) (decision_run_id dec))
                            (review_decisions d))) "uq_review_decisions_run_id";
  _ ← insist (has_run (decision_run_id dec) d) "review_decisions_run_id_fkey";
  _ ← modify (on_working (on_review_decisions (λ t, t ++ [dec])));
  mret dec.

Definition insert_rate_confirmation (mk : uuid → datetime → RateConfirmation)
  : M session RateConfirmation :=
  i ← uuid4;
  now ← db_clock;
  let rc := mk i now in
  t ← select rate_confirmations;
  _ ← insist (ck_rate_confirmation rc) "ck_rate_confirmations_load_number_normalized";
  _ ← insist (negb (existsb (λ x, N.eqb (rc_id x) i) t)) "rate_confirmations_pkey";
  _ ← insist (negb (existsb (λ x, String.eqb (rc_load_number x) (rc_load_number rc)) t))
             "ix_rate_confirmations_load_number";
  _ ← modify (on_working (on_rate_confirmations (λ t, t ++ [rc])));
  mret rc.

Definition insert_result (mk : uuid → datetime → ReconciliationResult)
  : M session ReconciliationResult :=
  i ← uuid4;
  now ← db_clock;
  let r := mk i now in
  d ← select (λ d, d);
  _ ← insist (negb (existsb (λ x, N.eqb (result_id x) i) (reconciliation_results d)))
             "reconciliation_results_pkey";
  _ ← insist (match result_run_id r with
              | None => true
              | Some k => negb (existsb (λ x, sql_eq String.eqb (result_run_id x) k)
                                        (reconciliation_results d))
              end) "uq_reconciliation_results_run_id";
  _ ← insist (match evaluation_key r with
              | None => true
              | Some k => negb (existsb (λ x, sql_eq String.eqb (evaluation_key x) k)
                                        (reconciliation_results d))
              end) "uq_reconciliation_results_evaluation_key";
  _ ← insist (has_shipment (result_shipment_id r) d) "reconciliation_results_shipment_id_fkey";
  _ ← insist (match result_run_id r with None => true | Some k => has_run k d end)
             "reconciliation_results_run_id_fkey";
  _ ← modify (on_working (on_reconciliation_results (λ t, t ++ [r])));
  mret r.

Definition insert_exception (mk : uuid → ShipmentException) : M session ShipmentException :=
  i ← uuid4;
  let e := mk i in
  d ← select (λ d, d);
  _ ← insist (ck_exception e) "ck_shipment_exceptions";
  _ ← insist (negb (existsb (λ x, N.eqb (exc_id x) i) (shipment_exceptions d)))
             "shipment_exceptions_pkey";
  _ ← insist (negb (existsb (λ x, N.eqb (exc_shipment_id x) (exc_shipment_id e)
                                  && String.eqb (kind x) (kind e)) (shipment_exceptions d)))
             "uq_shipment_exceptions_shipment_kind";
  _ ← insist (has_shipment (exc_shipment_id e) d) "shipment_exceptions_shipment_id_fkey";
  _ ← modify (on_working (on_shipment_exceptions (λ t, t ++ [e])));
  mret e.

Definition insert_event (mk : uuid → ShipmentExceptionEvent) : M session ShipmentExceptionEvent :=
  i ← uuid4;
  let e := mk i in
  d ← select (λ d, d);
  _ ← insist (ck_event e) "ck_shipment_exception_events";
  _ ← insist (negb (existsb (λ x, N.eqb (event_id x) i) (exception_events d)))
             "shipment_exception_events_pkey";
  _ ← insist (negb (existsb (λ x, N.eqb (event_exception_id x) (event_exception_id e)
                                  && Z.eqb (event_version x) (event_version e))
                            (exception_events d))) "uq_shipment_exception_events_version";
  _ ← insist (existsb (λ x, N.eqb (exc_id x) (event_exception_id e)) (shipment_exceptions d))
             "shipment_exception_events_exception_id_fkey";
  _ ← modify (on_working (on_exception_events (λ t, t ++ [e])));
  mret e.

Definition insert_notification (mk : Z → datetime → Notification) : M session Notification :=
  i ← next_notif_id;
  now ← db_clock;
  let n := mk i now in
  _ ← modify (on_working (on_notifications (λ t, t ++ [n])));
  mret n.

(** ** Writing back a row the ORM object of which was mutated *)

Definition save_document (doc : Document) : M session unit :=
  modify (on_working (on_documents (update_where (λ d, Z.eqb (doc_id d) (doc_id doc)) (λ _, doc)))).
Definition save_run (run : WorkflowRun) : M session unit :=
  _ ← insist (ck_workflow_run run) "ck_workflow_runs";
  modify (on_working (on_workflow_runs
    (update_where (λ r, String.eqb (run_id r) (run_id run)) (λ _, run)))).
Definition save_shipment (s : Shipment) : M session unit :=
  _ ← insist (ck_shipment s) "ck_shipments";
  modify (on_working (on_shipments
    (update_where (λ x, N.eqb (shipment_id x) (shipment_id s)) (λ _, s)))).
Definition save_result (r : ReconciliationResult) : M session unit :=
  modify (on_working (on_reconciliation_results
    (update_where (λ x, N.eqb (result_id x) (result_id r)) (λ _, r)))).
Definition save_exception (e : ShipmentException) : M session unit :=
  _ ← insist (ck_exception e) "ck_shipment_exceptions";
  modify (on_working (on_shipment_exceptions
    (update_where (λ x, N.eqb (exc_id x) (exc_id e)) (λ _, e)))).
Definition save_event (e : ShipmentExceptionEvent) : M session unit :=
  _ ← insist (ck_event e) "ck_shipment_exception_events";
  modify (on_working (on_exception_events
    (update_where (λ x, N.eqb (event_id x) (event_id e)) (λ _, e)))).

(** [db.get(Document, id)] *)
Definition get_document (i : Z) : M session (option Document) :=
  select (λ d, find_first (λ x, Z.eqb (doc_id x) i) (documents d)).

(** ** [app/services/audit.py] *)

(** [log_audit_event] inside a session: an insert that does nothing when the
    event of the run is already there. *)
Definition log_audit_event (rid event : string) (payload : option json) (who : string)
  : M session unit :=
  d ← select (λ d, d);
  if existsb (λ a, String.eqb (audit_run_id a) rid && String.eqb (event_type a) event)
             (audit_logs d)
  then mret tt
  else
    i ← next_audit_id;
    now ← db_clock;
    _ ← insist (has_run rid d) "workflow_audit_logs_run_id_fkey";
    modify (on_working (on_audit_logs
      (λ t, t ++ [mkWorkflowAuditLog i rid event payload (Some who) now]))).

(** The call without a [db] argument: a session of its own, committed. *)
Definition log_audit_event_owned (rid event : string) (payload : option json) (who : string)
  : M world unit :=
  run_session (_ ← log_audit_event rid event payload who; commit).

(** ** Lemmas: filters and updates of a table *)

Lemma filter_none {A} (p : A → bool) l : (∀ x, x ∈ l → p x = false) → List.filter p l = [].
Proof.
  induction l as [|x l IH]; intros H; simpl; [done|].
  rewrite (H x (list_elem_of_here _ _)). apply IH. intros y Hy. by apply H, list_elem_of_further.
Qed.

Lemma update_where_map {A B} (p : A → bool) (f : A → A) (g : A → B) (l : list A) :
  (∀ x, x ∈ l → p x = true → g (f x) = g x) → g <$> update_where p f l = g <$> l.
Proof.
  intros H. unfold update_where. rewrite <- list_fmap_compose.
  apply list_fmap_ext. intros i x Hx%list_elem_of_lookup_2. simpl.
  destruct (p x) eqn:Hp; [by apply H|done].
Qed.

Lemma NoDup_fmap_inj {A B} (f : A → B) (l : list A) x y :
  NoDup (f <$> l) → x ∈ l → y ∈ l → f x = f y → x = y.
Proof.
  induction l as [|z l IH]; [set_solver|]. rewrite fmap_cons, NoDup_cons.
  intros [Hz Hl] Hx Hy E. apply elem_of_cons in Hx, Hy.
  destruct Hx as [->|Hx], Hy as [->|Hy]; [done| | |by apply IH].
  - exfalso. apply Hz. rewrite E. by apply list_elem_of_fmap_2.
  - exfalso. apply Hz. rewrite <- E. by apply list_elem_of_fmap_2.
Qed.

Lemma find_first_update_where {A} (p q : A → bool) (f : A → A) (l : list A) :
  (∀ y, y ∈ l → q y = true → p (f y) = p y) →
  find_first p (update_where q f l) = (λ y, if q y then f y else y) <$> find_first p l.
Proof.
  unfold update_where. induction l as [|y l IH]; intros H; [done|].
  rewrite fmap_cons. unfold find_first in *. cbn [List.find].
  assert (Hp : p (if q y then f y else y) = p y).
  { destruct (q y) eqn:Hq; [|done]. apply H; [apply list_elem_of_here|done]. }
  rewrite Hp. destruct (p y); [done|]. apply IH. intros z Hz. by apply H, list_elem_of_further.
Qed.

(** Writing back a row that did not change. *)
Lemma update_where_same {A K} (key : A → K) (p : A → bool) (x : A) (l : list A) :
  NoDup (key <$> l) → x ∈ l → (∀ y, p y = true → key y = key x) →
  update_where p (λ _, x) l = l.
Proof.
  intros Hnd Hx Hp. unfold update_where. rewrite <- (list_fmap_id l) at 2.
  apply list_fmap_ext. intros i y Hy%list_elem_of_lookup_2. simpl.
  destruct (p y) eqn:E; [|done]. symmetry. eapply (NoDup_fmap_inj key); eauto.
Qed.

Lemma update_where_const {A} (p : A → bool) (x y : A) (l : list A) :
  (∀ z, p z = true → p x = true) →
  update_where p (λ _, y) (update_where p (λ _, x) l) = update_where p (λ _, y) l.
Proof.
  intros Hx. unfold update_where. rewrite <- list_fmap_compose. apply list_fmap_ext.
  intros i z _. simpl. destruct (p z) eqn:E; [by rewrite (Hx z E)|by rewrite E].
Qed.

Lemma elem_of_update_where {A} (p : A → bool) (f : A → A) (l : list A) y :
  y ∈ update_where p f l ↔ ∃ x, x ∈ l ∧ y = if p x then f x else x.
Proof. unfold update_where. rewrite list_elem_of_fmap. naive_solver. Qed.

Lemma elem_of_where {A} (p : A → bool) (l : list A) x : x ∈ where_ p l ↔ x ∈ l ∧ p x = true.
Proof. unfold where_. by rewrite !list_elem_of_In, filter_In. Qed.

Lemma where_update {A} (p q : A → bool) (f : A → A) (l : list A) :
  (∀ x, x ∈ l → q x = true → p (f x) = p x) →
  where_ p (update_where q f l) = update_where q f (where_ p l).
Proof.
  induction l as [|x l IH]; intros H; [done|].
  unfold where_, update_where in *. rewrite fmap_cons. cbn [List.filter].
  assert (Hp : p (if q x then f x else x) = p x).
  { destruct (q x) eqn:Eq; [apply H; [apply list_elem_of_here|done]|done]. }
  rewrite Hp, IH; [|intros y Hy; by apply H, list_elem_of_further].
  by destruct (p x).
Qed.

(** An update that only touches rows that are not selected. *)
Lemma where_update_other {A} (p q : A → bool) (f : A → A) (l : list A) :
  (∀ x, q x = true → p x = false ∧ p (f x) = false) → where_ p (update_where q f l) = where_ p l.
Proof.
  intros H. unfold where_, update_where. induction l as [|x l IH]; [done|]. cbn. rewrite IH.
  destruct (q x) eqn:Eq; [|done]. by destruct (H x Eq) as [-> ->].
Qed.

(** A select by a unique key. *)
Lemma where_unique {A K} (key : A → K) (p : A → bool) (l : list A) x :
  NoDup (key <$> l) → x ∈ l → p x = true → (∀ y, p y = true → key y = key x) →
  where_ p l = [x].
Proof.
  unfold where_. induction l as [|y l IH]; [set_solver|].
  rewrite fmap_cons, NoDup_cons. intros [Hn Hnd] Hx Hpx Hp. cbn [List.filter].
  apply elem_of_cons in Hx as [->|Hx].
  - rewrite Hpx. f_equal. apply filter_none. intros z Hz.
    destruct (p z) eqn:E; [|done]. exfalso. apply Hn. rewrite <- (Hp z E).
    by apply list_elem_of_fmap_2.
  - destruct (p y) eqn:E; [|by apply IH]. exfalso. apply Hn. rewrite (Hp y E).
    by apply list_elem_of_fmap_2.
Qed.

(** ** Lemmas: what the inserts do *)

(** Run a session computation to its outcome: unfold the monad and the session
    primitives and split on the constraint checks. *)
Ltac session_unfold :=
  unfold insert_document, insert_run, insert_decision, insert_rate_confirmation, insert_result,
    insert_exception, insert_event, insert_notification, uuid4, next_doc_id, next_run_pk,
    next_audit_id, next_notif_id, db_clock, with_env, select, insist, integrity_error,
    mbind, mret, M_bind, M_ret, gets, modify, raise in *; simpl in *.

Ltac split_checks :=
  repeat match goal with
  | H : context [if ?b then _ else _] |- _ => destruct b eqn:?; simpl in H
  | H : (Raise _, _) = (Ok _, _) |- _ => discriminate H
  | H : (Ok _, _) = (Raise _, _) |- _ => discriminate H
  end.

Lemma save_exception_ok e s r s' :
  save_exception e s = (Ok r, s') →
  ck_exception e = true
  ∧ s' = on_working (on_shipment_exceptions
           (update_where (λ x, N.eqb (exc_id x) (exc_id e)) (λ _, e))) s.
Proof. intros H. unfold save_exception in H. session_unfold. split_checks. by injection H as <- <-. Qed.

Lemma save_exception_runs e s :
  ck_exception e = true →
  save_exception e s
  = (Ok tt, on_working (on_shipment_exceptions
           (update_where (λ x, N.eqb (exc_id x) (exc_id e)) (λ _, e))) s).
Proof. intros H. unfold save_exception. session_unfold. by rewrite H. Qed.

Lemma existsb_negb_notin {A} (p : A → bool) l :
  negb (existsb p l) = true → ∀ x, x ∈ l → p x = false.
Proof.
  rewrite Bool.negb_true_iff, existsb_false_Forall, Forall_forall. done.
Qed.

Lemma insert_event_ok mk s ev s' :
  insert_event mk s = (Ok ev, s') →
  ∃ i, ev = mk i
    ∧ working s' = on_exception_events (λ t, t ++ [ev]) (working s)
    ∧ committed s' = committed s
    ∧ (∃ x, x ∈ shipment_exceptions (working s) ∧ exc_id x = event_exception_id ev).
Proof.
  intros H. session_unfold. split_checks. injection H as <- <-.
  eexists. split; [done|]. split; [done|]. split; [done|].
  match goal with H : existsb _ (shipment_exceptions _) = true |- _ =>
    apply existsb_exists in H as (x & Hx & E%N.eqb_eq); apply list_elem_of_In in Hx; by exists x end.
Qed.

Lemma insert_exception_ok mk s e s' :
  insert_exception mk s = (Ok e, s') →
  ∃ i, e = mk i
    ∧ working s' = on_shipment_exceptions (λ t, t ++ [e]) (working s)
    ∧ committed s' = committed s
    ∧ (∀ x, x ∈ shipment_exceptions (working s) → exc_id x ≠ i)
    ∧ (∀ x, x ∈ shipment_exceptions (working s) →
         exc_shipment_id x = exc_shipment_id e → kind x ≠ kind e).
Proof.
  intros H. session_unfold. split_checks. injection H as <- <-.
  eexists. split; [done|]. split; [done|]. split; [done|]. split.
  - intros x Hx.
    match goal with H : negb (existsb (λ x, N.eqb (exc_id x) _) _) = true |- _ =>
      pose proof (existsb_negb_notin _ _ H x Hx) as Hn end.
    simpl in Hn. by apply N.eqb_neq.
  - intros x Hx E1 E2.
    match goal with H : negb (existsb (λ x, N.eqb (exc_shipment_id x) _ && _) _) = true |- _ =>
      pose proof (existsb_negb_notin _ _ H x Hx) as Hn end.
    simpl in Hn. by rewrite E1, E2, N.eqb_refl, String.eqb_refl in Hn.
Qed.

(** ** Fresh identifiers

    [uuid4()] never repeats: the draws to come are distinct and none is the key
    of a row of the working copy. *)

Definition uuids_of (d : database) : list uuid :=
  (decision_id <$> review_decisions d) ++ (rc_id <$> rate_confirmations d)
  ++ (shipment_id <$> shipments d) ++ (result_id <$> reconciliation_results d)
  ++ (exc_id <$> shipment_exceptions d) ++ (event_id <$> exception_events d).

Definition rng_fresh (s : session) : Prop :=
  (∀ n, rng_pos (senv s) ≤ n → rng (senv s) n ∉ uuids_of (working s))
  ∧ (∀ n m, rng_pos (senv s) ≤ n → n < m → rng (senv s) n ≠ rng (senv s) m).

Definition env_draw (e : env) : env :=
  mk_env (doc_seq e) (run_seq e) (audit_seq e) (notif_seq e) (clock e) (rng e) (S (rng_pos e)).

Definition fresh_uuid (s : session) : uuid := rng (senv s) (rng_pos (senv s)).

(** The state after a draw and a change of the tables. *)
Definition drawn (f : database → database) (s : session) : session :=
  mk_session (committed s) (f (working s)) (env_draw (senv s)).

Lemma rng_fresh_drawn f s :
  rng_fresh s →
  (∀ u, u ∈ uuids_of (f (working s)) → u ∈ uuids_of (working s) ∨ u = fresh_uuid s) →
  rng_fresh (drawn f s).
Proof.
  intros [H1 H2] Hf. split; cbn [drawn senv working env_draw rng rng_pos].
  - intros n Hn Hin. destruct (Hf _ Hin) as [Hin'|E]; [by apply (H1 n); [lia|]|].
    symmetry in E. revert E. apply H2; lia.
  - intros n m Hn. apply H2. lia.
Qed.

Lemma rng_fresh_same f s :
  rng_fresh s → (∀ u, u ∈ uuids_of (f (working s)) → u ∈ uuids_of (working s)) →
  rng_fresh (on_working f s).
Proof. intros [H1 H2] Hf. split; [|exact H2]. intros n Hn Hin. by apply (H1 n), Hf. Qed.

Lemma existsb_fresh {A} (key : A → uuid) (u : uuid) (l : list A) :
  u ∉ key <$> l → existsb (λ x, N.eqb (key x) u) l = false.
Proof.
  intros H. apply existsb_false_Forall, Forall_forall. intros x Hx. apply N.eqb_neq.
  intros E. apply H. rewrite <- E. by apply list_elem_of_fmap_2.
Qed.

Lemma existsb_none {A} (p : A → bool) (l : list A) :
  (∀ x, x ∈ l → p x = false) → existsb p l = false.
Proof. intros H. by apply existsb_false_Forall, Forall_forall. Qed.

Ltac fresh_key s :=
  let H := fresh in
  match goal with Hf : rng_fresh s |- _ => pose proof (proj1 Hf _ (Nat.le_refl _)) as H end;
  apply existsb_fresh; intros Hin; apply H; unfold uuids_of; rewrite !elem_of_app; tauto.

(** An insert the constraints allow goes through. *)
Lemma insert_event_runs mk s :
  rng_fresh s → event_id (mk (fresh_uuid s)) = fresh_uuid s →
  ck_event (mk (fresh_uuid s)) = true →
  (∀ x, x ∈ exception_events (working s) →
        event_exception_id x = event_exception_id (mk (fresh_uuid s)) →
        event_version x ≠ event_version (mk (fresh_uuid s))) →
  event_exception_id (mk (fresh_uuid s)) ∈ exc_id <$> shipment_exceptions (working s) →
  insert_event mk s
    = (Ok (mk (fresh_uuid s)),
       drawn (on_exception_events (λ t, t ++ [mk (fresh_uuid s)])) s)
  ∧ rng_fresh (drawn (on_exception_events (λ t, t ++ [mk (fresh_uuid s)])) s).
Proof.
  intros Hf Hid Hck Hu Hfk. split.
  - unfold insert_event. session_unfold. fold (fresh_uuid s). rewrite Hck.
    assert (existsb (λ x, N.eqb (event_id x) (fresh_uuid s)) (exception_events (working s)) = false)
      as -> by (fresh_key s).
    cbn [negb]. rewrite existsb_none.
    2:{ intros x Hx. destruct (N.eqb_spec (event_exception_id x)
          (event_exception_id (mk (fresh_uuid s)))) as [E|]; [|done]. apply Z.eqb_neq. by apply Hu. }
    cbn [negb]. apply list_elem_of_fmap in Hfk as (x & E & Hx).
    rewrite (proj2 (existsb_exists _ _)); [done|]. exists x.
    split; [by apply list_elem_of_In|]. by rewrite E, N.eqb_refl.
  - apply rng_fresh_drawn; [done|]. intros u. unfold uuids_of, on_exception_events. cbn.
    rewrite fmap_app, !elem_of_app, list_elem_of_fmap. cbn. rewrite Hid. set_solver.
Qed.

Lemma insert_exception_runs mk s :
  rng_fresh s → exc_id (mk (fresh_uuid s)) = fresh_uuid s →
  ck_exception (mk (fresh_uuid s)) = true →
  (∀ x, x ∈ shipment_exceptions (working s) →
        exc_shipment_id x = exc_shipment_id (mk (fresh_uuid s)) →
        kind x ≠ kind (mk (fresh_uuid s))) →
  exc_shipment_id (mk (fresh_uuid s)) ∈ shipment_id <$> shipments (working s) →
  insert_exception mk s
    = (Ok (mk (fresh_uuid s)),
       drawn (on_shipment_exceptions (λ t, t ++ [mk (fresh_uuid s)])) s)
  ∧ rng_fresh (drawn (on_shipment_exceptions (λ t, t ++ [mk (fresh_uuid s)])) s).
Proof.
  intros Hf Hid Hck Hu Hfk. split.
  - unfold insert_exception. session_unfold. fold (fresh_uuid s). rewrite Hck.
    assert (existsb (λ x, N.eqb (exc_id x) (fresh_uuid s)) (shipment_exceptions (working s)) = false)
      as -> by (fresh_key s).
    cbn [negb]. rewrite existsb_none.
    2:{ intros x Hx. destruct (N.eqb_spec (exc_shipment_id x)
          (exc_shipment_id (mk (fresh_uuid s)))) as [E|]; [|done]. apply String.eqb_neq. by apply Hu. }
    cbn [negb]. apply list_elem_of_fmap in Hfk as (x & E & Hx). unfold has_shipment.
    rewrite (proj2 (existsb_exists _ _)); [done|]. exists x.
    split; [by apply list_elem_of_In|]. by rewrite E, N.eqb_refl.
  - apply rng_fresh_drawn; [done|]. intros u. unfold uuids_of, on_shipment_exceptions. cbn.
    rewrite fmap_app, !elem_of_app, list_elem_of_fmap. cbn. rewrite Hid. set_solver.
Qed.

(** ** Concrete states, for the examples *)

Definition empty_database : database := mkdatabase [] [] [] [] [] [] [] [] [] [].
Definition counting_env (now : datetime) : env :=
  mk_env 1 1 1 1 now (λ n, (1000 + N.of_nat n)%N) 0.
Definition session_on (d : database) (now : datetime) : session :=
  mk_session d d (counting_env now).

Lemma session_on_fresh d now : Forall (λ u, (u < 1000)%N) (uuids_of d) → rng_fresh (session_on d now).
Proof.
  intros H. rewrite Forall_forall in H. split; simpl.
  - intros n _ Hin. apply H in Hin. lia.
  - intros n m _ Hn. lia.
Qed.
