(* ===== verification/Sha1.v ===== *)
(** * SHA-1 and [uuid5]

    [uuid.uuid5] names a UUID by the SHA-1 digest of a namespace and a name (RFC
    9562): the first 16 bytes, with the version and variant bits set. *)

From S2P Require Import Prelude PyText Sha256 DateTime PyFloat Json Database.
From Stdlib Require Import Ascii.
Local Open Scope string_scope.
Local Open Scope list_scope.
Local Open Scope Z_scope.

Definition rotl (n x : Z) : Z := rotr (32 - n) x.
Definition parity (x y z : Z) : Z := Z.lxor x (Z.lxor y z).

(** The function and the constant of round [t]. *)
Definition sha1_f (t : nat) (x y z : Z) : Z :=
  if (t <? 20)%nat then choose x y z
  else if (t <? 40)%nat then parity x y z
  else if (t <? 60)%nat then majority x y z
  else parity x y z.

Definition sha1_k (t : nat) : Z :=
  if (t <? 20)%nat then 0x5a827999
  else if (t <? 40)%nat then 0x6ed9eba1
  else if (t <? 60)%nat then 0x8f1bbcdc
  else 0xca62c1d6.

(** The schedule, the latest word first. *)
Fixpoint sha1_extend (n : nat) (ws : list Z) : list Z :=
  match n with
  | O => ws
  | S n' =>
      let at_ i := nth i ws 0 in
      sha1_extend n' (rotl 1 (Z.lxor (Z.lxor (at_ 2%nat) (at_ 7%nat)) (Z.lxor (at_ 13%nat) (at_ 15%nat)))
                      :: ws)
  end.

Definition sha1_round (h : list Z) (tw : nat * Z) : list Z :=
  match h with
  | [a; b; c; d; e] =>
      [w32 (rotl 5 a + sha1_f tw.1 b c d + e + sha1_k tw.1 + tw.2); a; rotl 30 b; c; d]
  | _ => h
  end.

Definition sha1_compress (h block : list Z) : list Z :=
  let schedule := reverse (sha1_extend 64 (reverse block)) in
  zip_with (λ x y, w32 (x + y)) h (fold_left sha1_round (zip (seq 0 80) schedule) h).

Fixpoint sha1_blocks (fuel : nat) (h ws : list Z) : list Z :=
  match fuel, ws with
  | S fuel', _ :: _ => sha1_blocks fuel' (sha1_compress h (take 16 ws)) (drop 16 ws)
  | _, _ => h
  end.

(** The digest, five words. *)
Definition sha1 (bytes : list Z) : list Z :=
  let ws := words (length (padded bytes)) (padded bytes) in
  sha1_blocks (length ws) [0x67452301; 0xefcdab89; 0x98badcfe; 0x10325476; 0xc3d2e1f0] ws.

Definition NAMESPACE_URL : uuid := 0x6ba7b8119dad11d180b400c04fd430c8%N.
Definition NAMESPACE_DNS : uuid := 0x6ba7b8109dad11d180b400c04fd430c8%N.

Definition uuid5 (namespace : uuid) (name : string) : uuid :=
  let bytes := be_bytes 16 (Z.of_N namespace) ++ ((λ c, Z.of_nat (code c)) <$> to_chars name) in
  let n := fold_left (λ acc w, acc * 2 ^ 32 + w) (take 4 (sha1 bytes)) 0 in
  let n := Z.lor (Z.land n (Z.lnot (Z.shiftl 0xf000 64))) (Z.shiftl 5 76) in
  Z.to_N (Z.lor (Z.land n (Z.lnot (Z.shiftl 0xc000 48))) (Z.shiftl 0x8000 48)).

(** Known values. *)
Example sha1_abc :
  of_chars (sha1 ((λ c, Z.of_nat (code c)) <$> to_chars "abc") ≫= λ w, be_bytes 4 w ≫= hex_byte)
  = "a9993e364706816aba3e25717850c26c9cd0d89d".
Proof. vm_compute. reflexivity. Qed.

Example uuid5_python_org :
  uuid_str (uuid5 NAMESPACE_DNS "python.org") = "886313e1-3b8a-5372-9b90-0c9aee199e5d".
Proof. vm_compute. reflexivity. Qed.
