(* ===== verification/MissingDocs.v ===== *)
(** * Missing-document SLA: policy and exception history

    [app/services/missing_document_sla.py] up to [sync_missing_document_exception]
    (the scanner, which calls the reconciliation, is in SlaScanner).  The policy
    is a pure function of a shipment, the time and the SLA; [sync] keeps one
    exception row per shipment and appends one event per change to its history. *)

From S2P Require Import Prelude PyText DateTime Json Database.
From Stdlib Require Import Ascii.
Local Open Scope string_scope.
Local Open Scope list_scope.

Definition MISSING_DOCUMENT_EXCEPTION_KIND : string := "missing_required_documents".

(** [REQUIRED_DOCUMENTS]: document, presence field, overdue reason. *)
Definition REQUIRED_DOCUMENTS : list (string * (Shipment → bool) * string) :=
  [("invoice", has_invoice, "missing_required_invoice_sla_exceeded");
   ("rate_con", has_rate_con, "missing_required_rate_con_sla_exceeded");
   ("bol", has_bol, "missing_required_bol_sla_exceeded");
   ("pod", has_pod, "missing_required_pod_sla_exceeded")].

Definition SLA_REASON_CODES : list string := (λ d, d.2) <$> REQUIRED_DOCUMENTS.

(** [MissingDocumentPolicyResult] *)
Record policy_result := mk_policy_result {
  p_state : string;
  p_deadline_at : datetime;
  p_missing_docs : list string;
  p_reason_codes : list string;
  p_checks : list json
}.

(** A check dictionary, as stored in [reconciliation_results.checks]. *)
Definition check_dict (name outcome details : string) (reason_code : option string) : json :=
  JObj [("check_name", JStr name); ("outcome", JStr outcome); ("details", JStr details);
        ("reason_code", jstr reason_code)].

Definition check_outcome (c : json) : option string := as_str (jget "outcome" c).
Definition check_reason (c : json) : option string := as_str (jget "reason_code" c).
Definition check_name_of (c : json) : option string := as_str (jget "check_name" c).

(** The check of one required document. *)
Definition document_check (overdue : bool) (deadline_at : datetime) (doc_type overdue_reason : string)
    (present : bool) : json :=
  let name := "required_" +:+ doc_type +:+ "_present" in
  if present then
    check_dict name "passed" ("Required " +:+ doc_type +:+ " is present") None
  else if overdue then
    check_dict name "failed"
      ("Required " +:+ doc_type +:+ " was not received by " +:+ datetime_isoformat deadline_at)
      (Some overdue_reason)
  else
    check_dict name "not_evaluated"
      ("Required " +:+ doc_type +:+ " is pending until " +:+ datetime_isoformat deadline_at) None.

Definition evaluate_missing_document_policy (sh : Shipment) (now : datetime)
    (sla_duration : timedelta) : policy_result :=
  let deadline_at := (created_at sh + sla_duration)%Z in
  let absent := where_ (λ d, negb (d.1.2 sh)) REQUIRED_DOCUMENTS in
  let missing := (λ d, d.1.1) <$> absent in
  let overdue := negb (bool_decide (missing = [])) && (deadline_at <=? now)%Z in
  let state := if overdue then "overdue"
               else if negb (bool_decide (missing = [])) then "within_grace" else "complete" in
  mk_policy_result state deadline_at missing
    (if overdue then (λ d, d.2) <$> absent else [])
    ((λ d, document_check overdue deadline_at d.1.1 d.2 (d.1.2 sh)) <$> REQUIRED_DOCUMENTS).

(** [_exception_state] *)
Definition exception_state_of (st : string) (missing reasons : list string) (deadline : datetime)
  : exception_state := mk_exception_state st missing reasons (datetime_isoformat deadline).

Definition row_state (e : ShipmentException) : exception_state :=
  exception_state_of (exc_status e) (exc_missing_docs e) (reason_codes e) (deadline_at e).

(** A new event: [notification_status] and the rest take their defaults. *)
Definition new_event (exception result : uuid) (v : Z) (tr : string)
    (before : option exception_state) (after : exception_state) (now : datetime) (i : uuid)
  : ShipmentExceptionEvent :=
  mkShipmentExceptionEvent i exception (Some result) v tr before after now "pending" 0 None None.

Definition find_exception (sid : uuid) (d : database) : option ShipmentException :=
  find_first (λ e, N.eqb (exc_shipment_id e) sid
                   && String.eqb (kind e) MISSING_DOCUMENT_EXCEPTION_KIND) (shipment_exceptions d).

Definition strs_eqb (a b : list string) : bool := bool_decide (a = b).

(** The row after a change: [existing] with the desired values. *)
Definition transition_name (desired_active : bool) (existing : ShipmentException) : string :=
  if negb desired_active then "resolved"
  else if String.eqb (exc_status existing) "resolved" then "opened" else "changed".

Definition changed_row (existing : ShipmentException) (policy : policy_result) (now : datetime)
  : ShipmentException :=
  let desired_active := String.eqb (p_state policy) "overdue" in
  mkShipmentException (exc_id existing) (exc_shipment_id existing) (kind existing)
    (if desired_active then "active" else "resolved")
    (if desired_active then p_missing_docs policy else [])
    (if desired_active then p_reason_codes policy else [])
    (p_deadline_at policy) (version existing + 1)
    (if String.eqb (transition_name desired_active existing) "opened" then now
     else opened_at existing)
    (if desired_active then None else Some now).

Definition unchanged (existing : ShipmentException) (policy : policy_result) : bool :=
  let desired_active := String.eqb (p_state policy) "overdue" in
  String.eqb (exc_status existing) (if desired_active then "active" else "resolved")
  && strs_eqb (exc_missing_docs existing) (if desired_active then p_missing_docs policy else [])
  && strs_eqb (reason_codes existing) (if desired_active then p_reason_codes policy else [])
  && Z.eqb (deadline_at existing) (p_deadline_at policy).

Definition opened_row (sid : uuid) (policy : policy_result) (now : datetime) (i : uuid)
  : ShipmentException :=
  mkShipmentException i sid MISSING_DOCUMENT_EXCEPTION_KIND "active" (p_missing_docs policy)
    (p_reason_codes policy) (p_deadline_at policy) 1 now None.

Definition sync_missing_document_exception (sh : Shipment) (policy : policy_result)
    (result : ReconciliationResult) (now : datetime) : M session (option ShipmentExceptionEvent) :=
  existing ← select (find_exception (shipment_id sh));
  let desired_active := String.eqb (p_state policy) "overdue" in
  match existing with
  | None =>
      if negb desired_active then mret None
      else
        e ← insert_exception (opened_row (shipment_id sh) policy now);
        ev ← insert_event (new_event (exc_id e) (result_id result) 1 "opened" None (row_state e) now);
        mret (Some ev)
  | Some x =>
      if unchanged x policy then mret None
      else
        let x' := changed_row x policy now in
        _ ← save_exception x';
        ev ← insert_event (new_event (exc_id x) (result_id result) (version x')
                             (transition_name desired_active x) (Some (row_state x))
                             (row_state x') now);
        mret (Some ev)
  end.

(** ** What the history of an exception promises *)

(** The changes an exception row can go through, from its state before ([None]
    before it exists) to its state after. *)
Inductive legal_change : option exception_state → string → exception_state → Prop :=
  | change_open_new s :
      st_status s = "active" → legal_change None "opened" s
  | change_update s0 s :
      st_status s0 = "active" → st_status s = "active" → legal_change (Some s0) "changed" s
  | change_resolve s0 s :
      st_status s0 = "active" → st_status s = "resolved" → legal_change (Some s0) "resolved" s
  | change_reopen s0 s :
      st_status s0 = "resolved" → st_status s = "active" → legal_change (Some s0) "opened" s
  | change_still_resolved s0 s :
      st_status s0 = "resolved" → st_status s = "resolved" → legal_change (Some s0) "resolved" s.

(** A history: events with consecutive versions, each starting from the state
    the previous one left. *)
Inductive chain : option exception_state → Z → list ShipmentExceptionEvent →
                  option exception_state → Z → Prop :=
  | chain_nil s v : chain s v [] s v
  | chain_cons s v ev evs s' v' :
      before_state ev = s → event_version ev = (v + 1)%Z →
      legal_change s (transition ev) (after_state ev) →
      chain (Some (after_state ev)) (v + 1) evs s' v' →
      chain s v (ev :: evs) s' v'.

Definition events_of (i : uuid) (d : database) : list ShipmentExceptionEvent :=
  where_ (λ ev, N.eqb (event_exception_id ev) i) (exception_events d).

(** An active row names missing documents and their reasons and is not
    resolved; a resolved one names none and has its resolution time. *)
Definition row_shape (e : ShipmentException) : Prop :=
  (exc_status e = "active" ∧ exc_missing_docs e ≠ [] ∧ reason_codes e ≠ [] ∧ resolved_at e = None)
  ∨ (exc_status e = "resolved" ∧ exc_missing_docs e = [] ∧ reason_codes e = []
     ∧ is_Some (resolved_at e)).

(** The invariant of the two exception tables. *)
Record exceptions_wf (d : database) : Prop := {
  wf_exc_ids : NoDup (exc_id <$> shipment_exceptions d);
  wf_exc_shipments : NoDup (exc_shipment_id <$> shipment_exceptions d);
  wf_exc_kinds : Forall (λ e, kind e = MISSING_DOCUMENT_EXCEPTION_KIND) (shipment_exceptions d);
  wf_event_fk : Forall (λ ev, event_exception_id ev ∈ exc_id <$> shipment_exceptions d)
                       (exception_events d);
  wf_history : Forall (λ e, chain None 0 (events_of (exc_id e) d) (Some (row_state e)) (version e))
                      (shipment_exceptions d);
  wf_shape : Forall row_shape (shipment_exceptions d)
}.

(** The policies [evaluate_missing_document_policy] returns. *)
Definition policy_wf (p : policy_result) : Prop :=
  p_state p = "overdue" → p_missing_docs p ≠ [] ∧ p_reason_codes p ≠ [].

(** ** Lemmas *)

Lemma chain_snoc s v evs s1 v1 ev :
  chain s v evs s1 v1 →
  before_state ev = s1 → event_version ev = (v1 + 1)%Z →
  legal_change s1 (transition ev) (after_state ev) →
  chain s v (evs ++ [ev]) (Some (after_state ev)) (v1 + 1).
Proof.
  induction 1 as [s v|s v ev0 evs s' v' Hb Hv Hl Hc IH]; intros H1 H2 H3; simpl.
  - econstructor; [done..|constructor].
  - econstructor; [done..|]. by apply IH.
Qed.

Lemma chain_versions s v evs s' v' :
  chain s v evs s' v' → Forall (λ ev, (event_version ev <= v')%Z) evs ∧ (v <= v')%Z.
Proof.
  induction 1 as [s v|s v ev0 evs s' v' Hb Hv Hl Hc [IH1 IH2]]; [split; [constructor|lia]|].
  split; [constructor; [lia|done]|lia].
Qed.

Lemma evaluate_policy_wf sh now sla : policy_wf (evaluate_missing_document_policy sh now sla).
Proof.
  destruct sh as [sid ln cn [] [] [] [] ii ri bi pi rs ca];
    unfold policy_wf, evaluate_missing_document_policy; cbn -[Z.leb datetime_isoformat];
    destruct (ca + sla <=? now)%Z; done.
Qed.

Lemma find_exception_Some sid d x :
  find_exception sid d = Some x →
  x ∈ shipment_exceptions d ∧ exc_shipment_id x = sid ∧ kind x = MISSING_DOCUMENT_EXCEPTION_KIND.
Proof.
  intros [Hin [->%N.eqb_eq ->%String.eqb_eq]%andb_prop]%find_first_Some. done.
Qed.

Lemma changed_row_legal x p now :
  row_shape x → policy_wf p →
  row_shape (changed_row x p now)
  ∧ legal_change (Some (row_state x))
      (transition_name (String.eqb (p_state p) "overdue") x) (row_state (changed_row x p now)).
Proof.
  intros Hx Hp. unfold changed_row, transition_name, row_state, exception_state_of, row_shape. simpl.
  destruct (String.eqb_spec (p_state p) "overdue") as [E|E]; simpl.
  - destruct (Hp E) as [Hm Hr]. split; [by left|].
    destruct Hx as [(Hs & _)|(Hs & _)]; rewrite Hs; simpl; by constructor.
  - split; [right; eauto|].
    destruct Hx as [(Hs & _)|(Hs & _)]; rewrite Hs; by constructor.
Qed.

Lemma events_of_snoc i d ev :
  events_of i (on_exception_events (λ t, t ++ [ev]) d)
  = events_of i d ++ (if N.eqb (event_exception_id ev) i then [ev] else []).
Proof. unfold events_of, where_. simpl. by rewrite List.filter_app. Qed.

(** What one [sync] leaves, when it does not raise. *)
Lemma sync_ok sh p r now s o s' :
  sync_missing_document_exception sh p r now s = (Ok o, s') →
  committed s' = committed s ∧
  match find_exception (shipment_id sh) (working s) with
  | None =>
      if String.eqb (p_state p) "overdue" then
        ∃ i ev, o = Some ev
          ∧ (∀ x, x ∈ shipment_exceptions (working s) → exc_id x ≠ i)
          ∧ (∀ x, x ∈ shipment_exceptions (working s) → exc_shipment_id x = shipment_id sh →
                  kind x ≠ MISSING_DOCUMENT_EXCEPTION_KIND)
          ∧ event_exception_id ev = i ∧ event_version ev = 1%Z ∧ transition ev = "opened"
          ∧ before_state ev = None
          ∧ after_state ev = row_state (opened_row (shipment_id sh) p now i)
          ∧ working s' = on_exception_events (λ t, t ++ [ev])
              (on_shipment_exceptions (λ t, t ++ [opened_row (shipment_id sh) p now i]) (working s))
      else o = None ∧ s' = s
  | Some x =>
      if unchanged x p then o = None ∧ s' = s
      else
        ∃ ev, o = Some ev
          ∧ event_exception_id ev = exc_id x ∧ event_version ev = (version x + 1)%Z
          ∧ transition ev = transition_name (String.eqb (p_state p) "overdue") x
          ∧ before_state ev = Some (row_state x)
          ∧ after_state ev = row_state (changed_row x p now)
          ∧ working s' = on_exception_events (λ t, t ++ [ev])
              (on_shipment_exceptions
                 (update_where (λ e, N.eqb (exc_id e) (exc_id x)) (λ _, changed_row x p now))
                 (working s))
  end.
Proof.
  unfold sync_missing_document_exception. intros H.
  apply bind_ok_inv in H as (ex & s0 & [= <- <-] & H).
  destruct (find_exception (shipment_id sh) (working s)) as [x|].
  - destruct (unchanged x p); [injection H as <- <-; done|].
    apply bind_ok_inv in H as (u & s1 & [_ ->]%save_exception_ok & H).
    apply bind_ok_inv in H as (ev & s2 & H & [= <- <-]).
    apply insert_event_ok in H as (i & -> & Hw & Hc & _). split; [done|].
    eexists. split; [done|]. simpl. split_and!; try done.
  - destruct (String.eqb (p_state p) "overdue"); simpl in H; [|injection H as <- <-; done].
    apply bind_ok_inv in H as (e & s1 & He & H).
    apply bind_ok_inv in H as (ev & s2 & H & [= <- <-]).
    apply insert_exception_ok in He as (i & -> & Hw1 & Hc1 & Hid & Huniq).
    apply insert_event_ok in H as (j & -> & Hw & Hc & _). split; [congruence|].
    exists i. eexists. split; [done|]. simpl in *. split_and!; try done.
    by rewrite Hw, Hw1.
Qed.

Lemma chain_events_fk d i :
  Forall (λ ev, event_exception_id ev ∈ exc_id <$> shipment_exceptions d) (exception_events d) →
  (∀ x, x ∈ shipment_exceptions d → exc_id x ≠ i) → events_of i d = [].
Proof.
  intros Hfk Hi. apply filter_none. intros ev Hev. apply N.eqb_neq. intros E.
  rewrite Forall_forall in Hfk. apply Hfk in Hev. rewrite E in Hev.
  apply list_elem_of_fmap in Hev as (x & Hx & Hin). by apply (Hi x).
Qed.

(** Opening a new exception keeps the invariant. *)
Lemma wf_open d sid p now i ev :
  exceptions_wf d → policy_wf p → p_state p = "overdue" →
  (∀ x, x ∈ shipment_exceptions d → exc_id x ≠ i) →
  (∀ x, x ∈ shipment_exceptions d → exc_shipment_id x = sid →
        kind x ≠ MISSING_DOCUMENT_EXCEPTION_KIND) →
  event_exception_id ev = i → event_version ev = 1%Z → transition ev = "opened" →
  before_state ev = None → after_state ev = row_state (opened_row sid p now i) →
  exceptions_wf (on_exception_events (λ t, t ++ [ev])
    (on_shipment_exceptions (λ t, t ++ [opened_row sid p now i]) d)).
Proof.
  intros [W1 W2 W3 W4 W5 W6] Hp Ho Hi Hs E1 E2 E3 E4 E5.
  set (e := opened_row sid p now i). set (d' := on_shipment_exceptions (λ t, t ++ [e]) d).
  assert (Hev : ∀ j, events_of j d' = events_of j d) by done.
  split; simpl.
  - rewrite fmap_app, NoDup_app. split; [done|]. split; [|apply NoDup_singleton].
    intros k Hk Hk'. apply list_elem_of_fmap in Hk as (x & -> & Hx).
    apply list_elem_of_fmap in Hk' as (y & E & ->%list_elem_of_singleton). by apply (Hi x).
  - rewrite fmap_app, NoDup_app. split; [done|]. split; [|apply NoDup_singleton].
    intros k Hk Hk'. apply list_elem_of_fmap in Hk as (x & -> & Hx).
    apply list_elem_of_fmap in Hk' as (y & E & ->%list_elem_of_singleton).
    rewrite Forall_forall in W3. by apply (Hs x Hx E), W3.
  - apply Forall_app. split; [done|]. by repeat constructor.
  - apply Forall_app. split.
    + eapply Forall_impl; [exact W4|]. simpl. intros x Hx. rewrite fmap_app. set_solver.
    + constructor; [|constructor]. rewrite fmap_app, E1. set_solver.
  - rewrite Forall_forall in W5 |- *. intros x Hx%elem_of_app.
    rewrite events_of_snoc, E1, Hev. destruct Hx as [Hx|Hx%list_elem_of_singleton].
    + rewrite (proj2 (N.eqb_neq i (exc_id x))) by (intros E; by apply (Hi x)).
      rewrite app_nil_r. by apply W5.
    + subst x. simpl. rewrite N.eqb_refl, (chain_events_fk d i W4 Hi). simpl.
      fold e in E5. rewrite <- E5. apply (chain_snoc None 0 [] None 0 ev); try done.
      { constructor. }
      rewrite E3, E5. by constructor.
  - apply Forall_app. split; [done|]. constructor; [|constructor].
    destruct (Hp Ho). left. done.
Qed.

(** Changing an existing exception keeps the invariant. *)
Lemma wf_change d x p now ev :
  exceptions_wf d → policy_wf p → x ∈ shipment_exceptions d →
  event_exception_id ev = exc_id x → event_version ev = (version x + 1)%Z →
  transition ev = transition_name (String.eqb (p_state p) "overdue") x →
  before_state ev = Some (row_state x) → after_state ev = row_state (changed_row x p now) →
  exceptions_wf (on_exception_events (λ t, t ++ [ev])
    (on_shipment_exceptions
       (update_where (λ e, N.eqb (exc_id e) (exc_id x)) (λ _, changed_row x p now)) d)).
Proof.
  intros [W1 W2 W3 W4 W5 W6] Hp Hx E1 E2 E3 E4 E5.
  set (q := λ e, N.eqb (exc_id e) (exc_id x)).
  assert (Hq : ∀ y, y ∈ shipment_exceptions d → q y = true → y = x).
  { intros y Hy Hqy%N.eqb_eq. by apply (NoDup_fmap_inj exc_id (shipment_exceptions d)). }
  assert (Hids : exc_id <$> update_where q (λ _, changed_row x p now) (shipment_exceptions d)
                 = exc_id <$> shipment_exceptions d).
  { apply update_where_map. intros y Hy Hqy. by rewrite (Hq y Hy Hqy). }
  assert (Hall : ∀ (P : ShipmentException → Prop),
    (∀ y, y ∈ shipment_exceptions d → q y = false → P y) → P (changed_row x p now) →
    Forall P (update_where q (λ _, changed_row x p now) (shipment_exceptions d))).
  { intros P H1 H2. apply Forall_forall. intros y Hy.
    apply list_elem_of_fmap in Hy as (z & -> & Hz). destruct (q z) eqn:Eq; [done|by apply H1]. }
  rewrite Forall_forall in W3, W5, W6.
  destruct (changed_row_legal x p now (W6 x Hx) Hp) as [Hshape Hlegal].
  assert (Hev : ∀ j f, events_of j (on_shipment_exceptions f d) = events_of j d) by done.
  split; cbn -[events_of].
  - by rewrite Hids.
  - rewrite update_where_map; [done|]. intros y Hy Hqy. by rewrite (Hq y Hy Hqy).
  - apply Hall; [by intros y Hy _; apply W3|]. by apply (W3 x).
  - rewrite Hids. apply Forall_app. split; [done|]. constructor; [|constructor].
    rewrite E1. by apply list_elem_of_fmap_2.
  - apply Hall.
    + intros y Hy Hqy. rewrite events_of_snoc, Hev, E1.
      unfold q in Hqy. rewrite N.eqb_sym in Hqy. rewrite Hqy, app_nil_r. by apply W5.
    + rewrite events_of_snoc, Hev. simpl exc_id. rewrite E1, N.eqb_refl.
      rewrite <- E5. apply (chain_snoc _ _ _ _ _ ev (W5 x Hx)); [done|done|].
      by rewrite E3, E5.
  - apply Hall; [by intros y Hy _; apply W6|done].
Qed.

(** One synchronisation keeps the invariant of the exception tables. *)
Lemma sync_preserves_wf sh p r now s o s' :
  exceptions_wf (working s) → policy_wf p →
  sync_missing_document_exception sh p r now s = (Ok o, s') → exceptions_wf (working s').
Proof.
  intros W Hp H. apply sync_ok in H as [_ H].
  destruct (find_exception (shipment_id sh) (working s)) as [x|] eqn:Ef.
  - destruct (unchanged x p); [by destruct H as [_ ->]|].
    destruct H as (ev & _ & E1 & E2 & E3 & E4 & E5 & ->).
    apply find_exception_Some in Ef as (Hx & _). by apply wf_change.
  - destruct (String.eqb_spec (p_state p) "overdue") as [Eo|]; [|by destruct H as [_ ->]].
    destruct H as (i & ev & _ & Hi & Hs & E1 & E2 & E3 & E4 & E5 & ->). by apply wf_open.
Qed.

Lemma unchanged_changed_row x p now : unchanged (changed_row x p now) p = true.
Proof.
  unfold unchanged, changed_row, strs_eqb. simpl.
  rewrite String.eqb_refl, Z.eqb_refl. by rewrite !bool_decide_eq_true_2.
Qed.

(** After a synchronisation the exception row agrees with the policy. *)
Lemma sync_settles sh p r now s o s' :
  exceptions_wf (working s) →
  sync_missing_document_exception sh p r now s = (Ok o, s') →
  match find_exception (shipment_id sh) (working s') with
  | Some x => unchanged x p = true
  | None => p_state p ≠ "overdue"
  end.
Proof.
  intros W H. pose proof (sync_ok _ _ _ _ _ _ _ H) as [_ K].
  destruct (find_exception (shipment_id sh) (working s)) as [x|] eqn:Ef.
  - destruct (unchanged x p) eqn:Eu; [destruct K as [_ ->]; by rewrite Ef|].
    destruct K as (ev & _ & _ & _ & _ & _ & _ & ->).
    apply find_exception_Some in Ef as Ef'. destruct Ef' as (Hx & Hsid & Hk).
    unfold find_exception. simpl. rewrite find_first_update_where.
    + unfold find_exception in Ef. rewrite Ef. simpl. rewrite N.eqb_refl.
      apply unchanged_changed_row.
    + intros y Hy Hq%N.eqb_eq.
      by rewrite (NoDup_fmap_inj exc_id _ _ _ (wf_exc_ids _ W) Hy Hx Hq).
  - destruct (String.eqb_spec (p_state p) "overdue") as [Eo|En];
      [|destruct K as [_ ->]; by rewrite Ef].
    destruct K as (i & ev & _ & _ & _ & _ & _ & _ & _ & _ & ->).
    unfold find_exception in *. simpl. rewrite find_first_app, Ef. simpl. rewrite N.eqb_refl. simpl.
    unfold unchanged. simpl. rewrite Eo. simpl. rewrite Z.eqb_refl. unfold strs_eqb.
    by rewrite !bool_decide_eq_true_2.
Qed.

(** The events of a row do not run ahead of its version. *)
Lemma chain_event_versions d x :
  exceptions_wf d → x ∈ shipment_exceptions d →
  ∀ ev, ev ∈ exception_events d → event_exception_id ev = exc_id x →
        (event_version ev <= version x)%Z.
Proof.
  intros W Hx ev Hev E.
  pose proof (proj1 (Forall_forall _ _) (wf_history _ W) x Hx) as Hc.
  apply chain_versions in Hc as [Hc _]. rewrite Forall_forall in Hc. apply Hc.
  apply list_elem_of_In, filter_In. rewrite <- list_elem_of_In. split; [done|by apply N.eqb_eq].
Qed.

(** Only the exceptions and their events change. *)
Definition same_but_exceptions (d d' : database) : Prop :=
  d' = on_exception_events (λ _, exception_events d')
         (on_shipment_exceptions (λ _, shipment_exceptions d') d).

Lemma same_but_exceptions_refl d : same_but_exceptions d d.
Proof. unfold same_but_exceptions. by destruct d. Qed.

(** With fresh identifiers and the shipment in its table, [sync] never violates
    a constraint. *)
Lemma sync_runs sh p r now s :
  exceptions_wf (working s) → rng_fresh s →
  shipment_id sh ∈ shipment_id <$> shipments (working s) →
  ∃ o s', sync_missing_document_exception sh p r now s = (Ok o, s') ∧ rng_fresh s'
          ∧ same_but_exceptions (working s) (working s')
          ∧ doc_seq (senv s') = doc_seq (senv s) ∧ clock (senv s') = clock (senv s).
Proof.
  intros W Hf Hsh. unfold sync_missing_document_exception.
  pose proof (same_but_exceptions_refl (working s)) as Hrefl.
  rewrite bind_unfold. cbn [select gets].
  destruct (find_exception (shipment_id sh) (working s)) as [x|] eqn:Ef.
  - destruct (unchanged x p); [exists None, s; repeat (split; [exact Hf || apply same_but_exceptions_refl || done|]); done|].
    apply find_exception_Some in Ef as (Hx & _).
    pose proof (proj1 (Forall_forall _ _) (wf_shape _ W) x Hx) as Hshape.
    pose proof (proj1 (Forall_forall _ _) (wf_exc_kinds _ W) x Hx) as Hkind. simpl in Hkind.
    rewrite bind_unfold, save_exception_runs.
    2:{ unfold ck_exception, changed_row. simpl. rewrite Hkind.
        by destruct (String.eqb (p_state p) "overdue"). }
    set (s1 := on_working _ s).
    assert (Hids : exc_id <$> shipment_exceptions (working s1)
                   = exc_id <$> shipment_exceptions (working s)).
    { apply update_where_map. intros y Hy Hq%N.eqb_eq. by rewrite Hq. }
    assert (Hf1 : rng_fresh s1).
    { apply rng_fresh_same; [done|]. intros u Hu. change (u ∈ uuids_of (working s1)) in Hu.
      assert (uuids_of (working s1) = uuids_of (working s)) as <-; [|done].
      unfold uuids_of. do 4 f_equal. by apply (f_equal (.++ _)). }
    destruct (insert_event_runs (new_event (exc_id x) (result_id r) (version (changed_row x p now))
      (transition_name (String.eqb (p_state p) "overdue") x) (Some (row_state x))
      (row_state (changed_row x p now)) now) s1) as [E Hf2]; [done|done| | | |].
    + unfold transition_name. destruct (String.eqb (p_state p) "overdue"),
        (String.eqb (exc_status x) "resolved"); done.
    + intros ev Hev Eid Ev. simpl in Eid, Ev.
      pose proof (chain_event_versions _ _ W Hx ev Hev Eid). lia.
    + rewrite Hids. exact (list_elem_of_fmap_2 exc_id _ _ Hx).
    + rewrite bind_unfold, E. eexists _, _. by split; [reflexivity|].
  - destruct (String.eqb (p_state p) "overdue"); cbn [negb]; [|by exists None, s].
    destruct (insert_exception_runs (opened_row (shipment_id sh) p now) s)
      as [E Hf1]; [done|done|done| |done|].
    { intros y Hy Ey Ek. unfold find_exception in Ef. rewrite find_first_None in Ef.
      specialize (Ef y Hy). simpl in Ey, Ek. by rewrite Ey, Ek, N.eqb_refl in Ef. }
    rewrite bind_unfold, E.
    match type of Hf1 with rng_fresh ?t => set (s1 := t) in * end.
    destruct (insert_event_runs (new_event (fresh_uuid s) (result_id r) 1 "opened" None
      (row_state (opened_row (shipment_id sh) p now (fresh_uuid s))) now) s1)
      as [E2 Hf2]; [done|done|done| | |].
    + intros ev Hev Eid Ev. simpl in Eid.
      pose proof (proj1 (Forall_forall _ _) (wf_event_fk _ W) ev Hev) as Hin.
      simpl in Hin. rewrite Eid in Hin.
      apply (proj1 Hf (rng_pos (senv s))); [done|]. unfold uuids_of. rewrite !elem_of_app. tauto.
    + simpl. rewrite fmap_app. set_solver.
    + rewrite bind_unfold. simpl exc_id. rewrite E2. eexists _, _. by split; [reflexivity|].
Qed.

(** ** Histories as the program produces them

    [sync_reachable]: the states of the two tables after any number of
    synchronisations, each with a policy evaluated from some shipment row, and
    of changes by the rest of the program, which writes neither the exception
    rows nor the history fields of their events (the notifier writes only the
    notification fields). *)

Definition event_core (ev : ShipmentExceptionEvent) :=
  (event_id ev, event_exception_id ev, event_version ev, transition ev, before_state ev,
   after_state ev).

Definition history_kept (d d' : database) : Prop :=
  shipment_exceptions d' = shipment_exceptions d
  ∧ event_core <$> exception_events d' = event_core <$> exception_events d.

Inductive sync_reachable : database → Prop :=
  | sr_empty d :
      shipment_exceptions d = [] → exception_events d = [] → sync_reachable d
  | sr_sync s sh row t now sla r o s' :
      sync_reachable (working s) →
      sync_missing_document_exception sh (evaluate_missing_document_policy row t sla) r now s
        = (Ok o, s') →
      sync_reachable (working s')
  | sr_other d d' :
      sync_reachable d → history_kept d d' → sync_reachable d'.

Lemma chain_core s v l s' v' l' :
  chain s v l s' v' → event_core <$> l' = event_core <$> l → chain s v l' s' v'.
Proof.
  intros H. revert l'. induction H as [s v|s v ev evs s' v' Hb Hv Hl Hc IH]; intros l' E.
  - apply fmap_nil_inv in E. subst. constructor.
  - rewrite fmap_cons in E. apply fmap_cons_inv in E as (ev' & l2 & E1 & E2 & ->).
    unfold event_core in E1. injection E1 as _ _ Ev Et Eb Ea.
    apply chain_cons; [congruence..| |].
    + rewrite <- Et, <- Ea. done.
    + rewrite <- Ea. apply IH. symmetry. exact E2.
Qed.

Lemma events_core d d' i :
  event_core <$> exception_events d' = event_core <$> exception_events d →
  event_core <$> events_of i d' = event_core <$> events_of i d.
Proof.
  unfold events_of, where_. revert d'. generalize (exception_events d). intros l d'.
  generalize (exception_events d'). revert l. clear.
  induction l as [|ev l IH]; intros l' E; [apply fmap_nil_inv in E; by subst|].
  rewrite fmap_cons in E. apply fmap_cons_inv in E as (ev' & l2 & E1 & E2 & ->).
  cbn [List.filter]. assert (event_exception_id ev' = event_exception_id ev) as ->.
  { unfold event_core in E1. by injection E1. }
  destruct (N.eqb _ i); [rewrite !fmap_cons, E1; f_equal|]; apply IH; by rewrite E2.
Qed.

Lemma history_kept_wf d d' : exceptions_wf d → history_kept d d' → exceptions_wf d'.
Proof.
  intros [W1 W2 W3 W4 W5 W6] [E1 E2]. split; rewrite ?E1; try done.
  - assert (H : Forall (λ k, k.1.1.1.1.2 ∈ exc_id <$> shipment_exceptions d)
                       (event_core <$> exception_events d')).
    { rewrite E2. apply Forall_fmap. exact W4. }
    rewrite Forall_fmap in H. exact H.
  - eapply Forall_impl; [exact W5|]. simpl. intros x Hx.
    eapply chain_core; [exact Hx|]. by apply events_core.
Qed.

Lemma sync_reachable_wf d : sync_reachable d → exceptions_wf d.
Proof.
  induction 1 as [d E1 E2|s sh row t now sla r o s' _ IH H|d d' _ IH K].
  - split; rewrite ?E1, ?E2; by constructor.
  - eapply sync_preserves_wf; [exact IH|apply evaluate_policy_wf|exact H].
  - by eapply history_kept_wf.
Qed.

Lemma chain_numbered s v evs s' v' :
  chain s v evs s' v' →
  v' = (v + Z.of_nat (length evs))%Z
  ∧ ∀ k ev, evs !! k = Some ev → event_version ev = (v + 1 + Z.of_nat k)%Z.
Proof.
  induction 1 as [s v|s v ev evs s' v' Hb Hv Hl Hc [IH1 IH2]]; simpl; [split; [lia|done]|].
  split; [lia|]. intros [|k] ev' Hk; simpl in Hk.
  - injection Hk as <-. lia.
  - apply IH2 in Hk. lia.
Qed.

Lemma unchanged_active x p :
  unchanged x p = true → (exc_status x = "active" ↔ p_state p = "overdue").
Proof.
  unfold unchanged. rewrite !Bool.andb_true_iff. intros [[[Hs _] _] _].
  apply String.eqb_eq in Hs. rewrite Hs.
  destruct (String.eqb_spec (p_state p) "overdue"); naive_solver.
Qed.

(** The shipment has an active missing-document exception. *)
Definition active_exception (sid : uuid) (d : database) : bool :=
  match find_exception sid d with
  | Some x => String.eqb (exc_status x) "active"
  | None => false
  end.

Lemma sync_active sh p r now s o s' :
  exceptions_wf (working s) →
  sync_missing_document_exception sh p r now s = (Ok o, s') →
  (active_exception (shipment_id sh) (working s') = true ↔ p_state p = "overdue").
Proof.
  intros W H. apply sync_settles in H; [|done]. unfold active_exception.
  destruct (find_exception _ _) as [x|]; [|naive_solver].
  rewrite String.eqb_eq. by apply unchanged_active.
Qed.

Lemma find_first_app_none {A} (p : A → bool) (l : list A) x :
  p x = false → find_first p (l ++ [x]) = find_first p l.
Proof. intros H. rewrite find_first_app. cbn. rewrite H. by destruct (find_first p l). Qed.

(** The exceptions of other shipments are not touched. *)
Lemma sync_others sh p r now s o s' sid :
  exceptions_wf (working s) → sid ≠ shipment_id sh →
  sync_missing_document_exception sh p r now s = (Ok o, s') →
  find_exception sid (working s') = find_exception sid (working s).
Proof.
  intros W Hne H. apply sync_ok in H as [_ H].
  destruct (find_exception (shipment_id sh) (working s)) as [x|] eqn:Ef.
  - destruct (unchanged x p); [by destruct H as [_ ->]|].
    destruct H as (ev & _ & _ & _ & _ & _ & _ & ->).
    apply find_exception_Some in Ef as (Hx & Hsid & Hk).
    assert (Hq : ∀ y, y ∈ shipment_exceptions (working s) → N.eqb (exc_id y) (exc_id x) = true →
                      y = x).
    { intros y Hy E%N.eqb_eq. by apply (NoDup_fmap_inj exc_id _ _ _ (wf_exc_ids _ W)). }
    unfold find_exception at 1. cbn -[find_first update_where]. rewrite find_first_update_where.
    2:{ intros y Hy E. by rewrite (Hq y Hy E). }
    fold (find_exception sid (working s)).
    destruct (find_exception sid (working s)) as [y|] eqn:Ey; [|done].
    apply find_exception_Some in Ey as (Hy & Hsy & _). simpl.
    destruct (N.eqb (exc_id y) (exc_id x)) eqn:E; [|done].
    rewrite (Hq y Hy E) in Hsy. congruence.
  - destruct (String.eqb_spec (p_state p) "overdue"); [|by destruct H as [_ ->]].
    destruct H as (i & ev & _ & _ & _ & _ & _ & _ & _ & _ & ->).
    unfold find_exception. cbn -[find_first]. apply find_first_app_none. cbn.
    by rewrite (proj2 (N.eqb_neq _ _)).
Qed.

(** ** Properties *)

(** C25 The history of exceptions, in every reachable state of the tables: a
    shipment has at most one missing-document exception; the events of an
    exception, in order, are numbered 1, 2, ... up to its version, the first has no
    before state, each starts from the state the previous one left, makes one of
    the legal changes, and the last leaves the state the row shows; an
    active row names what is missing and why, a resolved one names nothing. *)
Theorem exception_history_sound d :
  sync_reachable d →
  NoDup (exc_shipment_id <$> shipment_exceptions d)
  ∧ ∀ x, x ∈ shipment_exceptions d →
      row_shape x
      ∧ chain None 0 (events_of (exc_id x) d) (Some (row_state x)) (version x)
      ∧ version x = Z.of_nat (length (events_of (exc_id x) d))
      ∧ ∀ k ev, events_of (exc_id x) d !! k = Some ev → event_version ev = Z.of_nat (S k).
Proof.
  intros [W1 W2 W3 W4 W5 W6]%sync_reachable_wf. split; [done|]. intros x Hx.
  rewrite Forall_forall in W5, W6. specialize (W5 x Hx).
  split; [by apply W6|]. split; [done|].
  destruct (chain_numbered _ _ _ _ _ W5) as [E1 E2]. split; [lia|].
  intros k ev Hk%E2. lia.
Qed.

(** One synchronisation settles the exception: afterwards the shipment has an
    active exception exactly when the policy is overdue, and synchronising again
    with the same policy, at any time and for any result, changes nothing and
    records no event. *)
Theorem sync_idempotent sh p r now s o s' :
  sync_reachable (working s) →
  sync_missing_document_exception sh p r now s = (Ok o, s') →
  (active_exception (shipment_id sh) (working s') = true ↔ p_state p = "overdue")
  ∧ ∀ r' now', sync_missing_document_exception sh p r' now' s' = (Ok None, s').
Proof.
  intros W%sync_reachable_wf H. split; [by eapply sync_active|]. intros r' now'.
  apply sync_settles in H; [|done]. unfold sync_missing_document_exception.
  rewrite bind_unfold. cbn [select gets].
  destruct (find_exception (shipment_id sh) (working s')) as [x|]; [by rewrite H|].
  by rewrite (proj2 (String.eqb_neq _ _) H).
Qed.

(** Synchronising never violates a constraint of the two tables (one
    exception per shipment and kind, one event per exception and version, the
    foreign keys): from a reachable state, with the shipment in its table and
    identifiers that do not repeat, it returns. *)
Theorem sync_never_violates sh p r now s :
  sync_reachable (working s) → rng_fresh s →
  shipment_id sh ∈ shipment_id <$> shipments (working s) →
  ∃ o s', sync_missing_document_exception sh p r now s = (Ok o, s').
Proof.
  intros W%sync_reachable_wf Hf Hsh.
  destruct (sync_runs sh p r now s W Hf Hsh) as (o & s' & H & _). by exists o, s'.
Qed.


(** The policy, on every shipment, time and SLA. *)
Theorem missing_document_policy_correct sh now sla :
  let p := evaluate_missing_document_policy sh now sla in
  let all_present := has_invoice sh && has_rate_con sh && has_bol sh && has_pod sh in
  let late := (created_at sh + sla <=? now)%Z in
  p_state p = (if all_present then "complete" else if late then "overdue" else "within_grace")
  ∧ p_deadline_at p = (created_at sh + sla)%Z
  ∧ p_missing_docs p =
      (if has_invoice sh then [] else ["invoice"]) ++ (if has_rate_con sh then [] else ["rate_con"])
      ++ (if has_bol sh then [] else ["bol"]) ++ (if has_pod sh then [] else ["pod"])
  ∧ length (p_reason_codes p) = (if String.eqb (p_state p) "overdue"
                                 then length (p_missing_docs p) else 0)
  ∧ omap check_reason (where_ (λ c, sql_eq String.eqb (check_outcome c) "failed") (p_checks p))
    = p_reason_codes p
  ∧ check_outcome <$> p_checks p =
      (λ present : bool, Some (if present then "passed" else if late then "failed"
                               else "not_evaluated"))
      <$> [has_invoice sh; has_rate_con sh; has_bol sh; has_pod sh].
Proof.
  destruct sh as [sid ln cn [] [] [] [] ii ri bi pi rs ca];
    unfold evaluate_missing_document_policy; cbn -[Z.leb datetime_isoformat];
    generalize (datetime_isoformat (ca + sla)); intros iso;
    destruct (ca + sla <=? now)%Z; split_and!; reflexivity.
Qed.

(** A shipment once overdue stays so until a document arrives. *)
Theorem overdue_is_stable sh now later sla :
  p_state (evaluate_missing_document_policy sh now sla) = "overdue" →
  (now <= later)%Z →
  evaluate_missing_document_policy sh later sla = evaluate_missing_document_policy sh now sla.
Proof.
  unfold evaluate_missing_document_policy. intros H Hle.
  destruct (negb (bool_decide _)); simpl in *; [|done].
  destruct (created_at sh + sla <=? now)%Z eqn:E; [|done].
  by replace (created_at sh + sla <=? later)%Z with true by lia.
Qed.

(** ** Examples *)

Definition demo_shipment : Shipment :=
  mkShipment 7 "LD-1" None true true true false (Some 1%Z) (Some 2%Z) (Some 3%Z) None
    "partial" 0.
Definition demo_result : ReconciliationResult :=
  mkReconciliationResult 8 7 None "scheduled_sla" None [] [] [] 0.
Definition demo_session : session :=
  session_on (on_shipments (λ _, [demo_shipment]) empty_database) (hours 80).
Definition demo_policy : policy_result :=
  evaluate_missing_document_policy demo_shipment (hours 80) (hours 72).
Definition demo_opened : session :=
  (sync_missing_document_exception demo_shipment demo_policy demo_result (hours 80)
     demo_session).2.
Definition demo_event : option ShipmentExceptionEvent :=
  match (sync_missing_document_exception demo_shipment demo_policy demo_result (hours 80)
           demo_session).1 with
  | Ok o => o
  | Raise _ => None
  end.
Lemma demo_sync :
  sync_missing_document_exception demo_shipment demo_policy demo_result (hours 80) demo_session
  = (Ok demo_event, demo_opened).
Proof. vm_compute. reflexivity. Qed.

Lemma overdue_is_stable_witness :
  p_state demo_policy = "overdue"
  ∧ evaluate_missing_document_policy demo_shipment (hours 96) (hours 72) = demo_policy.
Proof.
  split; [reflexivity|].
  apply (overdue_is_stable demo_shipment (hours 80) (hours 96) (hours 72)); [reflexivity|].
  by vm_compute.
Defined.

Lemma exception_history_sound_witness :
  sync_reachable (working demo_opened)
  ∧ length (shipment_exceptions (working demo_opened)) = 1
  ∧ NoDup (exc_shipment_id <$> shipment_exceptions (working demo_opened)).
Proof.
  assert (H : sync_reachable (working demo_opened)).
  { eapply (sr_sync demo_session demo_shipment demo_shipment (hours 80) (hours 80) (hours 72)).
    - by apply sr_empty.
    - exact demo_sync. }
  split; [exact H|]. split; [reflexivity|]. apply (exception_history_sound _ H).
Defined.

Lemma sync_idempotent_witness :
  sync_missing_document_exception demo_shipment demo_policy demo_result (hours 90) demo_opened
  = (Ok None, demo_opened).
Proof.
  eapply (sync_idempotent demo_shipment demo_policy demo_result (hours 80) demo_session).
  - by apply sr_empty.
  - exact demo_sync.
Defined.

Lemma sync_never_violates_witness :
  ∃ o s', sync_missing_document_exception demo_shipment demo_policy demo_result (hours 80)
            demo_session = (Ok o, s').
Proof.
  apply sync_never_violates.
  - by apply sr_empty.
  - apply session_on_fresh. repeat constructor.
  - simpl. set_solver.
Defined.
