(* ===== verification/Shipments.v ===== *)
(** * Shipment assembly

    [app/services/shipment.py]: a document with a load number is attached to the
    shipment of that number, which is created on first sight; a rate
    confirmation of the management table is represented by a companion
    document.  ORM objects are rows here: a mutated object is written back with
    [save_shipment] and [save_document]. *)

From S2P Require Import Prelude PyText LoadNumbers PyFloat DateTime Json Database.
From Stdlib Require Import Ascii.
Local Open Scope string_scope.
Local Open Scope list_scope.
Local Open Scope nat_scope.

Abbreviation extraction := (list (string * json)) (only parsing).

(** [DOC_FIELDS]: per document type, the reading and the writing of its document
    id and the writing of its presence flag. *)
Record doc_fields := mk_doc_fields {
  get_id : Shipment → option Z;
  put_id : option Z → Shipment → Shipment;
  get_present : Shipment → bool;
  put_present : bool → Shipment → Shipment
}.

Definition DOC_FIELDS : list (string * doc_fields) :=
  [("invoice", mk_doc_fields invoice_id set_invoice_id has_invoice set_has_invoice);
   ("rate_confirmation", mk_doc_fields rate_con_id set_rate_con_id has_rate_con set_has_rate_con);
   ("bill_of_lading", mk_doc_fields bol_id set_bol_id has_bol set_has_bol);
   ("proof_of_delivery", mk_doc_fields pod_id set_pod_id has_pod set_has_pod)].

(** [_present_count] *)
Definition present_count (sh : Shipment) : nat :=
  count_by (λ b, b) [has_invoice sh; has_rate_con sh; has_bol sh; has_pod sh].

Definition rate_confirmation_extraction (rc : RateConfirmation) : extraction :=
  [("rate_confirmation_id", JStr (uuid_str (rc_id rc)));
   ("load_number", JStr (rc_load_number rc));
   ("carrier_name", JStr (rc_carrier_name rc));
   ("origin", JStr (origin rc));
   ("destination", JStr (destination rc));
   ("agreed_rate", JFloat (agreed_rate rc));
   ("currency", JStr (currency rc));
   ("shipment_date", JStr (date_isoformat (shipment_date rc)));
   ("doc_type", JStr "rate_confirmation")].

(** [Document.extracted_data[key].astext == v] for a UUID text [v], which no
    JSON value but the string itself prints as. *)
Definition jsonb_text_is (key v : string) (data : option json) : bool :=
  match data with
  | Some j => match jget key j with Some (JStr t) => String.eqb t v | _ => false end
  | None => false
  end.

Definition new_companion (rc : RateConfirmation) (i : Z) (now : datetime) : Document :=
  mkDocument i ("manual-rate-confirmation-" +:+ rc_load_number rc +:+ ".json")
    "rate_confirmation" "extracted" None (Some (JObj (rate_confirmation_extraction rc)))
    None None None None None None None now.

(** [_rate_confirmation_document] *)
Definition rate_confirmation_document (rc : RateConfirmation) (sh : Shipment) : M session Document :=
  found ← select (λ d, where_ (λ doc, String.eqb (doc_type doc) "rate_confirmation"
            && jsonb_text_is "rate_confirmation_id" (uuid_str (rc_id rc)) (extracted_data doc))
            (documents d));
  document ← scalar_one_or_none found;
  document ← match document with
             | None => insert_document (new_companion rc)
             | Some doc => mret doc
             end;
  let document := set_extracted_data (Some (JObj (rate_confirmation_extraction rc)))
                    (set_doc_shipment_id (Some (shipment_id sh)) document) in
  _ ← save_document document;
  mret document.

(** [if not shipment.carrier_name: shipment.carrier_name = v] *)
Definition fill_carrier (v : option string) (sh : Shipment) : Shipment :=
  if opt_truthy str_truthy (carrier_name sh) then sh else set_carrier_name v sh.

(** [_attach_existing_rate_confirmation]; the row it leaves is returned. *)
Definition attach_existing_rate_confirmation (sh : Shipment) : M session Shipment :=
  match rate_con_id sh with
  | Some _ => mret (set_has_rate_con true sh)
  | None =>
      found ← select (λ d, where_ (λ rc, String.eqb (rc_load_number rc) (load_number sh))
                                  (rate_confirmations d));
      rate_confirmation ← scalar_one_or_none found;
      match rate_confirmation with
      | None => mret sh
      | Some rc =>
          document ← rate_confirmation_document rc sh;
          let sh := set_has_rate_con true (set_rate_con_id (Some (doc_id document)) sh) in
          mret (fill_carrier (Some (rc_carrier_name rc)) sh)
      end
  end.

Definition new_shipment (ln : string) (i : uuid) (now : datetime) : Shipment :=
  mkShipment i ln None false false false false None None None None "pending" now.

(** [insert(Shipment).values(id=uuid4(), ...).on_conflict_do_nothing(load_number)] *)
Definition insert_shipment_do_nothing (ln : string) : M session unit :=
  i ← uuid4;
  now ← db_clock;
  let sh := new_shipment ln i now in
  t ← select shipments;
  _ ← insist (ck_shipment sh) "ck_shipments";
  if existsb (λ x, String.eqb (load_number x) ln) t then mret tt
  else
    _ ← insist (negb (existsb (λ x, N.eqb (shipment_id x) i) t)) "shipments_pkey";
    modify (on_working (on_shipments (λ t, t ++ [sh]))).

(** [setattr] of the two fields of the document's type. *)
Definition attach_document (document : Document) (sh : Shipment) : Shipment :=
  match dict_get (doc_type document) DOC_FIELDS with
  | None => sh
  | Some f =>
      put_present f true
        (match get_id f sh with None => put_id f (Some (doc_id document)) sh | Some _ => sh end)
  end.

(** [if not shipment.carrier_name and extraction.get("carrier_name"): ...]; the
    driver refuses a value that is not a string. *)
Definition carrier_from_extraction (ex : extraction) (sh : Shipment) : M session Shipment :=
  if opt_truthy str_truthy (carrier_name sh) then mret sh
  else match dict_get "carrier_name" ex with
       | Some (JStr c) => mret (if str_truthy c then set_carrier_name (Some c) sh else sh)
       | Some j => if jtruthy j then raise (Exn (OtherError "DataError") "expected str") else mret sh
       | None => mret sh
       end.

Definition assembly_status (sh : Shipment) : string :=
  let n := present_count sh in
  if Nat.eqb n 0 then "pending"
  else if Nat.ltb n (length DOC_FIELDS) then "partial" else reconciliation_status sh.

(** The part of [upsert_shipment] under the row lock. *)
Definition attach_to_shipment (sh : Shipment) (document : Document) (ex : extraction)
  : M session Shipment :=
  let document := set_doc_shipment_id (Some (shipment_id sh)) document in
  _ ← save_document document;
  let sh := attach_document document sh in
  sh ← carrier_from_extraction ex sh;
  sh ← attach_existing_rate_confirmation sh;
  let sh := set_reconciliation_status (assembly_status sh) sh in
  _ ← save_shipment sh;
  mret sh.

Definition upsert_shipment (ln : option string) (document : Document) (ex : extraction)
  : M session (option Shipment) :=
  normalized_load_number ← of_res (normalize_load_number ln);
  match normalized_load_number with
  | None => mret None
  | Some n =>
      _ ← insert_shipment_do_nothing n;
      found ← select (λ d, where_ (λ s, String.eqb (load_number s) n) (shipments d));
      sh ← scalar_one found;
      sh ← attach_to_shipment sh document ex;
      mret (Some sh)
  end.

(** ** The invariant of the tables it uses *)

(** The companion documents of a rate confirmation. *)
Definition is_companion (rc : RateConfirmation) (doc : Document) : bool :=
  String.eqb (doc_type doc) "rate_confirmation"
  && jsonb_text_is "rate_confirmation_id" (uuid_str (rc_id rc)) (extracted_data doc).

Record assembly_wf (s : session) : Prop := {
  aw_rng : rng_fresh s;
  aw_doc_ids : NoDup (doc_id <$> documents (working s));
  aw_doc_seq : ∀ doc, doc ∈ documents (working s) → (doc_id doc < doc_seq (senv s))%Z;
  aw_ids : NoDup (shipment_id <$> shipments (working s));
  aw_numbers : NoDup (load_number <$> shipments (working s));
  aw_ck : ∀ sh, sh ∈ shipments (working s) → ck_shipment sh = true;
  aw_rc_numbers : NoDup (rc_load_number <$> rate_confirmations (working s));
  aw_companion : ∀ rc, length (where_ (is_companion rc) (documents (working s))) ≤ 1
}.

(** The shipments after the conflict-free insert of load number [n]. *)
Definition with_shipment (n : string) (s : session) : list Shipment :=
  if existsb (λ x, String.eqb (load_number x) n) (shipments (working s))
  then shipments (working s)
  else shipments (working s) ++ [new_shipment n (fresh_uuid s) (clock (senv s))].

Lemma ck_new_shipment n i now :
  ck_load_number_normalized n = true → ck_shipment (new_shipment n i now) = true.
Proof. intros H. unfold ck_shipment. simpl. by rewrite H. Qed.

Lemma fresh_shipment_id s :
  rng_fresh s → fresh_uuid s ∉ shipment_id <$> shipments (working s).
Proof.
  intros [H _] Hin. apply (H (rng_pos (senv s))); [done|]. unfold uuids_of.
  rewrite !elem_of_app. tauto.
Qed.

(** Only the documents or shipments of the working copy change. *)
Definition same_but_shipments (d d' : database) : Prop := d' = on_shipments (λ _, shipments d') d.
Definition same_but_documents (d d' : database) : Prop := d' = on_documents (λ _, documents d') d.

(** The tables the assembly does not write. *)
Definition same_elsewhere (d d' : database) : Prop :=
  d' = on_documents (λ _, documents d') (on_shipments (λ _, shipments d') d).

Lemma same_elsewhere_trans a b c : same_elsewhere a b → same_elsewhere b c → same_elsewhere a c.
Proof. unfold same_elsewhere. intros H1 H2. rewrite H2. by rewrite H1. Qed.

Lemma same_elsewhere_shipments d l : same_elsewhere d (on_shipments l d).
Proof. unfold same_elsewhere. by destruct d. Qed.

Lemma same_elsewhere_documents d l : same_elsewhere d (on_documents l d).
Proof. unfold same_elsewhere. by destruct d. Qed.

Lemma same_but_documents_elsewhere d d' : same_but_documents d d' → same_elsewhere d d'.
Proof. unfold same_but_documents. intros ->. apply same_elsewhere_documents. Qed.

Lemma insert_shipment_runs n s :
  assembly_wf s → ck_load_number_normalized n = true →
  ∃ s', insert_shipment_do_nothing n s = (Ok tt, s') ∧ assembly_wf s'
    ∧ working s' = on_shipments (λ _, with_shipment n s) (working s)
    ∧ senv s' = env_draw (senv s) ∧ committed s' = committed s.
Proof.
  intros W Hn. pose proof (fresh_shipment_id s (aw_rng _ W)) as Hfresh.
  unfold insert_shipment_do_nothing, with_shipment. session_unfold. fold (fresh_uuid s).
  rewrite (ck_new_shipment _ _ _ Hn).
  destruct (existsb (λ x, String.eqb (load_number x) n) (shipments (working s))) eqn:Ex.
  - eexists. split; [reflexivity|]. destruct W as [W1 W2 W3 W4 W5 W6 W7 W8].
    split; [|by destruct (working s)]. split; simpl; try done.
    refine (rng_fresh_drawn (λ d, d) s W1 _); auto.
  - rewrite (existsb_fresh shipment_id) by done. cbn [negb].
    eexists. split; [reflexivity|]. destruct W as [W1 W2 W3 W4 W5 W6 W7 W8].
    split; [|by destruct (working s)]. split; simpl; try done.
    + refine (rng_fresh_drawn (on_shipments
        (λ t, t ++ [new_shipment n (fresh_uuid s) (clock (senv s))])) s W1 _).
      intros u. unfold uuids_of, on_shipments. cbn.
      rewrite fmap_app, !elem_of_app, list_elem_of_fmap. cbn. set_solver.
    + rewrite fmap_app, NoDup_app. split; [done|]. split; [|apply NoDup_singleton].
      intros u Hu Hu'%list_elem_of_singleton. subst. by apply Hfresh.
    + rewrite fmap_app, NoDup_app. split; [done|]. split; [|apply NoDup_singleton].
      intros u Hu Hu'%list_elem_of_singleton. simpl in Hu'. subst.
      apply list_elem_of_fmap in Hu as (x & E & Hx).
      rewrite existsb_false_Forall, Forall_forall in Ex. specialize (Ex x Hx).
      rewrite E, String.eqb_refl in Ex. done.
    + intros sh [Hsh| ->%list_elem_of_singleton]%elem_of_app; [by apply W6|].
      by apply ck_new_shipment.
Qed.

(** The row of the load number. *)
Lemma where_load_number n (l : list Shipment) :
  NoDup (load_number <$> l) → existsb (λ x, String.eqb (load_number x) n) l = true →
  ∃ sh, where_ (λ s, String.eqb (load_number s) n) l = [sh] ∧ sh ∈ l ∧ load_number sh = n.
Proof.
  intros Hnd (sh & Hsh & E%String.eqb_eq)%existsb_exists. apply list_elem_of_In in Hsh.
  exists sh. split; [|done]. eapply (where_unique load_number); [done|done|by apply String.eqb_eq|].
  intros y Hy%String.eqb_eq. congruence.
Qed.

Lemma with_shipment_has n s :
  existsb (λ x, String.eqb (load_number x) n) (with_shipment n s) = true.
Proof.
  unfold with_shipment.
  destruct (existsb (λ x, String.eqb (load_number x) n) (shipments (working s))) eqn:E; [done|].
  rewrite List.existsb_app. simpl. by rewrite String.eqb_refl, Bool.orb_true_r.
Qed.

Lemma save_document_runs doc s :
  save_document doc s = (Ok tt, on_working (on_documents
    (update_where (λ d, Z.eqb (doc_id d) (doc_id doc)) (λ _, doc))) s).
Proof. reflexivity. Qed.

(** Writing a document back keeps the invariant when its identity as a
    companion is kept. *)
Lemma save_document_wf doc old s :
  assembly_wf s → old ∈ documents (working s) → doc_id doc = doc_id old →
  (∀ rc, is_companion rc doc = is_companion rc old) →
  assembly_wf (on_working (on_documents
    (update_where (λ d, Z.eqb (doc_id d) (doc_id doc)) (λ _, doc))) s).
Proof.
  intros [W1 W2 W3 W4 W5 W6 W7 W8] Hold Hid Hc.
  assert (Hq : ∀ y, y ∈ documents (working s) → Z.eqb (doc_id y) (doc_id doc) = true → y = old).
  { intros y Hy E%Z.eqb_eq. rewrite Hid in E. by apply (NoDup_fmap_inj doc_id _ _ _ W2). }
  split; simpl; try done.
  - rewrite update_where_map; [done|]. intros y Hy E. by rewrite (Hq y Hy E).
  - intros y (x & Hx & ->)%elem_of_update_where.
    destruct (Z.eqb _ _); [rewrite Hid|]; by apply W3.
  - intros rc. rewrite where_update.
    + unfold update_where. rewrite length_fmap. apply W8.
    + intros y Hy E. rewrite (Hq y Hy E). apply Hc.
Qed.

Lemma save_shipment_runs sh s :
  ck_shipment sh = true →
  save_shipment sh s = (Ok tt, on_working (on_shipments
    (update_where (λ x, N.eqb (shipment_id x) (shipment_id sh)) (λ _, sh))) s).
Proof. intros H. unfold save_shipment. session_unfold. by rewrite H. Qed.

Lemma save_shipment_wf sh old s :
  assembly_wf s → old ∈ shipments (working s) → shipment_id sh = shipment_id old →
  load_number sh = load_number old → ck_shipment sh = true →
  assembly_wf (on_working (on_shipments
    (update_where (λ x, N.eqb (shipment_id x) (shipment_id sh)) (λ _, sh))) s).
Proof.
  intros [W1 W2 W3 W4 W5 W6 W7 W8] Hold Hid Hln Hck.
  assert (Hq : ∀ y, y ∈ shipments (working s) →
                    N.eqb (shipment_id y) (shipment_id sh) = true → y = old).
  { intros y Hy E%N.eqb_eq. rewrite Hid in E. by apply (NoDup_fmap_inj shipment_id _ _ _ W4). }
  assert (Hids : shipment_id <$> update_where (λ x, N.eqb (shipment_id x) (shipment_id sh)) (λ _, sh)
                   (shipments (working s)) = shipment_id <$> shipments (working s)).
  { apply update_where_map. intros y Hy E. by rewrite (Hq y Hy E). }
  split; simpl; try done.
  - apply (rng_fresh_same (on_shipments _)); [done|]. intros u. unfold uuids_of. cbn.
    by rewrite Hids.
  - by rewrite Hids.
  - rewrite update_where_map; [done|]. intros y Hy E. by rewrite (Hq y Hy E).
  - intros y (x & Hx & ->)%elem_of_update_where. destruct (N.eqb _ _); [done|by apply W6].
Qed.

Lemma is_companion_new rc rc' i now :
  is_companion rc' (new_companion rc i now)
  = String.eqb (uuid_str (rc_id rc)) (uuid_str (rc_id rc')).
Proof. reflexivity. Qed.

Lemma is_companion_same rc rc' doc :
  uuid_str (rc_id rc) = uuid_str (rc_id rc') → is_companion rc' doc = is_companion rc doc.
Proof. intros E. unfold is_companion. by rewrite E. Qed.

(** Rewriting its extraction keeps what a companion is the companion of. *)
Lemma is_companion_refreshed rc rc' sid doc :
  is_companion rc doc = true →
  is_companion rc' (set_extracted_data (Some (JObj (rate_confirmation_extraction rc)))
                      (set_doc_shipment_id sid doc)) = is_companion rc' doc.
Proof.
  unfold is_companion. intros [Ht Hj]%andb_prop.
  change (doc_type (set_extracted_data _ _)) with (doc_type doc). rewrite Ht.
  change (jsonb_text_is "rate_confirmation_id" (uuid_str (rc_id rc')) (extracted_data
    (set_extracted_data (Some (JObj (rate_confirmation_extraction rc)))
       (set_doc_shipment_id sid doc))))
    with (String.eqb (uuid_str (rc_id rc)) (uuid_str (rc_id rc'))).
  unfold jsonb_text_is in *. destruct (extracted_data doc) as [j|]; [|done].
  destruct (jget "rate_confirmation_id" j) as [[]|]; try done.
  apply String.eqb_eq in Hj. by subst.
Qed.

(** No document disappears or changes its type. *)
Definition docs_kept (d d' : database) : Prop :=
  ∀ y, y ∈ documents d → ∃ y', y' ∈ documents d' ∧ doc_id y' = doc_id y ∧ doc_type y' = doc_type y.

Lemma docs_kept_refl d d' : documents d' = documents d → docs_kept d d'.
Proof. intros E y Hy. exists y. by rewrite E. Qed.

Lemma docs_kept_trans a b c : docs_kept a b → docs_kept b c → docs_kept a c.
Proof.
  intros H1 H2 y Hy. destruct (H1 y Hy) as (y1 & Hy1 & <- & <-). by apply H2.
Qed.

Lemma docs_kept_save doc old d :
  NoDup (doc_id <$> documents d) → old ∈ documents d → doc_id doc = doc_id old →
  doc_type doc = doc_type old →
  docs_kept d (on_documents (update_where (λ x, Z.eqb (doc_id x) (doc_id doc)) (λ _, doc)) d).
Proof.
  intros Hnd Hold Hid Ht y Hy. cbn. exists (if Z.eqb (doc_id y) (doc_id doc) then doc else y).
  split; [apply elem_of_update_where; eauto|].
  destruct (Z.eqb_spec (doc_id y) (doc_id doc)) as [E|]; [|done].
  rewrite Hid in E. by rewrite (NoDup_fmap_inj doc_id _ _ _ Hnd Hy Hold E).
Qed.

(** The insert of a companion document. *)
Lemma insert_companion_runs rc s :
  assembly_wf s → where_ (is_companion rc) (documents (working s)) = [] →
  let doc := new_companion rc (doc_seq (senv s)) (clock (senv s)) in
  ∃ s', insert_document (new_companion rc) s = (Ok doc, s') ∧ assembly_wf s'
    ∧ working s' = on_documents (λ t, t ++ [doc]) (working s) ∧ committed s' = committed s.
Proof.
  intros W Hnone doc. unfold insert_document. session_unfold. fold doc.
  destruct W as [W1 W2 W3 W4 W5 W6 W7 W8].
  rewrite existsb_none.
  2:{ intros x Hx. apply Z.eqb_neq. specialize (W3 x Hx). lia. }
  cbn [negb]. eexists. split; [reflexivity|]. split; [|done].
  split; simpl; try done.
  - rewrite fmap_app, NoDup_app. split; [done|]. split; [|apply NoDup_singleton].
    intros u (x & -> & Hx)%list_elem_of_fmap E%list_elem_of_singleton.
    specialize (W3 x Hx). simpl in E. lia.
  - intros y [Hy| ->%list_elem_of_singleton]%elem_of_app; [specialize (W3 y Hy); lia|]. simpl. lia.
  - intros rc'. unfold where_. rewrite List.filter_app, length_app. cbn [List.filter].
    unfold doc at 1. rewrite is_companion_new.
    destruct (String.eqb_spec (uuid_str (rc_id rc)) (uuid_str (rc_id rc'))) as [E|E]; simpl.
    + rewrite (filter_ext _ (is_companion rc)) by (intros; by apply is_companion_same).
      unfold where_ in Hnone. by rewrite Hnone.
    + specialize (W8 rc'). unfold where_ in W8. lia.
Qed.

Lemma rate_confirmation_document_runs rc sh s :
  assembly_wf s →
  ∃ doc s', rate_confirmation_document rc sh s = (Ok doc, s') ∧ assembly_wf s'
    ∧ same_but_documents (working s) (working s') ∧ committed s' = committed s
    ∧ (∀ y, y ∈ documents (working s) → is_companion rc y = false → y ∈ documents (working s'))
    ∧ docs_kept (working s) (working s').
Proof.
  intros W. unfold rate_confirmation_document. rewrite bind_unfold. cbn [select gets].
  fold (is_companion rc).
  change (where_ _ (documents (working s))) with (where_ (is_companion rc) (documents (working s))).
  assert (Hmain : ∀ old s1, assembly_wf s1 → committed s1 = committed s → old ∈ documents (working s1) →
    is_companion rc old = true → same_but_documents (working s) (working s1) →
    (∀ y, y ∈ documents (working s) → is_companion rc y = false → y ∈ documents (working s1)) →
    docs_kept (working s) (working s1) →
    let doc := set_extracted_data (Some (JObj (rate_confirmation_extraction rc)))
                 (set_doc_shipment_id (Some (shipment_id sh)) old) in
    ∃ doc' s', (save_document doc ≫= λ _, mret doc) s1 = (Ok doc', s') ∧ assembly_wf s'
      ∧ same_but_documents (working s) (working s') ∧ committed s' = committed s
      ∧ (∀ y, y ∈ documents (working s) → is_companion rc y = false → y ∈ documents (working s'))
      ∧ docs_kept (working s) (working s')).
  { intros old s1 W1 Hc Hold Hcomp Hsame Hkeep Hk doc. eexists doc, _.
    split; [rewrite bind_unfold, save_document_runs; reflexivity|].
    split; [apply (save_document_wf doc old s1 W1 Hold eq_refl)|].
    { intros rc'. apply is_companion_refreshed. exact Hcomp. }
    split; [|split; [exact Hc|]].
    - unfold same_but_documents in *. cbn. by rewrite Hsame.
    - split; [|eapply docs_kept_trans; [exact Hk|]; exact (docs_kept_save doc old _ (aw_doc_ids _ W1) Hold eq_refl eq_refl)].
      intros y Hy Hn. cbn. apply elem_of_update_where. exists y. split; [by apply Hkeep|].
      destruct (Z.eqb_spec (doc_id y) (doc_id old)) as [E|]; [|done].
      rewrite (NoDup_fmap_inj doc_id _ y old (aw_doc_ids _ W1)) in Hn; [congruence| |done|done].
      by apply Hkeep. }
  pose proof (aw_companion _ W rc) as Hle.
  destruct (where_ (is_companion rc) (documents (working s))) as [|old [|]] eqn:E;
    cbn [scalar_one_or_none]; [| |simpl in Hle; lia].
  - destruct (insert_companion_runs rc s W E) as (s1 & E1 & W1 & Hw & Hc).
    rewrite bind_unfold. cbn [mret M_ret]. rewrite bind_unfold, E1.
    apply (Hmain _ s1); [done|done| | | | |].
    + rewrite Hw. cbn. set_solver.
    + by rewrite is_companion_new, String.eqb_refl.
    + unfold same_but_documents. rewrite Hw. by destruct (working s).
    + intros y Hy _. rewrite Hw. cbn. set_solver.
    + intros y Hy. exists y. rewrite Hw. cbn. set_solver.
  - rewrite bind_unfold. cbn [mret M_ret]. rewrite bind_unfold.
    assert (Hold : old ∈ where_ (is_companion rc) (documents (working s))) by (rewrite E; set_solver).
    apply elem_of_where in Hold as [Hold Hcomp].
    apply (Hmain old s); [done|done|done|done| |done|].
    2:{ by apply docs_kept_refl. }
    unfold same_but_documents. by destruct (working s).
Qed.

(** ** What attaching does to a row *)

(** The parts of a row only the insert writes. *)
Definition same_identity (sh sh' : Shipment) : Prop :=
  shipment_id sh' = shipment_id sh ∧ load_number sh' = load_number sh
  ∧ created_at sh' = created_at sh.

(** The parts of a row the rate confirmation does not touch. *)
Definition same_others (sh sh' : Shipment) : Prop :=
  has_invoice sh' = has_invoice sh ∧ has_bol sh' = has_bol sh ∧ has_pod sh' = has_pod sh
  ∧ invoice_id sh' = invoice_id sh ∧ bol_id sh' = bol_id sh ∧ pod_id sh' = pod_id sh
  ∧ reconciliation_status sh' = reconciliation_status sh.

Definition known_rate_confirmation (n : string) (d : database) : bool :=
  existsb (λ rc, String.eqb (rc_load_number rc) n) (rate_confirmations d).

Definition is_some {A} (o : option A) : bool := match o with Some _ => true | None => false end.

(** The row after [attach_existing_rate_confirmation]. *)
Record rate_con_attached (d : database) (sh sh' : Shipment) : Prop := {
  ra_identity : same_identity sh sh';
  ra_others : same_others sh sh';
  ra_flag : has_rate_con sh' = has_rate_con sh || is_some (rate_con_id sh)
                               || known_rate_confirmation (load_number sh) d;
  ra_id : is_some (rate_con_id sh') = is_some (rate_con_id sh)
                                      || known_rate_confirmation (load_number sh) d;
  ra_id_kept : is_some (rate_con_id sh) = true → rate_con_id sh' = rate_con_id sh;
  ra_carrier : carrier_name sh' = carrier_name sh
               ∨ (opt_truthy str_truthy (carrier_name sh) = false
                  ∧ is_some (rate_con_id sh') = true)
}.

Lemma attach_existing_runs sh s :
  assembly_wf s →
  ∃ sh' s', attach_existing_rate_confirmation sh s = (Ok sh', s') ∧ assembly_wf s'
    ∧ same_but_documents (working s) (working s') ∧ committed s' = committed s
    ∧ rate_con_attached (working s) sh sh'
    ∧ (∀ y, y ∈ documents (working s) →
         is_some (rate_con_id sh) = true ∨ doc_type y ≠ "rate_confirmation" →
         y ∈ documents (working s'))
    ∧ docs_kept (working s) (working s').
Proof.
  intros W. unfold attach_existing_rate_confirmation.
  assert (Hrefl : same_but_documents (working s) (working s))
    by (unfold same_but_documents; by destruct (working s)).
  destruct (rate_con_id sh) as [i|] eqn:Ei.
  { exists (set_has_rate_con true sh), s.
    do 4 (split; [done|]). split; [|split; [done|by apply docs_kept_refl]].
    split; try done; simpl; rewrite ?Ei; simpl;
      rewrite ?Bool.orb_true_r; try done. by left. }
  rewrite bind_unfold. cbn [select gets].
  destruct (known_rate_confirmation (load_number sh) (working s)) eqn:Ek.
  - pose proof Ek as (rc & Hrc & E%String.eqb_eq)%existsb_exists. apply list_elem_of_In in Hrc.
    rewrite (where_unique rc_load_number _ _ rc (aw_rc_numbers _ W) Hrc);
      [|by apply String.eqb_eq|intros y Hy%String.eqb_eq; congruence].
    rewrite bind_unfold. cbn [scalar_one_or_none mret M_ret]. rewrite bind_unfold.
    destruct (rate_confirmation_document_runs rc sh s W)
      as (doc & s' & -> & W' & Hd & Hc & Hkeep & Hk).
    eexists _, s'. split; [reflexivity|]. split; [done|]. split; [done|]. split; [done|].
    split.
    + unfold fill_carrier. cbn [carrier_name set_has_rate_con set_rate_con_id].
      destruct (opt_truthy str_truthy (carrier_name sh)) eqn:Ec; split; try done; simpl;
        rewrite ?Ek, ?Ei, ?Bool.orb_true_r; try done; [by left|right; done].
    + split; [|done]. intros y Hy [|Ht]; [done|]. apply Hkeep; [done|]. unfold is_companion.
      by rewrite (proj2 (String.eqb_neq _ _) Ht).
  - assert (where_ (λ rc, String.eqb (rc_load_number rc) (load_number sh))
                   (rate_confirmations (working s)) = []) as ->.
    { apply filter_none. unfold known_rate_confirmation in Ek.
      rewrite existsb_false_Forall, Forall_forall in Ek. exact Ek. }
    rewrite bind_unfold. cbn [scalar_one_or_none mret M_ret]. exists sh, s.
    do 4 (split; [done|]). split; [|split; [done|by apply docs_kept_refl]].
    split; try done; rewrite ?Ek, ?Ei, ?Bool.orb_false_r; try done. by left.
Qed.

(** Once attached, attaching again changes nothing. *)
Lemma attach_existing_again d sh sh' s :
  rate_con_attached d sh sh' → rate_confirmations (working s) = rate_confirmations d →
  (∀ st, attach_existing_rate_confirmation (set_reconciliation_status st sh') s
         = (Ok (set_reconciliation_status st sh'), s)).
Proof.
  intros [(_ & Hn & _) _ Hf Hi Hk _] Hrc st. unfold attach_existing_rate_confirmation.
  change (rate_con_id (set_reconciliation_status st sh')) with (rate_con_id sh').
  destruct (rate_con_id sh') as [i|] eqn:Ei.
  - assert (has_rate_con sh' = true) as E.
    { rewrite Hf. simpl in Hi. rewrite <- Bool.orb_assoc, <- Hi. by rewrite Bool.orb_true_r. }
    destruct sh'. simpl in *. by rewrite E.
  - rewrite bind_unfold. cbn [select gets]. rewrite Hrc. simpl in Hi.
    change (load_number (set_reconciliation_status st sh')) with (load_number sh'). rewrite Hn.
    assert (where_ (λ rc, String.eqb (rc_load_number rc) (load_number sh))
                   (rate_confirmations d) = []) as ->; [|done].
    apply filter_none. symmetry in Hi. apply Bool.orb_false_elim in Hi as [_ Hi].
    unfold known_rate_confirmation in Hi.
    rewrite existsb_false_Forall, Forall_forall in Hi. exact Hi.
Qed.

Definition of_type (t : string) (doc : Document) : bool := String.eqb (doc_type doc) t.

(** The first document of a type keeps its place. *)
Definition first_id (old : option Z) (is_type : bool) (doc : Document) : option Z :=
  match old with
  | Some i => Some i
  | None => if is_type then Some (doc_id doc) else None
  end.

Lemma attach_document_spec doc sh :
  let sh' := attach_document doc sh in
  same_identity sh sh'
  ∧ carrier_name sh' = carrier_name sh ∧ reconciliation_status sh' = reconciliation_status sh
  ∧ has_invoice sh' = has_invoice sh || of_type "invoice" doc
  ∧ has_rate_con sh' = has_rate_con sh || of_type "rate_confirmation" doc
  ∧ has_bol sh' = has_bol sh || of_type "bill_of_lading" doc
  ∧ has_pod sh' = has_pod sh || of_type "proof_of_delivery" doc
  ∧ invoice_id sh' = first_id (invoice_id sh) (of_type "invoice" doc) doc
  ∧ rate_con_id sh' = first_id (rate_con_id sh) (of_type "rate_confirmation" doc) doc
  ∧ bol_id sh' = first_id (bol_id sh) (of_type "bill_of_lading" doc) doc
  ∧ pod_id sh' = first_id (pod_id sh) (of_type "proof_of_delivery" doc) doc.
Proof.
  unfold attach_document, of_type, first_id. cbn [dict_get DOC_FIELDS].
  generalize (doc_type doc) (doc_id doc). intros t i.
  destruct sh as [sid ln cn hi hr hb hp [ii|] [ri|] [bi|] [pi|] rs ca];
    (destruct (String.eqb_spec t "invoice") as [->|_];
      [|destruct (String.eqb_spec t "rate_confirmation") as [->|_];
        [|destruct (String.eqb_spec t "bill_of_lading") as [->|_];
          [|destruct (String.eqb_spec t "proof_of_delivery") as [->|_]]]]);
    simpl; rewrite ?Bool.orb_true_r, ?Bool.orb_false_r; repeat split.
Qed.

(** The carrier name an extraction carries is a string, or counts as absent. *)
Definition carrier_ok (ex : extraction) : bool :=
  match dict_get "carrier_name" ex with
  | Some (JStr _) | None => true
  | Some j => negb (jtruthy j)
  end.

(** What remains to be filled in when a carrier is absent. *)
Definition filled_carrier (ex : extraction) (sh : Shipment) : Shipment :=
  if opt_truthy str_truthy (carrier_name sh) then sh
  else match dict_get "carrier_name" ex with
       | Some (JStr c) => if str_truthy c then set_carrier_name (Some c) sh else sh
       | _ => sh
       end.

Lemma carrier_runs ex sh s :
  carrier_ok ex = true → carrier_from_extraction ex sh s = (Ok (filled_carrier ex sh), s).
Proof.
  unfold carrier_ok, carrier_from_extraction, filled_carrier. intros H.
  destruct (opt_truthy str_truthy (carrier_name sh)); [done|].
  destruct (dict_get "carrier_name" ex) as [[]|]; try done;
    apply Bool.negb_true_iff in H; by rewrite H.
Qed.

Lemma filled_carrier_cases ex sh :
  filled_carrier ex sh = sh
  ∨ (opt_truthy str_truthy (carrier_name sh) = false
     ∧ ∃ c, str_truthy c = true ∧ filled_carrier ex sh = set_carrier_name (Some c) sh).
Proof.
  unfold filled_carrier. destruct (opt_truthy str_truthy (carrier_name sh)) eqn:E; [by left|].
  destruct (dict_get "carrier_name" ex) as [[]|]; try by left.
  destruct (str_truthy s) eqn:Et; [right|by left]. eauto.
Qed.

(** Filling again changes nothing, whatever else was written to the row. *)
Lemma filled_carrier_again ex sh sh' :
  carrier_name sh' = carrier_name (filled_carrier ex sh)
  ∨ opt_truthy str_truthy (carrier_name sh') = true →
  filled_carrier ex sh' = sh'.
Proof.
  unfold filled_carrier at 2. intros [H|H]; [|by rewrite H].
  destruct (opt_truthy str_truthy (carrier_name sh')) eqn:E; [done|].
  unfold filled_carrier in H.
  destruct (opt_truthy str_truthy (carrier_name sh)) eqn:E2; [congruence|].
  destruct (dict_get "carrier_name" ex) as [[]|]; try done.
  destruct (str_truthy s) eqn:Et; [|done]. rewrite H in E. simpl in E. congruence.
Qed.

(** ** The effect of an upsert *)

Definition old_row (n : string) (d : database) : option Shipment :=
  find_first (λ x, String.eqb (load_number x) n) (shipments d).

Definition had {A} (f : Shipment → A) (dflt : A) (o : option Shipment) : A :=
  match o with Some sh => f sh | None => dflt end.

(** The row [sh'] an upsert of [doc] leaves for a row [sh] it found, with [known]
    telling whether the management table has a rate confirmation. *)
Record row_after (known : bool) (doc : Document) (sh sh' : Shipment) : Prop := {
  af_identity : same_identity sh sh';
  af_invoice : has_invoice sh' = has_invoice sh || of_type "invoice" doc;
  af_bol : has_bol sh' = has_bol sh || of_type "bill_of_lading" doc;
  af_pod : has_pod sh' = has_pod sh || of_type "proof_of_delivery" doc;
  af_rate_con : has_rate_con sh' = has_rate_con sh || is_some (rate_con_id sh)
                                   || of_type "rate_confirmation" doc || known;
  af_invoice_id : invoice_id sh' = first_id (invoice_id sh) (of_type "invoice" doc) doc;
  af_bol_id : bol_id sh' = first_id (bol_id sh) (of_type "bill_of_lading" doc) doc;
  af_pod_id : pod_id sh' = first_id (pod_id sh) (of_type "proof_of_delivery" doc) doc;
  af_rate_con_id : is_some (rate_con_id sh') = is_some (rate_con_id sh)
                                               || of_type "rate_confirmation" doc || known;
  af_rate_con_kept : is_some (rate_con_id sh) || of_type "rate_confirmation" doc = true →
    rate_con_id sh' = first_id (rate_con_id sh) (of_type "rate_confirmation" doc) doc;
  af_carrier : opt_truthy str_truthy (carrier_name sh) = true →
               carrier_name sh' = carrier_name sh;
  af_status : reconciliation_status sh' =
    if Nat.eqb (present_count sh') 0 then "pending"
    else if Nat.ltb (present_count sh') 4 then "partial" else reconciliation_status sh
}.

Lemma assembly_status_ok sh :
  ck_shipment sh = true → ck_shipment (set_reconciliation_status (assembly_status sh) sh) = true.
Proof.
  unfold ck_shipment, assembly_status. simpl. intros [H1 H2]%andb_prop. rewrite H1. simpl.
  by repeat case_match.
Qed.

Definition doc_of (sh : Shipment) (document : Document) : Document :=
  set_doc_shipment_id (Some (shipment_id sh)) document.

Definition settled (sh : Shipment) : Shipment :=
  set_reconciliation_status (assembly_status sh) sh.

Lemma same_identity_trans a b c : same_identity a b → same_identity b c → same_identity a c.
Proof. unfold same_identity. intros (-> & -> & ->) (-> & -> & ->). done. Qed.

Lemma filled_identity ex sh : same_identity sh (filled_carrier ex sh).
Proof. destruct (filled_carrier_cases ex sh) as [-> | (_ & c & _ & ->)]; done. Qed.

Lemma ck_same sh sh' :
  load_number sh' = load_number sh → reconciliation_status sh' = reconciliation_status sh →
  ck_shipment sh = true → ck_shipment sh' = true.
Proof. unfold ck_shipment. by intros -> ->. Qed.

Lemma filled_status ex sh : reconciliation_status (filled_carrier ex sh) = reconciliation_status sh.
Proof. destruct (filled_carrier_cases ex sh) as [-> | (_ & c & _ & ->)]; done. Qed.

(** The steps under the row lock, one by one. *)
Lemma attach_to_shipment_steps sh document ex s :
  assembly_wf s → sh ∈ shipments (working s) → document ∈ documents (working s) →
  carrier_ok ex = true →
  let doc := doc_of sh document in
  ∃ sh4 s', attach_to_shipment sh document ex s = (Ok (settled sh4), s') ∧ assembly_wf s'
    ∧ committed s' = committed s
    ∧ rate_con_attached (working s) (filled_carrier ex (attach_document doc sh)) sh4
    ∧ shipments (working s')
      = update_where (λ x, N.eqb (shipment_id x) (shipment_id sh)) (λ _, settled sh4)
          (shipments (working s))
    ∧ rate_confirmations (working s') = rate_confirmations (working s)
    ∧ doc ∈ documents (working s') ∧ docs_kept (working s) (working s')
    ∧ same_elsewhere (working s) (working s').
Proof.
  intros W Hsh Hdoc Hex doc. unfold attach_to_shipment. fold (doc_of sh document). fold doc.
  rewrite bind_unfold, save_document_runs.
  set (s1 := on_working _ s).
  assert (W1 : assembly_wf s1) by (by apply (save_document_wf doc document)).
  rewrite bind_unfold, carrier_runs by done. rewrite bind_unfold.
  set (sh2 := filled_carrier ex (attach_document doc sh)).
  destruct (attach_existing_runs sh2 s1 W1) as (sh4 & s2 & E & W2 & Hd & Hc & Ha & Hkeep & Hk).
  rewrite E. fold (settled sh4).
  pose proof (attach_document_spec doc sh) as (I1 & _ & Hst & _ & _ & _ & _ & _ & Hri & _ & _).
  assert (I4 : same_identity sh sh4).
  { eapply same_identity_trans; [exact I1|].
    eapply same_identity_trans; [apply (filled_identity ex)|]. apply Ha. }
  destruct I4 as (I4 & L4 & _).
  assert (Hck : ck_shipment (settled sh4) = true).
  { apply assembly_status_ok. apply (ck_same sh); [done| |by apply W].
    destruct (ra_others _ _ _ Ha) as (_ & _ & _ & _ & _ & _ & ->).
    unfold sh2. by rewrite filled_status, Hst. }
  rewrite bind_unfold, save_shipment_runs by done.
  assert (Hss : shipments (working s2) = shipments (working s)).
  { rewrite Hd. reflexivity. }
  exists sh4. eexists. split; [reflexivity|].
  split; [apply (save_shipment_wf _ sh); [done|by rewrite Hss|done|done|done]|].
  split; [exact Hc|]. split; [|split; [|split; [|split; [|split]]]].
  - destruct Ha. split; done.
  - cbn. by rewrite Hss, I4.
  - cbn. by rewrite Hd.
  - cbn. apply Hkeep.
    + cbn. apply elem_of_update_where. exists document. split; [done|].
      change (doc_id doc) with (doc_id document). by rewrite Z.eqb_refl.
    + destruct (String.eqb_spec (doc_type doc) "rate_confirmation") as [Et|]; [left|by right].
      unfold sh2. destruct (filled_carrier_cases ex (attach_document doc sh))
        as [-> | (_ & c & _ & ->)]; cbn [rate_con_id set_carrier_name]; rewrite Hri;
        unfold first_id, of_type; rewrite Et; simpl; by destruct (rate_con_id sh).
  - eapply docs_kept_trans; [|exact Hk].
    exact (docs_kept_save doc document _ (aw_doc_ids _ W) Hdoc eq_refl eq_refl).
  - eapply same_elsewhere_trans; [|apply same_elsewhere_shipments].
    eapply same_elsewhere_trans; [|by apply same_but_documents_elsewhere].
    apply same_elsewhere_documents.
Qed.

(** The row those steps leave. *)
Lemma row_after_steps d doc ex sh sh4 :
  rate_con_attached d (filled_carrier ex (attach_document doc sh)) sh4 →
  row_after (known_rate_confirmation (load_number sh) d) doc sh (settled sh4).
Proof.
  intros [Hi (O1 & O2 & O3 & O4 & O5 & O6 & O7) Hf Hid Hk Hc].
  pose proof (attach_document_spec doc sh)
    as (I1 & C1 & S1 & A1 & A2 & A3 & A4 & B1 & B2 & B3 & B4).
  assert (I4 : same_identity sh sh4).
  { eapply same_identity_trans; [exact I1|].
    eapply same_identity_trans; [apply (filled_identity ex)|]. done. }
  assert (Hln : load_number (filled_carrier ex (attach_document doc sh)) = load_number sh).
  { destruct (filled_identity ex (attach_document doc sh)) as (_ & -> & _). apply I1. }
  rewrite Hln in Hf, Hid.
  destruct (filled_carrier_cases ex (attach_document doc sh)) as [Ef | (Ef0 & c & Ec & Ef)];
    rewrite Ef in *;
    cbn [carrier_name set_carrier_name has_invoice has_bol has_pod has_rate_con invoice_id bol_id
         pod_id rate_con_id reconciliation_status] in *;
  (split; cbn [settled set_reconciliation_status carrier_name has_invoice has_bol has_pod
               has_rate_con invoice_id bol_id pod_id rate_con_id reconciliation_status];
   [ done | by rewrite O1 | by rewrite O2 | by rewrite O3
   | rewrite Hf, A2, B2; unfold first_id;
     destruct (rate_con_id sh), (of_type "rate_confirmation" doc), (has_rate_con sh); done
   | by rewrite O4 | by rewrite O5 | by rewrite O6
   | rewrite Hid, B2; unfold first_id;
     by destruct (rate_con_id sh), (of_type "rate_confirmation" doc)
   | intros H; rewrite Hk, B2; [done|]; rewrite B2; unfold first_id;
     by destruct (rate_con_id sh), (of_type "rate_confirmation" doc)
   | intros H; rewrite C1 in *
   | unfold assembly_status; by rewrite O7, S1 ]).
  - destruct Hc as [->|[Hc _]]; [done|congruence].
  - congruence.
Qed.

Lemma filled_carrier_none ex sh :
  opt_truthy str_truthy (carrier_name (filled_carrier ex sh)) = false →
  ∀ sh', filled_carrier ex sh' = sh'.
Proof.
  unfold filled_carrier. intros H sh'.
  destruct (opt_truthy str_truthy (carrier_name sh)) eqn:E; [congruence|].
  destruct (opt_truthy str_truthy (carrier_name sh')); [done|].
  destruct (dict_get "carrier_name" ex) as [[]|]; try done.
  destruct (str_truthy s) eqn:Et; [|done]. simpl in H. congruence.
Qed.

(** A row that has already been through these steps is left alone. *)
Lemma attach_document_again known doc sh sh' :
  row_after known doc sh sh' → attach_document doc sh' = sh'.
Proof.
  intros R. pose proof (attach_document_spec doc sh')
    as ((I1 & I2 & I3) & C1 & S1 & A1 & A2 & A3 & A4 & B1 & B2 & B3 & B4).
  destruct R as [_ R1 R2 R3 R4 R5 R6 R7 R8 _ _ _].
  rewrite R1 in A1. rewrite R2 in A3. rewrite R3 in A4. rewrite R4 in A2.
  rewrite R5 in B1. rewrite R6 in B3. rewrite R7 in B4.
  rewrite <- Bool.orb_assoc, Bool.orb_diag, <- R1 in A1.
  rewrite <- Bool.orb_assoc, Bool.orb_diag, <- R2 in A3.
  rewrite <- Bool.orb_assoc, Bool.orb_diag, <- R3 in A4.
  assert (A2' : has_rate_con (attach_document doc sh') = has_rate_con sh').
  { rewrite A2, R4. by destruct (has_rate_con sh), (rate_con_id sh),
      (of_type "rate_confirmation" doc), known. }
  assert (Hff : ∀ o b, first_id (first_id o b doc) b doc = first_id o b doc) by (by intros [|] []).
  rewrite Hff, <- R5 in B1. rewrite Hff, <- R6 in B3. rewrite Hff, <- R7 in B4.
  assert (B2' : rate_con_id (attach_document doc sh') = rate_con_id sh').
  { rewrite B2. unfold first_id. destruct (rate_con_id sh'); [done|]. simpl in R8.
    destruct (of_type "rate_confirmation" doc); [|done]. by rewrite Bool.orb_true_r in R8. }
  clear -I1 I2 I3 C1 S1 A1 A2' A3 A4 B1 B2' B3 B4.
  destruct (attach_document doc sh'), sh'. simpl in *. f_equal; assumption.
Qed.

Lemma settled_again sh : settled (settled sh) = settled sh.
Proof.
  unfold settled, set_reconciliation_status. simpl. f_equal. unfold assembly_status. simpl.
  change (present_count (mkShipment _ _ _ (has_invoice sh) (has_rate_con sh) (has_bol sh)
    (has_pod sh) _ _ _ _ _ _)) with (present_count sh).
  by destruct (Nat.eqb (present_count sh) 0), (Nat.ltb (present_count sh) 4).
Qed.

Lemma on_working_same f s :
  f (working s) = working s → on_working f s = s.
Proof. intros H. unfold on_working. rewrite H. by destruct s. Qed.

(** Doing the steps again on the row and tables they left changes nothing. *)
Lemma attach_to_shipment_again document ex d sh sh4 s :
  assembly_wf s → carrier_ok ex = true →
  rate_con_attached d (filled_carrier ex (attach_document (doc_of sh document) sh)) sh4 →
  rate_confirmations (working s) = rate_confirmations d →
  settled sh4 ∈ shipments (working s) → doc_of sh document ∈ documents (working s) →
  attach_to_shipment (settled sh4) document ex s = (Ok (settled sh4), s).
Proof.
  intros W Hex Ha Hrc Hin Hdoc.
  pose proof (row_after_steps d (doc_of sh document) ex sh sh4 Ha) as R.
  assert (Hid : doc_of (settled sh4) document = doc_of sh document).
  { unfold doc_of. do 2 f_equal. apply (af_identity _ _ _ _ R). }
  unfold attach_to_shipment. fold (doc_of (settled sh4) document). rewrite Hid.
  rewrite bind_unfold, save_document_runs, on_working_same.
  2:{ unfold on_documents. rewrite (update_where_same doc_id); [by destruct (working s)|by apply W|done|].
      intros y Hy%Z.eqb_eq. done. }
  rewrite bind_unfold, carrier_runs, (attach_document_again _ _ _ _ R) by done.
  assert (filled_carrier ex (settled sh4) = settled sh4) as ->.
  { pose proof (ra_carrier _ _ _ Ha) as [Hc|[Hc _]].
    - eapply filled_carrier_again. left. exact Hc.
    - by eapply filled_carrier_none. }
  rewrite bind_unfold. unfold settled at 1.
  rewrite (attach_existing_again _ _ _ _ Ha Hrc). fold (settled sh4).
  change (set_reconciliation_status (assembly_status (settled sh4)) (settled sh4))
    with (settled (settled sh4)).
  rewrite settled_again, bind_unfold, save_shipment_runs, on_working_same; [done| |by apply W].
  unfold on_shipments. rewrite (update_where_same shipment_id);
    [by destruct (working s)|by apply W|done|]. intros y Hy%N.eqb_eq. done.
Qed.

(** An upsert that creates or finds the row [sh] and does the steps. *)
Lemma upsert_steps ln n document ex s :
  normalize_load_number ln = Ok (Some n) → ck_load_number_normalized n = true →
  assembly_wf s → document ∈ documents (working s) → carrier_ok ex = true →
  ∃ sh sh4 s',
    upsert_shipment ln document ex s = (Ok (Some (settled sh4)), s') ∧ assembly_wf s'
    ∧ committed s' = committed s
    ∧ sh ∈ with_shipment n s ∧ load_number sh = n
    ∧ rate_con_attached (working s)
        (filled_carrier ex (attach_document (doc_of sh document) sh)) sh4
    ∧ shipments (working s')
      = update_where (λ x, N.eqb (shipment_id x) (shipment_id sh)) (λ _, settled sh4)
          (with_shipment n s)
    ∧ rate_confirmations (working s') = rate_confirmations (working s)
    ∧ doc_of sh document ∈ documents (working s') ∧ docs_kept (working s) (working s')
    ∧ same_elsewhere (working s) (working s').
Proof.
  intros Hn Hck W Hdoc Hex. unfold upsert_shipment. rewrite bind_unfold, Hn. cbn [of_res].
  destruct (insert_shipment_runs n s W Hck) as (s1 & E1 & W1 & Hw1 & He1 & Hc1).
  rewrite bind_unfold, E1, bind_unfold. cbn [select gets].
  destruct (where_load_number n (shipments (working s1))) as (sh & E & Hsh & Hln).
  { apply W1. } { rewrite Hw1. apply with_shipment_has. }
  rewrite E, bind_unfold. cbn [scalar_one mret M_ret]. rewrite bind_unfold.
  destruct (attach_to_shipment_steps sh document ex s1) as
    (sh4 & s' & E2 & W2 & Hc & Ha & Hs & Hrc & Hd & Hk & He); [done|done|by rewrite Hw1|done|].
  rewrite E2. exists sh, sh4, s'. split; [done|]. split; [done|]. split; [congruence|].
  rewrite Hw1 in Hsh. split; [done|]. split; [done|].
  rewrite Hw1 in Ha, Hs, Hrc. split; [by destruct Ha; split|]. do 3 (split; [done|]).
  split; [eapply docs_kept_trans; [|exact Hk]; apply docs_kept_refl; by rewrite Hw1|].
  rewrite Hw1 in He. eapply same_elsewhere_trans; [|exact He]. apply same_elsewhere_shipments.
Qed.

(** The found or created row, from the row there was. *)
Lemma upsert_row n s sh :
  assembly_wf s → sh ∈ with_shipment n s → load_number sh = n →
  match old_row n (working s) with
  | Some sh0 => sh = sh0
  | None => sh = new_shipment n (fresh_uuid s) (clock (senv s))
  end.
Proof.
  unfold with_shipment, old_row. intros W Hin Hln.
  destruct (find_first _ (shipments (working s))) as [sh0|] eqn:Ef.
  - apply find_first_Some in Ef as [Hin0 E0%String.eqb_eq].
    assert (existsb (λ x, String.eqb (load_number x) n) (shipments (working s)) = true) as E.
    { apply existsb_exists. exists sh0. rewrite <- list_elem_of_In. split; [done|].
      by apply String.eqb_eq. }
    rewrite E in Hin. apply (NoDup_fmap_inj load_number _ _ _ (aw_numbers _ W)); [done|done|].
    congruence.
  - rewrite find_first_None in Ef. rewrite existsb_none in Hin by done.
    apply elem_of_app in Hin as [Hin|Hin%list_elem_of_singleton]; [|done].
    specialize (Ef sh Hin). simpl in Ef. by rewrite Hln, String.eqb_refl in Ef.
Qed.

Lemma with_shipment_others n s :
  where_ (λ x, negb (String.eqb (load_number x) n)) (with_shipment n s)
  = where_ (λ x, negb (String.eqb (load_number x) n)) (shipments (working s)).
Proof.
  unfold with_shipment, where_. destruct (existsb _ (shipments (working s))); [done|].
  rewrite List.filter_app. simpl. rewrite String.eqb_refl. simpl. by rewrite app_nil_r.
Qed.

Lemma with_shipment_keys n s :
  assembly_wf s →
  NoDup (shipment_id <$> with_shipment n s) ∧ NoDup (load_number <$> with_shipment n s).
Proof.
  intros W. unfold with_shipment.
  destruct (existsb (λ x, String.eqb (load_number x) n) (shipments (working s))) eqn:Ex;
    [split; apply W|].
  rewrite !fmap_app, !NoDup_app. split; (split; [apply W|]); (split; [|apply NoDup_singleton]);
    intros u Hu Hu'%list_elem_of_singleton; simpl in Hu'; subst.
  - by apply (fresh_shipment_id s), Hu; apply W.
  - apply list_elem_of_fmap in Hu as (x & E & Hx).
    rewrite existsb_false_Forall, Forall_forall in Ex. specialize (Ex x Hx).
    by rewrite E, String.eqb_refl in Ex.
Qed.

(** The tables after an upsert: one row of the load number, the others as they
    were. *)
Lemma upsert_tables n s sh sh' s' :
  assembly_wf s → sh ∈ with_shipment n s → load_number sh = n → load_number sh' = n →
  shipments (working s')
  = update_where (λ x, N.eqb (shipment_id x) (shipment_id sh)) (λ _, sh') (with_shipment n s) →
  where_ (λ x, String.eqb (load_number x) n) (shipments (working s')) = [sh']
  ∧ where_ (λ x, negb (String.eqb (load_number x) n)) (shipments (working s'))
    = where_ (λ x, negb (String.eqb (load_number x) n)) (shipments (working s)).
Proof.
  intros W Hin Hln Hln' ->. destruct (with_shipment_keys n s W) as [Hk1 Hk2].
  assert (Hq : ∀ x, x ∈ with_shipment n s → N.eqb (shipment_id x) (shipment_id sh) = true → x = sh).
  { intros x Hx E%N.eqb_eq. by apply (NoDup_fmap_inj shipment_id _ _ _ Hk1). }
  split.
  - rewrite where_update by (intros x Hx E; rewrite (Hq x Hx E); by rewrite Hln, Hln').
    rewrite (where_unique load_number _ _ sh Hk2 Hin); [|by apply String.eqb_eq|].
    2:{ intros y Hy%String.eqb_eq. congruence. }
    unfold update_where. cbn. by rewrite N.eqb_refl.
  - rewrite where_update by (intros x Hx E; rewrite (Hq x Hx E); by rewrite Hln, Hln').
    rewrite <- with_shipment_others. unfold update_where.
    rewrite <- (list_fmap_id (where_ _ (with_shipment n s))) at 2.
    apply list_fmap_ext. intros i x Hx%list_elem_of_lookup_2. apply elem_of_where in Hx as [Hx E].
    simpl. destruct (N.eqb (shipment_id x) (shipment_id sh)) eqn:Eq; [|done].
    rewrite (Hq x Hx Eq), Hln, String.eqb_refl in E. done.
Qed.

Lemma normalize_ck ln n :
  normalize_load_number ln = Ok (Some n) → ck_load_number_normalized n = true.
Proof.
  destruct ln as [v|]; [|done]. cbn [normalize_load_number]. intros H.
  destruct (str_truthy (py_upper (py_strip v))) eqn:Ht; [|done]. injection H as <-.
  unfold ck_load_number_normalized. rewrite NORMALIZED_fix, String.eqb_refl; [done| |].
  - apply trimmed_pg, normalized_trimmed.
  - apply py_upper_idemp.
Qed.

(** The row an upsert starts from. *)
Definition row_before (n : string) (s : session) : Shipment :=
  match old_row n (working s) with
  | Some sh => sh
  | None => new_shipment n (fresh_uuid s) (clock (senv s))
  end.

Lemma upsert_effect ln n document ex s :
  normalize_load_number ln = Ok (Some n) → assembly_wf s →
  document ∈ documents (working s) → carrier_ok ex = true →
  ∃ sh' s', upsert_shipment ln document ex s = (Ok (Some sh'), s') ∧ assembly_wf s'
    ∧ committed s' = committed s
    ∧ row_after (known_rate_confirmation n (working s)) document (row_before n s) sh'
    ∧ where_ (λ x, String.eqb (load_number x) n) (shipments (working s')) = [sh']
    ∧ where_ (λ x, negb (String.eqb (load_number x) n)) (shipments (working s'))
      = where_ (λ x, negb (String.eqb (load_number x) n)) (shipments (working s))
    ∧ rate_confirmations (working s') = rate_confirmations (working s)
    ∧ docs_kept (working s) (working s')
    ∧ same_elsewhere (working s) (working s')
    ∧ ∃ s'', upsert_shipment ln document ex s' = (Ok (Some sh'), s'')
             ∧ working s'' = working s'.
Proof.
  intros Hn W Hdoc Hex. pose proof (normalize_ck _ _ Hn) as Hck.
  destruct (upsert_steps ln n document ex s Hn Hck W Hdoc Hex)
    as (sh & sh4 & s' & E & W' & Hc & Hin & Hln & Ha & Hs & Hrc & Hd & Hk & He).
  pose proof (upsert_row n s sh W Hin Hln) as Hrow.
  assert (Hb : row_before n s = sh) by (unfold row_before; by destruct (old_row n (working s))).
  pose proof (row_after_steps _ _ _ _ _ Ha) as R. rewrite Hln in R.
  assert (Hln' : load_number (settled sh4) = n).
  { destruct (af_identity _ _ _ _ R) as (_ & -> & _). exact Hln. }
  destruct (upsert_tables n s sh (settled sh4) s' W Hin Hln Hln' Hs) as [T1 T2].
  exists (settled sh4), s'. rewrite Hb. split; [done|]. split; [done|]. split; [done|].
  split; [by destruct R; split|]. do 5 (split; [done|]).
  unfold upsert_shipment. rewrite bind_unfold, Hn. cbn [of_res].
  destruct (insert_shipment_runs n s' W' Hck) as (s1 & E1 & W1 & Hw1 & _ & _).
  assert (Hin' : settled sh4 ∈ shipments (working s')).
  { apply (elem_of_where (λ x, String.eqb (load_number x) n)). rewrite T1. set_solver. }
  assert (Hsame : working s1 = working s').
  { rewrite Hw1. unfold with_shipment. rewrite (proj2 (existsb_exists _ _)).
    - unfold on_shipments. by destruct (working s').
    - exists (settled sh4). rewrite <- list_elem_of_In. split; [done|]. by apply String.eqb_eq. }
  rewrite bind_unfold, E1, bind_unfold. cbn [select gets]. rewrite Hsame, T1, bind_unfold.
  cbn [scalar_one mret M_ret].
  rewrite bind_unfold, (attach_to_shipment_again document ex (working s) sh sh4 s1);
    rewrite ?Hsame; try done.
  eexists. split; [reflexivity|done].
Qed.

(** ** Assembling a shipment from a sequence of documents

    The documents of one load number, attached one after the other as their
    workflow runs reach the assembly step. *)

Fixpoint upsert_all (ln : option string) (items : list (Z * extraction)) : M session unit :=
  match items with
  | [] => mret tt
  | (i, ex) :: rest =>
      document ← get_document i;
      match document with
      | None => raise (Exn ValueError "Document not found")
      | Some doc => _ ← upsert_shipment ln doc ex; upsert_all ln rest
      end
  end.

Definition item_type (d : database) (i : Z) : option string :=
  doc_type <$> find_first (λ x, Z.eqb (doc_id x) i) (documents d).

Definition item_is (t : string) (d : database) (it : Z * extraction) : bool :=
  sql_eq String.eqb (item_type d it.1) t.

Lemma find_document d i :
  NoDup (doc_id <$> documents d) → i ∈ doc_id <$> documents d →
  ∃ doc, find_first (λ x, Z.eqb (doc_id x) i) (documents d) = Some doc ∧ doc ∈ documents d
         ∧ doc_id doc = i.
Proof.
  intros Hnd (doc & -> & Hdoc)%list_elem_of_fmap.
  destruct (find_first (λ x, Z.eqb (doc_id x) (doc_id doc)) (documents d)) as [x|] eqn:E.
  - apply find_first_Some in E as [Hx Hi%Z.eqb_eq]. by exists x.
  - rewrite find_first_None in E. specialize (E doc Hdoc). simpl in E. by rewrite Z.eqb_refl in E.
Qed.

Lemma docs_kept_item d d' i :
  NoDup (doc_id <$> documents d) → NoDup (doc_id <$> documents d') → docs_kept d d' →
  i ∈ doc_id <$> documents d →
  i ∈ doc_id <$> documents d' ∧ item_type d' i = item_type d i.
Proof.
  intros Hnd Hnd' Hk Hi. unfold item_type.
  destruct (find_document d i Hnd Hi) as (doc & E & Hdoc & Hid).
  destruct (Hk doc Hdoc) as (doc' & Hdoc' & Hid' & Ht).
  assert (Hi' : i ∈ doc_id <$> documents d').
  { rewrite <- Hid, <- Hid'. by apply list_elem_of_fmap_2. }
  split; [done|]. destruct (find_document d' i Hnd' Hi') as (y & E' & Hy & Hyi).
  rewrite E, E'. simpl. rewrite (NoDup_fmap_inj doc_id _ y doc' Hnd' Hy Hdoc'); congruence.
Qed.

(** An upsert that finds no rate confirmation on the row adds at most two of the
    four documents. *)
Lemma row_after_count known doc sh sh' :
  row_after known doc sh sh' → is_some (rate_con_id sh) = false →
  present_count sh' <= present_count sh + 2.
Proof.
  intros [_ R1 R2 R3 R4 _ _ _ _ _ _ _] Hr. unfold present_count. rewrite R1, R2, R3, R4, Hr.
  unfold of_type. generalize (doc_type doc). intros t. rewrite !count_by_cons.
  destruct (String.eqb_spec t "invoice") as [->|_];
    [|destruct (String.eqb_spec t "rate_confirmation") as [->|_];
      [|destruct (String.eqb_spec t "bill_of_lading") as [->|_];
        [|destruct (String.eqb_spec t "proof_of_delivery") as [->|_]]]];
    destruct (has_invoice sh), (has_rate_con sh), (has_bol sh), (has_pod sh), known;
    vm_compute; lia.
Qed.

(** The status of a row that only upserts have written. *)
Definition assembling (sh : Shipment) : Prop :=
  reconciliation_status sh = (if Nat.eqb (present_count sh) 0 then "pending" else "partial")
  ∧ (is_some (rate_con_id sh) = true → has_rate_con sh = true).

Lemma present_count_le sh : present_count sh <= 4.
Proof. unfold present_count, count_by. by apply List.filter_length_le. Qed.

Lemma present_count_rate_con sh : has_rate_con sh = true → present_count sh ≠ 0.
Proof. unfold present_count. rewrite !count_by_cons. intros ->. lia. Qed.

Lemma row_after_assembling known doc sh sh' :
  row_after known doc sh sh' → assembling sh → assembling sh'.
Proof.
  intros R [Hs Hr]. split.
  - rewrite (af_status _ _ _ _ R).
    destruct (Nat.eqb_spec (present_count sh') 0) as [|Hn]; [done|].
    destruct (Nat.ltb_spec (present_count sh') 4) as [|H4]; [done|]. rewrite Hs.
    destruct (Nat.eqb_spec (present_count sh) 0) as [E|]; [|done]. exfalso.
    destruct (is_some (rate_con_id sh)) eqn:Ei; [by apply (present_count_rate_con sh (Hr eq_refl))|].
    pose proof (row_after_count _ _ _ _ R Ei). lia.
  - rewrite (af_rate_con_id _ _ _ _ R), (af_rate_con _ _ _ _ R).
    destruct (is_some (rate_con_id sh)), (of_type "rate_confirmation" doc), known,
      (has_rate_con sh); done.
Qed.

(** The first item of a type, by id. *)
Definition first_item (t : string) (d : database) (items : list (Z * extraction)) : option Z :=
  fst <$> find_first (item_is t d) items.

(** The row after attaching [items] to the row [sh], in the database [d]. *)
Record assembled_row (known : bool) (d : database) (items : list (Z * extraction))
    (sh sh' : Shipment) : Prop := {
  as_identity : same_identity sh sh';
  as_invoice : has_invoice sh' = has_invoice sh || existsb (item_is "invoice" d) items;
  as_bol : has_bol sh' = has_bol sh || existsb (item_is "bill_of_lading" d) items;
  as_pod : has_pod sh' = has_pod sh || existsb (item_is "proof_of_delivery" d) items;
  as_rate_con : has_rate_con sh' = has_rate_con sh || is_some (rate_con_id sh)
                  || existsb (item_is "rate_confirmation" d) items || known;
  as_invoice_id : invoice_id sh' = match invoice_id sh with
                                   | Some i => Some i
                                   | None => first_item "invoice" d items end;
  as_bol_id : bol_id sh' = match bol_id sh with
                           | Some i => Some i
                           | None => first_item "bill_of_lading" d items end;
  as_pod_id : pod_id sh' = match pod_id sh with
                           | Some i => Some i
                           | None => first_item "proof_of_delivery" d items end;
  as_rate_con_id : is_some (rate_con_id sh') = is_some (rate_con_id sh)
                     || existsb (item_is "rate_confirmation" d) items || known;
  as_status : assembling sh → assembling sh'
}.

Definition items_ok (d : database) (items : list (Z * extraction)) : Prop :=
  Forall (λ it, it.1 ∈ doc_id <$> documents d ∧ carrier_ok it.2 = true) items.

Lemma items_kept d d' items :
  NoDup (doc_id <$> documents d) → NoDup (doc_id <$> documents d') → docs_kept d d' →
  items_ok d items →
  items_ok d' items
  ∧ (∀ t, existsb (item_is t d') items = existsb (item_is t d) items)
  ∧ (∀ t, first_item t d' items = first_item t d items).
Proof.
  intros Hnd Hnd' Hk. unfold first_item.
  induction 1 as [|it items [Hi Hc] Hok (IH1 & IH2 & IH3)]; [by repeat split; constructor|].
  destruct (docs_kept_item d d' it.1 Hnd Hnd' Hk Hi) as [Hi' Ht].
  assert (Hit : ∀ t, item_is t d' it = item_is t d it) by (intros t; unfold item_is; by rewrite Ht).
  split; [by constructor|]. split; intros t; cbn; rewrite Hit.
  - by rewrite IH2.
  - destruct (item_is t d it); [done|]. apply IH3.
Qed.

Lemma first_id_cons d old t it items doc :
  NoDup (doc_id <$> documents d) →
  find_first (λ x, Z.eqb (doc_id x) it.1) (documents d) = Some doc →
  match first_id old (of_type t doc) doc with
  | Some i => Some i
  | None => first_item t d items
  end = match old with Some i => Some i | None => first_item t d (it :: items) end.
Proof.
  intros Hnd E. unfold first_id, first_item. destruct old; [done|]. cbn.
  unfold item_is, item_type, of_type, sql_eq. rewrite E. cbn.
  destruct (String.eqb (doc_type doc) t); [|done].
  apply find_first_Some in E as [_ E%Z.eqb_eq]. simpl. by rewrite E.
Qed.

Lemma item_is_doc d t it doc :
  find_first (λ x, Z.eqb (doc_id x) it.1) (documents d) = Some doc → item_is t d it = of_type t doc.
Proof. unfold item_is, item_type. by intros ->. Qed.

Lemma upsert_all_effect ln n items : ∀ s sh,
  normalize_load_number ln = Ok (Some n) → assembly_wf s → items_ok (working s) items →
  items ≠ [] → sh = row_before n s →
  ∃ sh' s', upsert_all ln items s = (Ok tt, s') ∧ assembly_wf s'
    ∧ where_ (λ x, String.eqb (load_number x) n) (shipments (working s')) = [sh']
    ∧ where_ (λ x, negb (String.eqb (load_number x) n)) (shipments (working s'))
      = where_ (λ x, negb (String.eqb (load_number x) n)) (shipments (working s))
    ∧ assembled_row (known_rate_confirmation n (working s)) (working s) items sh sh'.
Proof.
  induction items as [|it items IH]; [done|]. intros s sh Hn W Hok _ Hsh.
  destruct it as [i ex]. cbn [upsert_all].
  inversion Hok as [|? ? [Hi Hex] Hok']; subst. simpl in Hi, Hex.
  destruct (find_document (working s) i) as (doc & E & Hdoc & Hid); [apply W|done|].
  rewrite bind_unfold. unfold get_document, select, gets. rewrite E.
  destruct (upsert_effect ln n doc ex s Hn W Hdoc Hex)
    as (sh1 & s1 & E1 & W1 & _ & R & T1 & T2 & Hrc & Hk & _).
  rewrite bind_unfold, E1.
  destruct (items_kept (working s) (working s1) items) as (Hok1 & Hex1 & Hf1);
    [apply W|apply W1|done|done|].
  assert (Hknown : known_rate_confirmation n (working s1) = known_rate_confirmation n (working s))
    by (unfold known_rate_confirmation; by rewrite Hrc).
  assert (Hi0 : ∀ t, item_is t (working s) (i, ex) = of_type t doc)
    by (intros t; by apply item_is_doc).
  pose proof (λ old t, first_id_cons (working s) old t (i, ex) items doc (aw_doc_ids _ W) E) as Hfi.
  assert (Hb : row_before n s1 = sh1).
  { unfold row_before, old_row.
    assert (Hin : sh1 ∈ [sh1]) by set_solver. rewrite <- T1 in Hin.
    apply elem_of_where in Hin as [Hin Hl].
    destruct (find_first _ (shipments (working s1))) as [x|] eqn:Ef.
    - apply find_first_Some in Ef as [Hx Hxl].
      assert (x ∈ [sh1]) as Hx1; [rewrite <- T1; by apply elem_of_where|]. set_solver.
    - rewrite find_first_None in Ef. rewrite (Ef sh1 Hin) in Hl. done. }
  destruct R as [R0 R1 R2 R3 R4 R5 R6 R7 R8 R9 R10 R11] eqn:HR; clear HR.
  assert (Hasm : assembling (row_before n s) → assembling sh1)
    by (apply (row_after_assembling (known_rate_confirmation n (working s)) doc); by split).
  destruct items as [|it2 items'].
  - exists sh1, s1. split; [done|]. split; [done|]. split; [done|]. split; [done|].
    assert (Hnil : ∀ o t, match o with Some j => Some j | None => first_item t (working s) [] end = o)
      by (by intros []).
    split; cbn [existsb]; rewrite ?Bool.orb_false_r, ?Hi0, <- ?Hfi, ?Hnil; done.
  - destruct (IH s1 sh1) as (sh' & s' & E2 & W2 & U1 & U2 & A); [done|done|done|done|done|].
    exists sh', s'. split; [done|]. split; [done|]. split; [done|]. split; [by rewrite U2|].
    rewrite Hknown in A. destruct A as [A0 A1 A2 A3 A4 A5 A6 A7 A8 A9].
    rewrite Hex1, R1 in A1. rewrite Hex1, R2 in A2. rewrite Hex1, R3 in A3.
    rewrite Hex1, R4, R8 in A4. rewrite Hf1, R5 in A5. rewrite Hf1, R6 in A6.
    rewrite Hf1, R7 in A7. rewrite Hex1, R8 in A8.
    split; [by eapply same_identity_trans|..]; cbn [existsb]; rewrite ?Hi0.
    + by rewrite A1, Bool.orb_assoc.
    + by rewrite A2, Bool.orb_assoc.
    + by rewrite A3, Bool.orb_assoc.
    + rewrite A4. destruct (has_rate_con (row_before n s)), (rate_con_id (row_before n s)),
        (of_type "rate_confirmation" doc), (known_rate_confirmation n (working s)); simpl;
        rewrite ?Bool.orb_true_r, ?Bool.orb_false_r; done.
    + by rewrite A5, Hfi.
    + by rewrite A6, Hfi.
    + by rewrite A7, Hfi.
    + rewrite A8. destruct (rate_con_id (row_before n s)),
        (of_type "rate_confirmation" doc), (known_rate_confirmation n (working s)); simpl;
        rewrite ?Bool.orb_true_r, ?Bool.orb_false_r; done.
    + auto.
Qed.

(** ** Properties *)

(** An upsert with a valid load number always returns, and leaves exactly one
    shipment of the normalised number: the flag and the first document id of the
    document's type are set, no flag is cleared and no document id replaced, the
    rate confirmation of the management table counts as present, a carrier name
    once known is kept, the status is [pending] without documents and [partial]
    below four; the other shipments are untouched, and so is everything committed
    (the caller owns the transaction). *)
Theorem upsert_shipment_correct ln n document ex s :
  normalize_load_number ln = Ok (Some n) → assembly_wf s →
  document ∈ documents (working s) → carrier_ok ex = true →
  ∃ sh' s', upsert_shipment ln document ex s = (Ok (Some sh'), s') ∧ assembly_wf s'
    ∧ committed s' = committed s
    ∧ row_after (known_rate_confirmation n (working s)) document (row_before n s) sh'
    ∧ where_ (λ x, String.eqb (load_number x) n) (shipments (working s')) = [sh']
    ∧ where_ (λ x, negb (String.eqb (load_number x) n)) (shipments (working s'))
      = where_ (λ x, negb (String.eqb (load_number x) n)) (shipments (working s)).
Proof.
  intros Hn W Hdoc Hex. destruct (upsert_effect ln n document ex s Hn W Hdoc Hex)
    as (sh' & s' & E & W' & Hc & R & T1 & T2 & _). by exists sh', s'.
Qed.

(** Redelivery: upserting the same document again, from the tables the first
    upsert left, returns the same shipment and changes no table. *)
Theorem upsert_shipment_idempotent ln n document ex s :
  normalize_load_number ln = Ok (Some n) → assembly_wf s →
  document ∈ documents (working s) → carrier_ok ex = true →
  ∃ sh' s' s'', upsert_shipment ln document ex s = (Ok (Some sh'), s')
    ∧ upsert_shipment ln document ex s' = (Ok (Some sh'), s'') ∧ working s'' = working s'.
Proof.
  intros Hn W Hdoc Hex. destruct (upsert_effect ln n document ex s Hn W Hdoc Hex)
    as (sh' & s' & E & _ & _ & _ & _ & _ & _ & _ & _ & s'' & E' & Hw). by exists sh', s', s''.
Qed.


(** ** Examples *)

Definition demo_doc (i : Z) (t : string) : Document :=
  mkDocument i (t +:+ ".pdf") t "extracted" None (Some (JObj [("carrier_name", JStr "Acme")]))
    None None None None None None None 0.

Definition demo_rc : RateConfirmation :=
  mkRateConfirmation 5 "LD-1" "Acme Freight" "Reno" "Boise" fzero "USD" 20000 0.

Definition demo_tables : session :=
  mk_session empty_database
    (on_rate_confirmations (λ _, [demo_rc])
      (on_documents (λ _, [demo_doc 1 "invoice"; demo_doc 2 "bill_of_lading"]) empty_database))
    (mk_env 3 1 1 1 0 (λ n, (1000 + N.of_nat n)%N) 0).

Definition demo_items : list (Z * extraction) :=
  [(2%Z, []); (1%Z, [("carrier_name", JStr "Acme")])].

Lemma demo_tables_wf : assembly_wf demo_tables.
Proof.
  split; cbn.
  - split; cbn; [intros n _; rewrite list_elem_of_singleton; lia|intros n m _; lia].
  - repeat constructor; set_solver.
  - intros doc [->|[->|[]%not_elem_of_nil]%elem_of_cons]%elem_of_cons; cbn; lia.
  - constructor.
  - constructor.
  - set_solver.
  - repeat constructor; set_solver.
  - intros rc. cbn. lia.
Qed.

Lemma upsert_shipment_correct_witness :
  ∃ sh' s', upsert_shipment (Some " ld-1 ") (demo_doc 1 "invoice") [] demo_tables
            = (Ok (Some sh'), s')
    ∧ has_invoice sh' = true ∧ has_rate_con sh' = true ∧ has_bol sh' = false.
Proof.
  destruct (upsert_shipment_correct (Some " ld-1 ") "LD-1" (demo_doc 1 "invoice") [] demo_tables)
    as (sh' & s' & E & _ & _ & R & _).
  - reflexivity.
  - exact demo_tables_wf.
  - cbn. set_solver.
  - reflexivity.
  - exists sh', s'. destruct R as [_ R1 R2 _ R4 _ _ _ _ _ _ _].
    split; [exact E|]. split; [exact R1|]. split; [exact R4|exact R2].
Defined.

Lemma upsert_shipment_idempotent_witness :
  ∃ sh' s' s'', upsert_shipment (Some "LD-1") (demo_doc 1 "invoice") [] demo_tables
                = (Ok (Some sh'), s')
    ∧ upsert_shipment (Some "LD-1") (demo_doc 1 "invoice") [] s' = (Ok (Some sh'), s'')
    ∧ working s'' = working s'.
Proof.
  apply (upsert_shipment_idempotent (Some "LD-1") "LD-1").
  - reflexivity.
  - exact demo_tables_wf.
  - cbn. set_solver.
  - reflexivity.
Defined.

