(* ===== verification/Reconciliation.v ===== *)
(** * Reconciliation

    [app/services/reconciliation.py]: the documents of a shipment are compared
    check by check, the verdict is stored as a [ReconciliationResult] and as the
    shipment's status, and the missing-document exception is synchronised, all in
    one transaction.

    [now], the SLA and the other keyword arguments are arguments here; the
    default of the SLA is a setting of [app/core/config.py]. *)

From S2P Require Import Prelude PyText LoadNumbers DateTime PyFloat Json Database MissingDocs.
From S2P Require Import Shipments.
From Stdlib Require Import Ascii SpecFloat.
Local Open Scope string_scope.
Local Open Scope list_scope.
Local Open Scope nat_scope.

(** ** Python values out of an extraction *)

(** [_normalize_carrier]: [str(value or "")], upper case, single spaces. *)
Definition normalize_carrier (value : option json) : string :=
  let v := match value with
           | Some j => if jtruthy j then py_str j else ""
           | None => ""
           end in
  py_join " " (py_split (py_upper (py_strip v))).

(** [_parse_date]; an extraction holds JSON values, never [date] objects. *)
Definition parse_date (value : option json) : option date :=
  match value with
  | Some j => if jtruthy j then dt_date <$> fromisoformat (py_str j) else None
  | None => None
  end.

(** [float(value)]: a number, [ValueError] and [TypeError] as [Ok None], which the
    caller skips, and the [OverflowError] of a huge integer, which it does not. *)
Definition py_float (j : json) : res (option float) :=
  match j with
  | JBool b => Ok (float_of_int (if b then 1 else 0)%Z)
  | JInt z => match float_of_int z with
              | Some f => Ok (Some f)
              | None => Raise (Exn (OtherError "OverflowError") "int too large to convert to float")
              end
  | JFloat f => Ok (Some f)
  | JStr s => Ok (float_of_str s)
  | JNull | JArr _ | JObj _ => Ok None
  end.

Definition get_key (e : option json) (k : string) : option json :=
  match e with Some j => jget k j | None => None end.

(** [_amount_from]: the first key whose value converts. *)
Fixpoint amount_from (e : option json) (keys : list string) : res (option float) :=
  match keys with
  | [] => Ok None
  | k :: keys' =>
      match get_key e k with
      | None | Some JNull => amount_from e keys'
      | Some j =>
          match py_float j with
          | Raise ex => Raise ex
          | Ok (Some f) => Ok (Some f)
          | Ok None => amount_from e keys'
          end
      end
  end.

(** [_doc_extraction]: [document.extracted_data or {}]. *)
Definition doc_extraction (doc : option Document) : option json :=
  match doc with
  | None => None
  | Some d => Some (match extracted_data d with
                    | Some j => if jtruthy j then j else JObj []
                    | None => JObj []
                    end)
  end.

(** ** The checks *)

(** The two lists [reconcile_shipment] accumulates. *)
Record verdict := mk_verdict { v_checks : list json; v_reasons : list string }.

(** [_check] *)
Definition check (acc : verdict) (name outcome details : string) (reason : option string) : verdict :=
  let failed := String.eqb outcome "failed" in
  mk_verdict
    (v_checks acc ++ [check_dict name outcome details (if failed then reason else None)])
    (if failed then v_reasons acc ++ [default name (str_or reason None)] else v_reasons acc).

(** [AMOUNT_TOLERANCE = 0.05] *)
Definition AMOUNT_TOLERANCE : float := float_of_decimal false 5 (-2).

Definition amount_passed (invoice_total rate : float) : bool :=
  fleb (fabs (fsub invoice_total rate)) (fmul (fabs rate) AMOUNT_TOLERANCE).

Definition amount_variance (acc : verdict) (invoice rate_con : option json) : res verdict :=
  match amount_from invoice ["total_amount"; "invoice_total"] with
  | Raise e => Raise e
  | Ok invoice_total =>
      match amount_from rate_con ["agreed_rate"; "total_amount"; "rate"] with
      | Raise e => Raise e
      | Ok agreed =>
          Ok (match invoice_total, agreed with
              | Some i, Some r =>
                  check acc "amount_variance" (if amount_passed i r then "passed" else "failed")
                    ("invoice=" +:+ float_repr i +:+ ", agreed_rate=" +:+ float_repr r
                     +:+ ", variance=" +:+ float_repr (fsub i r)) (Some "amount_variance")
              | _, _ =>
                  check acc "amount_variance" "not_evaluated"
                    "skipped: invoice or rate confirmation amount is missing" None
              end)
      end
  end.

Definition carrier_match (acc : verdict) (invoice rate_con : option json) : verdict :=
  let invoice_carrier := normalize_carrier (get_key invoice "carrier_name") in
  let rate_con_carrier := normalize_carrier (get_key rate_con "carrier_name") in
  if negb (str_truthy invoice_carrier) || negb (str_truthy rate_con_carrier) then
    check acc "carrier_match" "not_evaluated"
      "skipped: invoice or rate confirmation carrier is missing" None
  else
    check acc "carrier_match"
      (if String.eqb invoice_carrier rate_con_carrier then "passed" else "failed")
      ("invoice=" +:+ invoice_carrier +:+ ", rate_con=" +:+ rate_con_carrier)
      (Some "carrier_mismatch").

Definition bol_pickup_date (acc : verdict) (bol rate_con : option json) : verdict :=
  let pickup := parse_date (jor (get_key bol "pickup_date") (get_key bol "shipment_date")) in
  let ship := parse_date (jor (get_key rate_con "shipment_date") (get_key rate_con "invoice_date")) in
  match pickup, ship with
  | Some p, Some s =>
      check acc "bol_pickup_date" (if (Z.abs (p - s) <=? 1)%Z then "passed" else "failed")
        ("bol_pickup_date=" +:+ date_isoformat p +:+ ", rate_con_shipment_date="
         +:+ date_isoformat s) (Some "bol_pickup_date_mismatch")
  | _, _ =>
      check acc "bol_pickup_date" "not_evaluated"
        "skipped: BOL pickup date or rate confirmation shipment date is missing" None
  end.

(** [f"{value or 'missing'}"] *)
Definition or_missing (v : option json) : string :=
  match v with Some j => if jtruthy j then py_str j else "missing" | None => "missing" end.

Definition pod_delivery_confirmation (acc : verdict) (sh : Shipment) (pod : option json) : verdict :=
  if has_pod sh then
    let delivery_date := get_key pod "delivery_date" in
    let condition := get_key pod "condition" in
    check acc "pod_delivery_confirmation"
      (if opt_truthy jtruthy delivery_date && opt_truthy jtruthy condition then "passed" else "failed")
      ("delivery_date=" +:+ or_missing delivery_date +:+ ", condition=" +:+ or_missing condition)
      (Some "pod_incomplete")
  else
    check acc "pod_delivery_confirmation" "not_evaluated"
      "POD content cannot be evaluated until the document arrives" None.

(** The policy checks and the final [missing_docs] check. *)
Definition missing_docs_check (acc : verdict) (policy : policy_result) : verdict :=
  let acc := mk_verdict (v_checks acc ++ p_checks policy) (v_reasons acc ++ p_reason_codes policy) in
  let missing := p_missing_docs policy in
  check acc "missing_docs" (if bool_decide (missing = []) then "passed" else "not_evaluated")
    (if bool_decide (missing = []) then "none" else py_join ", " missing) None.

(** The extractions [_shipment_documents] leads to. *)
Record evidence := mk_evidence {
  ev_invoice : option json; ev_rate_con : option json; ev_bol : option json; ev_pod : option json
}.

(** All checks, in the order of the source. *)
Definition evaluate_checks (sh : Shipment) (e : evidence) (policy : policy_result) : res verdict :=
  match amount_variance (mk_verdict [] []) (ev_invoice e) (ev_rate_con e) with
  | Raise ex => Raise ex
  | Ok acc =>
      let acc := carrier_match acc (ev_invoice e) (ev_rate_con e) in
      let acc := bol_pickup_date acc (ev_bol e) (ev_rate_con e) in
      let acc := pod_delivery_confirmation acc sh (ev_pod e) in
      Ok (missing_docs_check acc policy)
  end.

Definition is_outcome (o : string) (c : json) : bool := sql_eq String.eqb (check_outcome c) o.

Definition verdict_status (v : verdict) (missing : list string) : string :=
  if negb (bool_decide (v_reasons v = [])) then "exception"
  else if negb (bool_decide (missing = [])) || existsb (is_outcome "not_evaluated") (v_checks v)
  then "partial" else "reconciled".

(** ** The transaction *)

(** [await db.get(Document, id) if id else None] *)
Definition get_linked (i : option Z) : M session (option Document) :=
  match i with
  | Some k => if Z.eqb k 0 then mret None else get_document k
  | None => mret None
  end.

(** The lookup of an earlier result of the same run or evaluation. *)
Definition find_result (run_id : option string) (key : option string)
  : M session (option ReconciliationResult) :=
  match run_id, key with
  | Some r, _ =>
      found ← select (λ d, where_ (λ x, sql_eq String.eqb (result_run_id x) r)
                                  (reconciliation_results d));
      scalar_one_or_none found
  | None, Some k =>
      found ← select (λ d, where_ (λ x, sql_eq String.eqb (evaluation_key x) k)
                                  (reconciliation_results d));
      scalar_one_or_none found
  | None, None => mret None
  end.

Definition new_result (sid : uuid) (run_id : option string) (source : string) (key : option string)
    (v : verdict) (missing : list string) (i : uuid) (now : datetime) : ReconciliationResult :=
  mkReconciliationResult i sid run_id source key (v_checks v) missing (v_reasons v) now.

Definition updated_result (sid : uuid) (source : string) (key : option string) (v : verdict)
    (missing : list string) (r : ReconciliationResult) : ReconciliationResult :=
  mkReconciliationResult (result_id r) sid (result_run_id r) source key (v_checks v) missing
    (v_reasons v) (result_created_at r).

(** The rate confirmation of the management table takes the place of the
    document's extraction. *)
Definition with_rate_confirmation (sh : Shipment) (rate_con : option json)
    (rc : option RateConfirmation) : Shipment * option json :=
  match rc with
  | Some rc => (set_has_rate_con true sh, Some (JObj (rate_confirmation_extraction rc)))
  | None => (sh, rate_con)
  end.

Definition reconcile_shipment (sh : Shipment) (run_id : option string) (now : datetime)
    (sla_duration : timedelta) (source : option string) (key : option string)
  : M session ReconciliationResult :=
  let source := match str_or source None with
                | Some s => s
                | None => match run_id with Some _ => "document_workflow" | None => "legacy" end
                end in
  invoice ← get_linked (invoice_id sh);
  rate_con ← get_linked (rate_con_id sh);
  bol ← get_linked (bol_id sh);
  pod ← get_linked (pod_id sh);
  found ← select (λ d, where_ (λ rc, String.eqb (rc_load_number rc) (load_number sh))
                              (rate_confirmations d));
  rate_confirmation ← scalar_one_or_none found;
  let '(sh, rate_con) := with_rate_confirmation sh (doc_extraction rate_con) rate_confirmation in
  let policy := evaluate_missing_document_policy sh now sla_duration in
  v ← of_res (evaluate_checks sh
                (mk_evidence (doc_extraction invoice) rate_con (doc_extraction bol)
                             (doc_extraction pod)) policy);
  let missing := p_missing_docs policy in
  let sh := set_reconciliation_status (verdict_status v missing) sh in
  existing ← find_result run_id key;
  _ ← save_shipment sh;
  result ← match existing with
           | None => insert_result (new_result (shipment_id sh) run_id source key v missing)
           | Some r =>
               let r := updated_result (shipment_id sh) source key v missing r in
               _ ← save_result r; mret r
           end;
  _ ← sync_missing_document_exception sh policy result now;
  _ ← commit;
  mret result.

(** ** Lemmas: the checks *)

Lemma amount_from_raises e keys ex :
  amount_from e keys = Raise ex → exn_cls ex = OtherError "OverflowError".
Proof.
  induction keys as [|k keys IH]; [done|]. cbn.
  destruct (get_key e k) as [j|]; [|exact IH].
  destruct j as [|b|z|f|t|l|kvs]; cbn [py_float]; try done.
  - by destruct b.
  - destruct (float_of_int z); [done|]. by intros [= <-].
  - by destruct (float_of_str t).
Qed.

(** Nothing else makes an evaluation raise. *)
Lemma evaluate_checks_raises sh e policy ex :
  evaluate_checks sh e policy = Raise ex → exn_cls ex = OtherError "OverflowError".
Proof.
  unfold evaluate_checks. intros Ev.
  destruct (amount_variance _ _ _) as [|ex'] eqn:Ea; [done|]. injection Ev as <-.
  unfold amount_variance in Ea.
  destruct (amount_from (ev_invoice e) _) as [it|ex1] eqn:E1;
    [destruct (amount_from (ev_rate_con e) _) as [ar|ex2] eqn:E2; [done|]|];
    injection Ea as <-; by eapply amount_from_raises.
Qed.

(** The verdicts [_check] builds: every outcome is one of the three, the failed
    checks carry exactly the reasons, in order. *)
Definition failed_reasons (l : list json) : list string :=
  omap check_reason (where_ (is_outcome "failed") l).

Definition outcome_ok (c : json) : bool :=
  is_outcome "passed" c || is_outcome "failed" c || is_outcome "not_evaluated" c.

Record coherent (names : list string) (v : verdict) : Prop := {
  co_names : check_name_of <$> v_checks v = Some <$> names;
  co_outcomes : Forall (λ c, outcome_ok c = true) (v_checks v);
  co_reasons : failed_reasons (v_checks v) = v_reasons v;
  co_silent : Forall (λ c, is_some (check_reason c) = is_outcome "failed" c) (v_checks v)
}.

Lemma failed_reasons_app l1 l2 :
  failed_reasons (l1 ++ l2) = failed_reasons l1 ++ failed_reasons l2.
Proof. unfold failed_reasons, where_. by rewrite List.filter_app, omap_app. Qed.

Lemma coherent_nil : coherent [] (mk_verdict [] []).
Proof. split; by constructor. Qed.

Lemma check_coherent names acc name outcome details reason :
  coherent names acc → in_strs outcome ["passed"; "failed"; "not_evaluated"] = true →
  (outcome = "failed" → opt_truthy str_truthy reason = true) →
  coherent (names ++ [name]) (check acc name outcome details reason).
Proof.
  intros [H1 H2 H3 H4] Ho Hr. split; cbn [check v_checks v_reasons].
  - by rewrite !fmap_app, H1.
  - apply Forall_app. split; [done|]. repeat constructor.
    unfold in_strs in Ho. cbn in Ho. rewrite Bool.orb_false_r, Bool.orb_assoc in Ho. exact Ho.
  - rewrite failed_reasons_app, H3. unfold failed_reasons, is_outcome. cbn.
    destruct (String.eqb_spec outcome "failed") as [->|]; cbn; [|by rewrite app_nil_r].
    unfold str_or. rewrite Hr by done. specialize (Hr eq_refl). by destruct reason.
  - apply Forall_app. split; [done|]. repeat constructor. unfold is_outcome. cbn.
    destruct (String.eqb_spec outcome "failed") as [->|]; cbn; [|done].
    specialize (Hr eq_refl). by destruct reason.
Qed.

Lemma outcome_of_check acc name outcome details reason :
  check_outcome <$> v_checks (check acc name outcome details reason)
  = (check_outcome <$> v_checks acc) ++ [Some outcome].
Proof. cbn [check v_checks]. by rewrite fmap_app. Qed.

Lemma pf_ok (b : bool) :
  in_strs (if b then "passed" else "failed") ["passed"; "failed"; "not_evaluated"] = true.
Proof. by destruct b. Qed.

Lemma policy_coherent sh now sla :
  coherent ["required_invoice_present"; "required_rate_con_present"; "required_bol_present";
            "required_pod_present"]
    (mk_verdict (p_checks (evaluate_missing_document_policy sh now sla))
                (p_reason_codes (evaluate_missing_document_policy sh now sla))).
Proof.
  destruct sh as [sid ln cn [] [] [] [] ii ri bi pi rs ca];
    unfold evaluate_missing_document_policy; cbn -[Z.leb datetime_isoformat];
    generalize (datetime_isoformat (ca + sla)); intros iso;
    destruct (ca + sla <=? now)%Z; split; repeat constructor; done.
Qed.

Lemma coherent_app n1 v1 n2 v2 :
  coherent n1 v1 → coherent n2 v2 →
  coherent (n1 ++ n2) (mk_verdict (v_checks v1 ++ v_checks v2) (v_reasons v1 ++ v_reasons v2)).
Proof.
  intros [H1 H2 H3 H4] [K1 K2 K3 K4]. split; cbn [v_checks v_reasons].
  - by rewrite !fmap_app, H1, K1.
  - by apply Forall_app.
  - by rewrite failed_reasons_app, H3, K3.
  - by apply Forall_app.
Qed.

(** The names of the checks, in order. *)
Definition CHECK_NAMES : list string :=
  ["amount_variance"; "carrier_match"; "bol_pickup_date"; "pod_delivery_confirmation";
   "required_invoice_present"; "required_rate_con_present"; "required_bol_present";
   "required_pod_present"; "missing_docs"].

Lemma evaluate_checks_coherent sh e now sla v :
  evaluate_checks sh e (evaluate_missing_document_policy sh now sla) = Ok v →
  coherent CHECK_NAMES v.
Proof.
  unfold evaluate_checks. intros H.
  destruct (amount_variance (mk_verdict [] []) (ev_invoice e) (ev_rate_con e)) as [acc|] eqn:E; [|done].
  injection H as <-. unfold missing_docs_check.
  assert (H1 : coherent ["amount_variance"] acc).
  { unfold amount_variance in E.
    destruct (amount_from (ev_invoice e) _) as [it|]; [|done].
    destruct (amount_from (ev_rate_con e) _) as [ar|]; [|done]. injection E as <-.
    destruct it, ar; apply (check_coherent []);
      try apply coherent_nil; try apply pf_ok; done. }
  assert (H2 : coherent ["amount_variance"; "carrier_match"]
                 (carrier_match acc (ev_invoice e) (ev_rate_con e))).
  { unfold carrier_match. destruct (_ || _); apply (check_coherent ["amount_variance"]);
      try apply pf_ok; done. }
  revert H2. generalize (carrier_match acc (ev_invoice e) (ev_rate_con e)). intros acc2 H2.
  assert (H3 : coherent ["amount_variance"; "carrier_match"; "bol_pickup_date"]
                 (bol_pickup_date acc2 (ev_bol e) (ev_rate_con e))).
  { unfold bol_pickup_date.
    generalize (parse_date (jor (get_key (ev_bol e) "pickup_date") (get_key (ev_bol e) "shipment_date")))
      (parse_date (jor (get_key (ev_rate_con e) "shipment_date") (get_key (ev_rate_con e) "invoice_date"))).
    intros [p|] [q|];
      apply (check_coherent ["amount_variance"; "carrier_match"]); try apply pf_ok; done. }
  revert H3. generalize (bol_pickup_date acc2 (ev_bol e) (ev_rate_con e)). intros acc3 H3.
  assert (H4 : coherent ["amount_variance"; "carrier_match"; "bol_pickup_date";
                         "pod_delivery_confirmation"]
                 (pod_delivery_confirmation acc3 sh (ev_pod e))).
  { unfold pod_delivery_confirmation. destruct (has_pod sh);
      apply (check_coherent ["amount_variance"; "carrier_match"; "bol_pickup_date"]);
      try apply pf_ok; done. }
  revert H4. generalize (pod_delivery_confirmation acc3 sh (ev_pod e)). intros acc4 H4.
  apply (check_coherent (["amount_variance"; "carrier_match"; "bol_pickup_date";
    "pod_delivery_confirmation"] ++ ["required_invoice_present"; "required_rate_con_present";
    "required_bol_present"; "required_pod_present"])).
  - apply (coherent_app _ _ _ (mk_verdict _ _) H4), policy_coherent.
  - by destruct (bool_decide _).
  - by destruct (bool_decide _).
Qed.


Lemma coherent_failed names v :
  coherent names v → v_reasons v = [] ↔ existsb (is_outcome "failed") (v_checks v) = false.
Proof.
  intros [_ _ <- H4]. unfold failed_reasons, where_.
  induction H4 as [|c l Hc Hl IH]; [done|]. cbn.
  destruct (is_outcome "failed" c); [|exact IH]. cbn. by destruct (check_reason c).
Qed.

Lemma coherent_passed names v :
  coherent names v →
  existsb (is_outcome "failed") (v_checks v) = false →
  existsb (is_outcome "not_evaluated") (v_checks v) = false →
  Forall (λ c, is_outcome "passed" c = true) (v_checks v).
Proof.
  intros [_ H2 _ _]. induction H2 as [|c l Hc Hl IH]; [done|]. cbn.
  intros [Hf1 Hf2]%Bool.orb_false_elim [Hn1 Hn2]%Bool.orb_false_elim.
  constructor; [|by apply IH]. unfold outcome_ok in Hc.
  by rewrite Hf1, Hn1, !Bool.orb_false_r in Hc.
Qed.

Lemma is_outcome_fun a b c : is_outcome a c = true → is_outcome b c = true → a = b.
Proof.
  unfold is_outcome, sql_eq. destruct (check_outcome c); [|done].
  intros Ha%String.eqb_eq Hb%String.eqb_eq. congruence.
Qed.

Lemma passed_only a l :
  a ≠ "passed" → Forall (λ c, is_outcome "passed" c = true) l → existsb (is_outcome a) l = false.
Proof.
  intros Ha H. apply existsb_false_Forall. eapply Forall_impl; [exact H|]. simpl. intros c Hc.
  destruct (is_outcome a c) eqn:E; [|done]. by destruct Ha; apply (is_outcome_fun _ _ c).
Qed.

(** The last check tells whether documents are missing. *)
Lemma missing_check_outcome acc policy :
  p_missing_docs policy ≠ [] →
  existsb (is_outcome "not_evaluated") (v_checks (missing_docs_check acc policy)) = true.
Proof.
  intros H. unfold missing_docs_check. rewrite bool_decide_eq_false_2 by done. cbn.
  rewrite List.existsb_app. cbn. by rewrite Bool.orb_true_r.
Qed.

Lemma evaluate_checks_missing sh e policy v :
  evaluate_checks sh e policy = Ok v → p_missing_docs policy ≠ [] →
  existsb (is_outcome "not_evaluated") (v_checks v) = true.
Proof.
  unfold evaluate_checks. destruct (amount_variance _ _ _); [|done]. intros [= <-].
  apply missing_check_outcome.
Qed.

Lemma amount_passed_exact f : is_finite f = true → amount_passed f f = true.
Proof.
  intros Hf. unfold amount_passed. destruct (fsub_self f Hf) as [s ->].
  assert (∃ m e, AMOUNT_TOLERANCE = S754_finite false m e) as (m & e & ->).
  { eexists _, _. vm_compute. reflexivity. }
  by apply fleb_zero_fmul.
Qed.


Lemma py_split_word s : Forall (λ w, word (to_chars w)) (py_split s).
Proof.
  unfold py_split. pose proof (split_ws_words [] (to_chars s) (Forall_nil_2 _)) as H.
  induction H as [|w l Hw Hl IH]; [constructor|]. cbn. constructor; [|exact IH].
  by rewrite to_of_chars.
Qed.

Lemma normalize_carrier_str s :
  normalize_carrier (Some (JStr s)) = py_join " " (py_split (py_upper s)).
Proof.
  unfold normalize_carrier. cbn [jtruthy py_str].
  assert ((if str_truthy s then s else "") = s) as ->.
  { unfold str_truthy. by destruct (String.eqb_spec s ""); subst. }
  by rewrite <- py_strip_upper, py_split_strip.
Qed.

Lemma normalize_carrier_split s :
  py_split (normalize_carrier (Some (JStr s))) = py_upper <$> py_split s.
Proof.
  rewrite normalize_carrier_str, split_join_words by apply py_split_word. apply py_split_upper.
Qed.

(** ** The invariant of the tables a reconciliation reads and writes *)

Record recon_wf (s : session) : Prop := {
  rw_assembly : assembly_wf s;
  rw_exceptions : exceptions_wf (working s);
  rw_ids : NoDup (result_id <$> reconciliation_results (working s));
  rw_runs : NoDup (omap result_run_id (reconciliation_results (working s)));
  rw_keys : NoDup (omap evaluation_key (reconciliation_results (working s)));
  rw_exclusive : ∀ r, r ∈ reconciliation_results (working s) →
                      result_run_id r = None ∨ evaluation_key r = None
}.

Lemma where_opt_key {A} (key : A → option string) (v : string) (l : list A) :
  NoDup (omap key l) →
  (where_ (λ x, sql_eq String.eqb (key x) v) l = [] ∧ ∀ x, x ∈ l → key x ≠ Some v)
  ∨ ∃ x, where_ (λ x, sql_eq String.eqb (key x) v) l = [x] ∧ x ∈ l ∧ key x = Some v.
Proof.
  unfold where_. induction l as [|y l IH]; cbn; intros Hnd; [left; set_solver|].
  assert (Hnd' : NoDup (omap key l)).
  { destruct (key y); [by apply NoDup_cons_1_2 in Hnd|done]. }
  destruct (key y) as [k|] eqn:Ek; cbn [sql_eq].
  - apply NoDup_cons_1_1 in Hnd. destruct (String.eqb_spec k v) as [->|Hkv].
    + right. exists y. split; [|split; [set_solver|done]]. f_equal. apply filter_none.
      intros x Hx. destruct (key x) as [k|] eqn:E; [|done].
      apply String.eqb_neq. intros ->. apply Hnd, list_elem_of_omap. by exists x.
    + destruct (IH Hnd') as [[E H]|(x & E & Hx & Hk)]; [left|right].
      * split; [done|]. intros x [->|Hx]%elem_of_cons; [congruence|by apply H].
      * exists x. split; [done|]. split; [set_solver|done].
  - destruct (IH Hnd') as [[E H]|(x & E & Hx & Hk)]; [left|right].
    + split; [done|]. intros x [->|Hx]%elem_of_cons; [congruence|by apply H].
    + exists x. split; [done|]. split; [set_solver|done].
Qed.

(** The row a result lookup is about. *)
Definition result_matches (rid key : option string) (r : ReconciliationResult) : Prop :=
  match rid, key with
  | Some k, _ => result_run_id r = Some k
  | None, Some k => evaluation_key r = Some k
  | None, None => False
  end.

Lemma find_result_runs rid key s :
  recon_wf s →
  (find_result rid key s = (Ok None, s)
   ∧ ∀ r, r ∈ reconciliation_results (working s) → ¬ result_matches rid key r)
  ∨ ∃ r, find_result rid key s = (Ok (Some r), s) ∧ r ∈ reconciliation_results (working s)
         ∧ result_matches rid key r.
Proof.
  intros W. unfold find_result, result_matches.
  destruct rid as [k|]; [|destruct key as [k|]; [|left; split; [done|auto]]].
  - rewrite bind_unfold. cbn [select gets].
    destruct (where_opt_key result_run_id k _ (rw_runs _ W)) as [[-> H]|(r & -> & Hr & Hk)];
      [by left|right; by exists r].
  - rewrite bind_unfold. cbn [select gets].
    destruct (where_opt_key evaluation_key k _ (rw_keys _ W)) as [[-> H]|(r & -> & Hr & Hk)];
      [by left|right; by exists r].
Qed.

Lemma save_result_runs r s :
  save_result r s = (Ok tt, on_working (on_reconciliation_results
    (update_where (λ x, N.eqb (result_id x) (result_id r)) (λ _, r))) s).
Proof. reflexivity. Qed.

Lemma omap_update_sublist {A B} (p : A → bool) (f : A → A) (g : A → option B) (l : list A) :
  (∀ x, x ∈ l → p x = true → g (f x) = g x ∨ g (f x) = None) →
  omap g (update_where p f l) `sublist_of` omap g l.
Proof.
  unfold update_where. induction l as [|x l IH]; intros H; [done|]. cbn.
  assert (IH' : omap g ((λ r, if p r then f r else r) <$> l) `sublist_of` omap g l).
  { apply IH. intros y Hy. by apply H, list_elem_of_further. }
  destruct (p x) eqn:E.
  - destruct (H x (list_elem_of_here _ _) E) as [-> | ->].
    + destruct (g x); [by apply sublist_skip|done].
    + destruct (g x); [by apply sublist_cons|done].
  - destruct (g x); [by apply sublist_skip|done].
Qed.

Lemma NoDup_omap_update {A B} (p : A → bool) (f : A → A) (g : A → option B) (l : list A) :
  NoDup (omap g l) →
  (∀ x, x ∈ l → p x = true → g (f x) = g x ∨ g (f x) = None) →
  NoDup (omap g (update_where p f l)).
Proof. intros Hnd H. eapply sublist_NoDup; [exact Hnd|by apply omap_update_sublist]. Qed.

(** What the invariant says of a change of the results only. *)
Lemma recon_wf_results s f :
  recon_wf s →
  (∀ u, u ∈ result_id <$> f (reconciliation_results (working s)) →
        u ∈ result_id <$> reconciliation_results (working s)) →
  NoDup (result_id <$> f (reconciliation_results (working s))) →
  NoDup (omap result_run_id (f (reconciliation_results (working s)))) →
  NoDup (omap evaluation_key (f (reconciliation_results (working s)))) →
  (∀ r, r ∈ f (reconciliation_results (working s)) →
        result_run_id r = None ∨ evaluation_key r = None) →
  recon_wf (on_working (on_reconciliation_results f) s).
Proof.
  intros [[W1 W2 W3 W4 W5 W6 W7 W8] We Wi Wr Wk Wx] H1 H2 H3 H4 H5.
  split; try done; [|by destruct We].
  split; try done. apply (rng_fresh_same (on_reconciliation_results f)); [done|].
  intros u. unfold uuids_of. cbn. rewrite !elem_of_app. intuition.
Qed.

Lemma NoDup_omap_snoc {A B} (g : A → option B) (l : list A) x :
  NoDup (omap g l) → (∀ k, g x = Some k → k ∉ omap g l) → NoDup (omap g (l ++ [x])).
Proof.
  intros Hnd H. rewrite omap_app, NoDup_app. split; [done|]. cbn. split.
  - intros k Hk. destruct (g x) eqn:E; [|set_solver].
    intros ->%list_elem_of_singleton. by apply (H b).
  - destruct (g x); [apply NoDup_singleton|constructor].
Qed.

Lemma insert_result_runs mk s :
  let r := mk (fresh_uuid s) (clock (senv s)) in
  recon_wf s → result_id r = fresh_uuid s →
  (∀ k, result_run_id r = Some k →
        has_run k (working s) = true
        ∧ ∀ x, x ∈ reconciliation_results (working s) → result_run_id x ≠ Some k) →
  (∀ k, evaluation_key r = Some k →
        ∀ x, x ∈ reconciliation_results (working s) → evaluation_key x ≠ Some k) →
  result_shipment_id r ∈ shipment_id <$> shipments (working s) →
  (result_run_id r = None ∨ evaluation_key r = None) →
  let s' := drawn (on_reconciliation_results (λ t, t ++ [r])) s in
  insert_result mk s = (Ok r, s') ∧ recon_wf s'.
Proof.
  intros r [[W1 W2 W3 W4 W5 W6 W7 W8] We Wi Wr Wk Wx] Hid Hrun Hkey Hsh Hexcl s'.
  assert (Hnone : ∀ (g : ReconciliationResult → option string) k,
    (∀ x, x ∈ reconciliation_results (working s) → g x ≠ Some k) →
    existsb (λ x, sql_eq String.eqb (g x) k) (reconciliation_results (working s)) = false
    ∧ k ∉ omap g (reconciliation_results (working s))).
  { intros g k H. split.
    - apply existsb_none. intros x Hx. specialize (H x Hx). destruct (g x); [|done].
      cbn. apply String.eqb_neq. congruence.
    - intros (x & Hx & E)%list_elem_of_omap. by apply (H x). }
  assert (Hfresh : fresh_uuid s ∉ result_id <$> reconciliation_results (working s)).
  { intros Hin. apply (proj1 W1 (rng_pos (senv s))); [done|]. unfold uuids_of.
    rewrite !elem_of_app. tauto. }
  split.
  - unfold insert_result. session_unfold. fold (fresh_uuid s). fold r.
    rewrite (existsb_fresh result_id) by done. cbn [negb].
    apply list_elem_of_fmap in Hsh as (x & E & Hx).
    assert (has_shipment (result_shipment_id r) (working s) = true) as ->.
    { apply existsb_exists. exists x. rewrite <- list_elem_of_In. split; [done|].
      rewrite E. apply N.eqb_refl. }
    destruct (result_run_id r) as [k|].
    + destruct (Hrun k eq_refl) as [Hf Hx1]. rewrite (proj1 (Hnone result_run_id k Hx1)), Hf. cbn.
      destruct (evaluation_key r) as [k2|]; [|done].
      by rewrite (proj1 (Hnone evaluation_key k2 (Hkey k2 eq_refl))).
    + destruct (evaluation_key r) as [k2|]; [|done].
      by rewrite (proj1 (Hnone evaluation_key k2 (Hkey k2 eq_refl))).
  - split; cbn; [|by destruct We| | | |].
    + split; try done. apply rng_fresh_drawn; [done|]. intros u. unfold uuids_of. cbn.
      rewrite fmap_app, !elem_of_app. cbn. rewrite Hid. set_solver.
    + rewrite fmap_app, NoDup_app. split; [done|]. split; [|apply NoDup_singleton].
      intros u Hu ->%list_elem_of_singleton. by rewrite Hid in Hu.
    + apply NoDup_omap_snoc; [done|]. intros k Hk. apply Hnone. by apply Hrun.
    + apply NoDup_omap_snoc; [done|]. intros k Hk. apply Hnone. by apply Hkey.
    + intros x [Hin| ->%list_elem_of_singleton]%elem_of_app; [by apply Wx|done].
Qed.

Lemma recon_wf_save_shipment sh old s :
  recon_wf s → old ∈ shipments (working s) → shipment_id sh = shipment_id old →
  load_number sh = load_number old → ck_shipment sh = true →
  recon_wf (on_working (on_shipments
    (update_where (λ x, N.eqb (shipment_id x) (shipment_id sh)) (λ _, sh))) s).
Proof.
  intros [W We Wi Wr Wk Wx] H1 H2 H3 H4. split; try done; [by eapply save_shipment_wf|by destruct We].
Qed.

Lemma save_shipment_ids sh old s :
  NoDup (shipment_id <$> shipments (working s)) → old ∈ shipments (working s) →
  shipment_id sh = shipment_id old →
  shipment_id <$> update_where (λ x, N.eqb (shipment_id x) (shipment_id sh)) (λ _, sh)
                    (shipments (working s)) = shipment_id <$> shipments (working s).
Proof.
  intros Hnd Hin Hid. apply update_where_map. intros y Hy E%N.eqb_eq. congruence.
Qed.

(** Synchronising keeps the invariant of all the tables. *)
Lemma sync_recon_wf sh row t sla r now s :
  recon_wf s → shipment_id sh ∈ shipment_id <$> shipments (working s) →
  let p := evaluate_missing_document_policy row t sla in
  ∃ o s', sync_missing_document_exception sh p r now s = (Ok o, s') ∧ recon_wf s'
    ∧ committed s' = committed s ∧ same_but_exceptions (working s) (working s')
    ∧ (∀ sid, sid ≠ shipment_id sh →
         find_exception sid (working s') = find_exception sid (working s)).
Proof.
  intros W Hsh p. destruct W as [[W1 W2 W3 W4 W5 W6 W7 W8] We Wi Wr Wk Wx].
  destruct (sync_runs sh p r now s We W1 Hsh) as (o & s' & E & Hf & Hsame & Hseq & Hclock).
  exists o, s'. pose proof (sync_ok _ _ _ _ _ _ _ E) as [Hc _].
  pose proof (sync_preserves_wf _ _ _ _ _ _ _ We (evaluate_policy_wf _ _ _) E) as We'.
  split; [done|]. split; [|split; [done|split; [done|intros sid Hne; by eapply sync_others]]].
  split; [|done|..]; try (rewrite Hsame; done).
  split; try (rewrite Hsame; done); [done|].
  intros doc Hdoc. rewrite Hsame in Hdoc. rewrite Hseq. by apply W3.
Qed.

(** ** What a reconciliation sees and leaves *)

Definition linked (i : option Z) (d : database) : option Document :=
  match i with
  | Some k => if Z.eqb k 0 then None else find_first (λ x, Z.eqb (doc_id x) k) (documents d)
  | None => None
  end.

(** The shipment and the evidence the checks read. *)
Definition gather (sh : Shipment) (d : database) : Shipment * evidence :=
  let rc := find_first (λ rc, String.eqb (rc_load_number rc) (load_number sh))
                       (rate_confirmations d) in
  let '(sh', rate_con) := with_rate_confirmation sh (doc_extraction (linked (rate_con_id sh) d)) rc in
  (sh', mk_evidence (doc_extraction (linked (invoice_id sh) d)) rate_con
          (doc_extraction (linked (bol_id sh) d)) (doc_extraction (linked (pod_id sh) d))).

Lemma get_linked_runs i s : get_linked i s = (Ok (linked i (working s)), s).
Proof. unfold get_linked, linked. destruct i as [k|]; [|done]. by destruct (Z.eqb k 0). Qed.

Lemma rate_confirmation_lookup n s :
  NoDup (rc_load_number <$> rate_confirmations (working s)) →
  scalar_one_or_none (where_ (λ rc, String.eqb (rc_load_number rc) n)
                             (rate_confirmations (working s))) s
  = (Ok (find_first (λ rc, String.eqb (rc_load_number rc) n) (rate_confirmations (working s))), s).
Proof.
  intros Hnd.
  destruct (find_first (λ rc, String.eqb (rc_load_number rc) n) (rate_confirmations (working s)))
    as [rc|] eqn:E.
  - pose proof (find_first_Some _ _ _ E) as [Hin Hn]. simpl in Hn.
    rewrite (where_unique rc_load_number _ _ rc Hnd Hin Hn); [done|].
    intros y Hy%String.eqb_eq. apply String.eqb_eq in Hn. congruence.
  - rewrite find_first_None in E. unfold where_. by rewrite filter_none.
Qed.

(** Only what the rate confirmation of the table says changes. *)
Lemma gather_row sh d :
  (gather sh d).1 = sh ∨ (gather sh d).1 = set_has_rate_con true sh.
Proof. unfold gather. destruct (find_first _ _); [by right|by left]. Qed.

Definition default_source (source run_id : option string) : string :=
  match str_or source None with
  | Some s => s
  | None => match run_id with Some _ => "document_workflow" | None => "legacy" end
  end.

(** The part of [reconcile_shipment] after the checks. *)
Definition record_verdict (sh : Shipment) (policy : policy_result) (v : verdict)
    (run_id : option string) (now : datetime) (source : string) (key : option string)
  : M session ReconciliationResult :=
  existing ← find_result run_id key;
  _ ← save_shipment sh;
  result ← match existing with
           | None => insert_result (new_result (shipment_id sh) run_id source key v
                                      (p_missing_docs policy))
           | Some r =>
               let r := updated_result (shipment_id sh) source key v (p_missing_docs policy) r in
               _ ← save_result r; mret r
           end;
  _ ← sync_missing_document_exception sh policy result now;
  _ ← commit;
  mret result.

Lemma reconcile_unfold sh run_id now sla source key s :
  NoDup (rc_load_number <$> rate_confirmations (working s)) →
  let '(sh1, e) := gather sh (working s) in
  let policy := evaluate_missing_document_policy sh1 now sla in
  reconcile_shipment sh run_id now sla source key s
  = match evaluate_checks sh1 e policy with
    | Ok v => record_verdict (set_reconciliation_status
                (verdict_status v (p_missing_docs policy)) sh1)
                policy v run_id now (default_source source run_id) key s
    | Raise ex => (Raise ex, s)
    end.
Proof.
  intros Hnd. destruct (gather sh (working s)) as [sh1 e] eqn:Eg. cbv zeta.
  unfold reconcile_shipment. fold (default_source source run_id).
  do 4 rewrite bind_unfold, get_linked_runs.
  rewrite bind_unfold. cbn [select gets]. rewrite bind_unfold, rate_confirmation_lookup by done.
  unfold gather in Eg.
  destruct (with_rate_confirmation sh _ _) as [sh2 rate_con] eqn:Ew.
  injection Eg as <- <-. rewrite bind_unfold. unfold of_res.
  by destruct (evaluate_checks _ _ _).
Qed.

(** The shipments after the verdict. *)
Definition verdict_row (v : verdict) (policy : policy_result) (sh : Shipment) : Shipment :=
  set_reconciliation_status (verdict_status v (p_missing_docs policy)) sh.

(** The stored result of a verdict. *)
Record result_is (sid : uuid) (run_id : option string) (source : string) (key : option string)
    (v : verdict) (missing : list string) (r : ReconciliationResult) : Prop := {
  ri_shipment : result_shipment_id r = sid;
  ri_run : result_run_id r = run_id;
  ri_source : evaluation_source r = source;
  ri_key : evaluation_key r = key;
  ri_checks : checks r = v_checks v;
  ri_missing : missing_docs r = missing;
  ri_reasons : exception_reasons r = v_reasons v
}.

(** The arguments the callers pass: a run that exists and no key, or a key, or
    neither. *)
Definition evaluation_ok (run_id key : option string) (d : database) : Prop :=
  match run_id with Some k => has_run k d = true ∧ key = None | None => True end.

(** Storing the result: a new row, or the row of the same run or evaluation. *)
Lemma store_result_runs sid run_id source key v missing s :
  recon_wf s → evaluation_ok run_id key (working s) →
  sid ∈ shipment_id <$> shipments (working s) →
  ∃ existing r s', find_result run_id key s = (Ok existing, s)
    ∧ match existing with
      | None => insert_result (new_result sid run_id source key v missing)
      | Some r0 => save_result (updated_result sid source key v missing r0) ≫= λ _,
                     mret (updated_result sid source key v missing r0)
      end s = (Ok r, s')
    ∧ recon_wf s' ∧ committed s' = committed s
    ∧ working s' = on_reconciliation_results (λ _, reconciliation_results (working s')) (working s)
    ∧ r ∈ reconciliation_results (working s')
    ∧ result_is sid run_id source key v missing r.
Proof.
  intros W Hok Hsid. destruct (find_result_runs run_id key s W) as [[E Hnone]|(r0 & E & Hr0 & Hm)].
  - pose proof (insert_result_runs (new_result sid run_id source key v missing) s W eq_refl)
      as Hins. cbn [result_run_id evaluation_key result_shipment_id new_result] in Hins.
    destruct Hins as [Ei Wi].
    + intros k ->. destruct Hok as [Hrun ->]. split; [done|]. intros x Hx Hk.
      by apply (Hnone x Hx).
    + intros k ->. destruct run_id as [k'|]; [by destruct Hok|]. intros x Hx Hk.
      by apply (Hnone x Hx).
    + done.
    + destruct run_id; [right; by destruct Hok|by left].
    + exists None. eexists _, _. split; [exact E|]. split; [exact Ei|]. split; [exact Wi|].
      split; [done|]. split; [done|]. split; [cbn; set_solver|]. by split.
  - set (r := updated_result sid source key v missing r0).
    assert (Hrun : result_run_id r = run_id ∧ (run_id = None ∨ key = None)
                   ∧ (key = evaluation_key r0 ∨ key = None)).
    { unfold result_matches in Hm. cbn. destruct run_id as [k|].
      - destruct Hok as [_ ->]. split_and!; auto.
      - destruct key as [k|]; [|done]. split; [|split; [by left|by left]].
        destruct (rw_exclusive _ W r0 Hr0); [done|congruence]. }
    destruct Hrun as (Hrun & Hexcl & Hkey). pose proof (rw_ids _ W) as Hids.
    assert (Hq : ∀ x, x ∈ reconciliation_results (working s) →
                      N.eqb (result_id x) (result_id r) = true → x = r0).
    { intros x Hx Ex%N.eqb_eq. by apply (NoDup_fmap_inj result_id _ _ _ Hids). }
    exists (Some r0), r. eexists. split; [exact E|].
    split; [fold r; rewrite bind_unfold, save_result_runs; reflexivity|].
    assert (Hidl : result_id <$> update_where (λ x, N.eqb (result_id x) (result_id r)) (λ _, r)
              (reconciliation_results (working s))
            = result_id <$> reconciliation_results (working s)).
    { apply update_where_map. intros x Hx Ex. by rewrite (Hq x Hx Ex). }
    split.
    { apply recon_wf_results; [done|by rewrite Hidl|by rewrite Hidl| | |].
      - apply NoDup_omap_update; [apply W|]. intros x Hx Ex. rewrite (Hq x Hx Ex). by left.
      - apply NoDup_omap_update; [apply W|]. intros x Hx Ex. rewrite (Hq x Hx Ex). cbn.
        destruct Hkey as [-> | ->]; auto.
      - intros x (y & Hy & ->)%elem_of_update_where.
        destruct (N.eqb (result_id y) (result_id r)); [|by apply W].
        rewrite Hrun. destruct Hexcl; auto. }
    split; [done|]. split; [done|]. split; [|by split].
    apply elem_of_update_where. exists r0. split; [done|].
    change (result_id r) with (result_id r0). by rewrite N.eqb_refl.
Qed.

Lemma verdict_status_ok v m :
  in_strs (verdict_status v m) ["pending"; "partial"; "reconciled"; "exception"] = true.
Proof. unfold verdict_status. by repeat case_match. Qed.

Lemma verdict_row_ck v p sh old :
  ck_shipment old = true → load_number sh = load_number old → ck_shipment (verdict_row v p sh) = true.
Proof.
  unfold ck_shipment. intros [Hl _]%andb_prop E. cbn. rewrite E, Hl. apply verdict_status_ok.
Qed.

(** The transaction, from the verdict on. *)
Lemma record_verdict_runs sh old row t sla v run_id now source key s :
  let policy := evaluate_missing_document_policy row t sla in
  recon_wf s → evaluation_ok run_id key (working s) →
  old ∈ shipments (working s) → shipment_id sh = shipment_id old →
  load_number sh = load_number old → ck_shipment sh = true →
  ∃ r s', record_verdict sh policy v run_id now source key s = (Ok r, s') ∧ recon_wf s'
    ∧ committed s' = working s'
    ∧ result_is (shipment_id sh) run_id source key v (p_missing_docs policy) r
    ∧ r ∈ reconciliation_results (working s')
    ∧ shipments (working s')
      = update_where (λ x, N.eqb (shipment_id x) (shipment_id sh)) (λ _, sh) (shipments (working s))
    ∧ documents (working s') = documents (working s)
    ∧ rate_confirmations (working s') = rate_confirmations (working s)
    ∧ workflow_runs (working s') = workflow_runs (working s)
    ∧ (active_exception (shipment_id sh) (working s') = true ↔ p_state policy = "overdue")
    ∧ (∀ sid, sid ≠ shipment_id sh →
         find_exception sid (working s') = find_exception sid (working s))
    ∧ match find_exception (shipment_id sh) (working s') with
      | Some x => unchanged x policy = true
      | None => p_state policy ≠ "overdue"
      end.
Proof.
  intros policy W Hok Hold Hid Hln Hck. unfold record_verdict.
  assert (W1 := recon_wf_save_shipment sh old s W Hold Hid Hln Hck).
  set (s1 := on_working _ s) in W1.
  assert (Hids : shipment_id sh ∈ shipment_id <$> shipments (working s1)).
  { cbn. rewrite (save_shipment_ids sh old); [|apply W|done|done]. rewrite Hid.
    by apply list_elem_of_fmap_2. }
  destruct (store_result_runs (shipment_id sh) run_id source key v (p_missing_docs policy) s1 W1 Hok
              Hids) as (existing & r & s2 & E1 & E2 & W2 & Hc2 & Hw2 & Hr & Hres).
  assert (Hfind : find_result run_id key s = (Ok existing, s)).
  { revert E1. unfold find_result. destruct run_id as [k|]; [|destruct key as [k|]; [|by intros [= <-]]];
      rewrite !bind_unfold; cbn [select gets];
      change (reconciliation_results (working s1)) with (reconciliation_results (working s));
      destruct (where_ _ _) as [|? [|]]; cbn; by intros [= <-]. }
  rewrite bind_unfold, Hfind, bind_unfold, save_shipment_runs by done. fold s1.
  rewrite bind_unfold.
  replace (match existing with
           | Some r0 => _
           | None => insert_result (new_result (shipment_id sh) run_id source key v
                                      (p_missing_docs policy))
           end s1) with (Ok r, s2) by (rewrite <- E2; by destruct existing).
  rewrite bind_unfold.
  assert (Hids2 : shipment_id sh ∈ shipment_id <$> shipments (working s2)) by (by rewrite Hw2).
  destruct (sync_recon_wf sh row t sla r now s2 W2 Hids2) as (o & s3 & E3 & W3 & Hc3 & Hsame & Hoth).
  fold policy in E3. rewrite E3, bind_unfold. cbn [commit modify].
  pose proof (sync_active _ _ _ _ _ _ _ (rw_exceptions _ W2) E3) as Hact.
  pose proof (sync_settles _ _ _ _ _ _ _ (rw_exceptions _ W2) E3) as Hset.
  eexists r, _. split; [reflexivity|]. cbn [committed working].
  split; [destruct W3 as [[] ? ? ? ? ?]; split; [split; done|done..]|].
  split; [done|]. split; [done|].
  rewrite Hsame. cbn. rewrite Hw2. cbn. split; [done|].
  do 4 (split; [done|]). rewrite Hsame in Hact, Hset, Hoth. split; [done|]. split; [|done].
  intros sid Hne. rewrite Hw2 in Hoth. by apply Hoth.
Qed.

Lemma NoDup_omap_inj {A B} (g : A → option B) (l : list A) x y k :
  NoDup (omap g l) → x ∈ l → y ∈ l → g x = Some k → g y = Some k → x = y.
Proof.
  induction l as [|z l IH]; [set_solver|]. cbn. intros Hnd Hx Hy Ex Ey.
  assert (Hk : ∀ w, w ∈ l → g w = Some k → k ∈ omap g l) by (intros w ??; apply list_elem_of_omap; eauto).
  apply elem_of_cons in Hx, Hy. destruct (g z) as [kz|] eqn:Ez.
  - apply NoDup_cons in Hnd as [Hn Hnd].
    destruct Hx as [->|Hx], Hy as [->|Hy]; [done| | |by apply IH].
    + destruct Hn. assert (kz = k) as -> by congruence. by apply (Hk y).
    + destruct Hn. assert (kz = k) as -> by congruence. by apply (Hk x).
  - destruct Hx as [->|Hx], Hy as [->|Hy]; [done|congruence|congruence|by apply IH].
Qed.

Lemma find_result_same rid key r s :
  recon_wf s → r ∈ reconciliation_results (working s) → result_matches rid key r →
  find_result rid key s = (Ok (Some r), s).
Proof.
  intros W Hr Hm. destruct (find_result_runs rid key s W) as [[_ H]|(r' & -> & Hr' & Hm')].
  - by destruct (H r Hr).
  - do 3 f_equal. unfold result_matches in *. destruct rid as [k|]; [|destruct key as [k|]; [|done]].
    + eapply (NoDup_omap_inj result_run_id); eauto. apply W.
    + eapply (NoDup_omap_inj evaluation_key); eauto. apply W.
Qed.

Lemma updated_result_same sid rid source key v missing r :
  result_is sid rid source key v missing r → updated_result sid source key v missing r = r.
Proof. intros [H1 H2 H3 H4 H5 H6 H7]. destruct r. cbn in *. by subst. Qed.

(** Recording the same verdict again. *)
Lemma record_verdict_again sh policy v run_id now source key r s :
  recon_wf s → committed s = working s → sh ∈ shipments (working s) →
  r ∈ reconciliation_results (working s) → result_matches run_id key r →
  result_is (shipment_id sh) run_id source key v (p_missing_docs policy) r →
  match find_exception (shipment_id sh) (working s) with
  | Some x => unchanged x policy = true
  | None => p_state policy ≠ "overdue"
  end →
  record_verdict sh policy v run_id now source key s = (Ok r, s).
Proof.
  intros W Hc Hsh Hr Hm Hres Hset. unfold record_verdict.
  rewrite bind_unfold, (find_result_same _ _ r) by done.
  rewrite bind_unfold, save_shipment_runs by (by apply (rw_assembly _ W)).
  rewrite on_working_same.
  2:{ unfold on_shipments. rewrite (update_where_same shipment_id);
        [by destruct (working s)|by apply W|done|]. by intros y Hy%N.eqb_eq. }
  rewrite bind_unfold, bind_unfold, (updated_result_same _ _ _ _ _ _ _ Hres), save_result_runs.
  rewrite on_working_same.
  2:{ unfold on_reconciliation_results. rewrite (update_where_same result_id);
        [by destruct (working s)|by apply W|done|]. by intros y Hy%N.eqb_eq. }
  cbn [mret M_ret]. rewrite bind_unfold. unfold sync_missing_document_exception at 1.
  rewrite bind_unfold. cbn [select gets].
  assert (Hs : mk_session (working s) (working s) (senv s) = s) by (rewrite <- Hc at 1; by destruct s).
  destruct (find_exception (shipment_id sh) (working s)) as [x|].
  - rewrite Hset. cbn [mret M_ret]. rewrite bind_unfold. unfold commit, modify. by rewrite Hs.
  - rewrite (proj2 (String.eqb_neq _ _) Hset). cbn [negb mret M_ret]. rewrite bind_unfold.
    unfold commit, modify. by rewrite Hs.
Qed.

Lemma linked_same i d d' : documents d' = documents d → linked i d' = linked i d.
Proof. unfold linked. by intros ->. Qed.

(** What was gathered is gathered again from the row and tables a verdict left. *)
Lemma gather_again sh d d' v p :
  documents d' = documents d → rate_confirmations d' = rate_confirmations d →
  gather (verdict_row v p (gather sh d).1) d' = (verdict_row v p (gather sh d).1, (gather sh d).2).
Proof.
  intros Hd Hr. unfold gather. rewrite Hr.
  destruct (find_first (λ rc, String.eqb (rc_load_number rc) (load_number sh))
              (rate_confirmations d)) as [rc|] eqn:Erc;
    cbn [with_rate_confirmation fst snd verdict_row set_reconciliation_status set_has_rate_con
         load_number rate_con_id invoice_id bol_id pod_id];
    by rewrite Erc, !(linked_same _ _ _ Hd).
Qed.

(** A reconciliation whose amounts convert, from its arguments to its effect. *)
Lemma reconcile_effect sh run_id now sla source key s v :
  recon_wf s → sh ∈ shipments (working s) → evaluation_ok run_id key (working s) →
  let '(sh1, e) := gather sh (working s) in
  let policy := evaluate_missing_document_policy sh1 now sla in
  let sh2 := verdict_row v policy sh1 in
  evaluate_checks sh1 e policy = Ok v →
  ∃ r s', reconcile_shipment sh run_id now sla source key s = (Ok r, s') ∧ recon_wf s'
    ∧ committed s' = working s'
    ∧ result_is (shipment_id sh) run_id (default_source source run_id) key v
        (p_missing_docs policy) r
    ∧ r ∈ reconciliation_results (working s')
    ∧ shipments (working s')
      = update_where (λ x, N.eqb (shipment_id x) (shipment_id sh)) (λ _, sh2) (shipments (working s))
    ∧ documents (working s') = documents (working s)
    ∧ rate_confirmations (working s') = rate_confirmations (working s)
    ∧ workflow_runs (working s') = workflow_runs (working s)
    ∧ (active_exception (shipment_id sh) (working s') = true ↔ p_state policy = "overdue")
    ∧ (∀ sid, sid ≠ shipment_id sh →
         find_exception sid (working s') = find_exception sid (working s))
    ∧ (result_matches run_id key r →
       reconcile_shipment sh2 run_id now sla source key s' = (Ok r, s')).
Proof.
  intros W Hsh Hok. destruct (gather sh (working s)) as [sh1 e] eqn:Eg. intros policy sh2 Ev.
  assert (Hrow : shipment_id sh1 = shipment_id sh ∧ load_number sh1 = load_number sh).
  { pose proof (gather_row sh (working s)) as H. rewrite Eg in H. cbn in H.
    by destruct H as [-> | ->]. }
  destruct Hrow as [Hid Hln].
  pose proof (reconcile_unfold sh run_id now sla source key s) as Hu. rewrite Eg in Hu.
  rewrite Hu by apply W. fold policy. rewrite Ev. fold (verdict_row v policy sh1). fold sh2.
  assert (Hid2 : shipment_id sh2 = shipment_id sh) by exact Hid.
  destruct (record_verdict_runs sh2 sh sh1 now sla v run_id now (default_source source run_id) key s W)
    as (r & s' & E & W' & Hc & Hres & Hr & Hs & Hd & Hrc & Hruns & Hact & Hoth & Hset);
    [done|done|done|done| |].
  { apply (verdict_row_ck _ _ _ sh); [by apply (rw_assembly _ W)|done]. }
  exists r, s'. fold policy in E, Hres, Hact, Hset. rewrite Hid2 in *.
  do 11 (split; [done|]). intros Hm.
  pose proof (gather_again sh (working s) (working s') v policy Hd Hrc) as Hg.
  rewrite Eg in Hg. cbn [fst snd] in Hg. fold sh2 in Hg.
  pose proof (reconcile_unfold sh2 run_id now sla source key s') as Hu2. rewrite Hg in Hu2.
  change (evaluate_missing_document_policy sh2 now sla) with policy in Hu2.
  assert (Ev2 : evaluate_checks sh2 e policy = Ok v) by exact Ev.
  rewrite Hu2, Ev2 by apply W'.
  change (set_reconciliation_status (verdict_status v (p_missing_docs policy)) sh2) with sh2.
  apply record_verdict_again; try done; rewrite ?Hid2; try done.
  rewrite Hs. apply elem_of_update_where. exists sh. split; [done|]. by rewrite N.eqb_refl.
Qed.

(** A reconciliation that returns had amounts that convert. *)
Lemma reconcile_returns sh run_id now sla source key s r s' :
  recon_wf s → reconcile_shipment sh run_id now sla source key s = (Ok r, s') →
  ∃ v, evaluate_checks (gather sh (working s)).1 (gather sh (working s)).2
         (evaluate_missing_document_policy (gather sh (working s)).1 now sla) = Ok v.
Proof.
  intros W. pose proof (reconcile_unfold sh run_id now sla source key s) as Hu.
  destruct (gather sh (working s)) as [sh1 e]. rewrite Hu by apply W. cbn [fst snd].
  destruct (evaluate_checks _ _ _) as [v|ex]; [by exists v|done].
Qed.

(** ** Properties *)

(** C19 The verdict, for every shipment, evidence, time and SLA: the nine checks in
    their order, each passed, failed or not evaluated; exactly the failed ones
    carry a reason, and the reasons recorded are theirs, in order; the status is
    [exception] exactly when a check failed, [reconciled] exactly when all
    passed, [partial] otherwise.  Evaluation raises only when an amount is an
    integer too large for a float. *)
Theorem verdict_correct sh e now sla :
  let policy := evaluate_missing_document_policy sh now sla in
  match evaluate_checks sh e policy with
  | Ok v =>
      let status := verdict_status v (p_missing_docs policy) in
      check_name_of <$> v_checks v = Some <$> CHECK_NAMES
      ∧ Forall (λ c, outcome_ok c = true) (v_checks v)
      ∧ Forall (λ c, is_some (check_reason c) = is_outcome "failed" c) (v_checks v)
      ∧ v_reasons v = failed_reasons (v_checks v)
      ∧ (status = "exception" ↔ existsb (is_outcome "failed") (v_checks v) = true)
      ∧ (status = "reconciled" ↔ Forall (λ c, is_outcome "passed" c = true) (v_checks v))
      ∧ in_strs status ["exception"; "reconciled"; "partial"] = true
  | Raise ex => exn_cls ex = OtherError "OverflowError"
  end.
Proof.
  intros policy. destruct (evaluate_checks sh e policy) as [v|ex] eqn:Ev.
  - pose proof (evaluate_checks_coherent _ _ _ _ _ Ev) as Hco.
    pose proof (coherent_failed _ _ Hco) as Hf.
    split; [apply Hco|]. split; [apply Hco|]. split; [apply Hco|].
    split; [symmetry; apply Hco|]. unfold verdict_status.
    destruct (decide (v_reasons v = [])) as [Hr|Hr].
    + rewrite (bool_decide_eq_true_2 _ Hr). cbn [negb]. apply Hf in Hr as Hr'. rewrite Hr'.
      split; [split; [by repeat case_match|done]|].
      split; [|by repeat case_match].
      destruct (decide (p_missing_docs policy = [])) as [Hm|Hm].
      * rewrite (bool_decide_eq_true_2 _ Hm). cbn [negb orb].
        destruct (existsb (is_outcome "not_evaluated") (v_checks v)) eqn:En.
        -- split; [done|]. intros Hp%(passed_only "not_evaluated"); [congruence|done].
        -- split; [intros _|done]. by apply (coherent_passed CHECK_NAMES).
      * rewrite (bool_decide_eq_false_2 _ Hm). cbn [negb orb]. split; [done|].
        intros Hp%(passed_only "not_evaluated"); [|done].
        by rewrite (evaluate_checks_missing _ _ _ _ Ev Hm) in Hp.
    + rewrite (bool_decide_eq_false_2 _ Hr). cbn [negb].
      assert (existsb (is_outcome "failed") (v_checks v) = true) as Hex.
      { apply Bool.not_false_iff_true. by rewrite <- Hf. }
      rewrite Hex. split; [done|]. split; [|done]. split; [done|].
      intros Hp%(passed_only "failed"); [congruence|done].
  - by eapply evaluate_checks_raises.
Qed.

(** C20 A reconciliation of a shipment whose amounts convert always returns and is
    committed: one result row holds the verdict, for its run or evaluation key if
    it has one; the shipment's row gets the verdict's status and the presence
    flag of a rate confirmation in the management table, no other shipment
    changes, and the shipment has an active exception exactly when its documents
    are overdue.  The invariant of the tables is kept. *)
Theorem reconcile_shipment_correct sh run_id now sla source key s v :
  recon_wf s → sh ∈ shipments (working s) → evaluation_ok run_id key (working s) →
  let '(sh1, e) := gather sh (working s) in
  let policy := evaluate_missing_document_policy sh1 now sla in
  evaluate_checks sh1 e policy = Ok v →
  ∃ r s', reconcile_shipment sh run_id now sla source key s = (Ok r, s') ∧ recon_wf s'
    ∧ committed s' = working s'
    ∧ result_is (shipment_id sh) run_id (default_source source run_id) key v
        (p_missing_docs policy) r
    ∧ r ∈ reconciliation_results (working s')
    ∧ shipments (working s')
      = update_where (λ x, N.eqb (shipment_id x) (shipment_id sh))
          (λ _, verdict_row v policy sh1) (shipments (working s))
    ∧ (active_exception (shipment_id sh) (working s') = true ↔ p_state policy = "overdue").
Proof.
  intros W Hsh Hok. pose proof (reconcile_effect sh run_id now sla source key s v W Hsh Hok) as H.
  destruct (gather sh (working s)) as [sh1 e]. intros policy Ev.
  destruct (H Ev) as (r & s' & E & W' & Hc & Hres & Hr & Hs & _ & _ & _ & Hact & _).
  by exists r, s'.
Qed.

(** C21 Redelivery of a reconciliation: repeating it for the same run, or the same
    evaluation key, at the same time on the row it left returns the same result
    row and changes nothing, neither tables nor identifiers: a run has one
    result and its exception one event, however often it is delivered. *)
Theorem reconcile_shipment_idempotent sh run_id now sla source key s v :
  recon_wf s → sh ∈ shipments (working s) → evaluation_ok run_id key (working s) →
  is_some run_id || is_some key = true →
  let '(sh1, e) := gather sh (working s) in
  let policy := evaluate_missing_document_policy sh1 now sla in
  let sh2 := verdict_row v policy sh1 in
  evaluate_checks sh1 e policy = Ok v →
  ∃ r s', reconcile_shipment sh run_id now sla source key s = (Ok r, s')
    ∧ sh2 ∈ shipments (working s')
    ∧ reconcile_shipment sh2 run_id now sla source key s' = (Ok r, s').
Proof.
  intros W Hsh Hok Hk. pose proof (reconcile_effect sh run_id now sla source key s v W Hsh Hok) as H.
  destruct (gather sh (working s)) as [sh1 e]. intros policy sh2 Ev.
  destruct (H Ev) as (r & s' & E & W' & Hc & Hres & Hr & Hs & _ & _ & _ & _ & _ & Hagain).
  exists r, s'. split; [done|]. split.
  - rewrite Hs. apply elem_of_update_where. exists sh. split; [done|]. by rewrite N.eqb_refl.
  - apply Hagain. destruct Hres as [_ R1 _ R2 _ _ _]. unfold result_matches.
    destruct run_id; [done|]. by destruct key.
Qed.

(** Carrier names: when both documents name a carrier, the check passes
    exactly when the two names have the same words up to case and spacing, and
    fails otherwise; a name without a word counts as absent. *)
Theorem carrier_check_correct acc invoice rate_con s1 s2 :
  get_key invoice "carrier_name" = Some (JStr s1) →
  get_key rate_con "carrier_name" = Some (JStr s2) →
  let outcome :=
    if bool_decide (py_split s1 = []) || bool_decide (py_split s2 = []) then "not_evaluated"
    else if bool_decide (py_upper <$> py_split s1 = py_upper <$> py_split s2)
    then "passed" else "failed" in
  check_outcome <$> v_checks (carrier_match acc invoice rate_con)
  = (check_outcome <$> v_checks acc) ++ [Some outcome].
Proof.
  intros E1 E2. unfold carrier_match. rewrite E1, E2, <- !normalize_carrier_split.
  assert (Hempty : ∀ t, str_truthy (normalize_carrier (Some (JStr t)))
                        = negb (bool_decide (py_split t = []))).
  { intros t. rewrite normalize_carrier_str, py_split_upper, py_join_truthy.
    - by destruct (py_split t).
    - intros (w & E & Hw)%list_elem_of_fmap.
      pose proof (proj1 (Forall_forall _ _) (py_split_word t) w Hw) as [Hne _].
      apply Hne. apply (f_equal to_chars) in E. unfold py_upper in E. autorewrite with text in E.
      symmetry in E. by apply fmap_nil_inv in E. }
  rewrite !Hempty, !Bool.negb_involutive.
  destruct (_ || _) eqn:Eb; rewrite outcome_of_check; [done|].
  do 3 f_equal.
  destruct (String.eqb_spec (normalize_carrier (Some (JStr s1))) (normalize_carrier (Some (JStr s2))))
    as [->|Hn].
  - by rewrite bool_decide_eq_true_2.
  - rewrite bool_decide_eq_false_2; [done|]. intros E. apply Hn.
    rewrite !normalize_carrier_split in E. by rewrite !normalize_carrier_str, !py_split_upper, E.
Qed.


(** ** Examples *)

Definition demo_shipments : session :=
  session_on (on_shipments (λ _, [demo_shipment]) empty_database) (hours 80).

Lemma demo_shipments_wf : recon_wf demo_shipments.
Proof.
  split; [|apply sync_reachable_wf; by apply sr_empty|constructor|constructor|constructor|].
  - split; try by repeat constructor.
    + apply session_on_fresh. repeat constructor.
    + cbn. set_solver.
    + cbn. repeat constructor; set_solver.
    + cbn. repeat constructor; set_solver.
    + intros sh ->%list_elem_of_singleton. by vm_compute.
  - cbn. set_solver.
Qed.

Definition demo_verdict : verdict :=
  match evaluate_checks demo_shipment (gather demo_shipment (working demo_shipments)).2
          (evaluate_missing_document_policy demo_shipment (hours 80) (hours 72)) with
  | Ok v => v
  | Raise _ => mk_verdict [] []
  end.

Lemma reconcile_shipment_correct_witness :
  ∃ r s', reconcile_shipment demo_shipment None (hours 80) (hours 72) (Some "scheduled_sla")
            (Some "k") demo_shipments = (Ok r, s')
    ∧ active_exception 7 (working s') = true.
Proof.
  destruct (reconcile_shipment_correct demo_shipment None (hours 80) (hours 72)
    (Some "scheduled_sla") (Some "k") demo_shipments demo_verdict)
    as (r & s' & E & _ & _ & _ & _ & _ & H).
  - exact demo_shipments_wf.
  - cbn. set_solver.
  - exact I.
  - vm_compute. reflexivity.
  - exists r, s'. split; [exact E|]. apply H. vm_compute. reflexivity.
Defined.

Lemma reconcile_shipment_idempotent_witness :
  ∃ r s', reconcile_shipment demo_shipment None (hours 80) (hours 72) (Some "scheduled_sla")
            (Some "k") demo_shipments = (Ok r, s').
Proof.
  destruct (reconcile_shipment_idempotent demo_shipment None (hours 80) (hours 72)
    (Some "scheduled_sla") (Some "k") demo_shipments demo_verdict)
    as (r & s' & E & _).
  - exact demo_shipments_wf.
  - cbn. set_solver.
  - exact I.
  - reflexivity.
  - vm_compute. reflexivity.
  - exists r, s'. exact E.
Defined.

Lemma carrier_check_correct_witness :
  check_outcome <$> v_checks (carrier_match (mk_verdict [] [])
    (Some (JObj [("carrier_name", JStr " acme  freight")]))
    (Some (JObj [("carrier_name", JStr "ACME Freight ")]))) = [Some "passed"].
Proof.
  rewrite (carrier_check_correct _ _ _ " acme  freight" "ACME Freight ");
    [|reflexivity|reflexivity].
  vm_compute. reflexivity.
Defined.
