(* ===== verification/SlaScanner.v ===== *)
(** * The missing-document scanner

    The rest of [app/services/missing_document_sla.py]: claiming one overdue
    shipment in a session of its own, the scan that repeats it until none is
    left, and the health record of the scanner loop.

    The source's [while] is a recursion on a fuel; [scan_terminates] shows that one
    more than the number of claimable shipments is enough. *)

From S2P Require Import Prelude PyText DateTime Json Database MissingDocs Shipments.
From S2P Require Import Reconciliation.
From Stdlib Require Import Ascii.
Local Open Scope string_scope.
Local Open Scope list_scope.
Local Open Scope nat_scope.

(** The [exists] subquery: an active missing-document exception. *)
Definition has_active_exception (sid : uuid) (d : database) : bool :=
  existsb (λ e, N.eqb (exc_shipment_id e) sid
                && String.eqb (kind e) MISSING_DOCUMENT_EXCEPTION_KIND
                && String.eqb (exc_status e) "active") (shipment_exceptions d).

(** The [where] clause of the claim. *)
Definition claimable (now : datetime) (sla : timedelta) (d : database) (sh : Shipment) : bool :=
  (created_at sh <=? now - sla)%Z
  && (negb (has_invoice sh) || negb (has_rate_con sh) || negb (has_bol sh) || negb (has_pod sh))
  && negb (has_active_exception (shipment_id sh) d).

(** [ORDER BY created_at, id] *)
Definition claim_leb (a b : Shipment) : bool :=
  if (created_at a =? created_at b)%Z then (shipment_id a <=? shipment_id b)%N
  else (created_at a <? created_at b)%Z.

Definition next_claim (now : datetime) (sla : timedelta) (d : database) : option Shipment :=
  head (sort_by claim_leb (where_ (claimable now sla d) (shipments d))).

Definition sla_evaluation_key (sh : Shipment) (policy : policy_result) : string :=
  "missing-docs-sla:" +:+ uuid_str (shipment_id sh) +:+ ":"
  +:+ datetime_isoformat (p_deadline_at policy) +:+ ":" +:+ py_join "," (p_missing_docs policy).

Definition claim_and_evaluate_one (now : datetime) (sla : timedelta) : M world bool :=
  run_session (
    shipment ← select (next_claim now sla);
    match shipment with
    | None => _ ← rollback; mret false
    | Some sh =>
        let policy := evaluate_missing_document_policy sh now sla in
        _ ← reconcile_shipment sh None now sla (Some "scheduled_sla")
              (Some (sla_evaluation_key sh policy));
        mret true
    end).

(** [while await claim_and_evaluate_one(...): count += 1]; [None] when the fuel
    runs out. *)
Fixpoint scan_missing_document_slas (fuel : nat) (now : datetime) (sla : timedelta) (count : Z)
  : M world (option Z) :=
  match fuel with
  | O => mret None
  | S fuel' =>
      claimed ← claim_and_evaluate_one now sla;
      if (claimed : bool) then scan_missing_document_slas fuel' now sla (count + 1)
      else mret (Some count)
  end.

(** ** The health of the scanner loop *)

Record ScannerHealth := mk_ScannerHealth {
  last_started_at : option datetime;
  last_succeeded_at : option datetime;
  last_error : option string;
  consecutive_failures : Z;
  last_result_count : option Z
}.

Definition initial_health : ScannerHealth := mk_ScannerHealth None None None 0 None.

(** [ScannerHealth.payload]: its status. *)
Definition health_status (h : ScannerHealth) : string :=
  if opt_truthy str_truthy (last_error h) then "degraded" else "ok".

(** [run_scanner_iteration], with the outcome of the awaited [scan]: [True] or
    [False], or the exception that is no [Exception] and escapes. *)
Definition run_scanner_iteration (h : ScannerHealth) (now : datetime) (scan : res Z)
  : res bool * ScannerHealth :=
  let h := mk_ScannerHealth (Some now) (last_succeeded_at h) (last_error h)
             (consecutive_failures h) (last_result_count h) in
  match scan with
  | Raise e =>
      if is_Exception e then
        (Ok false, mk_ScannerHealth (last_started_at h) (last_succeeded_at h)
           (Some "scan_failed") (consecutive_failures h + 1) (last_result_count h))
      else (Raise e, h)
  | Ok count =>
      (Ok true, mk_ScannerHealth (last_started_at h) (Some now) None 0 (Some count))
  end.

(** ** Lemmas: one claim *)

Definition session_of (w : world) : session := mk_session (w_db w) (w_db w) (w_env w).
Definition world_of (s : session) : world := mk_world (committed s) (senv s).

Lemma run_session_unfold {A} (m : M session A) w :
  run_session m w = ((m (session_of w)).1, world_of (m (session_of w)).2).
Proof. unfold run_session, session_of. by destruct (m _) as [r s]. Qed.

Lemma session_of_world_of s : committed s = working s → session_of (world_of s) = s.
Proof. intros E. unfold session_of. cbn. rewrite E at 2. by destruct s. Qed.

Lemma has_active_exception_spec sid d :
  exceptions_wf d → has_active_exception sid d = active_exception sid d.
Proof.
  intros W. unfold active_exception.
  destruct (find_exception sid d) as [x|] eqn:Ef.
  - apply find_exception_Some in Ef as (Hx & Hs & Hk).
    unfold has_active_exception. destruct (String.eqb (exc_status x) "active") eqn:Ea.
    + apply existsb_exists. exists x. rewrite <- list_elem_of_In. split; [done|].
      by rewrite Hs, Hk, N.eqb_refl, Ea.
    + apply existsb_none. intros y Hy.
      destruct (N.eqb_spec (exc_shipment_id y) sid) as [E|]; [|done].
      rewrite (NoDup_fmap_inj exc_shipment_id _ y x (wf_exc_shipments _ W) Hy Hx) by congruence.
      rewrite Ea. by rewrite Bool.andb_false_r.
  - apply existsb_none. intros y Hy. unfold find_exception in Ef. rewrite find_first_None in Ef.
    specialize (Ef y Hy). simpl in Ef. by rewrite Ef.
Qed.

(** The amounts of a shipment's documents convert to floats. *)
Definition amounts_convert (sh : Shipment) (d : database) : bool :=
  let e := (gather sh d).2 in
  match amount_variance (mk_verdict [] []) (ev_invoice e) (ev_rate_con e) with
  | Ok _ => true
  | Raise _ => false
  end.

Lemma amounts_convert_ok sh d policy :
  amounts_convert sh d = true →
  ∃ v, evaluate_checks (gather sh d).1 (gather sh d).2 policy = Ok v.
Proof.
  unfold amounts_convert, evaluate_checks. destruct (amount_variance _ _ _); [|done].
  intros _. eexists. reflexivity.
Qed.

Definition all_convert (d : database) : Prop :=
  ∀ sh, sh ∈ shipments d → amounts_convert sh d = true.

Lemma next_claim_Some now sla d sh :
  next_claim now sla d = Some sh → sh ∈ shipments d ∧ claimable now sla d sh = true.
Proof.
  unfold next_claim. intros H%list.head_Some_elem_of. rewrite elem_of_sort_by in H.
  by apply elem_of_where in H.
Qed.

Lemma next_claim_None now sla d :
  next_claim now sla d = None → ∀ sh, sh ∈ shipments d → claimable now sla d sh = false.
Proof.
  unfold next_claim. intros H%head_None sh Hsh.
  destruct (claimable now sla d sh) eqn:E; [|done].
  assert (sh ∈ []) as []%not_elem_of_nil. rewrite <- H, elem_of_sort_by. by apply elem_of_where.
Qed.

(** A shipment past its deadline is overdue or complete. *)
Lemma late_not_within_grace sh now sla :
  (created_at sh <= now - sla)%Z →
  p_state (evaluate_missing_document_policy sh now sla) ≠ "overdue" →
  has_invoice sh = true ∧ has_rate_con sh = true ∧ has_bol sh = true ∧ has_pod sh = true.
Proof.
  intros Hl. destruct sh as [sid ln cn [] [] [] [] ii ri bi pi rs ca]; cbn in Hl;
    unfold evaluate_missing_document_policy; cbn -[Z.leb datetime_isoformat];
    replace (ca + sla <=? now)%Z with true by lia; done.
Qed.

Lemma count_by_fmap_lt {A} (p q : A → bool) (f : A → A) (l : list A) x :
  (∀ y, y ∈ l → q (f y) = true → p y = true) → x ∈ l → p x = true → q (f x) = false →
  count_by q (f <$> l) < count_by p l.
Proof.
  induction l as [|y l IH]; intros H Hx Hp Hq; [set_solver|].
  rewrite fmap_cons, !count_by_cons.
  assert (Hle : count_by q (f <$> l) <= count_by p l).
  { assert (H' : ∀ z, z ∈ l → q (f z) = true → p z = true)
      by (intros z Hz; apply H; by apply list_elem_of_further).
    clear -H'. induction l as [|z l IH]; [done|]. rewrite fmap_cons, !count_by_cons.
    assert (count_by q (f <$> l) <= count_by p l) by (apply IH; intros u Hu; apply H'; set_solver).
    destruct (q (f z)) eqn:E; [rewrite (H' z) by (done || set_solver); lia|].
    destruct (p z); lia. }
  apply elem_of_cons in Hx as [->|Hx].
  - rewrite Hp, Hq. lia.
  - assert (count_by q (f <$> l) < count_by p l)
      by (apply IH; [intros z Hz; apply H; set_solver|done|done|done]).
    destruct (q (f y)) eqn:E; [rewrite (H y) by (done || set_solver); lia|].
    destruct (p y); lia.
Qed.

Lemma gather_flags sh d :
  shipment_id (gather sh d).1 = shipment_id sh ∧ created_at (gather sh d).1 = created_at sh.
Proof. by destruct (gather_row sh d) as [-> | ->]. Qed.

Lemma claim_unfold now sla w sh :
  next_claim now sla (w_db w) = Some sh →
  claim_and_evaluate_one now sla w =
  run_session
    (reconcile_shipment sh None now sla (Some "scheduled_sla")
       (Some (sla_evaluation_key sh (evaluate_missing_document_policy sh now sla)))
     ≫= λ _, mret true) w.
Proof.
  intros E. unfold claim_and_evaluate_one. rewrite !run_session_unfold.
  rewrite bind_unfold. cbn [select gets session_of working]. by rewrite E.
Qed.

(** A claim evaluates the oldest claimable shipment, which is then no longer
    claimable, and makes no other shipment claimable. *)
Lemma claim_step now sla w sh :
  recon_wf (session_of w) → all_convert (w_db w) → next_claim now sla (w_db w) = Some sh →
  ∃ w', claim_and_evaluate_one now sla w = (Ok true, w') ∧ recon_wf (session_of w')
    ∧ all_convert (w_db w')
    ∧ count_by (claimable now sla (w_db w')) (shipments (w_db w'))
      < count_by (claimable now sla (w_db w)) (shipments (w_db w)).
Proof.
  intros W Hall Hn. rewrite (claim_unfold _ _ _ _ Hn).
  apply next_claim_Some in Hn as [Hsh Hcl].
  pose proof Hcl as [[Hlate Hsome]%andb_prop Hna]%andb_prop. apply Z.leb_le in Hlate.
  destruct (gather_flags sh (w_db w)) as [Hid1 Hca1].
  set (key := Some (sla_evaluation_key sh (evaluate_missing_document_policy sh now sla))).
  destruct (amounts_convert_ok sh (w_db w)
    (evaluate_missing_document_policy (gather sh (w_db w)).1 now sla) (Hall sh Hsh)) as [v Hv].
  pose proof (reconcile_effect sh None now sla (Some "scheduled_sla") key (session_of w) v W Hsh I)
    as H. cbn [session_of working] in H.
  pose proof (gather_again sh (w_db w)) as Hagain.
  destruct (gather sh (w_db w)) as [sh1 e] eqn:Eg. cbn [fst snd] in *.
  destruct (H Hv) as (r & s' & E & W' & Hc & _ & _ & Hs & Hd & Hrc & _ & Hact & Hoth & _).
  clear H. exists (world_of s'). rewrite run_session_unfold, bind_unfold, E.
  split; [done|]. rewrite session_of_world_of by done. split; [done|].
  cbn [world_of w_db]. rewrite Hc, Hs.
  set (policy := evaluate_missing_document_policy sh1 now sla) in *.
  assert (Hq : ∀ x, x ∈ shipments (w_db w) → N.eqb (shipment_id x) (shipment_id sh) = true → x = sh).
  { intros x Hx Ex%N.eqb_eq.
    by apply (NoDup_fmap_inj shipment_id _ _ _ (aw_ids _ (rw_assembly _ W))). }
  split.
  - intros x Hx. rewrite Hs in Hx. apply elem_of_update_where in Hx as (y & Hy & ->).
    assert (Hsame : ∀ z, gather z (working s') = gather z (w_db w)).
    { intros z. unfold gather. by rewrite Hrc, !(linked_same _ _ _ Hd). }
    unfold amounts_convert. destruct (N.eqb (shipment_id y) (shipment_id sh)) eqn:Ey.
    + rewrite (Hagain _ v policy Hd Hrc). cbn [snd].
      specialize (Hall sh Hsh). unfold amounts_convert in Hall. by rewrite Eg in Hall.
    + rewrite Hsame. by apply (Hall y).
  - unfold update_where. eapply (count_by_fmap_lt _ _ _ _ sh); [|done|done|].
    + intros y Hy. destruct (N.eqb (shipment_id y) (shipment_id sh)) eqn:Ey.
      * rewrite (Hq y Hy Ey). done.
      * unfold claimable. rewrite !has_active_exception_spec by (apply W || apply W').
        unfold active_exception. rewrite Hoth by (by apply N.eqb_neq in Ey). done.
    + rewrite N.eqb_refl. unfold claimable. cbn.
      rewrite has_active_exception_spec by apply W'. rewrite Hid1.
      destruct (decide (p_state policy = "overdue")) as [Ho|Ho].
      * rewrite (proj2 Hact Ho). by rewrite Bool.andb_false_r.
      * destruct (late_not_within_grace sh1 now sla) as (-> & -> & -> & ->); [lia|done|].
        cbn. by rewrite Bool.andb_false_r.
Qed.

Lemma claim_none now sla w :
  next_claim now sla (w_db w) = None → claim_and_evaluate_one now sla w = (Ok false, w).
Proof.
  intros E. unfold claim_and_evaluate_one. rewrite run_session_unfold, bind_unfold.
  cbn [select gets session_of working]. rewrite E. cbn. by destruct w.
Qed.

Lemma scan_effect now sla : ∀ fuel w count,
  recon_wf (session_of w) → all_convert (w_db w) →
  count_by (claimable now sla (w_db w)) (shipments (w_db w)) < fuel →
  ∃ n w', scan_missing_document_slas fuel now sla count w = (Ok (Some (count + Z.of_nat n)%Z), w')
    ∧ n <= count_by (claimable now sla (w_db w)) (shipments (w_db w))
    ∧ (∀ sh, sh ∈ shipments (w_db w') → claimable now sla (w_db w') sh = false)
    ∧ recon_wf (session_of w').
Proof.
  induction fuel as [|fuel IH]; intros w count W Hall Hf; [lia|]. cbn [scan_missing_document_slas].
  destruct (next_claim now sla (w_db w)) as [sh|] eqn:En.
  - destruct (claim_step now sla w sh W Hall En) as (w1 & E & W1 & Hall1 & Hlt).
    destruct (IH w1 (count + 1)%Z W1 Hall1) as (n & w' & E' & Hle & Hdone & W'); [lia|].
    exists (S n), w'. rewrite bind_unfold, E, E'. split; [|split; [lia|done]].
    do 3 f_equal. lia.
  - exists 0, w. rewrite bind_unfold, claim_none by done. split; [|split; [lia|split; [|done]]].
    + unfold mret, M_ret. do 3 f_equal. lia.
    + by apply next_claim_None.
Qed.

(** ** Properties *)

(** C27 The scan terminates: with fuel for one round more than there are claimable
    shipments it returns, having evaluated at most that many; when it returns,
    every shipment past its deadline that lacks a document has an active
    exception, and the invariant of the tables holds. *)
Theorem scan_terminates now sla w fuel :
  recon_wf (session_of w) → all_convert (w_db w) →
  count_by (claimable now sla (w_db w)) (shipments (w_db w)) < fuel →
  ∃ n w', scan_missing_document_slas fuel now sla 0 w = (Ok (Some (Z.of_nat n)), w')
    ∧ n <= count_by (claimable now sla (w_db w)) (shipments (w_db w))
    ∧ recon_wf (session_of w')
    ∧ ∀ sh, sh ∈ shipments (w_db w') → (created_at sh + sla <= now)%Z →
        has_invoice sh && has_rate_con sh && has_bol sh && has_pod sh = false →
        active_exception (shipment_id sh) (w_db w') = true.
Proof.
  intros W Hall Hf.
  destruct (scan_effect now sla fuel w 0 W Hall Hf) as (n & w' & E & Hle & Hdone & W').
  exists n, w'. split; [exact E|]. split; [done|]. split; [done|].
  intros sh Hsh Hlate Hmiss. specialize (Hdone sh Hsh). unfold claimable in Hdone.
  rewrite has_active_exception_spec in Hdone by apply W'.
  replace (created_at sh <=? now - sla)%Z with true in Hdone by lia.
  destruct (active_exception _ _); [done|].
  by destruct (has_invoice sh), (has_rate_con sh), (has_bol sh), (has_pod sh).
Qed.

(** An iteration failed with an exception the loop survives. *)
Definition iteration_failed (it : datetime * res Z) : bool := negb (res_ok it.2).

Definition run_iterations (l : list (datetime * res Z)) (h : ScannerHealth) : ScannerHealth :=
  fold_left (λ h it, (run_scanner_iteration h it.1 it.2).2) l h.

Fixpoint leading {A} (p : A → bool) (l : list A) : nat :=
  match l with
  | x :: l' => if p x then S (leading p l') else 0
  | [] => 0
  end.

(** The scanner's health record, after any sequence of iterations whose
    failures the loop survives: the failure count is the length of the trailing
    run of failures, the status is [degraded] exactly when the last iteration
    failed, and the recorded success is the latest one. *)
Theorem scanner_health_correct l :
  Forall (λ it, match it.2 with Raise e => is_Exception e = true | Ok _ => True end) l →
  let h := run_iterations l initial_health in
  consecutive_failures h = Z.of_nat (leading iteration_failed (reverse l))
  ∧ health_status h = (if opt_truthy iteration_failed (last l) then "degraded" else "ok")
  ∧ last_started_at h = fst <$> last l
  ∧ last_succeeded_at h = fst <$> find_first (λ it, res_ok it.2) (reverse l).
Proof.
  induction l as [|it l IH] using rev_ind; [done|].
  intros [Hl Hit]%Forall_app. specialize (IH Hl). inversion Hit as [|? ? He _]; subst.
  unfold run_iterations in *. rewrite fold_left_app, reverse_app, last_snoc. cbn.
  destruct IH as (H1 & H2 & H3 & H4). destruct it as [t [n|e]]; cbn in *.
  - by split_and!.
  - rewrite He. cbn. rewrite H1. split_and!; [lia|done|done|done].
Qed.

(** ** Examples *)

Definition demo_world : world := world_of demo_shipments.

Lemma scan_terminates_witness :
  ∃ n w', scan_missing_document_slas 2 (hours 80) (hours 72) 0 demo_world
          = (Ok (Some (Z.of_nat n)), w').
Proof.
  destruct (scan_terminates (hours 80) (hours 72) demo_world 2) as (n & w' & E & _).
  - exact demo_shipments_wf.
  - intros sh ->%list_elem_of_singleton. vm_compute. reflexivity.
  - vm_compute. lia.
  - exists n, w'. exact E.
Defined.

Definition demo_iterations : list (datetime * res Z) :=
  [(1%Z, Ok 3%Z); (2%Z, Raise (Exn RuntimeError "db")); (3%Z, Raise (Exn RuntimeError "db"))].

Lemma scanner_health_correct_witness :
  consecutive_failures (run_iterations demo_iterations initial_health) = 2%Z.
Proof. apply (scanner_health_correct demo_iterations). repeat constructor. Defined.
