(* ===== verification/Extraction.v ===== *)
(** * Extraction and triage

    [app/services/extraction.py], [app/services/triage.py],
    [app/services/json_utils.py] and the validators of [app/schemas/extraction.py]
    and [app/schemas/triage.py].

    Claude and the coercions of pydantic are not in the repository: the replies of
    one call are arguments, and [model_fields], the fields of a schema as
    pydantic's type coercion leaves them, is a parameter of the section. *)

From S2P Require Import Prelude PyText Base64 LoadNumbers DateTime PyFloat Json Database.
From S2P Require Import Shipments.
From Stdlib Require Import Ascii SpecFloat.
Local Open Scope string_scope.
Local Open Scope list_scope.
Local Open Scope nat_scope.

(** ** [json_utils.strip_code_fences] *)

Definition fence : string := "```".

Definition strip_code_fences (text : string) : string :=
  let text := py_strip text in
  if py_startswith fence text then
    let body := match after_first newline (to_chars text) with
                | Some l => of_chars l
                | None => ""
                end in
    let body := if py_endswith fence body
                then of_chars (take (length (to_chars body) - 3) (to_chars body)) else body in
    py_strip body
  else py_strip text.

(** ** File types *)

Definition media_types : list (string * (string * string)) :=
  [(".pdf", ("pdf", "application/pdf")); (".png", ("image", "image/png"));
   (".jpg", ("image", "image/jpeg")); (".jpeg", ("image", "image/jpeg"))].

Definition detect_file_type (name : string) : res (string * string) :=
  let suffix := py_lower (path_suffix name) in
  match dict_get suffix media_types with
  | Some t => Ok t
  | None => Raise (Exn UnsupportedFileTypeError
              ("Unsupported file type: " +:+ (if str_truthy suffix then suffix else "none")))
  end.

(** [build_document_block]: the block sent to Claude. *)
Definition build_document_block (file_bytes : chars) (name : string) : res json :=
  match detect_file_type name with
  | Raise e => Raise e
  | Ok (kind, media_type) =>
      Ok (JObj [("type", JStr (if String.eqb kind "pdf" then "document" else "image"));
                ("source", JObj [("type", JStr "base64"); ("media_type", JStr media_type);
                                 ("data", JStr (of_chars (b64encode file_bytes)))])])
  end.

(** ** Replies *)

(** A content block: its type and its text, when it has them. *)
Record content_block := mk_block { block_type : option string; block_text : option string }.

Definition extract_response_text (content : list content_block) : string :=
  let text_blocks := omap (λ b, if sql_eq String.eqb (block_type b) "text"
                                then str_or (block_text b) None else None) content in
  py_strip (foldr String.append "" text_blocks).

Definition DOCUMENT_TYPES : list string :=
  ["invoice"; "rate_confirmation"; "bill_of_lading"; "proof_of_delivery"].

(** The characters stripped around a label: double quote, single quote, backtick. *)
Definition quote_chars : string := of_chars [ascii_of_nat 34; ascii_of_nat 39; ascii_of_nat 96].

Definition validate_document_type (response_text : string) : res string :=
  let doc_type := py_lower (py_strip_chars quote_chars (py_strip response_text)) in
  if in_strs doc_type DOCUMENT_TYPES then Ok doc_type
  else Raise (Exn ExtractionError ("Claude returned unsupported document type: " +:+ response_text)).

(** [EXTRACTION_SCHEMAS]: the schema of a document type. *)
Inductive schema := InvoiceSchema | BOLSchema | PODSchema.

Definition EXTRACTION_SCHEMAS : list (string * schema) :=
  [("invoice", InvoiceSchema); ("rate_confirmation", InvoiceSchema);
   ("bill_of_lading", BOLSchema); ("proof_of_delivery", PODSchema)].

(** The [doc_type] literals a schema admits. *)
Definition schema_doc_types (sc : schema) : list string :=
  match sc with
  | InvoiceSchema => ["invoice"; "rate_confirmation"]
  | BOLSchema => ["bill_of_lading"]
  | PODSchema => ["proof_of_delivery"]
  end.

(** ** The schemas *)

(** What the type coercion of pydantic leaves of a payload: the fields the
    validators of the source look at, and all the fields as the model dumps
    them. *)
Record coerced := mk_coerced {
  c_doc_type : string;
  c_load_number : option string;
  c_carrier_name : string;
  c_total_amount : option float;
  c_confidence : option float;
  c_rest : extraction
}.

(** The [field_validator]s, in the order of the fields; an exception of one is a
    [ValidationError]. *)
Definition fone : float := float_of_decimal false 1 0.
Definition fle01 (f : float) : bool := fleb fzero f && fleb f fone.

Definition normalize_load_number_value (v : option string) : option (option string) :=
  match normalize_load_number v with Ok r => Some r | Raise _ => None end.
Definition reject_negative_total_amount (v : float) : option float :=
  if fltb v fzero then None else Some v.
Definition normalize_carrier_name (v : string) : string := py_upper (py_strip v).

Definition validate_fields (sc : schema) (c : coerced) : option extraction :=
  load ← normalize_load_number_value (c_load_number c);
  total ← match c_total_amount c with
          | Some t => Some <$> reject_negative_total_amount t
          | None => match sc with InvoiceSchema => None | _ => Some None end
          end;
  _ ← match sc with
      | InvoiceSchema => match c_confidence c with
                         | Some f => if fle01 f then Some tt else None
                         | None => None
                         end
      | _ => Some tt
      end;
  _ ← (if in_strs (c_doc_type c) (schema_doc_types sc) then Some tt else None);
  let d := dict_set "doc_type" (JStr (c_doc_type c))
             (dict_set "load_number" (jstr load)
               (dict_set "carrier_name" (JStr (normalize_carrier_name (c_carrier_name c)))
                 (c_rest c))) in
  Some (match total with Some t => dict_set "total_amount" (JFloat t) d | None => d end).

Section Claude.
(** pydantic's coercion of a payload to the types of a schema's fields; [None] is a
    [ValidationError]. *)
Context (model_fields : schema → json → option coerced).
(** The coercion of the triage reply: route, reasoning, confidence. *)
Context (triage_fields : json → option (string * string * float)).

Definition model_validate (sc : schema) (payload : json) : option extraction :=
  c ← model_fields sc payload; validate_fields sc c.

(** The document type keys the schemas. *)
Definition schema_of (doc_type : string) : schema :=
  default InvoiceSchema (dict_get doc_type EXTRACTION_SCHEMAS).

Definition validate_claude_json (response_text doc_type : string) : res extraction :=
  match json_loads (strip_code_fences response_text) with
  | JErr _ => Raise (Exn ExtractionError "Claude returned non-JSON output")
  | JOk payload =>
      match model_validate (schema_of doc_type) payload with
      | Some d => Ok d
      | None => Raise (Exn ExtractionError
                  ("Claude JSON did not match the " +:+ doc_type +:+ " extraction schema"))
      end
  end.

(** [TriageDecision] *)
Record triage_decision := mk_triage { route : string; reasoning : string; confidence : float }.

Definition validate_triage_json (response_text : string) : res triage_decision :=
  match json_loads (strip_code_fences response_text) with
  | JErr _ => Raise (Exn ExtractionError ("Claude returned non-JSON triage output: " +:+ str_repr response_text))
  | JOk payload =>
      match triage_fields payload with
      | Some (r, why, f) =>
          if in_strs r ["auto_resolve"; "escalate_standard"; "escalate_priority"] && fle01 f
          then Ok (mk_triage r why f)
          else Raise (Exn ExtractionError "Claude JSON did not match the triage schema")
      | None => Raise (Exn ExtractionError "Claude JSON did not match the triage schema")
      end
  end.

(** The replies of the service to the calls of one invocation: the first, and the
    second as a function of the document type its prompt is for. *)
Record claude_replies := mk_replies {
  r_api_key : bool;
  r_classification : res (list content_block);
  r_extraction : string → res (list content_block);
  r_triage : res (list content_block)
}.

Definition no_api_key {A} : res A :=
  Raise (Exn ExtractionError "ANTHROPIC_API_KEY is not configured").

Definition bind_res {A B} (r : res A) (f : A → res B) : res B :=
  match r with Ok a => f a | Raise e => Raise e end.

(** The part of [extract_document] before the database. *)
Definition read_document (replies : claude_replies) (file_bytes : chars) (name : string)
  : res extraction :=
  bind_res (build_document_block file_bytes name) (λ _,
  if negb (r_api_key replies) then no_api_key
  else
    bind_res (r_classification replies) (λ c1,
    bind_res (validate_document_type (extract_response_text c1)) (λ doc_type,
    bind_res (r_extraction replies doc_type) (λ c2,
    validate_claude_json (extract_response_text c2) doc_type)))).

Definition extraction_doc_type (ex : extraction) : string :=
  default "" (as_str (dict_get "doc_type" ex)).

Definition extracted (name : string) (ex : extraction) (doc : Document) : Document :=
  set_filename name (set_doc_type (extraction_doc_type ex) (set_doc_status "extracted"
    (set_raw_text None (set_extracted_data (Some (JObj ex)) doc)))).

Definition new_document (name doc_type : string) (i : Z) (now : datetime) : Document :=
  mkDocument i name doc_type "received" None None None None None None None None None now.

(** [extract_document]; an exception of the commit is re-raised after a rollback. *)
Definition extract_document (replies : claude_replies) (file_bytes : chars) (name : string)
    (document_id : option Z) : M session extraction :=
  ex ← of_res (read_document replies file_bytes name);
  found ← match document_id with Some i => get_document i | None => mret None end;
  doc ← match found with
        | Some doc => mret doc
        | None => insert_document (new_document name (extraction_doc_type ex))
        end;
  _ ← save_document (extracted name ex doc);
  _ ← commit;
  mret ex.

Definition triage_exception (replies : claude_replies) : res triage_decision :=
  if negb (r_api_key replies) then no_api_key
  else bind_res (r_triage replies) (λ c, validate_triage_json (extract_response_text c)).

End Claude.

(** ** Lemmas: fences *)

Lemma startswith_chars p s :
  py_startswith p s = true ↔ ∃ r, to_chars s = to_chars p ++ r.
Proof.
  unfold py_startswith. revert s. induction p as [|c p IH]; intros s.
  - split; [intros _; by exists (to_chars s)|]. by destruct s.
  - destruct s as [|c' s]; cbn [String.prefix to_chars].
    + split; [done|]. by intros (r & H).
    + destruct (ascii_dec c c') as [->|Hn].
      * rewrite IH. split; intros (r & H); exists r.
        -- change (c' :: to_chars s = c' :: (to_chars p ++ r)). by rewrite H.
        -- change (c' :: to_chars s = c' :: (to_chars p ++ r)) in H. congruence.
      * split; [done|]. intros (r & H).
        change (c' :: to_chars s = c :: (to_chars p ++ r)) in H. congruence.
Qed.

Lemma endswith_chars p s :
  py_endswith p s = true ↔ ∃ r, to_chars s = r ++ to_chars p.
Proof.
  unfold py_endswith. fold (py_startswith (of_chars (reverse (to_chars p)))
                                          (of_chars (reverse (to_chars s)))).
  rewrite startswith_chars, !to_of_chars. split; intros (r & H).
  - exists (reverse r). apply (f_equal reverse) in H.
    by rewrite reverse_involutive, reverse_app, reverse_involutive in H.
  - exists (reverse r). by rewrite H, reverse_app.
Qed.

Lemma after_first_app c l1 l2 :
  Forall (λ x, Ascii.eqb x c = false) l1 → after_first c (l1 ++ c :: l2) = Some l2.
Proof.
  induction 1 as [|x l1 Hx _ IH]; cbn; [by rewrite Ascii.eqb_refl|]. by rewrite Hx.
Qed.

Lemma strip_chars_trimmed l : trimmed py_isspace l → py_strip (of_chars l) = of_chars l.
Proof. intros H. unfold py_strip, strip_by. rewrite to_of_chars. by rewrite trimmed_strip. Qed.

(** Spaces after a trimmed text are stripped. *)
Lemma strip_trailing l k :
  trimmed py_isspace l → Forall (λ c, py_isspace c = true) k →
  py_strip (of_chars (l ++ k)) = of_chars l.
Proof.
  intros [Hh Hl] Hk. unfold py_strip, strip_by. rewrite to_of_chars. f_equal.
  assert (Hend : drop_while_end py_isspace (l ++ k) = l).
  { unfold drop_while_end. rewrite reverse_app.
    assert (Hk' : Forall (λ c, py_isspace c = true) (reverse k)) by (by apply Forall_reverse).
    revert Hk'. generalize (reverse k). intros k' Hk'.
    assert (drop_while py_isspace (k' ++ reverse l) = reverse l) as ->.
    { induction Hk' as [|c k' Hc _ IH]; cbn.
      - apply drop_while_id. intros x Hx. apply Hl. by rewrite <- head_reverse.
      - by rewrite Hc. }
    apply reverse_involutive. }
  destruct l as [|c l].
  - cbn in *. assert (drop_while py_isspace k = []) as ->; [|done].
    clear -Hk. induction Hk as [|c k Hc _ IH]; cbn; [done|]. by rewrite Hc.
  - cbn. rewrite (Hh c eq_refl). exact Hend.
Qed.

Lemma strip_fixed_trimmed s : py_strip s = s → trimmed py_isspace (to_chars s).
Proof.
  intros E. rewrite <- E. unfold py_strip, strip_by. rewrite to_of_chars. apply strip_trimmed.
Qed.

Lemma newline_space : py_isspace newline = true.
Proof. reflexivity. Qed.

(** A reply in a fence, with the language tag [lang]. *)
Definition fenced (lang body : string) : string :=
  fence +:+ lang +:+ of_chars [newline] +:+ body +:+ of_chars [newline] +:+ fence.

Lemma fenced_chars lang body :
  to_chars (fenced lang body)
  = to_chars fence ++ to_chars lang ++ newline :: (to_chars body ++ newline :: to_chars fence).
Proof. unfold fenced. by rewrite !to_chars_app, !to_of_chars. Qed.

Lemma fenced_stripped lang body : py_strip (fenced lang body) = fenced lang body.
Proof.
  rewrite <- (of_to_chars (fenced lang body)). apply strip_chars_trimmed. rewrite fenced_chars.
  split.
  - intros x [= <-]. reflexivity.
  - intros x. change (to_chars fence) with ["`"%char; "`"%char; "`"%char].
    rewrite !app_assoc, cons_middle, !app_assoc.
    change ["`"%char; "`"%char; "`"%char] with (["`"%char; "`"%char] ++ ["`"%char]).
    rewrite (cons_middle newline), !app_assoc, last_snoc. intros [= <-]. reflexivity.
Qed.

(** ** Lemmas: validated extractions *)

(** What a valid extraction guarantees the matching step. *)
Record extraction_ok (ex : extraction) : Prop := {
  eo_load : ∃ load, dict_get "load_number" ex = Some (jstr load)
                    ∧ normalize_load_number load = Ok load;
  eo_carrier : ∃ c, dict_get "carrier_name" ex = Some (JStr c) ∧ py_upper (py_strip c) = c;
  eo_doc_type : ∃ t, dict_get "doc_type" ex = Some (JStr t) ∧ t ∈ DOCUMENT_TYPES
}.

Lemma normalize_load_number_fixed v load :
  normalize_load_number v = Ok load → normalize_load_number load = Ok load.
Proof.
  destruct v as [v|]; [|by intros [= <-]]. cbn.
  destruct (str_truthy (py_upper (py_strip v))) eqn:Et; [|done]. intros [= <-]. cbn.
  by rewrite py_strip_upper, py_strip_idemp, py_upper_idemp, Et.
Qed.

Lemma carrier_name_fixed c :
  py_upper (py_strip (normalize_carrier_name c)) = normalize_carrier_name c.
Proof.
  unfold normalize_carrier_name. by rewrite py_strip_upper, py_strip_idemp, py_upper_idemp.
Qed.

Lemma schema_doc_types_known sc t : in_strs t (schema_doc_types sc) = true → t ∈ DOCUMENT_TYPES.
Proof. rewrite in_strs_In. destruct sc; cbn; set_solver. Qed.

Lemma validate_fields_ok sc c ex :
  validate_fields sc c = Some ex →
  extraction_ok ex
  ∧ (sc = InvoiceSchema → ∃ t, dict_get "total_amount" ex = Some (JFloat t)
                               ∧ fltb t fzero = false).
Proof.
  unfold validate_fields, normalize_load_number_value, reject_negative_total_amount.
  destruct (normalize_load_number (c_load_number c)) as [load|] eqn:El; [|done]. cbn.
  intros H. apply bind_Some in H as (total & Ht & H). apply bind_Some in H as (u & _ & H).
  destruct (in_strs (c_doc_type c) (schema_doc_types sc)) eqn:Edt; [|done]. cbn in H.
  injection H as <-.
  assert (Hget : ∀ k, k ≠ "total_amount" → dict_get k match total with
    | Some t => dict_set "total_amount" (JFloat t)
        (dict_set "doc_type" (JStr (c_doc_type c)) (dict_set "load_number" (jstr load)
           (dict_set "carrier_name" (JStr (normalize_carrier_name (c_carrier_name c))) (c_rest c))))
    | None => dict_set "doc_type" (JStr (c_doc_type c)) (dict_set "load_number" (jstr load)
           (dict_set "carrier_name" (JStr (normalize_carrier_name (c_carrier_name c))) (c_rest c)))
    end = dict_get k (dict_set "doc_type" (JStr (c_doc_type c)) (dict_set "load_number" (jstr load)
           (dict_set "carrier_name" (JStr (normalize_carrier_name (c_carrier_name c)))
              (c_rest c))))).
  { intros k Hk. destruct total as [t|]; [|done].
    by rewrite dict_get_set, (proj2 (String.eqb_neq _ _) Hk). }
  split; [split|].
  - exists load. rewrite Hget, !dict_get_set by done. cbn.
    split; [done|]. by eapply normalize_load_number_fixed.
  - eexists. rewrite Hget, !dict_get_set by done. cbn. split; [done|apply carrier_name_fixed].
  - eexists. rewrite Hget, !dict_get_set by done. cbn. split; [done|].
    by eapply schema_doc_types_known.
  - intros ->. destruct (c_total_amount c) as [t|]; [|done]. cbn in Ht.
    destruct (fltb t fzero) eqn:Ef; [done|]. cbn in Ht. injection Ht as <-.
    exists t. by rewrite dict_get_set.
Qed.

Lemma validate_claude_json_ok mf text dt ex :
  validate_claude_json mf text dt = Ok ex → extraction_ok ex.
Proof.
  unfold validate_claude_json, model_validate. destruct (json_loads _) as [payload|]; [|done].
  destruct (mf (schema_of dt) payload) as [c|]; [|done]. cbn.
  destruct (validate_fields _ c) as [d|] eqn:E; [|done]. intros [= <-].
  by apply (validate_fields_ok _ _ _ E).
Qed.

Lemma read_document_ok mf replies bytes name ex :
  read_document mf replies bytes name = Ok ex → extraction_ok ex.
Proof.
  unfold read_document, bind_res. destruct (build_document_block bytes name); [|done].
  destruct (r_api_key replies); [|done]. cbn. destruct (r_classification replies); [|done].
  destruct (validate_document_type _); [|done]. destruct (r_extraction replies _); [|done].
  apply validate_claude_json_ok.
Qed.

(** ** Properties *)

(** Code fences: a reply fenced with any language tag gives its body back, and
    an unfenced reply its text, both stripped. *)
Theorem strip_code_fences_correct lang body text :
  (Forall (λ c, Ascii.eqb c newline = false) (to_chars lang) → py_strip body = body →
   strip_code_fences (fenced lang body) = body)
  ∧ (py_startswith fence (py_strip text) = false → strip_code_fences text = py_strip text).
Proof.
  split.
  - intros Hlang Hbody. unfold strip_code_fences. rewrite fenced_stripped.
    assert (py_startswith fence (fenced lang body) = true) as ->.
    { apply startswith_chars. rewrite fenced_chars. eauto. }
    rewrite fenced_chars, app_assoc, after_first_app.
    2:{ apply Forall_app. split; [by repeat constructor|done]. }
    set (rest := to_chars body ++ newline :: to_chars fence).
    assert (Hrest : rest = (to_chars body ++ [newline]) ++ to_chars fence)
      by (unfold rest; by rewrite <- app_assoc).
    assert (py_endswith fence (of_chars rest) = true) as ->.
    { apply endswith_chars. rewrite to_of_chars. exists (to_chars body ++ [newline]). done. }
    rewrite to_of_chars, Hrest, length_app.
    replace (_ + length (to_chars fence) - 3) with (length (to_chars body ++ [newline]))
      by (cbn; lia).
    rewrite take_app_length, strip_trailing; [by rewrite of_to_chars| |by repeat constructor].
    by apply strip_fixed_trimmed.
  - intros H. unfold strip_code_fences. by rewrite H, py_strip_idemp.
Qed.

(** C33 A document that was read is in canonical form, whatever Claude and pydantic
    did: its type is one of the four, its load number is absent or a fixed point
    of the normalisation (so that assembling the shipment cannot refuse it), its
    carrier is stripped upper case, and every reading fails only with an
    extraction error, an unsupported file, or the error of a call. *)
Theorem read_document_canonical mf replies bytes name :
  match read_document mf replies bytes name with
  | Ok ex =>
      extraction_ok ex ∧ carrier_ok ex = true
      ∧ ∃ o, normalize_load_number (as_str (dict_get "load_number" ex)) = Ok o
  | Raise e =>
      exn_cls e = ExtractionError ∨ exn_cls e = UnsupportedFileTypeError
      ∨ r_classification replies = Raise e ∨ ∃ t, r_extraction replies t = Raise e
  end.
Proof.
  destruct (read_document mf replies bytes name) as [ex|e] eqn:E.
  - apply read_document_ok in E as H. split; [done|].
    destruct H as [(load & El & Hl) (c & Ec & _) _]. split.
    + unfold carrier_ok. by rewrite Ec.
    + exists load. rewrite El. by destruct load.
  - revert E. unfold read_document, bind_res, build_document_block, detect_file_type.
    destruct (dict_get _ media_types) as [[k m]|]; [|intros [= <-]; auto].
    destruct (r_api_key replies); [|intros [= <-]; auto]. cbn.
    destruct (r_classification replies) as [c1|e1] eqn:E1; [|intros [= <-]; auto].
    unfold validate_document_type. destruct (in_strs _ _); [|intros [= <-]; auto].
    match goal with |- context [r_extraction replies ?t] =>
      destruct (r_extraction replies t) as [c2|e2] eqn:E2 end; [|intros [= <-]; eauto 6].
    unfold validate_claude_json. destruct (json_loads _); [|intros [= <-]; auto].
    destruct (model_validate _ _ _); [done|]. intros [= <-]. auto.
Qed.

(** Extraction is all or nothing: on success everything is committed and the
    document of the given id, if it exists, has become the extracted one under
    its old id, the others unchanged; on failure nothing was committed. *)
Theorem extract_document_atomic mf replies bytes name i s :
  match extract_document mf replies bytes name (Some i) s with
  | (Ok ex, s') =>
      committed s' = working s' ∧ extraction_ok ex
      ∧ ∀ doc, find_first (λ x, Z.eqb (doc_id x) i) (documents (working s)) = Some doc →
          documents (working s')
          = update_where (λ x, Z.eqb (doc_id x) i) (λ _, extracted name ex doc)
              (documents (working s))
  | (Raise e, s') => committed s' = committed s
  end.
Proof.
  unfold extract_document. rewrite bind_unfold. unfold of_res.
  destruct (read_document mf replies bytes name) as [ex|e] eqn:E; [|done].
  apply read_document_ok in E. rewrite bind_unfold. unfold get_document, select, gets.
  destruct (find_first (λ x, Z.eqb (doc_id x) i) (documents (working s))) as [doc|] eqn:Ef.
  - rewrite bind_unfold. cbn [mret M_ret]. rewrite bind_unfold, save_document_runs, bind_unfold.
    cbn [commit modify mret M_ret committed working]. split; [done|]. split; [done|].
    intros doc' [= <-]. apply find_first_Some in Ef as [_ Hi%Z.eqb_eq]. cbn. by rewrite Hi.
  - rewrite bind_unfold.
    assert (Hc : ∀ mk, committed (insert_document mk s).2 = committed s).
    { intros mk. unfold insert_document. session_unfold. repeat (case_match; simplify_eq/=; try done). }
    specialize (Hc (new_document name (extraction_doc_type ex))).
    destruct (insert_document _ s) as [[doc|e'] s1]; [|done].
    rewrite bind_unfold, save_document_runs, bind_unfold. cbn. done.
Qed.
