(* ===== verification/Workflow.v ===== *)
(** * The invoice workflow graph

    [app/workflow/state.py], [app/workflow/nodes.py] and [app/workflow/graph.py].  A
    [WorkflowState] is the dict it is in the source.  A node returns the partial
    state it updates, or the payload of the [interrupt] it makes.

    LangGraph is not in the repository.  [run_graph] is the documented meaning of a
    [StateGraph] with one active node: run it, merge its update (the [messages]
    channel has the reducer [operator.add]), follow its edge or route, and stop at
    [END], at an interrupt or at an exception; an interrupted node runs again
    when it is resumed.  [GraphEngine] is the interface of the compiled graph with
    its checkpointer, its laws say no more than that, and [reference_engine] shows
    that they can be met. *)

From S2P Require Import Prelude PyText LoadNumbers DateTime PyFloat Json Database MissingDocs.
From S2P Require Import Shipments Reconciliation SlaScanner Extraction.
From Stdlib Require Import Ascii.
Local Open Scope string_scope.
Local Open Scope list_scope.
Local Open Scope nat_scope.

Abbreviation dict := (list (string * json)) (only parsing).

(** ** Reading a state *)

(** [state.get(k)], with [None] for a missing key and for a null. *)
Definition sget (k : string) (st : dict) : option json :=
  match dict_get k st with Some JNull | None => None | Some j => Some j end.

Definition key_error {A} (k : string) : res A := Raise (Exn KeyError k).

(** [state[k]] of a string. *)
Definition state_str (k : string) (st : dict) : res string :=
  match dict_get k st with
  | Some (JStr s) => Ok s
  | Some _ => Raise (Exn TypeError k)
  | None => key_error k
  end.

(** [int(state["document_id"])] *)
Definition state_document_id (st : dict) : res Z :=
  match state_str "document_id" st with
  | Raise e => Raise e
  | Ok s => match py_int s with
            | Some z => Ok z
            | None => Raise (Exn ValueError ("invalid literal for int() with base 10: " +:+ str_repr s))
            end
  end.

(** [state.get("iteration_count", 0)] *)
Definition iteration_count (st : dict) : Z :=
  match dict_get "iteration_count" st with Some (JInt n) => n | _ => 0%Z end.

Definition next_iteration (st : dict) : json := JInt (iteration_count st + 1).

(** [state.get(k) or {}] *)
Definition sdict (k : string) (st : dict) : dict :=
  match dict_get k st with Some (JObj d) => d | _ => [] end.

Definition dget (k : string) (d : dict) : json := default JNull (dict_get k d).

Definition extraction_summary (ex : dict) : json :=
  JObj [("doc_type", dget "doc_type" ex); ("carrier_name", dget "carrier_name" ex);
        ("load_number", dget "load_number" ex); ("total_amount", dget "total_amount" ex)].

(** ** The nodes *)

Inductive node_result :=
  | Update (u : dict)
  | Interrupted (payload : json).

Definition message (s : string) : string * json := ("messages", JArr [JStr s]).

(** [_log_exception_raised_once] *)
Definition log_exception_raised_once (rid : string) (st : dict) : M world unit :=
  existing ← run_session (select (λ d, existsb (λ a, String.eqb (audit_run_id a) rid
                && String.eqb (event_type a) "exception_raised") (audit_logs d)));
  if (existing : bool) then mret tt
  else log_audit_event_owned rid "exception_raised"
         (Some (JObj [("exception_reason", dget "exception_reason" st);
                      ("extraction", extraction_summary (sdict "extraction" st))])) "system".

(** [f"{v}"] of a value that may be missing. *)
Definition fstr (v : option json) : string := match v with Some j => py_str j | None => "None" end.

(** [_reconciliation_exception_reason] *)
Definition check_failed (c : json) : bool :=
  is_outcome "failed" c
  || (match jget "outcome" c with None => true | Some _ => false end
      && match jget "passed" c with Some (JBool false) => true | _ => false end).

Definition reconciliation_exception_reason (reasons : list string) (cs : list json) : string :=
  let failed_checks := where_ check_failed cs in
  match failed_checks with
  | [] => py_join ", " reasons
  | _ =>
      let details := py_join "; " ((λ c, fstr (jget "check_name" c) +:+ ": "
                                         +:+ fstr (jget "details" c)) <$> failed_checks) in
      py_join ", " reasons +:+ ": " +:+ details
  end.

Definition is_sla_reason (r : string) : bool := in_strs r SLA_REASON_CODES.

(** What [match_node] learns in its session. *)
Record match_result := mk_match_result {
  mr_dict : dict;
  mr_requires_review : bool;
  mr_reasons : list (option string);
  mr_checks : list json
}.

Definition no_document : match_result :=
  mk_match_result [("matched", JBool false); ("requires_review", JBool true);
                   ("reason", JStr "document_not_found")] true [Some "document_not_found"] [].

Definition no_load_number : match_result :=
  mk_match_result [("matched", JBool false); ("requires_review", JBool true);
                   ("reason", JStr "no_load_number"); ("missing_docs", JArr []);
                   ("exception_reasons", JArr [JStr "no_load_number"])] true
    [Some "no_load_number"] [].

(** [reviewable_reasons or [match_result.get("reason")]] *)
Definition reasons_or_none (l : list string) : list (option string) :=
  match l with [] => [None] | _ => Some <$> l end.

Definition reconciled_match (sh : Shipment) (r : ReconciliationResult) : match_result :=
  let reviewable := where_ (λ x, negb (is_sla_reason x)) (exception_reasons r) in
  let requires := negb (bool_decide (reviewable = [])) in
  mk_match_result
    [("matched", JBool (bool_decide (exception_reasons r = [])));
     ("requires_review", JBool requires);
     ("shipment_id", JStr (uuid_str (shipment_id sh)));
     ("reconciliation_result_id", JStr (uuid_str (result_id r)));
     ("reconciliation_status", JStr (reconciliation_status sh));
     ("checks", JArr (checks r)); ("missing_docs", jstrs (missing_docs r));
     ("exception_reasons", jstrs (exception_reasons r));
     ("reviewable_exception_reasons", jstrs reviewable)]
    requires (reasons_or_none reviewable) (checks r).

Section Nodes.
(** The parameters of Extraction, the replies to this invocation's calls, and the
    setting [MISSING_DOCUMENT_SLA_HOURS]. *)
Context (model_fields : schema → json → option coerced)
        (triage_fields : json → option (string * string * float))
        (replies : claude_replies) (sla_hours : Z).

Definition extract_node (st : dict) : M world node_result :=
  file_bytes ← of_res (state_str "file_bytes" st);
  name ← of_res (state_str "filename" st);
  i ← of_res (state_document_id st);
  ex ← run_session (extract_document model_fields replies (to_chars file_bytes) name (Some i));
  rid ← of_res (state_str "run_id" st);
  _ ← log_audit_event_owned rid "extracted"
        (Some (JObj [("extraction", extraction_summary ex)])) "system";
  mret (Update [("extraction", JObj ex); ("status", JStr "extracted");
                ("processing_status", JStr "running");
                message "Extracted document with Claude vision.";
                ("iteration_count", next_iteration st)]).

(** The session of [match_node]. *)
Definition match_session (st : dict) (i : Z) : M session match_result :=
  let ex := sdict "extraction" st in
  document ← get_document i;
  match document with
  | None => mret no_document
  | Some doc =>
      shipment ← upsert_shipment (as_str (dict_get "load_number" ex)) doc ex;
      match shipment with
      | None => mret no_load_number
      | Some sh =>
          now ← db_clock;
          r ← reconcile_shipment sh (as_str (dict_get "run_id" st)) now (hours sla_hours) None None;
          row ← select (λ d, find_first (λ x, N.eqb (shipment_id x) (shipment_id sh)) (shipments d));
          mret (reconciled_match (default sh row) r)
      end
  end.

Definition match_update (st : dict) (mr : match_result) : dict :=
  if negb (mr_requires_review mr) then
    [("match_result", JObj (mr_dict mr)); ("exception_reason", JNull); ("status", JStr "matched");
     ("processing_status", JStr "running");
     message ("Reconciled shipment state for load number "
              +:+ fstr (dict_get "load_number" (sdict "extraction" st)) +:+ ".");
     ("iteration_count", next_iteration st)]
  else
    let reviewable_checks :=
      where_ (λ c, match check_reason c with Some r => negb (is_sla_reason r) | None => true end)
             (mr_checks mr) in
    let reason := reconciliation_exception_reason
                    (omap (λ r, str_or r None) (mr_reasons mr)) reviewable_checks in
    [("match_result", JObj (mr_dict mr)); ("exception_reason", JStr reason);
     ("status", JStr "exception"); ("processing_status", JStr "running");
     message ("Shipment reconciliation failed: " +:+ reason +:+ ".");
     ("iteration_count", next_iteration st)].

Definition match_node (st : dict) : M world node_result :=
  i ← of_res (state_document_id st);
  mr ← run_session (match_session st i);
  mret (Update (match_update st mr)).

Definition supervisor_node (st : dict) : M world node_result :=
  decision ← of_res (triage_exception triage_fields replies);
  rid ← of_res (state_str "run_id" st);
  _ ← log_audit_event_owned rid "triaged"
        (Some (JObj [("route", JStr (route decision)); ("reasoning", JStr (reasoning decision));
                     ("confidence", JFloat (confidence decision))])) "system";
  mret (Update [("triage_route", JStr (route decision));
                ("triage_reasoning", JStr (reasoning decision));
                ("triage_confidence", JFloat (confidence decision));
                message ("Triage supervisor routed exception as " +:+ route decision +:+ ".");
                ("iteration_count", next_iteration st)]).

Definition interrupt_payload_of (st : dict) : json :=
  JObj [("reason", dget "exception_reason" st); ("extraction", dget "extraction" st);
        ("triage_route", dget "triage_route" st); ("triage_reasoning", dget "triage_reasoning" st);
        ("triage_confidence", dget "triage_confidence" st)].

(** [interrupt] returns the resume value, or pauses the graph. *)
Definition exception_node (resume : option json) (st : dict) : M world node_result :=
  rid ← of_res (state_str "run_id" st);
  _ ← log_exception_raised_once rid st;
  match resume with
  | None => mret (Interrupted (interrupt_payload_of st))
  | Some decision =>
      mret (Update [("human_decision", decision); ("status", JStr "awaiting_review");
                    ("processing_status", JStr "awaiting_review");
                    ("review_disposition", decision);
                    message "Paused for human review.";
                    ("iteration_count", next_iteration st)])
  end.

Definition decided_update (st : dict) (disposition text : string) : dict :=
  [("status", JStr disposition); ("review_disposition", JStr disposition); message text;
   ("iteration_count", next_iteration st)].

Definition approve_node (st : dict) : M world node_result :=
  mret (Update (decided_update st "approved" "Human reviewer approved the exception.")).

Definition reject_node (st : dict) : M world node_result :=
  mret (Update (decided_update st "rejected" "Human reviewer rejected the exception.")).

(** The decision of a state, when it is one of the two. *)
Definition final_decision (st : dict) : option string :=
  match as_str (dict_get "human_decision" st) with
  | Some d => if in_strs d ["approved"; "rejected"] then Some d else None
  | None => None
  end.

Definition unresolved_exception (st : dict) : bool :=
  opt_truthy jtruthy (dict_get "exception_reason" st)
  && match final_decision st with Some _ => false | None => true end.

Definition complete_posting (st : dict) : string :=
  let rec_status := as_str (dict_get "reconciliation_status" (sdict "match_result" st)) in
  let decided d := sql_eq String.eqb (final_decision st) d in
  if decided "approved"
     || (match sget "human_decision" st with None => true | Some _ => false end
         && sql_eq String.eqb rec_status "reconciled")
  then "ready_for_posting"
  else if decided "rejected" then "blocked" else "not_ready".

Definition complete_node (st : dict) : M world node_result :=
  if unresolved_exception st then
    rid ← of_res (state_str "run_id" st);
    _ ← log_audit_event_owned rid "failed"
          (Some (JObj [("reason", JStr "unresolved_exception_circuit_breaker")])) "system";
    mret (Update [("status", JStr "failed"); ("processing_status", JStr "failed");
                  ("posting_status", JStr "not_ready");
                  message "Workflow failed because an exception was not resolved.";
                  ("iteration_count", next_iteration st)])
  else
    let posting := complete_posting st in
    let update := [("status", JStr (default "complete" (final_decision st)));
                   ("processing_status", JStr "complete"); ("posting_status", JStr posting);
                   message "Workflow completed."; ("iteration_count", next_iteration st)] in
    match final_decision st with
    | Some _ => mret (Update update)
    | None =>
        rid ← of_res (state_str "run_id" st);
        _ ← log_audit_event_owned rid "completed"
              (Some (JObj [("processing_status", JStr "complete");
                           ("posting_status", JStr posting)])) "system";
        mret (Update update)
    end.

(** ** The graph *)

Definition route_after_match (st : dict) : string :=
  if (5 <? iteration_count st)%Z then "complete_node"
  else if opt_truthy jtruthy (dict_get "exception_reason" st) then "supervisor_node"
  else "complete_node".

Definition route_after_exception (st : dict) : string :=
  if (5 <? iteration_count st)%Z then "complete_node"
  else match final_decision st with
       | Some "approved" => "approve_node"
       | Some "rejected" => "reject_node"
       | _ => "exception_node"
       end.

Definition END : string := "__end__".

(** A node ([None] is the resume value), and what follows it. *)
Definition node := option json → dict → M world node_result.
Inductive edge := Edge (target : string) | Conditional (r : dict → string) (path_map : list string).

Record state_graph := mk_graph {
  g_nodes : list (string * node);
  g_entry : string;
  g_edges : list (string * edge)
}.

Definition build_state_graph : state_graph :=
  mk_graph
    [("extract_node", λ _, extract_node); ("match_node", λ _, match_node);
     ("supervisor_node", λ _, supervisor_node); ("exception_node", exception_node);
     ("approve_node", λ _, approve_node); ("reject_node", λ _, reject_node);
     ("complete_node", λ _, complete_node)]
    "extract_node"
    [("extract_node", Edge "match_node");
     ("match_node", Conditional route_after_match ["supervisor_node"; "complete_node"]);
     ("supervisor_node", Edge "exception_node");
     ("exception_node", Conditional route_after_exception
                          ["approve_node"; "reject_node"; "exception_node"; "complete_node"]);
     ("approve_node", Edge "complete_node"); ("reject_node", Edge "complete_node");
     ("complete_node", Edge END)].

End Nodes.

(** ** Running a graph *)

(** The channels of a state: [messages] is reduced by [operator.add], the others
    keep the last value. *)
Definition merge_channel (st : dict) (kv : string * json) : dict :=
  if String.eqb kv.1 "messages" then
    dict_set "messages"
      (JArr ((match dict_get "messages" st with Some (JArr l) => l | _ => [] end)
             ++ (match kv.2 with JArr l => l | _ => [] end))) st
  else dict_set kv.1 kv.2 st.

Definition merge_state (st u : dict) : dict := fold_left merge_channel u st.

Definition next_node (g : state_graph) (name : string) (st : dict) : option string :=
  match dict_get name (g_edges g) with
  | Some (Edge t) => Some t
  | Some (Conditional r targets) => let t := r st in if in_strs t targets then Some t else None
  | None => None
  end.

(** How a run of the graph ends: completed, paused in a node with the payload of its
    interrupt, or stopped by an exception in a node. *)
Inductive run_result :=
  | Completed (st : dict)
  | Paused (st : dict) (name : string) (payload : json)
  | Stopped (st : dict) (name : string) (e : exn).

(** One node after the other, from [name], at most [steps] of them ([None]: more are
    needed); the resume value is for the first one. *)
Fixpoint run_graph (g : state_graph) (steps : nat) (name : string) (resume : option json)
    (st : dict) (w : world) : option run_result * world :=
  match steps with
  | O => (None, w)
  | S steps' =>
      match dict_get name (g_nodes g) with
      | None => (None, w)
      | Some f =>
          match f resume st w with
          | (Raise e, w') => (Some (Stopped st name e), w')
          | (Ok (Interrupted p), w') => (Some (Paused st name p), w')
          | (Ok (Update u), w') =>
              let st' := merge_state st u in
              match next_node g name st' with
              | None => (None, w')
              | Some t => if String.eqb t END then (Some (Completed st'), w')
                          else run_graph g steps' t None st' w'
              end
          end
      end
  end.

(** A state snapshot: the values and the nodes to run next. *)
Record snapshot := mk_snapshot { values : dict; next : list string }.

Inductive graph_input := Start (input : dict) | Resume (decision : string) | Continue.

(** Where a call enters the graph: a new input at the entry point, on top of the
    values of the thread; a resume value in the paused node; no input ([ainvoke(None)])
    in the node that is next, without a resume value. *)
Definition graph_call (g : state_graph) (input : graph_input) (s : snapshot)
  : option (string * option json * dict) :=
  match input with
  | Start i => Some (g_entry g, None, merge_state (values s) i)
  | Resume d => match next s with
                | [n] => Some (n, Some (JStr d), values s)
                | _ => None
                end
  | Continue => match next s with
                | [n] => Some (n, None, values s)
                | _ => None
                end
  end.

(** What a call returns, and what the thread's checkpoint is afterwards. *)
Definition interrupt_key : string := "__interrupt__".

Definition call_result (r : run_result) : res dict :=
  match r with
  | Completed st => Ok st
  | Paused st _ p => Ok (dict_set interrupt_key (JArr [p]) st)
  | Stopped _ _ e => Raise e
  end.

Definition call_snapshot (r : run_result) : snapshot :=
  match r with
  | Completed st => mk_snapshot st []
  | Paused st n _ | Stopped st n _ => mk_snapshot st [n]
  end.

(** LangGraph's default recursion limit. *)
Definition recursion_limit : nat := 25.

(** [WorkflowGraph.ainvoke] and [aget_state]: the compiled graph with its checkpoint
    store, and what its documentation promises of them: a call runs the graph and
    leaves its final checkpoint; a call writes to no other thread; and the graph
    changes the world only through its nodes, also when it stops early. *)
Class GraphEngine := {
  threads : Type;
  aget_state : string → threads → snapshot;
  ainvoke : state_graph → string → graph_input → threads → world
            → res dict * threads * world;
  ainvoke_documented g rid input t w name resume st r w' :
    graph_call g input (aget_state rid t) = Some (name, resume, st) →
    run_graph g recursion_limit name resume st w = (Some r, w') →
    ∃ t', ainvoke g rid input t w = (call_result r, t', w')
          ∧ aget_state rid t' = call_snapshot r;
  ainvoke_own_thread g rid input t w rid' :
    rid' ≠ rid → aget_state rid' (ainvoke g rid input t w).1.2 = aget_state rid' t;
  ainvoke_only_nodes (P : world → Prop) g rid input t w :
    Forall (λ nf, ∀ resume st w, P w → P (nf.2 resume st w).2) (g_nodes g) →
    P w → P (ainvoke g rid input t w).2
}.

(** An engine that does exactly that; a call that cannot be made, or needs more
    steps than the limit, raises. *)
Definition reference_call (g : state_graph) (rid : string) (input : graph_input)
    (t : list (string * snapshot)) (w : world) : res dict * list (string * snapshot) * world :=
  let s := default (mk_snapshot [] []) (dict_get rid t) in
  match graph_call g input s with
  | None => (Raise (Exn (OtherError "EmptyInputError") rid), t, w)
  | Some (name, resume, st) =>
      match run_graph g recursion_limit name resume st w with
      | (Some r, w') => (call_result r, dict_set rid (call_snapshot r) t, w')
      | (None, w') => (Raise (Exn (OtherError "GraphRecursionError") rid), t, w')
      end
  end.

Lemma dict_get_elem {V} (k : string) (d : list (string * V)) (v : V) :
  dict_get k d = Some v → (k, v) ∈ d.
Proof.
  induction d as [|[k' v'] d IH]; [done|]. cbn. destruct (String.eqb_spec k k') as [->|].
  - intros [= ->]. apply list_elem_of_here.
  - intros H. by apply list_elem_of_further, IH.
Qed.

(** A run changes the world through its nodes only. *)
Lemma run_graph_only_nodes (P : world → Prop) g n :
  Forall (λ nf, ∀ resume st w, P w → P (nf.2 resume st w).2) (g_nodes g) →
  ∀ name resume st w, P w → P (run_graph g n name resume st w).2.
Proof.
  intros HP. induction n as [|n IH]; [done|]. intros name resume st w Hw. cbn [run_graph].
  destruct (dict_get name (g_nodes g)) as [f|] eqn:Ef; [|done].
  pose proof (proj1 (Forall_forall _ _) HP _ (dict_get_elem _ _ _ Ef) resume st w Hw) as H.
  cbn [snd] in H. destruct (f resume st w) as [[[u|p]|e] w1]; cbn [snd] in H; [|done..].
  destruct (next_node g name (merge_state st u)) as [t|]; [|done].
  destruct (String.eqb t END); [done|]. by apply IH.
Qed.

#[export] #[refine] Instance reference_engine : GraphEngine := {
  threads := list (string * snapshot);
  aget_state rid t := default (mk_snapshot [] []) (dict_get rid t);
  ainvoke := reference_call
}.
Proof.
  - intros g rid input t w name resume st r w' Hc Hr. unfold reference_call. rewrite Hc, Hr.
    eexists. split; [done|]. by rewrite dict_get_set, String.eqb_refl.
  - intros g rid input t w rid' Hne. unfold reference_call.
    destruct (graph_call _ _ _) as [[[name resume] st]|]; [|done].
    destruct (run_graph _ _ _ _ _ _) as [[r|] w']; [|done]. cbn.
    by rewrite dict_get_set, (proj2 (String.eqb_neq _ _) Hne).
  - intros P g rid input t w HP Hw. unfold reference_call.
    destruct (graph_call _ _ _) as [[[name resume] st]|]; [|done].
    pose proof (run_graph_only_nodes P g recursion_limit HP name resume st w Hw) as H.
    by destruct (run_graph _ _ _ _ _ _) as [[r|] w'].
Defined.

(** ** Lemmas: reading a merged state *)

Lemma get_channel k st kv :
  k ≠ "messages" →
  dict_get k (merge_channel st kv) = if String.eqb k kv.1 then Some kv.2 else dict_get k st.
Proof.
  intros Hk. unfold merge_channel. destruct (String.eqb_spec kv.1 "messages") as [E|_].
  - by rewrite dict_get_set, E, (proj2 (String.eqb_neq _ _) Hk).
  - apply dict_get_set.
Qed.

(** The value of a literal key after a literal update. *)
Ltac state_get :=
  unfold merge_state; cbn [fold_left]; rewrite ?get_channel by discriminate; cbn [fst snd];
  repeat match goal with
  | |- context [String.eqb ?a ?b] =>
      let v := eval vm_compute in (String.eqb a b) in
      match v with true => idtac | false => idtac end;
      change (String.eqb a b) with v
  end; cbv iota.

Section Facts.
Context (model_fields : schema → json → option coerced)
        (triage_fields : json → option (string * string * float))
        (replies : claude_replies) (sla_hours : Z).

Abbreviation graph := (build_state_graph model_fields triage_fields replies sla_hours).

(** What each node returns, when it returns. *)
Lemma extract_node_ok st w r w' :
  extract_node model_fields replies st w = (Ok r, w') →
  ∃ ex, extraction_ok ex
    ∧ r = Update [("extraction", JObj ex); ("status", JStr "extracted");
                  ("processing_status", JStr "running");
                  message "Extracted document with Claude vision.";
                  ("iteration_count", next_iteration st)].
Proof.
  unfold extract_node. intros H.
  apply bind_ok_inv in H as (b & w1 & _ & H). apply bind_ok_inv in H as (n & w2 & _ & H).
  apply bind_ok_inv in H as (i & w3 & _ & H). apply bind_ok_inv in H as (ex & w4 & Hex & H).
  apply bind_ok_inv in H as (rid & w5 & _ & H). apply bind_ok_inv in H as (u & w6 & _ & H).
  injection H as <- <-. exists ex. split; [|done].
  rewrite run_session_unfold in Hex. injection Hex as Hex _. revert Hex.
  unfold extract_document. rewrite bind_unfold. unfold of_res.
  destruct (read_document _ _ _ _) as [ex'|e] eqn:Er; [|done].
  apply read_document_ok in Er. rewrite bind_unfold.
  destruct (get_document i (session_of w3)) as [[o|] s1]; [|done]. rewrite bind_unfold.
  destruct ((match o with Some doc => mret doc | None => _ end : M session Document) s1)
    as [[d|] s2]; [|done].
  rewrite bind_unfold, save_document_runs, bind_unfold. cbn. by intros [= <-].
Qed.

Lemma match_node_ok st w r w' :
  match_node sla_hours st w = (Ok r, w') →
  ∃ i mr, state_document_id st = Ok i
    ∧ run_session (match_session sla_hours st i) w = (Ok mr, w')
    ∧ r = Update (match_update st mr).
Proof.
  unfold match_node. intros H. apply bind_ok_inv in H as (i & w1 & Hi & H).
  apply bind_ok_inv in H as (mr & w2 & Hm & H). injection H as <- <-.
  unfold of_res in Hi. injection Hi as Hi <-. by exists i, mr.
Qed.

Lemma supervisor_node_ok st w r w' :
  supervisor_node triage_fields replies st w = (Ok r, w') →
  ∃ d, r = Update [("triage_route", JStr (route d)); ("triage_reasoning", JStr (reasoning d));
                   ("triage_confidence", JFloat (confidence d));
                   message ("Triage supervisor routed exception as " +:+ route d +:+ ".");
                   ("iteration_count", next_iteration st)].
Proof.
  unfold supervisor_node. intros H. apply bind_ok_inv in H as (d & w1 & _ & H).
  apply bind_ok_inv in H as (rid & w2 & _ & H). apply bind_ok_inv in H as (u & w3 & _ & H).
  injection H as <- <-. by exists d.
Qed.

Lemma exception_node_ok resume st w r w' :
  exception_node resume st w = (Ok r, w') →
  r = match resume with
      | None => Interrupted (interrupt_payload_of st)
      | Some d => Update [("human_decision", d); ("status", JStr "awaiting_review");
                          ("processing_status", JStr "awaiting_review");
                          ("review_disposition", d); message "Paused for human review.";
                          ("iteration_count", next_iteration st)]
      end.
Proof.
  unfold exception_node. intros H. apply bind_ok_inv in H as (rid & w1 & _ & H).
  apply bind_ok_inv in H as (u & w2 & _ & H). destruct resume; by injection H as <- <-.
Qed.

Definition complete_update (st : dict) : dict :=
  if unresolved_exception st then
    [("status", JStr "failed"); ("processing_status", JStr "failed");
     ("posting_status", JStr "not_ready");
     message "Workflow failed because an exception was not resolved.";
     ("iteration_count", next_iteration st)]
  else
    [("status", JStr (default "complete" (final_decision st)));
     ("processing_status", JStr "complete"); ("posting_status", JStr (complete_posting st));
     message "Workflow completed."; ("iteration_count", next_iteration st)].

Lemma complete_node_ok st w r w' :
  complete_node st w = (Ok r, w') → r = Update (complete_update st).
Proof.
  unfold complete_node, complete_update. destruct (unresolved_exception st).
  - intros H. apply bind_ok_inv in H as (rid & w1 & _ & H).
    apply bind_ok_inv in H as (u & w2 & _ & H). by injection H as <- <-.
  - destruct (final_decision st); [by intros [= <- <-]|].
    intros H. apply bind_ok_inv in H as (rid & w1 & _ & H).
    apply bind_ok_inv in H as (u & w2 & _ & H). by injection H as <- <-.
Qed.

(** ** The runs of the graph, node by node *)

Definition after {A} (r : res node_result * world) (name : string) (st : dict)
    (k : dict → world → A) (finish : run_result → world → A) : A :=
  match r with
  | (Raise e, w') => finish (Stopped st name e) w'
  | (Ok (Interrupted p), w') => finish (Paused st name p) w'
  | (Ok (Update u), w') => k (merge_state st u) w'
  end.

Definition finished (r : run_result) (w : world) : option run_result * world := (Some r, w).

Lemma run_complete n resume st w :
  run_graph graph (S n) "complete_node" resume st w
  = after (complete_node st w) "complete_node" st (λ st' w', (Some (Completed st'), w')) finished.
Proof. cbn. by destruct (complete_node st w) as [[[]|] ?]. Qed.

Lemma run_approve n resume st w :
  run_graph graph (S n) "approve_node" resume st w
  = run_graph graph n "complete_node" None
      (merge_state st (decided_update st "approved" "Human reviewer approved the exception.")) w.
Proof. reflexivity. Qed.

Lemma run_reject n resume st w :
  run_graph graph (S n) "reject_node" resume st w
  = run_graph graph n "complete_node" None
      (merge_state st (decided_update st "rejected" "Human reviewer rejected the exception.")) w.
Proof. reflexivity. Qed.

Lemma route_after_exception_known st :
  In (route_after_exception st) ["approve_node"; "reject_node"; "exception_node"; "complete_node"].
Proof.
  unfold route_after_exception, final_decision.
  destruct (5 <? iteration_count st)%Z; [cbn; auto|].
  destruct (as_str _) as [d|]; [|cbn; auto]. unfold in_strs. cbn.
  destruct (String.eqb_spec d "approved") as [->|]; cbn; [auto|].
  destruct (String.eqb_spec d "rejected") as [->|]; cbn; auto.
Qed.

Lemma run_exception n resume st w :
  run_graph graph (S n) "exception_node" resume st w
  = after (exception_node resume st w) "exception_node" st
      (λ st' w', run_graph graph n (route_after_exception st') None st' w') finished.
Proof.
  cbn. destruct (exception_node resume st w) as [[[u|]|] w']; try done. cbn.
  destruct (route_after_exception_known (merge_state st u)) as [<-|[<-|[<-|[<-|[]]]]]; done.
Qed.

Lemma run_supervisor n resume st w :
  run_graph graph (S n) "supervisor_node" resume st w
  = after (supervisor_node triage_fields replies st w) "supervisor_node" st
      (λ st' w', run_graph graph n "exception_node" None st' w') finished.
Proof. cbn. by destruct (supervisor_node _ _ st w) as [[[]|] ?]. Qed.

Lemma run_match n resume st w :
  run_graph graph (S n) "match_node" resume st w
  = after (match_node sla_hours st w) "match_node" st
      (λ st' w', run_graph graph n (route_after_match st') None st' w') finished.
Proof.
  cbn. destruct (match_node _ st w) as [[[u|]|] w']; try done. cbn. unfold route_after_match.
  destruct (5 <? _)%Z; [done|]. by destruct (opt_truthy _ _).
Qed.

Lemma run_extract n resume st w :
  run_graph graph (S n) "extract_node" resume st w
  = after (extract_node model_fields replies st w) "extract_node" st
      (λ st' w', run_graph graph n "match_node" None st' w') finished.
Proof. cbn. by destruct (extract_node _ _ st w) as [[[]|] ?]. Qed.

(** Every run ends. *)
Definition ends (x : option run_result * world) : Prop := ∃ r w, x = (Some r, w).

Lemma after_ends r name st k :
  (∀ st' w', ends (k st' w')) → ends (after r name st k finished).
Proof. intros Hk. destruct r as [[[u|p]|e] w']; cbn; [apply Hk|eexists _, _; done..]. Qed.

Lemma complete_ends n resume st w : ends (run_graph graph (S n) "complete_node" resume st w).
Proof. rewrite run_complete. apply after_ends. intros. eexists _, _. done. Qed.

Lemma decided_ends n resume st w name :
  name = "approve_node" ∨ name = "reject_node" →
  ends (run_graph graph (S (S n)) name resume st w).
Proof. intros [-> | ->]; [rewrite run_approve|rewrite run_reject]; apply complete_ends. Qed.

Lemma exception_pauses n st w : ends (run_graph graph (S n) "exception_node" None st w).
Proof.
  rewrite run_exception. destruct (exception_node None st w) as [[r|e] w'] eqn:E; cbn.
  - apply exception_node_ok in E as ->. eexists _, _. done.
  - eexists _, _. done.
Qed.

Lemma exception_ends n resume st w :
  ends (run_graph graph (S (S (S n))) "exception_node" resume st w).
Proof.
  rewrite run_exception. apply after_ends. intros st' w'.
  destruct (route_after_exception_known st') as [<-|[<-|[<-|[<-|[]]]]];
    [apply decided_ends; auto..|apply exception_pauses|apply complete_ends].
Qed.

Lemma supervisor_ends n resume st w :
  ends (run_graph graph (S (S n)) "supervisor_node" resume st w).
Proof. rewrite run_supervisor. apply after_ends. intros. apply exception_pauses. Qed.

Lemma match_ends n resume st w : ends (run_graph graph (S (S (S n))) "match_node" resume st w).
Proof.
  rewrite run_match. apply after_ends. intros st' w'. unfold route_after_match.
  destruct (5 <? _)%Z; [apply complete_ends|].
  destruct (opt_truthy _ _); [apply supervisor_ends|apply complete_ends].
Qed.

Lemma extract_ends n resume st w :
  ends (run_graph graph (S (S (S (S n)))) "extract_node" resume st w).
Proof. rewrite run_extract. apply after_ends. intros. apply match_ends. Qed.

End Facts.

Section Outcomes.
Context (model_fields : schema → json → option coerced)
        (triage_fields : json → option (string * string * float))
        (replies : claude_replies) (sla_hours : Z).

Abbreviation graph := (build_state_graph model_fields triage_fields replies sla_hours).

(** A run can complete only through [complete_node]. *)
Lemma completed_inv n : ∀ name resume st w st' w',
  run_graph graph n name resume st w = (Some (Completed st'), w') →
  ∃ st1, st' = merge_state st1 (complete_update st1).
Proof.
  induction n as [|n IH]; [done|]. intros name resume st w st' w'.
  cbn [run_graph].
  destruct (dict_get name (g_nodes graph)) as [f|] eqn:Ef; [|done].
  destruct (f resume st w) as [[[u|p]|e] w1] eqn:E; [|done|done].
  destruct (next_node graph name (merge_state st u)) as [t|] eqn:En; [|done].
  destruct (String.eqb_spec t END) as [->|Hne]; [|apply IH].
  intros [= <- <-]. exists st. f_equal. revert Ef En. cbn [dict_get g_nodes build_state_graph].
  unfold next_node. cbn [g_edges build_state_graph dict_get].
  destruct (String.eqb_spec name "extract_node") as [->|]; [done|].
  destruct (String.eqb_spec name "match_node") as [->|].
  { cbv zeta. unfold route_after_match. intros _.
    destruct (5 <? _)%Z; [done|]. by destruct (opt_truthy _ _). }
  destruct (String.eqb_spec name "supervisor_node") as [->|]; [done|].
  destruct (String.eqb_spec name "exception_node") as [->|].
  { cbv zeta. intros _.
    by destruct (route_after_exception_known (merge_state st u)) as [<-|[<-|[<-|[<-|[]]]]]. }
  destruct (String.eqb_spec name "approve_node") as [->|]; [done|].
  destruct (String.eqb_spec name "reject_node") as [->|]; [done|].
  destruct (String.eqb_spec name "complete_node") as [->|]; [|done].
  intros [= <-] _. apply complete_node_ok in E. by injection E.
Qed.

(** The completion does not touch what it decides from. *)
Lemma complete_keeps st k :
  in_strs k ["human_decision"; "exception_reason"; "match_result"; "extraction"; "run_id"] = true →
  dict_get k (merge_state st (complete_update st)) = dict_get k st.
Proof.
  intros Hk%in_strs_In. unfold complete_update.
  destruct (unresolved_exception st);
    repeat (apply elem_of_cons in Hk as [->|Hk]; [by state_get|]); by apply not_elem_of_nil in Hk.
Qed.

Lemma complete_final_decision st :
  final_decision (merge_state st (complete_update st)) = final_decision st.
Proof. unfold final_decision. by rewrite complete_keeps. Qed.

Lemma complete_unresolved st :
  unresolved_exception (merge_state st (complete_update st)) = unresolved_exception st.
Proof. unfold unresolved_exception. by rewrite complete_final_decision, complete_keeps. Qed.

Lemma complete_posting_kept st :
  complete_posting (merge_state st (complete_update st)) = complete_posting st.
Proof.
  unfold complete_posting, sget, sdict. by rewrite complete_final_decision, !complete_keeps.
Qed.

Lemma complete_processing st :
  dict_get "processing_status" (merge_state st (complete_update st))
  = Some (JStr (if unresolved_exception st then "failed" else "complete")).
Proof. unfold complete_update. by destruct (unresolved_exception st); state_get. Qed.

Lemma complete_posting_value st :
  dict_get "posting_status" (merge_state st (complete_update st))
  = Some (JStr (if unresolved_exception st then "not_ready" else complete_posting st)).
Proof. unfold complete_update. by destruct (unresolved_exception st); state_get. Qed.

Lemma complete_status st :
  dict_get "status" (merge_state st (complete_update st))
  = Some (JStr (if unresolved_exception st then "failed"
                else default "complete" (final_decision st))).
Proof. unfold complete_update. by destruct (unresolved_exception st); state_get. Qed.

(** The audit of an exception, when the run is in its table. *)
Lemma log_owned_runs rid event payload who w :
  has_run rid (w_db w) = true →
  ∃ f w', log_audit_event_owned rid event payload who w = (Ok tt, w')
    ∧ w_db w' = on_audit_logs f (w_db w).
Proof.
  intros Hrun. unfold log_audit_event_owned. rewrite run_session_unfold, bind_unfold.
  unfold log_audit_event. rewrite bind_unfold. cbn [select gets].
  destruct (existsb _ (audit_logs (working (session_of w)))).
  - cbn. exists (λ t, t). eexists. split; [done|]. cbn. by destruct (w_db w).
  - unfold next_audit_id, db_clock, with_env, insist. session_unfold. rewrite Hrun. cbn.
    eexists _, _. split; [done|]. cbn. reflexivity.
Qed.

Lemma log_exception_runs rid st w :
  has_run rid (w_db w) = true →
  ∃ f w', log_exception_raised_once rid st w = (Ok tt, w') ∧ w_db w' = on_audit_logs f (w_db w).
Proof.
  intros Hrun. unfold log_exception_raised_once. rewrite bind_unfold, run_session_unfold.
  cbn [select gets fst snd].
  assert (Hw : world_of (session_of w) = w) by (by destruct w).
  destruct (existsb _ _).
  - rewrite Hw. exists (λ t, t), w. split; [done|]. by destruct (w_db w).
  - rewrite Hw. by apply log_owned_runs.
Qed.

(** Resuming with one of the two decisions. *)
Definition resumed (st : dict) (d : string) : dict :=
  merge_state st [("human_decision", JStr d); ("status", JStr "awaiting_review");
                  ("processing_status", JStr "awaiting_review");
                  ("review_disposition", JStr d); message "Paused for human review.";
                  ("iteration_count", next_iteration st)].

Lemma decided_complete d text n st w :
  in_strs d ["approved"; "rejected"] = true → final_decision st = Some d →
  run_graph graph (S n) "complete_node" None (merge_state st (decided_update st d text)) w
  = (Some (Completed (merge_state (merge_state st (decided_update st d text))
             (complete_update (merge_state st (decided_update st d text))))), w)
  ∧ final_decision (merge_state st (decided_update st d text)) = Some d.
Proof.
  intros Hd Hf.
  assert (Hf' : final_decision (merge_state st (decided_update st d text)) = Some d).
  { rewrite <- Hf. unfold final_decision, decided_update. by state_get. }
  split; [|done]. rewrite run_complete. unfold complete_node.
  assert (unresolved_exception (merge_state st (decided_update st d text)) = false) as Hu.
  { unfold unresolved_exception. rewrite Hf'. by rewrite Bool.andb_false_r. }
  unfold complete_update. rewrite Hu, Hf'. reflexivity.
Qed.

Lemma resume_run d rid st w w1 :
  in_strs d ["approved"; "rejected"] = true → state_str "run_id" st = Ok rid →
  log_exception_raised_once rid st w = (Ok tt, w1) →
  ∃ st1, run_graph graph recursion_limit "exception_node" (Some (JStr d)) st w
    = (Some (Completed (merge_state st1 (complete_update st1))), w1)
    ∧ final_decision st1 = Some d.
Proof.
  intros Hd Hrid El. unfold recursion_limit. rewrite run_exception.
  assert (exception_node (Some (JStr d)) st w = (Ok (Update [("human_decision", JStr d);
    ("status", JStr "awaiting_review"); ("processing_status", JStr "awaiting_review");
    ("review_disposition", JStr d); message "Paused for human review.";
    ("iteration_count", next_iteration st)]), w1)) as ->.
  { unfold exception_node. rewrite bind_unfold, Hrid. cbn [of_res]. by rewrite bind_unfold, El. }
  cbn [after]. fold (resumed st d).
  assert (Hf : final_decision (resumed st d) = Some d).
  { unfold final_decision, resumed. state_get. cbn [as_str]. by rewrite Hd. }
  unfold route_after_exception. destruct (5 <? iteration_count (resumed st d))%Z.
  - exists (resumed st d). split; [|done]. rewrite run_complete. unfold complete_node.
    assert (unresolved_exception (resumed st d) = false) as Hu.
    { unfold unresolved_exception. rewrite Hf. by rewrite Bool.andb_false_r. }
    unfold complete_update. rewrite Hu, Hf. reflexivity.
  - rewrite Hf. unfold in_strs in Hd. cbn in Hd. rewrite Bool.orb_false_r in Hd.
    apply Bool.orb_prop in Hd as [->%String.eqb_eq| ->%String.eqb_eq].
    + rewrite run_approve.
      destruct (decided_complete "approved" "Human reviewer approved the exception." 22
                  (resumed st "approved") w1 eq_refl Hf) as [-> Hf']. by eexists.
    + rewrite run_reject.
      destruct (decided_complete "rejected" "Human reviewer rejected the exception." 22
                  (resumed st "rejected") w1 eq_refl Hf) as [-> Hf']. by eexists.
Qed.
End Outcomes.

(** ** Lemmas: the tables along a run *)

(** The invariant of the reconciliation depends on these tables only. *)
Record recon_same (s s' : session) : Prop := {
  rs_documents : documents (working s') = documents (working s);
  rs_shipments : shipments (working s') = shipments (working s);
  rs_rate_confirmations : rate_confirmations (working s') = rate_confirmations (working s);
  rs_results : reconciliation_results (working s') = reconciliation_results (working s);
  rs_exceptions : shipment_exceptions (working s') = shipment_exceptions (working s);
  rs_events : exception_events (working s') = exception_events (working s);
  rs_decisions : review_decisions (working s') = review_decisions (working s);
  rs_rng : rng (senv s') = rng (senv s) ∧ rng_pos (senv s') = rng_pos (senv s);
  rs_doc_seq : doc_seq (senv s') = doc_seq (senv s)
}.

Lemma recon_wf_same s s' : recon_same s s' → recon_wf s → recon_wf s'.
Proof.
  intros [E1 E2 E3 E4 E5 E6 E7 [E8 E9] E10] [[W1 W2 W3 W4 W5 W6 W7 W8] We Wi Wr Wk Wx].
  split; rewrite ?E4; try done.
  - split; rewrite ?E1, ?E2, ?E3, ?E10; try done.
    destruct W1 as [F1 F2]. split; rewrite E8, E9; [|done]. intros n Hn. unfold uuids_of.
    rewrite E7, E3, E2, E4, E5, E6. by apply F1.
  - apply (history_kept_wf (working s)); [done|]. split; [done|by rewrite E6].
Qed.

Lemma log_owned_same rid event payload who w r w' :
  log_audit_event_owned rid event payload who w = (r, w') →
  recon_same (session_of w) (session_of w') ∧ workflow_runs (w_db w') = workflow_runs (w_db w).
Proof.
  unfold log_audit_event_owned. rewrite run_session_unfold, bind_unfold.
  unfold log_audit_event. rewrite bind_unfold. cbn [select gets].
  destruct (existsb _ (audit_logs (working (session_of w)))).
  - cbn. intros [= <- <-]. by repeat split.
  - unfold next_audit_id, db_clock, with_env, insist. session_unfold.
    destruct (has_run rid (w_db w)); cbn; intros [= <- <-]; by repeat split.
Qed.

(** pydantic dumps only declared fields, and no schema declares
    [rate_confirmation_id]. *)
Definition fields_declared (model_fields : schema → json → option coerced) : Prop :=
  ∀ sc j c, model_fields sc j = Some c → dict_get "rate_confirmation_id" (c_rest c) = None.

Lemma read_document_fields mf replies bytes name ex :
  fields_declared mf → read_document mf replies bytes name = Ok ex →
  dict_get "rate_confirmation_id" ex = None.
Proof.
  intros Hf. unfold read_document, bind_res. destruct (build_document_block bytes name); [|done].
  destruct (r_api_key replies); [|done]. cbn. destruct (r_classification replies); [|done].
  destruct (validate_document_type _); [|done]. destruct (r_extraction replies _); [|done].
  unfold validate_claude_json, model_validate. destruct (json_loads _) as [payload|]; [|done].
  destruct (mf _ payload) as [c|] eqn:Ec; [|done]. cbn.
  destruct (validate_fields _ c) as [d|] eqn:E; [|done]. intros [= <-]. revert E.
  unfold validate_fields. destruct (normalize_load_number_value _); [|done]. cbn.
  intros H. apply bind_Some in H as (total & _ & H). apply bind_Some in H as (u & _ & H).
  destruct (in_strs _ _); [|done]. cbn in H. injection H as <-.
  destruct total; rewrite !dict_get_set; cbn; by eapply Hf.
Qed.

Lemma count_update_le {A} (p q : A → bool) (x : A) (l : list A) :
  p x = false → length (where_ p (update_where q (λ _, x) l)) <= length (where_ p l).
Proof.
  intros Hp. change (count_by p (update_where q (λ _, x) l) <= count_by p l).
  unfold update_where. induction l as [|y l IH]; [done|].
  rewrite fmap_cons, !count_by_cons. destruct (q y); [rewrite Hp|]; lia.
Qed.

(** Writing back an extracted document. *)
Lemma save_extracted_wf s old doc :
  recon_wf s → old ∈ documents (working s) → doc_id doc = doc_id old →
  (∀ rc, is_companion rc doc = false) →
  recon_wf (on_working (on_documents
    (update_where (λ d, Z.eqb (doc_id d) (doc_id doc)) (λ _, doc))) s).
Proof.
  intros [[W1 W2 W3 W4 W5 W6 W7 W8] We Wi Wr Wk Wx] Hold Hid Hc.
  split; try done; [|by destruct We].
  split; try done; cbn.
  - rewrite update_where_map; [done|]. intros y Hy E%Z.eqb_eq. congruence.
  - intros y (x & Hx & ->)%elem_of_update_where.
    destruct (Z.eqb _ _); [rewrite Hid|]; by apply W3.
  - intros rc. etransitivity; [by apply count_update_le|apply W8].
Qed.

Lemma extracted_not_companion name ex doc rc :
  dict_get "rate_confirmation_id" ex = None → is_companion rc (extracted name ex doc) = false.
Proof.
  intros H. unfold is_companion. apply Bool.andb_false_iff. right.
  unfold jsonb_text_is. change (extracted_data (extracted name ex doc)) with (Some (JObj ex)).
  cbn [jget]. by rewrite H.
Qed.

Lemma extract_document_wf mf replies bytes name i s ex s' :
  fields_declared mf → recon_wf s → i ∈ doc_id <$> documents (working s) →
  extract_document mf replies bytes name (Some i) s = (Ok ex, s') →
  recon_wf s' ∧ committed s' = working s'
  ∧ doc_id <$> documents (working s') = doc_id <$> documents (working s)
  ∧ workflow_runs (working s') = workflow_runs (working s).
Proof.
  intros Hf W Hi. unfold extract_document. rewrite bind_unfold. unfold of_res.
  destruct (read_document mf replies bytes name) as [ex'|e] eqn:Er; [|done].
  apply read_document_fields in Er; [|done].
  rewrite bind_unfold. unfold get_document, select, gets.
  destruct (find_document (working s) i) as (doc & -> & Hdoc & Hid); [apply W|done|].
  rewrite bind_unfold. cbn [mret M_ret]. rewrite bind_unfold, save_document_runs, bind_unfold.
  cbn [commit modify mret M_ret committed working senv]. intros [= -> <-].
  pose proof (save_extracted_wf s doc (extracted name ex doc) W Hdoc eq_refl
    (λ rc, extracted_not_companion name ex doc rc Er)) as W'.
  set (s1 := on_working _ s) in *. split; [|split; [done|split; [|done]]].
  - apply (recon_wf_same s1); [by repeat split|exact W'].
  - cbn. apply update_where_map. intros y Hy E%Z.eqb_eq.
    symmetry. exact E.
Qed.

(** The upsert keeps the invariant of the reconciliation. *)
Lemma upsert_recon_wf s s' :
  recon_wf s → assembly_wf s' → same_elsewhere (working s) (working s') → recon_wf s'.
Proof.
  intros [_ We Wi Wr Wk Wx] W' E.
  split; [done| |rewrite E; done..].
  apply (history_kept_wf (working s)); [done|]. rewrite E. by split.
Qed.

Lemma policy_complete sh now sla :
  p_missing_docs (evaluate_missing_document_policy sh now sla) = [] →
  has_invoice sh && has_rate_con sh && has_bol sh && has_pod sh = true.
Proof.
  destruct sh as [sid ln cn [] [] [] [] ii ri bi pi rs ca];
    unfold evaluate_missing_document_policy; cbn -[Z.leb]; done.
Qed.

(** What a fully passed reconciliation leaves in the tables. *)
Definition released_by (rid : string) (d : database) : Prop :=
  ∃ r sh, r ∈ reconciliation_results d ∧ result_run_id r = Some rid
    ∧ Forall (λ c, is_outcome "passed" c = true) (checks r) ∧ missing_docs r = []
    ∧ exception_reasons r = []
    ∧ sh ∈ shipments d ∧ shipment_id sh = result_shipment_id r
    ∧ reconciliation_status sh = "reconciled"
    ∧ has_invoice sh && has_rate_con sh && has_bol sh && has_pod sh = true.

Lemma reconciled_all_passed sh e now sla v :
  let policy := evaluate_missing_document_policy sh now sla in
  evaluate_checks sh e policy = Ok v →
  verdict_status v (p_missing_docs policy) = "reconciled" →
  Forall (λ c, is_outcome "passed" c = true) (v_checks v) ∧ p_missing_docs policy = []
  ∧ v_reasons v = [].
Proof.
  intros policy Ev. pose proof (evaluate_checks_coherent _ _ _ _ _ Ev) as Hco.
  unfold verdict_status.
  destruct (decide (v_reasons v = [])) as [Hr|Hr];
    [rewrite (bool_decide_eq_true_2 _ Hr)|by rewrite (bool_decide_eq_false_2 _ Hr)].
  destruct (decide (p_missing_docs policy = [])) as [Hm|Hm];
    [rewrite (bool_decide_eq_true_2 _ Hm)|by rewrite (bool_decide_eq_false_2 _ Hm)].
  cbn. destruct (existsb (is_outcome "not_evaluated") (v_checks v)) eqn:En; [done|].
  intros _. split; [|done]. apply (coherent_passed CHECK_NAMES); [done| |done].
  by apply (coherent_failed _ _ Hco).
Qed.

Lemma match_session_effect sla st i rid s mr s' :
  recon_wf s → i ∈ doc_id <$> documents (working s) →
  dict_get "run_id" st = Some (JStr rid) → has_run rid (working s) = true →
  extraction_ok (sdict "extraction" st) →
  match_session sla st i s = (Ok mr, s') →
  as_str (dict_get "reconciliation_status" (mr_dict mr)) = Some "reconciled" →
  committed s' = working s' ∧ released_by rid (committed s').
Proof.
  intros W Hi Hrid Hrun Hex. unfold match_session. rewrite bind_unfold.
  unfold get_document. cbn [select gets].
  destruct (find_document (working s) i) as (doc & E & Hdoc & Hid); [apply W|done|].
  unfold select, gets. rewrite E. destruct Hex as [(load & El & Hl) (c & Ec & _) _].
  assert (Has : as_str (dict_get "load_number" (sdict "extraction" st)) = load)
    by (rewrite El; by destruct load).
  rewrite Has. destruct load as [n|].
  2:{ unfold upsert_shipment. rewrite bind_unfold. cbn. by intros [= <- <-]. }
  destruct (upsert_effect (Some n) n doc (sdict "extraction" st) s Hl (rw_assembly _ W) Hdoc)
    as (sh & s1 & Eu & W1 & Hc1 & R & T1 & T2 & Hrc & Hk & He & _).
  { unfold carrier_ok. by rewrite Ec. }
  rewrite bind_unfold, Eu, bind_unfold. unfold db_clock, gets. rewrite bind_unfold.
  rewrite Hrid. cbn [as_str].
  pose proof (upsert_recon_wf s s1 W W1 He) as Wr.
  assert (Hsh : sh ∈ shipments (working s1)).
  { apply (elem_of_where (λ x, String.eqb (load_number x) n)). rewrite T1. set_solver. }
  assert (Hok : evaluation_ok (Some rid) None (working s1)).
  { split; [|done]. unfold has_run in *. by rewrite He. }
  destruct (reconcile_shipment sh (Some rid) (clock (senv s1)) (hours sla) None None s1)
    as [[r|e] s2] eqn:Er; [|done].
  destruct (reconcile_returns _ _ _ _ _ _ _ _ _ Wr Er) as [v Ev].
  pose proof (reconcile_effect sh (Some rid) (clock (senv s1)) (hours sla) None None s1 v Wr Hsh Hok)
    as Heff.
  destruct (gather sh (working s1)) as [sh1 e] eqn:Eg. cbn [fst snd] in Ev.
  destruct (Heff Ev) as (r' & s2' & Er' & W2 & Hc2 & Hres & Hr & Hs & _).
  rewrite Er in Er'. injection Er' as <- <-. cbn [select gets]. unfold gets.
  set (policy := evaluate_missing_document_policy sh1 (clock (senv s1)) (hours sla)) in *.
  set (sh2 := verdict_row v policy sh1) in *.
  assert (Hrow : shipment_id sh1 = shipment_id sh).
  { pose proof (gather_row sh (working s1)) as H. rewrite Eg in H. cbn in H.
    by destruct H as [-> | ->]. }
  assert (Hin2 : sh2 ∈ shipments (working s2)).
  { rewrite Hs. apply elem_of_update_where. exists sh. split; [done|]. by rewrite N.eqb_refl. }
  rewrite bind_unfold.
  assert (find_first (λ x, N.eqb (shipment_id x) (shipment_id sh)) (shipments (working s2))
          = Some sh2) as ->.
  { rewrite Hs, find_first_update_where.
    - destruct (find_first (λ x, N.eqb (shipment_id x) (shipment_id sh)) (shipments (working s1)))
        as [x|] eqn:Ef.
      + apply find_first_Some in Ef as [_ Ex]. cbn. by rewrite Ex.
      + rewrite find_first_None in Ef. specialize (Ef sh Hsh). simpl in Ef.
        by rewrite N.eqb_refl in Ef.
    - intros y _ Ey. change (shipment_id sh2) with (shipment_id sh1). by rewrite Hrow, N.eqb_refl, Ey. }
  cbn [default mret M_ret]. intros [= <- <-].
  intros Hst. injection Hst as Hst. split; [done|].
  destruct (reconciled_all_passed sh1 e _ _ v Ev Hst) as (Hp & Hm & Hv).
  exists r, sh2. rewrite Hc2. destruct Hres as [R1 R2 _ _ R5 R6 R7].
  rewrite R5, R6, R7. split; [done|]. split; [done|]. split; [done|]. split; [done|].
  split; [done|]. split; [done|]. split; [by rewrite R1|]. split; [done|].
  by apply (policy_complete sh1 (clock (senv s1)) (hours sla)).
Qed.

(** The shipments' verdict does not depend on audit events. *)
Lemma released_same rid s s' :
  recon_same s s' → released_by rid (working s) → released_by rid (working s').
Proof.
  intros [_ E2 _ E4 _ _ _ _ _] (r & sh & H). exists r, sh. by rewrite E2, E4.
Qed.

Section Release.
Context (model_fields : schema → json → option coerced)
        (triage_fields : json → option (string * string * float))
        (replies : claude_replies) (sla_hours : Z).

Abbreviation graph := (build_state_graph model_fields triage_fields replies sla_hours).

Lemma extract_node_effect st i rid w r w' :
  fields_declared model_fields → recon_wf (session_of w) →
  state_document_id st = Ok i → i ∈ doc_id <$> documents (w_db w) →
  state_str "run_id" st = Ok rid → has_run rid (w_db w) = true →
  extract_node model_fields replies st w = (Ok r, w') →
  recon_wf (session_of w') ∧ i ∈ doc_id <$> documents (w_db w') ∧ has_run rid (w_db w') = true.
Proof.
  intros Hf W Hi Hin Hrid Hrun. unfold extract_node. rewrite Hi, Hrid. intros H.
  apply bind_ok_inv in H as (b & w1 & Hb & H). unfold of_res in Hb. injection Hb as _ <-.
  apply bind_ok_inv in H as (n & w2 & Hn & H). unfold of_res in Hn. injection Hn as _ <-.
  rewrite bind_unfold in H. cbn [of_res] in H.
  apply bind_ok_inv in H as (ex & w3 & Hex & H).
  rewrite bind_unfold in H. cbn [of_res] in H.
  apply bind_ok_inv in H as (u & w4 & Hlog & H). injection H as <- <-.
  rewrite run_session_unfold in Hex.
  destruct (extract_document model_fields replies (to_chars b) n (Some i) (session_of w))
    as [[ex'|e] s'] eqn:E; [|done]. cbn [fst snd] in Hex. injection Hex as -> <-.
  destruct (extract_document_wf _ _ _ _ _ _ _ _ Hf W Hin E) as (W' & Hc & Hids & Hruns).
  destruct (log_owned_same _ _ _ _ _ _ _ Hlog) as [Hsame Hruns'].
  rewrite session_of_world_of in Hsame by done.
  split; [by eapply recon_wf_same|]. split.
  - pose proof (rs_documents _ _ Hsame) as Hd. cbn in Hd. by rewrite Hd, Hids.
  - unfold has_run. rewrite Hruns'. cbn. by rewrite Hc, Hruns.
Qed.

Lemma sdict_merge k st u d :
  dict_get k (merge_state st u) = Some (JObj d) → sdict k (merge_state st u) = d.
Proof. unfold sdict. by intros ->. Qed.

(** A new run that completes without a human decision and releases the document. *)
Lemma start_release st i rid w st' w' :
  fields_declared model_fields → recon_wf (session_of w) →
  state_document_id st = Ok i → i ∈ doc_id <$> documents (w_db w) →
  dict_get "run_id" st = Some (JStr rid) → has_run rid (w_db w) = true →
  sget "human_decision" st = None →
  run_graph graph recursion_limit "extract_node" None st w = (Some (Completed st'), w') →
  dict_get "posting_status" st' = Some (JStr "ready_for_posting") →
  released_by rid (w_db w').
Proof.
  intros Hf W Hi Hin Hrid Hrun Hhd. unfold recursion_limit. rewrite run_extract.
  destruct (extract_node model_fields replies st w) as [[r1|e1] w1] eqn:E1; [|done].
  assert (Hs : state_str "run_id" st = Ok rid) by (unfold state_str; by rewrite Hrid).
  destruct (extract_node_effect _ _ _ _ _ _ Hf W Hi Hin Hs Hrun E1) as (W1 & Hin1 & Hrun1).
  apply extract_node_ok in E1 as (ex & Hex & ->). cbn [after].
  set (u1 := [("extraction", JObj ex); ("status", JStr "extracted");
              ("processing_status", JStr "running");
              message "Extracted document with Claude vision.";
              ("iteration_count", next_iteration st)]).
  set (st1 := merge_state st u1).
  assert (Hget1 : ∀ k, in_strs k ["run_id"; "document_id"; "human_decision"] = true →
                       dict_get k st1 = dict_get k st).
  { intros k Hk%in_strs_In. unfold st1, u1, message.
    repeat (apply elem_of_cons in Hk as [->|Hk]; [by state_get|]). by apply not_elem_of_nil in Hk. }
  assert (Hex1 : sdict "extraction" st1 = ex).
  { apply sdict_merge. unfold u1, message. by state_get. }
  rewrite run_match. destruct (match_node sla_hours st1 w1) as [[r2|e2] w2] eqn:E2; [|done].
  apply match_node_ok in E2 as (i' & mr & Hi' & Em & ->).
  assert (i' = i) as ->.
  { unfold state_document_id, state_str in Hi, Hi'. rewrite Hget1 in Hi' by done. congruence. }
  cbn [after]. rewrite run_session_unfold in Em.
  destruct (match_session sla_hours st1 i (session_of w1)) as [[mr'|e] s2] eqn:Es; [|done].
  cbn [fst snd] in Em. injection Em as -> <-.
  pose proof (match_session_effect sla_hours st1 i rid (session_of w1) mr s2 W1 Hin1
    (eq_trans (Hget1 "run_id" eq_refl) Hrid) Hrun1
    ltac:(rewrite Hex1; exact Hex) Es) as Hm.
  set (st2 := merge_state st1 (match_update st1 mr)).
  assert (Hhd2 : sget "human_decision" st2 = None).
  { unfold sget in Hhd |- *. rewrite <- (Hget1 "human_decision") in Hhd by done.
    unfold st2, match_update, message. destruct (negb _); state_get; exact Hhd. }
  assert (Hmr : sdict "match_result" st2 = mr_dict mr).
  { apply sdict_merge. unfold match_update, message. destruct (negb _); by state_get. }
  assert (Hcomplete : ∀ n,
    run_graph graph (S n) "complete_node" None st2 (world_of s2) = (Some (Completed st'), w') →
    dict_get "posting_status" st' = Some (JStr "ready_for_posting") → released_by rid (w_db w')).
  { intros n Hrun2 Hpost. rewrite run_complete in Hrun2.
    destruct (complete_node st2 (world_of s2)) as [[r3|e3] w3] eqn:E3; [|done].
    pose proof (complete_node_ok _ _ _ _ E3) as ->. cbn [after] in Hrun2.
    injection Hrun2 as <- <-. rewrite complete_posting_value in Hpost.
    assert (Hfd : final_decision st2 = None).
    { unfold final_decision. unfold sget in Hhd2.
      destruct (dict_get "human_decision" st2) as [[]|]; done. }
    destruct (unresolved_exception st2) eqn:Hunr; [done|].
    unfold complete_posting in Hpost. rewrite Hfd, Hhd2, Hmr in Hpost. cbn [sql_eq orb andb] in Hpost.
    destruct (as_str (dict_get "reconciliation_status" (mr_dict mr))) as [status|] eqn:Est; [|done].
    cbn [sql_eq] in Hpost. destruct (String.eqb_spec status "reconciled") as [->|]; [|done].
    destruct (Hm eq_refl) as [Hc Hrel]. unfold complete_node in E3. rewrite Hunr, Hfd in E3.
    apply bind_ok_inv in E3 as (rid' & w4 & Hr' & E3). unfold of_res in Hr'. injection Hr' as _ <-.
    apply bind_ok_inv in E3 as (u & w5 & Hlog & E3). injection E3 as _ <-.
    destruct (log_owned_same _ _ _ _ _ _ _ Hlog) as [Hsame _].
    apply (released_same rid _ _ Hsame). exact Hrel. }
  unfold route_after_match.
  destruct (5 <? iteration_count st2)%Z; [apply Hcomplete|].
  destruct (opt_truthy jtruthy (dict_get "exception_reason" st2)); [|apply Hcomplete].
  rewrite run_supervisor.
  destruct (supervisor_node triage_fields replies st2 (world_of s2)) as [[r3|e3] w3] eqn:E3; [|done].
  apply supervisor_node_ok in E3 as (d & ->). cbn [after]. rewrite run_exception.
  destruct (exception_node None _ w3) as [[r4|e4] w4] eqn:E4; [|done].
  apply exception_node_ok in E4 as ->. done.
Qed.
End Release.
