(* ===== verification/WorkflowSafety.v ===== *)
(** * What a run of the invoice workflow guarantees

    Termination, the outcome of a completed run, the safety of a release without
    a human, and what a decision does to a paused run, for the graph of Workflow
    with any extraction service. *)

From S2P Require Import Prelude PyText LoadNumbers DateTime PyFloat Json Database MissingDocs.
From S2P Require Import Shipments Reconciliation SlaScanner Extraction Workflow.
From Stdlib Require Import Ascii.
Local Open Scope string_scope.
Local Open Scope list_scope.
Local Open Scope nat_scope.

(** The audit event of a raised exception is in the tables. *)
Definition exception_logged (rid : string) (d : database) : bool :=
  existsb (λ a, String.eqb (audit_run_id a) rid
                && String.eqb (event_type a) "exception_raised") (audit_logs d).

Lemma log_exception_present rid st w :
  exception_logged rid (w_db w) = true → log_exception_raised_once rid st w = (Ok tt, w).
Proof.
  intros H. unfold log_exception_raised_once. rewrite bind_unfold, run_session_unfold.
  cbn [select gets fst snd]. unfold gets. cbn [fst snd].
  unfold exception_logged in H. cbn [working session_of] in *. rewrite H. by destruct w.
Qed.

Lemma log_exception_leaves rid st w u w' :
  log_exception_raised_once rid st w = (Ok u, w') → exception_logged rid (w_db w') = true.
Proof.
  unfold log_exception_raised_once. rewrite bind_unfold, run_session_unfold.
  cbn [select gets fst snd]. unfold gets. cbn [fst snd]. cbn [working session_of].
  destruct (existsb _ (audit_logs (w_db w))) eqn:E.
  - intros [= _ <-]. exact E.
  - unfold log_audit_event_owned. rewrite run_session_unfold, bind_unfold.
    unfold log_audit_event. rewrite bind_unfold. cbn [select gets]. unfold gets.
    cbn [working session_of world_of w_db committed]. rewrite E.
    unfold next_audit_id, db_clock, with_env, insist. session_unfold. cbn.
    destruct (has_run rid (w_db w)); cbn; [|done]. intros [= _ <-].
    unfold exception_logged. cbn. rewrite existsb_app. cbn.
    by rewrite String.eqb_refl, Bool.orb_true_r.
Qed.

Section Paused.
Context (model_fields : schema → json → option coerced)
        (triage_fields : json → option (string * string * float))
        (replies : claude_replies) (sla_hours : Z).

Abbreviation graph := (build_state_graph model_fields triage_fields replies sla_hours).

(** A paused run stands in a node that has just made its interrupt. *)
Lemma paused_node g n : ∀ name resume st w st' m p w',
  run_graph g n name resume st w = (Some (Paused st' m p), w') →
  ∃ f r w0, dict_get m (g_nodes g) = Some f ∧ f r st' w0 = (Ok (Interrupted p), w').
Proof.
  induction n as [|n IH]; [done|]. intros name resume st w st' m p w'. cbn [run_graph].
  destruct (dict_get name (g_nodes g)) as [f|] eqn:Ef; [|done].
  destruct (f resume st w) as [[[u|q]|e] w1] eqn:E; [| |done].
  - destruct (next_node g name (merge_state st u)) as [t|]; [|done].
    destruct (String.eqb t END); [done|]. apply IH.
  - intros [= <- <- <- <-]. eauto.
Qed.

(** Only [exception_node] interrupts. *)
Lemma paused_inv n name resume st w st' m p w' :
  run_graph graph n name resume st w = (Some (Paused st' m p), w') →
  m = "exception_node" ∧ p = interrupt_payload_of st'
  ∧ ∃ rid, state_str "run_id" st' = Ok rid ∧ exception_logged rid (w_db w') = true.
Proof.
  intros (f & r & w0 & Hf & E)%paused_node. revert Hf. cbn [g_nodes build_state_graph dict_get].
  destruct (String.eqb_spec m "extract_node") as [->|].
  { intros [= <-]. by apply extract_node_ok in E as (? & ? & ?). }
  destruct (String.eqb_spec m "match_node") as [->|].
  { intros [= <-]. by apply match_node_ok in E as (? & ? & ? & ? & ?). }
  destruct (String.eqb_spec m "supervisor_node") as [->|].
  { intros [= <-]. by apply supervisor_node_ok in E as [? ?]. }
  destruct (String.eqb_spec m "exception_node") as [->|].
  { intros [= <-]. apply exception_node_ok in E as Hr. destruct r as [d|]; [done|].
    injection Hr as ->. split; [done|]. split; [done|].
    unfold exception_node in E. apply bind_ok_inv in E as (rid & w1 & Hrid & E).
    apply bind_ok_inv in E as (u & w2 & Hlog & E). injection E as <-.
    unfold of_res in Hrid. injection Hrid as Hrid _. exists rid. split; [done|].
    by eapply log_exception_leaves. }
  destruct (String.eqb_spec m "approve_node") as [->|]; [by intros [= <-]|].
  destruct (String.eqb_spec m "reject_node") as [->|]; [by intros [= <-]|].
  destruct (String.eqb_spec m "complete_node") as [->|]; [|done].
  intros [= <-]. by apply complete_node_ok in E.
Qed.

(** The outcome of a run that ends with a decision. *)
Definition decided_outcome (d : string) (st : dict) : Prop :=
  dict_get "human_decision" st = Some (JStr d)
  ∧ dict_get "status" st = Some (JStr d)
  ∧ dict_get "processing_status" st = Some (JStr "complete")
  ∧ dict_get "posting_status" st
    = Some (JStr (if String.eqb d "approved" then "ready_for_posting" else "blocked")).

Lemma final_decision_get st d :
  final_decision st = Some d →
  dict_get "human_decision" st = Some (JStr d) ∧ in_strs d ["approved"; "rejected"] = true.
Proof.
  unfold final_decision. destruct (dict_get "human_decision" st) as [[]|]; cbn [as_str]; try done.
  destruct (in_strs s ["approved"; "rejected"]) eqn:E; [|done]. intros [= <-]. split; [done|exact E].
Qed.

Lemma complete_decided d st :
  final_decision st = Some d → decided_outcome d (merge_state st (complete_update st)).
Proof.
  intros Hf. apply final_decision_get in Hf as H. destruct H as [Hg Hd].
  assert (Hu : unresolved_exception st = false).
  { unfold unresolved_exception. rewrite Hf. by rewrite Bool.andb_false_r. }
  unfold decided_outcome.
  rewrite complete_keeps, complete_status, complete_processing, complete_posting_value, Hu by done.
  rewrite Hf, Hg. repeat split. unfold complete_posting. rewrite Hf. do 2 f_equal.
  unfold sget. rewrite Hg. cbn [sql_eq]. unfold in_strs in Hd. cbn in Hd.
  destruct (String.eqb_spec d "approved") as [->|]; [done|].
  destruct (String.eqb_spec d "rejected") as [->|]; done.
Qed.

(** Resuming a run whose exception was logged changes no table. *)
Lemma resume_logged d rid st w :
  in_strs d ["approved"; "rejected"] = true → state_str "run_id" st = Ok rid →
  exception_logged rid (w_db w) = true →
  ∃ st', run_graph graph recursion_limit "exception_node" (Some (JStr d)) st w
         = (Some (Completed st'), w) ∧ decided_outcome d st'.
Proof.
  intros Hd Hrid Hlog.
  destruct (resume_run model_fields triage_fields replies sla_hours d rid st w w Hd Hrid
    (log_exception_present rid st w Hlog)) as (st1 & -> & Hf).
  eexists. split; [done|]. by apply complete_decided.
Qed.
End Paused.

Lemma sql_eq_neq (o : option string) (s : string) : o ≠ Some s → sql_eq String.eqb o s = false.
Proof.
  intros H. destruct o as [r|]; [|done]. cbn. apply String.eqb_neq. congruence.
Qed.

(** The cases of the posting status. *)
Ltac posting_cases :=
  repeat split; intros;
  repeat match goal with H : _ ∨ _ |- _ => destruct H | H : _ ∧ _ |- _ => destruct H end;
  try discriminate; try (apply in_strs_In; reflexivity); auto; try congruence.

Section Claims.
Context (model_fields : schema → json → option coerced)
        (triage_fields : json → option (string * string * float))
        (replies : claude_replies) (sla_hours : Z).

Abbreviation graph := (build_state_graph model_fields triage_fields replies sla_hours).

(** C18 Every run of the graph ends, from every node, with every state, resume value
    and world, in at most four nodes (the recursion limit is 25): it completes,
    pauses for the human review, or stops with the exception of a node.  The
    self-loop of the exception node and the circuit breaker never make it run on. *)
Theorem workflow_terminates :
  Forall (λ name, ∀ k resume st w,
            ∃ r w', run_graph graph (4 + k) name resume st w = (Some r, w'))
         (fst <$> g_nodes graph)
  ∧ recursion_limit = 4 + 21.
Proof.
  split; [|done]. cbn [g_nodes build_state_graph]. rewrite !fmap_cons. cbn [fst].
  repeat apply Forall_cons_2; [| | | | | | |apply Forall_nil_2]; intros k resume st w.
  - apply extract_ends.
  - apply match_ends.
  - apply supervisor_ends.
  - apply exception_ends.
  - apply (decided_ends _ _ _ _ (2 + k)). by left.
  - apply (decided_ends _ _ _ _ (2 + k)). by right.
  - apply complete_ends.
Qed.

(** C17 The outcome of a completed run is a function of the decision, the exception
    and the reconciliation in its final state: it is ready for posting exactly
    when a human approved, or nobody was asked, no exception is open and the
    shipment is reconciled; it is blocked exactly when a human rejected; it has
    failed exactly when an exception is open without a decision. *)
Theorem completed_outcome n name resume st w st' w' :
  run_graph graph n name resume st w = (Some (Completed st'), w') →
  let decision := final_decision st' in
  let open_exception := opt_truthy jtruthy (dict_get "exception_reason" st') in
  let reconciled := as_str (dict_get "reconciliation_status" (sdict "match_result" st')) in
  ∃ p posting, dict_get "processing_status" st' = Some (JStr p)
    ∧ dict_get "posting_status" st' = Some (JStr posting)
    ∧ dict_get "status" st' = Some (JStr (if String.eqb p "failed" then p
                                          else default "complete" decision))
    ∧ p = (if open_exception && bool_decide (decision = None) then "failed" else "complete")
    ∧ (posting = "ready_for_posting" ↔
        decision = Some "approved"
        ∨ sget "human_decision" st' = None ∧ open_exception = false
          ∧ reconciled = Some "reconciled")
    ∧ (posting = "blocked" ↔ decision = Some "rejected")
    ∧ posting ∈ ["not_ready"; "ready_for_posting"; "blocked"].
Proof.
  intros (st1 & ->)%completed_inv. cbv zeta.
  rewrite complete_processing, complete_posting_value, complete_status, complete_final_decision.
  unfold complete_posting, unresolved_exception, sget, sdict. rewrite !complete_keeps by done.
  fold (sget "human_decision" st1). pose proof (final_decision_get st1) as Hget.
  set (ex := opt_truthy jtruthy (dict_get "exception_reason" st1)).
  set (rec := as_str (dict_get "reconciliation_status" _)).
  destruct (final_decision st1) as [d|]; rewrite ?Bool.andb_false_r, ?Bool.andb_true_r.
  - unfold sget. destruct (Hget d eq_refl) as [-> Hd]. unfold in_strs in Hd. cbn in Hd.
    rewrite Bool.orb_false_r in Hd.
    apply Bool.orb_prop in Hd as [->%String.eqb_eq| ->%String.eqb_eq];
      eexists _, _; (split; [done|]); (split; [done|]); (split; [done|]);
      posting_cases.
  -
    destruct ex; [|destruct (sget "human_decision" st1); [|destruct (decide (rec = Some "reconciled")) as [->|Hr]]];
      eexists _, _; (split; [done|]); (split; [done|]); (split; [done|]); (split; [done|]);
      cbn; rewrite ?(sql_eq_neq _ _ Hr); posting_cases.
Qed.

(** C8 Nothing is released without a human unless the reconciliation passed
    completely: when a new run, whose input carries no decision, completes and its
    posting status is ready, the tables hold a reconciliation result of this run
    whose checks all passed, with no missing document and no exception reason,
    for a shipment that is reconciled and has all four documents. *)
Theorem release_without_review_safe st i rid w st' w' :
  fields_declared model_fields → recon_wf (session_of w) →
  state_document_id st = Ok i → i ∈ doc_id <$> documents (w_db w) →
  dict_get "run_id" st = Some (JStr rid) → has_run rid (w_db w) = true →
  sget "human_decision" st = None →
  run_graph graph recursion_limit "extract_node" None st w = (Some (Completed st'), w') →
  dict_get "posting_status" st' = Some (JStr "ready_for_posting") →
  released_by rid (w_db w').
Proof. apply start_release. Qed.

(** A run can pause only for the review of its exception, and one decision
    completes it: resuming a paused run with a decision, in any later world that
    still has the audit event of its exception, completes it with that decision
    (approved: ready for posting, rejected: blocked) and changes no table, so
    that a resume while the row of the run is locked cannot wait for the lock. *)
Theorem decision_completes_paused_run n name resume st w st1 m p w1 :
  run_graph graph n name resume st w = (Some (Paused st1 m p), w1) →
  m = "exception_node" ∧ p = interrupt_payload_of st1
  ∧ ∃ rid, state_str "run_id" st1 = Ok rid ∧ exception_logged rid (w_db w1) = true
    ∧ ∀ w2, exception_logged rid (w_db w2) = true →
      Forall (λ d, ∃ st2, run_graph graph recursion_limit m (Some (JStr d)) st1 w2
                          = (Some (Completed st2), w2) ∧ decided_outcome d st2)
             ["approved"; "rejected"].
Proof.
  intros (-> & -> & rid & Hrid & Hlog)%paused_inv. split; [done|]. split; [done|].
  exists rid. split; [done|]. split; [done|]. intros w2 Hlog2.
  repeat apply Forall_cons_2; [| |apply Forall_nil_2]; by apply (resume_logged _ _ _ _ _ rid).
Qed.
End Claims.

(** ** Examples *)

(** A coercion that reads the fields the validators look at. *)
Definition demo_fields (sc : schema) (j : json) : option coerced :=
  Some (mk_coerced (default "" (as_str (jget "doc_type" j))) (as_str (jget "load_number" j))
    (default "" (as_str (jget "carrier_name" j)))
    (match jget "total_amount" j with Some (JInt z) => Some (float_of_decimal false z 0)
                                    | _ => None end)
    (match sc with InvoiceSchema => Some fone | _ => None end) []).

Lemma demo_fields_declared : fields_declared demo_fields.
Proof. by intros sc j c [= <-]. Qed.

Definition demo_triage (j : json) : option (string * string * float) :=
  Some ("escalate_standard", "amount", fone).

Definition text_reply (s : string) : res (list content_block) :=
  Ok [mk_block (Some "text") (Some s)].

(** An invoice of [amount] for load LD-1. *)
Definition demo_replies (amount : Z) : claude_replies :=
  mk_replies true (text_reply "invoice")
    (λ _, text_reply (json_dumps false (JObj [("doc_type", JStr "invoice");
       ("load_number", JStr "ld-1"); ("carrier_name", JStr "Acme"); ("total_amount", JInt amount)])))
    (text_reply "{}").

(** Three documents of the shipment are there, the invoice has just arrived. *)
Definition filed (i : Z) (t : string) (data : dict) : Document :=
  mkDocument i (t +:+ ".pdf") t "extracted" None (Some (JObj (("carrier_name", JStr "ACME") :: data)))
    None None None None None None (Some 7%N) 0.

Definition demo_db : database :=
  on_workflow_runs (λ _, [mkWorkflowRun 1 "r1" 1 "running" "running" "not_ready" None 0])
  (on_shipments (λ _, [mkShipment 7 "LD-1" (Some "ACME") false true true true None (Some 2%Z)
                         (Some 3%Z) (Some 4%Z) "partial" 0])
    (on_documents (λ _,
       [mkDocument 1 "invoice.pdf" "unknown" "received" None None None None None None None None None 0;
        filed 2 "rate_confirmation" [("total_amount", JInt 1000); ("shipment_date", JStr "2026-07-01")];
        filed 3 "bill_of_lading" [("pickup_date", JStr "2026-07-02")];
        filed 4 "proof_of_delivery" [("delivery_date", JStr "2026-07-03"); ("condition", JStr "good")]])
     empty_database)).

Definition demo_graph_world : world :=
  mk_world demo_db (mk_env 5 2 1 1 0 (λ n, (1000 + N.of_nat n)%N) 0).

Lemma demo_graph_world_wf : recon_wf (session_of demo_graph_world).
Proof.
  split; [|by apply sync_reachable_wf, sr_empty|constructor|constructor|constructor|set_solver].
  split; cbn.
  - split; cbn; [intros n _; rewrite list_elem_of_singleton; lia|intros n m _; lia].
  - repeat constructor; set_solver.
  - intros doc H. repeat (apply elem_of_cons in H as [->|H]; [cbn; lia|]). by apply not_elem_of_nil in H.
  - repeat constructor; set_solver.
  - repeat constructor; set_solver.
  - intros sh ->%list_elem_of_singleton. by vm_compute.
  - constructor.
  - intros rc. cbn. lia.
Qed.

Definition demo_input : dict :=
  [("document_id", JStr "1"); ("run_id", JStr "r1"); ("file_bytes", JStr "%PDF");
   ("filename", JStr "invoice.pdf"); ("status", JStr "pending"); ("iteration_count", JInt 0)].

Definition demo_run (amount : Z) : option run_result * world :=
  run_graph (build_state_graph demo_fields demo_triage (demo_replies amount) 72) recursion_limit
    "extract_node" None demo_input demo_graph_world.

Definition demo_final (x : option run_result * world) : dict :=
  match x.1 with Some (Completed st) | Some (Paused st _ _) => st | _ => [] end.

Definition demo_paused_name (x : option run_result * world) : string * json :=
  match x.1 with Some (Paused _ m p) => (m, p) | _ => ("", JNull) end.

Lemma completed_outcome_witness :
  ∃ p posting, dict_get "processing_status" (demo_final (demo_run 1000)) = Some (JStr p)
    ∧ dict_get "posting_status" (demo_final (demo_run 1000)) = Some (JStr posting)
    ∧ p = "complete".
Proof.
  destruct (completed_outcome demo_fields demo_triage (demo_replies 1000) 72 recursion_limit
    "extract_node" None demo_input demo_graph_world (demo_final (demo_run 1000)) (demo_run 1000).2)
    as (p & posting & Hp & Hposting & _ & Ep & _).
  - vm_compute. reflexivity.
  - exists p, posting. split; [exact Hp|]. split; [exact Hposting|]. rewrite Ep.
    vm_compute. reflexivity.
Defined.

Lemma release_without_review_safe_witness : released_by "r1" (w_db (demo_run 1000).2).
Proof.
  apply (release_without_review_safe demo_fields demo_triage (demo_replies 1000) 72
    demo_input 1 "r1" demo_graph_world (demo_final (demo_run 1000)) (demo_run 1000).2).
  - exact demo_fields_declared.
  - exact demo_graph_world_wf.
  - reflexivity.
  - cbn. set_solver.
  - reflexivity.
  - reflexivity.
  - reflexivity.
  - vm_compute. reflexivity.
  - vm_compute. reflexivity.
Defined.

Lemma decision_completes_paused_run_witness :
  ∃ st2, run_graph (build_state_graph demo_fields demo_triage (demo_replies 2000) 72)
           recursion_limit "exception_node" (Some (JStr "approved")) (demo_final (demo_run 2000))
           (demo_run 2000).2 = (Some (Completed st2), (demo_run 2000).2)
    ∧ decided_outcome "approved" st2.
Proof.
  destruct (decision_completes_paused_run demo_fields demo_triage (demo_replies 2000) 72
    recursion_limit "extract_node" None demo_input demo_graph_world (demo_final (demo_run 2000))
    (demo_paused_name (demo_run 2000)).1 (demo_paused_name (demo_run 2000)).2 (demo_run 2000).2)
    as (Em & _ & rid & _ & Hlog & H).
  - vm_compute. reflexivity.
  - rewrite <- Em. exact (Forall_inv (H _ Hlog)).
Defined.
