(* ===== verification/Frame.v ===== *)
(** * What the graph leaves alone

    The sessions of the workflow nodes write documents, shipments, results,
    exceptions and audit events; the runs and their review decisions belong to the
    routes and to [decide_review].  [preserves] is the invariant of a computation,
    with one rule per primitive of Database, and [keeps_business] its instance for
    these two tables; the nodes and the runs of the graph keep them. *)

From S2P Require Import Prelude PyText LoadNumbers DateTime PyFloat Json Database MissingDocs.
From S2P Require Import Shipments Reconciliation SlaScanner Extraction Workflow WorkflowSafety.
From Stdlib Require Import Ascii.
Local Open Scope string_scope.
Local Open Scope list_scope.
Local Open Scope nat_scope.

(** ** Invariants of computations *)

Definition preserves {S A} (P : S → Prop) (m : M S A) : Prop := ∀ s, P s → P (m s).2.

Section Rules.
Context {S : Type} (P : S → Prop).

Lemma preserves_bind {A B} (m : M S A) (f : A → M S B) :
  preserves P m → (∀ a, preserves P (f a)) → preserves P (m ≫= f).
Proof.
  intros Hm Hf s Hs. rewrite bind_unfold. specialize (Hm s Hs).
  destruct (m s) as [[a|e] s']; [by apply Hf|done].
Qed.

Lemma preserves_ret {A} (a : A) : preserves P (mret a).
Proof. by intros s. Qed.

Lemma preserves_try {A} (m : M S A) h :
  preserves P m → (∀ e k, h e = Some k → preserves P k) → preserves P (try_except m h).
Proof.
  intros Hm Hh s Hs. unfold try_except. specialize (Hm s Hs). destruct (m s) as [[a|e] s']; [done|].
  destruct (h e) as [k|] eqn:Ek; [exact (Hh e k Ek s' Hm)|done].
Qed.

Lemma preserves_raise {A} e : preserves P (raise e : M S A).
Proof. by intros s. Qed.

Lemma preserves_gets {A} (f : S → A) : preserves P (gets f).
Proof. by intros s. Qed.

Lemma preserves_of_res {A} (r : res A) : preserves P (of_res r).
Proof. by intros s. Qed.

Lemma preserves_modify (f : S → S) : (∀ s, P s → P (f s)) → preserves P (modify f).
Proof. by intros Hf s Hs; apply Hf. Qed.
End Rules.

Create HintDb frame discriminated.
#[export] Hint Resolve preserves_ret preserves_raise preserves_gets preserves_of_res : frame.

(** Follow a computation: binds, cases, and the primitives of the database. *)
Ltac frame_step :=
  first
    [ solve [eauto with frame]
    | apply preserves_bind; [|intros ?]
    | case_match
    | apply preserves_modify; intros ? ? ].
Ltac frame := repeat frame_step.

(** ** The tables of the business state *)

(** The runs, the decisions and the source of identifiers of a session: the
    identifiers already drawn may be more. *)
Record business := mk_business {
  b_runs : list WorkflowRun; b_decisions : list ReviewDecision;
  b_rng : nat → uuid; b_pos : nat
}.

Definition business_of (s : session) : business :=
  mk_business (workflow_runs (committed s)) (review_decisions (committed s))
    (rng (senv s)) (rng_pos (senv s)).

Record keeps_business (b : business) (s : session) : Prop := {
  kb_runs : workflow_runs (working s) = b_runs b;
  kb_runs' : workflow_runs (committed s) = b_runs b;
  kb_decisions : review_decisions (working s) = b_decisions b;
  kb_decisions' : review_decisions (committed s) = b_decisions b;
  kb_rng : rng (senv s) = b_rng b;
  kb_pos : b_pos b <= rng_pos (senv s)
}.

Lemma keeps_refl w : keeps_business (business_of (session_of w)) (session_of w).
Proof. by split. Qed.

Section Keeps.
Context (b : business).
Implicit Types (s : session).

Abbreviation kept := (preserves (keeps_business b)).

Lemma kept_uuid4 : kept uuid4.
Proof.
  intros s [? ? ? ? ? ?]. unfold uuid4, with_env. session_unfold. by split; cbn; [..|lia].
Qed.
Lemma kept_doc_id : kept next_doc_id.
Proof. intros s [? ? ? ? ? ?]. by split. Qed.
Lemma kept_audit_id : kept next_audit_id.
Proof. intros s [? ? ? ? ? ?]. by split. Qed.
Lemma kept_clock : kept db_clock.
Proof. by intros s. Qed.
Lemma kept_select {A} (q : database → A) : kept (select q).
Proof. by intros s. Qed.
Lemma kept_insist v what : kept (insist v what).
Proof. intros s H. by destruct v. Qed.
Lemma kept_commit : kept commit.
Proof. intros s [? ? ? ? ? ?]. by split. Qed.

(** A write of another table. *)
Lemma kept_write (f : database → database) :
  (∀ d, workflow_runs (f d) = workflow_runs d) →
  (∀ d, review_decisions (f d) = review_decisions d) →
  kept (modify (on_working f)).
Proof.
  intros Hr Hd s [? ? ? ? ? ?]. split; cbn; [by rewrite Hr|done|by rewrite Hd|done..].
Qed.
End Keeps.

#[export] Hint Resolve kept_uuid4 kept_doc_id kept_audit_id kept_clock kept_select kept_insist
  kept_commit : frame.
#[export] Hint Extern 1 (preserves (keeps_business _) (modify (on_working _))) =>
  (apply kept_write; intros ?; reflexivity) : frame.

Section Sessions.
Context (b : business).

Abbreviation kept := (preserves (keeps_business b)).

Lemma kept_scalar {A} (l : list A) : kept (scalar_one_or_none l).
Proof. unfold scalar_one_or_none. frame. Qed.
Lemma kept_scalar_one {A} (l : list A) : kept (scalar_one l).
Proof. unfold scalar_one. frame. Qed.
Hint Resolve kept_scalar kept_scalar_one : frame.

Lemma kept_insert_document mk : kept (insert_document mk).
Proof. unfold insert_document. frame. Qed.
Lemma kept_save_document doc : kept (save_document doc).
Proof. unfold save_document. frame. Qed.
Lemma kept_get_document i : kept (get_document i).
Proof. unfold get_document. frame. Qed.
Hint Resolve kept_insert_document kept_save_document kept_get_document : frame.

Lemma kept_log_audit_event rid ev p who : kept (log_audit_event rid ev p who).
Proof. unfold log_audit_event. frame. Qed.

Lemma kept_extract_document mf replies bytes name i :
  kept (extract_document mf replies bytes name i).
Proof. unfold extract_document. frame. Qed.

Lemma kept_upsert_shipment ln doc ex : kept (upsert_shipment ln doc ex).
Proof.
  unfold upsert_shipment, insert_shipment_do_nothing, attach_to_shipment, save_shipment,
    carrier_from_extraction, attach_existing_rate_confirmation, rate_confirmation_document.
  frame.
Qed.

Lemma kept_sync sh policy r now : kept (sync_missing_document_exception sh policy r now).
Proof.
  unfold sync_missing_document_exception, insert_exception, insert_event, save_exception. frame.
Qed.
Hint Resolve kept_upsert_shipment kept_sync : frame.

Lemma kept_reconcile_shipment sh rid now sla source key :
  kept (reconcile_shipment sh rid now sla source key).
Proof.
  unfold reconcile_shipment, get_linked, find_result, save_shipment, insert_result, save_result.
  frame.
Qed.
Hint Resolve kept_reconcile_shipment : frame.

Lemma kept_match_session sla st i : kept (match_session sla st i).
Proof. unfold match_session. frame. Qed.
End Sessions.

#[export] Hint Resolve kept_log_audit_event kept_extract_document kept_match_session : frame.

(** ** The nodes *)

Section Nodes.
Context (b : business).

(** The same of a world, the sessions of which start from what is committed. *)
Definition keeps_world (w : world) : Prop := keeps_business b (session_of w).

Abbreviation kept := (preserves keeps_world).

Lemma kept_run_session {A} (m : M session A) :
  preserves (keeps_business b) m → kept (run_session m).
Proof.
  intros Hm w Hw. unfold keeps_world. rewrite run_session_unfold. cbn [snd].
  destruct (Hm _ Hw). split; done.
Qed.
Hint Resolve kept_run_session : frame.

Lemma kept_log_owned rid ev p who : kept (log_audit_event_owned rid ev p who).
Proof. unfold log_audit_event_owned. apply kept_run_session. frame. Qed.
Hint Resolve kept_log_owned : frame.

Lemma kept_log_exception rid st : kept (log_exception_raised_once rid st).
Proof. unfold log_exception_raised_once. frame. Qed.
Hint Resolve kept_log_exception : frame.

Context (model_fields : schema → json → option coerced)
        (triage_fields : json → option (string * string * float))
        (replies : claude_replies) (sla_hours : Z).

Abbreviation graph := (build_state_graph model_fields triage_fields replies sla_hours).

Lemma kept_nodes : Forall (λ nf, ∀ resume st, kept (nf.2 resume st)) (g_nodes graph).
Proof.
  cbn [g_nodes build_state_graph].
  repeat apply Forall_cons_2; [..|apply Forall_nil_2]; intros resume st; cbn [snd];
    unfold extract_node, match_node, supervisor_node, exception_node, approve_node, reject_node,
      complete_node; frame.
Qed.

(** ** The runs of the graph *)

Lemma kept_run_graph n name resume st w :
  keeps_world w → keeps_world (run_graph graph n name resume st w).2.
Proof. apply run_graph_only_nodes. exact kept_nodes. Qed.

Lemma kept_ainvoke `{GraphEngine} rid input t w :
  keeps_world w → keeps_world (ainvoke graph rid input t w).2.
Proof. apply ainvoke_only_nodes. exact kept_nodes. Qed.
End Nodes.

(** ** The channels of the state *)

Section Channels.
Context (model_fields : schema → json → option coerced)
        (triage_fields : json → option (string * string * float))
        (replies : claude_replies) (sla_hours : Z).

Abbreviation graph := (build_state_graph model_fields triage_fields replies sla_hours).

(** The keys a node can update; [human_decision] only from a resume value. *)
Definition CHANNELS : list string :=
  ["extraction"; "match_result"; "exception_reason"; "triage_route"; "triage_reasoning";
   "triage_confidence"; "status"; "processing_status"; "posting_status"; "review_disposition";
   "messages"; "iteration_count"].

Definition known_keys (extra : list string) (u : dict) : bool :=
  forallb (λ kv : string * json, in_strs kv.1 (extra ++ CHANNELS)) u.

Lemma merge_other k u : ∀ st,
  k ≠ "messages" → existsb (λ kv : string * json, String.eqb k kv.1) u = false →
  dict_get k (merge_state st u) = dict_get k st.
Proof.
  unfold merge_state. induction u as [|kv u IH]; [done|]. intros st Hk. cbn.
  intros [H1 H2]%Bool.orb_false_iff. rewrite (IH (merge_channel st kv)) by done.
  by rewrite get_channel, H1.
Qed.

Lemma known_keys_other k extra u :
  known_keys extra u = true → in_strs k (extra ++ CHANNELS) = false →
  existsb (λ kv : string * json, String.eqb k kv.1) u = false.
Proof.
  intros Hu Hk. apply existsb_false_Forall, Forall_forall. intros kv Hin.
  apply String.eqb_neq. intros ->. unfold known_keys in Hu.
  rewrite forallb_forall in Hu. rewrite list_elem_of_In in Hin. apply Hu in Hin. congruence.
Qed.

Lemma node_keys name f (resume : option json) st w u w' :
  dict_get name (g_nodes graph) = Some f → f resume st w = (Ok (Update u), w') →
  known_keys (if resume then ["human_decision"] else []) u = true.
Proof.
  intros Hf E. revert Hf. cbn [g_nodes build_state_graph dict_get].
  destruct (String.eqb_spec name "extract_node") as [->|].
  { intros [= <-]. apply extract_node_ok in E as (? & ? & [= ->]). by destruct resume. }
  destruct (String.eqb_spec name "match_node") as [->|].
  { intros [= <-]. apply match_node_ok in E as (? & mr & ? & ? & [= ->]).
    unfold match_update. destruct (negb _); by destruct resume. }
  destruct (String.eqb_spec name "supervisor_node") as [->|].
  { intros [= <-]. apply supervisor_node_ok in E as [? [= ->]]. by destruct resume. }
  destruct (String.eqb_spec name "exception_node") as [->|].
  { intros [= <-]. apply exception_node_ok in E. destruct resume; [|done]. by injection E as ->. }
  destruct (String.eqb_spec name "approve_node") as [->|].
  { intros [= <-]. injection E as <- _. by destruct resume. }
  destruct (String.eqb_spec name "reject_node") as [->|].
  { intros [= <-]. injection E as <- _. by destruct resume. }
  destruct (String.eqb_spec name "complete_node") as [->|]; [|done].
  intros [= <-]. apply complete_node_ok in E as [= ->]. unfold complete_update.
  destruct (unresolved_exception st); by destruct resume.
Qed.

(** The state a run ends with. *)
Definition result_state (r : run_result) : dict :=
  match r with Completed st | Paused st _ _ | Stopped st _ _ => st end.

(** A run does not touch the keys outside of the channels, and without a resume
    value no decision. *)
Lemma run_keeps_key k n : ∀ name (resume : option json) st w r w',
  k ≠ "messages" →
  in_strs k ((if resume then ["human_decision"] else []) ++ CHANNELS) = false →
  run_graph graph n name resume st w = (Some r, w') →
  dict_get k (result_state r) = dict_get k st.
Proof.
  induction n as [|n IH]; [done|]. intros name resume st w r w' Hm Hk. cbn [run_graph].
  destruct (dict_get name (g_nodes graph)) as [f|] eqn:Ef; [|done].
  destruct (f resume st w) as [[[u|p]|e] w1] eqn:E; [|by intros [= <- _]..].
  assert (Hu : dict_get k (merge_state st u) = dict_get k st).
  { apply merge_other; [done|]. eapply known_keys_other; [|exact Hk]. by eapply node_keys. }
  assert (Hk' : in_strs k ([] ++ CHANNELS) = false).
  { destruct resume; [|done]. unfold in_strs in *. rewrite existsb_app in Hk.
    by apply Bool.orb_false_iff in Hk as [_ Hk]. }
  destruct (next_node graph name (merge_state st u)) as [t|]; [|done].
  destruct (String.eqb t END); [by intros [= <- _]|].
  intros H. rewrite <- Hu. by eapply (IH t None).
Qed.
End Channels.
