(* ===== verification/BusinessState.v ===== *)
(** * Business state and the review decision

    [app/services/business_state.py].  [decide_review] runs in a session of its
    own and calls the workflow graph, the nodes of which open other sessions; the
    graph is a [GraphEngine].  At that call the session holds no pending write, so
    that afterwards it reads what the nodes have committed.  A
    [BusinessStateConflict] is a value here: nothing follows it in the function. *)

From S2P Require Import Prelude PyText LoadNumbers DateTime PyFloat Json Database MissingDocs.
From S2P Require Import Shipments Reconciliation SlaScanner Extraction Workflow WorkflowSafety.
From S2P Require Import Frame.
From stdpp Require Import relations.
From Stdlib Require Import Ascii.
Local Open Scope string_scope.
Local Open Scope list_scope.
Local Open Scope nat_scope.

(** ** Reading a run *)

(** [processing_status(run)] *)
Definition processing_status_of (run : WorkflowRun) : string :=
  if str_truthy (processing_status run) then processing_status run
  else if in_strs (status run) ["approved"; "rejected"; "partial"; "reconciled"] then "complete"
  else if String.eqb (status run) "exception" then
    if opt_truthy jtruthy (interrupt_payload run) then "awaiting_review" else "failed"
  else status run.

Definition legacy_status (processing : string) (decision : option ReviewDecision) : string :=
  match decision with Some d => disposition d | None => processing end.

Definition review_disposition (run : WorkflowRun) (decision : option ReviewDecision)
    (reconciliation_status : option string) : string :=
  match decision with
  | Some d => disposition d
  | None =>
      let current_processing := processing_status_of run in
      if String.eqb current_processing "awaiting_review" then "pending"
      else if String.eqb current_processing "complete"
              && sql_eq String.eqb reconciliation_status "exception" then "unknown"
      else "not_required"
  end.

(** The shipments joined to the results of a run, the latest result first. *)
Definition results_of_run (rid : string) (d : database) : list (ReconciliationResult * Shipment) :=
  r ← sort_by (λ a b, (result_created_at b <=? result_created_at a)%Z)
        (where_ (λ r, sql_eq String.eqb (result_run_id r) rid) (reconciliation_results d));
  sh ← where_ (λ sh, N.eqb (shipment_id sh) (result_shipment_id r)) (shipments d);
  [(r, sh)].

Definition reconciliation_status_for_run (rid : string) (d : database) : option string :=
  (λ p, reconciliation_status p.2) <$> head (results_of_run rid d).

(** [state_payload] *)
Record state_payload := mk_state_payload {
  sp_run_id : string;
  sp_status : string;
  sp_processing_status : string;
  sp_reconciliation_status : option string;
  sp_review_disposition : string;
  sp_posting_status : string;
  sp_reviewed_at : option datetime;
  sp_reviewer_id : option string
}.

Definition state_payload_of (run : WorkflowRun) (decision : option ReviewDecision)
    (reconciliation_status : option string) : state_payload :=
  let current_processing := processing_status_of run in
  mk_state_payload (run_id run) (legacy_status current_processing decision) current_processing
    reconciliation_status (review_disposition run decision reconciliation_status)
    (posting_status run) (decided_at <$> decision)
    (match decision with Some d => reviewer_id d | None => None end).

(** ** The decision *)

(** [interrupt_payload(result)] *)
Definition interrupt_of (result : dict) : option json :=
  match dict_get interrupt_key result with Some (JArr (p :: _)) => Some p | _ => None end.

(** [BusinessStateConflict] *)
Record conflict := mk_conflict {
  code : string; conflict_message : string; details : option dict
}.

(** How [decide_review] ends, exceptions of the calls it makes apart. *)
Inductive review_outcome :=
  | Conflict (c : conflict)
  | NoSuchRun
  | Decided (run : WorkflowRun) (decision : ReviewDecision) (idempotent : bool).

Definition decision_conflict (msg existing requested : string) : conflict :=
  mk_conflict "review_decision_conflict" msg
    (Some [("existing_decision", JStr existing); ("requested_decision", JStr requested)]).

Definition checkpoint_conflict (msg : string) (d : option dict) : conflict :=
  mk_conflict "checkpoint_state_conflict" msg d.

(** The rows of a run and of its decision, by run id. *)
Definition runs_with (rid : string) (d : database) : list WorkflowRun :=
  where_ (λ r, String.eqb (run_id r) rid) (workflow_runs d).
Definition decisions_of (rid : string) (d : database) : list ReviewDecision :=
  where_ (λ r, String.eqb (decision_run_id r) rid) (review_decisions d).

(** [_locked_run]; the lock of the row is held until the end of the transaction. *)
Definition locked_run (rid : string) : M session (option WorkflowRun * option ReviewDecision) :=
  found ← select (runs_with rid);
  run ← scalar_one_or_none found;
  match run with
  | None => mret (None, None)
  | Some r =>
      found ← select (decisions_of rid);
      decision ← scalar_one_or_none found;
      mret (Some r, decision)
  end.

Section Review.
Context `{E : GraphEngine} (graph : state_graph).

(** The session and the checkpoint store. *)
Definition in_session {A} (m : M session A) : M (session * threads) A := λ st,
  let '(r, s) := m st.1 in (r, (s, st.2)).

Definition get_state (rid : string) : M (session * threads) snapshot :=
  gets (λ st, aget_state rid st.2).

(** [workflow_graph.ainvoke]: the nodes see what is committed, and the session sees
    what they commit. *)
Definition invoke (rid : string) (input : graph_input) : M (session * threads) dict := λ st,
  let '(r, t, w) := ainvoke graph rid input st.2 (world_of st.1) in (r, (session_of w, t)).

(** The two columns a decision settles, and the legacy status. *)
Definition decided_run (requested_decision : string) (run : WorkflowRun) : WorkflowRun :=
  set_status requested_decision
    (set_posting_status (if String.eqb requested_decision "approved" then "ready_for_posting"
                         else "blocked")
      (set_processing_status "complete" run)).

Definition new_decision (rid requested_decision : string) (i : uuid) (now : datetime)
  : ReviewDecision := mkReviewDecision i rid requested_decision now None.

Definition decision_audit (requested_decision : string) (decision : ReviewDecision) : json :=
  JObj [("decision_id", JStr (uuid_str (decision_id decision)));
        ("human_decision", JStr requested_decision);
        ("decided_at", JStr (datetime_isoformat (decided_at decision)));
        ("reviewer_id", JNull)].

(** The end of [decide_review]: the decision, the run and the audit event, in one
    transaction. *)
Definition record_decision (run : WorkflowRun) (rid requested_decision : string)
  : M session review_outcome :=
  decision ← insert_decision (new_decision rid requested_decision);
  let run := decided_run requested_decision run in
  _ ← save_run run;
  _ ← log_audit_event rid requested_decision
        (Some (decision_audit requested_decision decision)) "human";
  _ ← commit;
  mret (Decided run decision false).

(** The checks on the graph's result; [result] is the checkpoint or what the call
    returned. *)
Definition finish_review (run : WorkflowRun) (rid requested_decision : string) (result : dict)
  : M (session * threads) review_outcome :=
  match interrupt_of result with
  | Some _ => mret (Conflict (checkpoint_conflict
                "The workflow remained interrupted after the decision" None))
  | None =>
      if negb (sql_eq String.eqb (as_str (dict_get "human_decision" result)) requested_decision) then
        mret (Conflict (checkpoint_conflict
          "The completed checkpoint does not contain the requested decision"
          (Some [("checkpoint_decision", dget "human_decision" result)])))
      else in_session (record_decision run rid requested_decision)
  end.

Definition decide_review (rid requested_decision : string)
  : M (session * threads) review_outcome :=
  '(run, existing_decision) ← in_session (locked_run rid);
  match run, existing_decision with
  | None, _ => mret NoSuchRun
  | Some run, Some existing =>
      if negb (String.eqb (disposition existing) requested_decision) then
        mret (Conflict (decision_conflict "A different review decision already exists"
                          (disposition existing) requested_decision))
      else
        _ ← in_session commit;
        mret (Decided run existing true)
  | Some run, None =>
      if negb (String.eqb (processing_status_of run) "awaiting_review") then
        mret (Conflict (mk_conflict "workflow_not_awaiting_review"
          "Only an awaiting_review workflow can receive its first decision"
          (Some [("processing_status", JStr (processing_status_of run))])))
      else
        snap ← get_state rid;
        let checkpoint_decision := final_decision (values snap) in
        match checkpoint_decision with
        | Some d =>
            if negb (String.eqb d requested_decision) then
              mret (Conflict (decision_conflict
                "The checkpoint contains a different review decision" d requested_decision))
            else finish_review run rid requested_decision (values snap)
        | None =>
            if is_nil (values snap) || is_nil (next snap) then
              mret (Conflict (checkpoint_conflict
                "The workflow checkpoint is not paused for review" None))
            else
              result ← invoke rid (Resume requested_decision);
              finish_review run rid requested_decision result
        end
  end.
End Review.

(** ** The invariant of runs and decisions *)

Record business_wf (b : business) : Prop := {
  bw_runs : NoDup (run_id <$> b_runs b);
  bw_decisions : NoDup (decision_run_id <$> b_decisions b);
  bw_fresh : ∀ n, b_pos b <= n → b_rng b n ∉ decision_id <$> b_decisions b;
  bw_inj : ∀ n m, b_pos b <= n → n < m → b_rng b n ≠ b_rng b m
}.

(** The posting status a decision leads to. *)
Definition posting_of (d : string) : string :=
  if String.eqb d "approved" then "ready_for_posting" else "blocked".

(** A decision and the run it settled. *)
Definition settled_by (dec : ReviewDecision) (run : WorkflowRun) : Prop :=
  status run = disposition dec ∧ processing_status run = "complete"
  ∧ posting_status run = posting_of (disposition dec).

Definition decisions_coherent (d : database) : Prop :=
  ∀ dec, dec ∈ review_decisions d →
    in_strs (disposition dec) ["approved"; "rejected"] = true
    ∧ ∃ run, run ∈ workflow_runs d ∧ run_id run = decision_run_id dec ∧ settled_by dec run.

Lemma where_key {A} (key : A → string) (v : string) (l : list A) :
  NoDup (key <$> l) →
  where_ (λ x, String.eqb (key x) v) l = []
  ∨ ∃ x, where_ (λ x, String.eqb (key x) v) l = [x] ∧ x ∈ l ∧ key x = v.
Proof.
  intros Hnd. destruct (where_ (λ x, String.eqb (key x) v) l) as [|x l'] eqn:E; [by left|].
  right. exists x.
  assert (Hx : x ∈ where_ (λ x, String.eqb (key x) v) l) by (rewrite E; apply list_elem_of_here).
  apply elem_of_where in Hx as [Hx Hk]. apply String.eqb_eq in Hk as Hk'.
  rewrite <- E. split; [|done]. apply (where_unique key); [done..|].
  intros y Hy%String.eqb_eq. congruence.
Qed.

Lemma where_run run l :
  NoDup (run_id <$> l) → run ∈ l → where_ (λ r, String.eqb (run_id r) (run_id run)) l = [run].
Proof.
  intros Hnd Hin. apply (where_unique run_id); [done|done|apply String.eqb_refl|].
  by intros y ->%String.eqb_eq.
Qed.

Section ReviewFacts.
Context `{E : GraphEngine} (graph : state_graph).

(** A state of the reviews: the session between two calls. *)
Definition review_wf (s : session) : Prop :=
  committed s = working s ∧ business_wf (business_of s).

Lemma locked_run_found s run :
  review_wf s → run ∈ workflow_runs (working s) →
  ∃ o, locked_run (run_id run) s = (Ok (Some run, o), s)
    ∧ match o with
      | None => decisions_of (run_id run) (working s) = []
      | Some dec => dec ∈ review_decisions (working s) ∧ decision_run_id dec = run_id run
      end.
Proof.
  intros [Hc [W1 W2 _ _]] Hin. unfold business_of in *. rewrite Hc in *. cbn in W1, W2.
  unfold locked_run. rewrite bind_unfold. unfold select, gets. unfold runs_with.
  rewrite (where_run run) by done. rewrite bind_unfold. cbn [scalar_one_or_none mret M_ret].
  rewrite bind_unfold.
  destruct (where_key decision_run_id (run_id run) _ W2) as [E0|(dec & E0 & Hd & Hk)];
    unfold decisions_of; rewrite E0; [exists None|exists (Some dec)]; by rewrite ?E0.
Qed.

Lemma locked_run_missing s rid :
  has_run rid (working s) = false → locked_run rid s = (Ok (None, None), s).
Proof.
  intros H. unfold locked_run. rewrite bind_unfold. unfold select, gets.
  assert (runs_with rid (working s) = []) as ->; [|done].
  apply filter_none. apply Forall_forall. by apply existsb_false_Forall.
Qed.

Lemma ck_decided d run :
  in_strs d ["approved"; "rejected"] = true → ck_workflow_run (decided_run d run) = true.
Proof. intros _. unfold ck_workflow_run, decided_run. cbn. by destruct (String.eqb d "approved"). Qed.

Lemma log_audit_runs rid ev p who s :
  has_run rid (working s) = true →
  ∃ f e, log_audit_event rid ev p who s
         = (Ok tt, mk_session (committed s) (on_audit_logs f (working s)) e)
    ∧ rng e = rng (senv s) ∧ rng_pos e = rng_pos (senv s).
Proof.
  intros Hrun. unfold log_audit_event. rewrite bind_unfold. unfold select, gets.
  destruct (existsb _ (audit_logs (working s))).
  - exists (λ t, t), (senv s). split; [|done]. by destruct s as [cm [] ev'].
  - unfold next_audit_id, db_clock, with_env, insist, mbind, mret, M_bind, M_ret, gets, modify.
    rewrite Hrun. eexists _, _. split; [done|]. done.
Qed.

(** A first decision, with an id that no other decision has, is recorded. *)
Lemma record_decision_fresh s run d :
  committed s = working s → rng (senv s) (rng_pos (senv s)) ∉ decision_id <$> review_decisions (working s) →
  run ∈ workflow_runs (working s) →
  decisions_of (run_id run) (working s) = [] → in_strs d ["approved"; "rejected"] = true →
  ∃ dec f s', record_decision run (run_id run) d s = (Ok (Decided (decided_run d run) dec false), s')
    ∧ dec = new_decision (run_id run) d (rng (senv s) (rng_pos (senv s))) (clock (senv s))
    ∧ committed s' = working s'
    ∧ working s' = on_audit_logs f (on_workflow_runs
        (update_where (λ r, String.eqb (run_id r) (run_id run)) (λ _, decided_run d run))
        (on_review_decisions (λ t, t ++ [dec]) (working s)))
    ∧ rng (senv s') = rng (senv s) ∧ rng_pos (senv s') = S (rng_pos (senv s)).
Proof.
  intros Hc Hfresh Hin Hno Hd.
  set (dec := new_decision (run_id run) d (rng (senv s) (rng_pos (senv s))) (clock (senv s))).
  assert (Hi : insert_decision (new_decision (run_id run) d) s = (Ok dec,
    mk_session (committed s) (on_review_decisions (λ t, t ++ [dec]) (working s))
      (mk_env (doc_seq (senv s)) (run_seq (senv s)) (audit_seq (senv s)) (notif_seq (senv s))
         (clock (senv s)) (rng (senv s)) (S (rng_pos (senv s)))))).
  { session_unfold. fold dec.
    rewrite (existsb_fresh decision_id) by done. cbn [negb].
    unfold ck_review_decision, in_strs in *. cbn in *. rewrite Hd.
    rewrite (existsb_none (λ x, String.eqb (decision_run_id x) (run_id run))).
    2:{ intros x Hx. apply Bool.not_true_iff_false. intros Hk.
        assert (Hx' : x ∈ decisions_of (run_id run) (working s)) by (by apply elem_of_where).
        rewrite Hno in Hx'. by apply not_elem_of_nil in Hx'. }
    cbn [negb].
    assert (has_run (run_id run) (working s) = true) as ->; [|done].
    apply existsb_exists. exists run. split; [by apply list_elem_of_In|apply String.eqb_refl]. }
  unfold record_decision. rewrite bind_unfold, Hi, bind_unfold.
  unfold save_run. rewrite bind_unfold. unfold insist. rewrite ck_decided by done.
  cbn [mret M_ret]. unfold modify at 1. rewrite bind_unfold.
  set (s1 := on_working _ _).
  assert (Hrun : has_run (run_id run) (working s1) = true).
  { apply existsb_exists. exists (decided_run d run). split; [|apply String.eqb_refl].
    apply list_elem_of_In. cbn. apply elem_of_update_where. exists run.
    split; [done|]. by rewrite String.eqb_refl. }
  destruct (log_audit_runs _ d (Some (decision_audit d dec)) "human" s1 Hrun)
    as (f & e & -> & He1 & He2). rewrite bind_unfold. cbn.
  eexists _, f, _. do 4 (split; [done|]). split; [exact He1|exact He2].
Qed.

Lemma record_decision_runs s run d :
  review_wf s → run ∈ workflow_runs (working s) →
  decisions_of (run_id run) (working s) = [] → in_strs d ["approved"; "rejected"] = true →
  ∃ dec f s', record_decision run (run_id run) d s = (Ok (Decided (decided_run d run) dec false), s')
    ∧ dec = new_decision (run_id run) d (rng (senv s) (rng_pos (senv s))) (clock (senv s))
    ∧ committed s' = working s'
    ∧ working s' = on_audit_logs f (on_workflow_runs
        (update_where (λ r, String.eqb (run_id r) (run_id run)) (λ _, decided_run d run))
        (on_review_decisions (λ t, t ++ [dec]) (working s)))
    ∧ rng (senv s') = rng (senv s) ∧ rng_pos (senv s') = S (rng_pos (senv s)).
Proof.
  intros [Hc [_ _ W3 _]]. unfold business_of in W3. rewrite Hc in W3. cbn in W3.
  apply record_decision_fresh; [done|]. by apply W3.
Qed.

(** A recorded decision keeps the invariants. *)
Lemma recorded_wf s run d s' dec f :
  review_wf s → decisions_coherent (working s) → run ∈ workflow_runs (working s) →
  decisions_of (run_id run) (working s) = [] → in_strs d ["approved"; "rejected"] = true →
  dec = new_decision (run_id run) d (rng (senv s) (rng_pos (senv s))) (clock (senv s)) →
  committed s' = working s' →
  working s' = on_audit_logs f (on_workflow_runs
        (update_where (λ r, String.eqb (run_id r) (run_id run)) (λ _, decided_run d run))
        (on_review_decisions (λ t, t ++ [dec]) (working s))) →
  rng (senv s') = rng (senv s) → rng_pos (senv s') = S (rng_pos (senv s)) →
  review_wf s' ∧ decisions_coherent (working s').
Proof.
  intros [Hc [W1 W2 W3 W4]] Hco Hin Hno Hd Edec Hc' Hw Er Ep.
  unfold business_of in *. rewrite Hc in *. cbn in W1, W2, W3, W4.
  assert (Hnone : ∀ x, x ∈ review_decisions (working s) → decision_run_id x ≠ run_id run).
  { intros x Hx Hk. assert (Hx' : x ∈ decisions_of (run_id run) (working s)).
    { apply elem_of_where. split; [done|]. by apply String.eqb_eq. }
    rewrite Hno in Hx'. by apply not_elem_of_nil in Hx'. }
  split; [split; [done|]|].
  - unfold business_of. rewrite Hc', Hw, Er, Ep.
    split; cbn [b_runs b_decisions b_rng b_pos workflow_runs review_decisions on_audit_logs
                on_workflow_runs on_review_decisions].
    + rewrite update_where_map; [done|]. by intros x Hx ->%String.eqb_eq.
    + rewrite fmap_app. apply NoDup_app. split; [done|]. split; [|repeat constructor; set_solver].
      intros x (y & Ey & Hy)%list_elem_of_fmap Hx%list_elem_of_singleton.
      apply (Hnone y Hy). by rewrite <- Ey, Hx, Edec.
    + intros n Hn. rewrite fmap_app, elem_of_app. intros [Hx|Hx].
      * apply (W3 n); [lia|done].
      * apply list_elem_of_singleton in Hx. rewrite Edec in Hx. cbn in Hx.
        by apply (W4 (rng_pos (senv s)) n); [lia..|].
    + intros n m Hn Hm. apply W4; lia.
  - intros x. rewrite Hw. cbn. rewrite elem_of_app, list_elem_of_singleton. intros [Hx| ->].
    + destruct (Hco x Hx) as (Hdx & r & Hr & Hrid & Hset). split; [done|]. exists r.
      split; [|done]. apply elem_of_update_where. exists r. split; [done|].
      assert (String.eqb (run_id r) (run_id run) = false) as ->; [|done].
      apply String.eqb_neq. rewrite Hrid. by apply Hnone.
    + rewrite Edec. cbn. split; [done|]. exists (decided_run d run). split; [|done].
      apply elem_of_update_where. exists run. split; [done|]. by rewrite String.eqb_refl.
Qed.

(** What the graph call can change: nothing here. *)
Lemma invoked_wf (b : business) s s' :
  review_wf s → business_of s = b → keeps_business b s' → committed s' = working s' →
  review_wf s'.
Proof.
  intros [Hc [W1 W2 W3 W4]] <- [K1 K2 K3 K4 K5 K6] Hc'. split; [done|].
  split; cbn in *; rewrite ?K2, ?K4, ?K5; [done..| |].
  - intros n Hn. apply W3. lia.
  - intros n m Hn. apply W4. lia.
Qed.

Lemma business_kept s : committed s = working s → keeps_business (business_of s) s.
Proof. intros H. split; cbn; rewrite ?H; done. Qed.

Lemma invoked_coherent s s' :
  committed s = working s → keeps_business (business_of s) s' →
  decisions_coherent (working s) → decisions_coherent (working s').
Proof.
  intros Hc [K1 _ K3 _ _ _] Hco dec. unfold decisions_coherent in Hco.
  rewrite K1, K3. cbn. rewrite Hc. apply Hco.
Qed.
End ReviewFacts.

Section Decisions.
Context `{E : GraphEngine} (model_fields : schema → json → option coerced)
        (triage_fields : json → option (string * string * float))
        (replies : claude_replies) (sla_hours : Z).

Abbreviation graph := (build_state_graph model_fields triage_fields replies sla_hours).

(** A thread paused for the review of a run: the state in which [exception_node]
    has made its interrupt. *)
Record paused_review (rid : string) (st : dict) (d : database) : Prop := {
  pr_run_id : state_str "run_id" st = Ok rid;
  pr_undecided : final_decision st = None;
  pr_channel : dict_get interrupt_key st = None;
  pr_logged : exception_logged rid d = true
}.

(** A run that can take the decision [dec]: its thread is paused, or has already
    taken this decision when the process died before the commit. *)
Inductive reviewable (rid dec : string) (snap : snapshot) (d : database) : Prop :=
  | reviewable_paused :
      next snap = ["exception_node"] → paused_review rid (values snap) d →
      reviewable rid dec snap d
  | reviewable_decided :
      final_decision (values snap) = Some dec → dict_get interrupt_key (values snap) = None →
      reviewable rid dec snap d.

Lemma world_session s : committed s = working s → session_of (world_of s) = s.
Proof. apply session_of_world_of. Qed.

Lemma invoke_paused rid d s t :
  in_strs d ["approved"; "rejected"] = true → committed s = working s →
  next (aget_state rid t) = ["exception_node"] →
  paused_review rid (values (aget_state rid t)) (committed s) →
  ∃ st2 t', invoke graph rid (Resume d) (s, t) = (Ok st2, (s, t'))
    ∧ decided_outcome d st2 ∧ dict_get interrupt_key st2 = None
    ∧ aget_state rid t' = mk_snapshot st2 []
    ∧ ∀ rid', rid' ≠ rid → aget_state rid' t' = aget_state rid' t.
Proof.
  intros Hd Hc Hn [H1 H2 H3 H4].
  destruct (resume_logged model_fields triage_fields replies sla_hours d rid
    (values (aget_state rid t)) (world_of s) Hd H1 H4) as (st2 & Hr & Ho).
  destruct (ainvoke_documented graph rid (Resume d) t (world_of s) "exception_node"
    (Some (JStr d)) (values (aget_state rid t)) (Completed st2) (world_of s)) as (t' & Ei & Et).
  - cbn. by rewrite Hn.
  - exact Hr.
  - exists st2, t'. unfold invoke. cbn [fst snd]. rewrite Ei, world_session by done.
    split; [done|]. split; [done|]. split; [|split; [done|]].
    + apply (run_keeps_key _ _ _ _ interrupt_key) in Hr; [|done..]. by rewrite <- H3.
    + intros rid' Hne. rewrite <- (ainvoke_own_thread graph rid (Resume d) t (world_of s)) by done.
      by rewrite Ei.
Qed.

Lemma interrupt_of_none st : dict_get interrupt_key st = None → interrupt_of st = None.
Proof. unfold interrupt_of. by intros ->. Qed.

Lemma finish_review_runs s (t : threads) run d st :
  review_wf s → decisions_coherent (working s) → run ∈ workflow_runs (working s) →
  decisions_of (run_id run) (working s) = [] → in_strs d ["approved"; "rejected"] = true →
  dict_get "human_decision" st = Some (JStr d) → dict_get interrupt_key st = None →
  ∃ dec s', finish_review run (run_id run) d st (s, t)
      = (Ok (Decided (decided_run d run) dec false), (s', t))
    ∧ review_wf s' ∧ decisions_coherent (working s')
    ∧ disposition dec = d ∧ decision_run_id dec = run_id run
    ∧ review_decisions (working s') = review_decisions (working s) ++ [dec]
    ∧ workflow_runs (working s')
      = update_where (λ r, String.eqb (run_id r) (run_id run)) (λ _, decided_run d run)
          (workflow_runs (working s)).
Proof.
  intros W Hco Hin Hno Hd Hg Hi.
  destruct (record_decision_runs s run d W Hin Hno Hd)
    as (dec & f & s' & Er & Edec & Hc' & Hw & Hr & Hp).
  exists dec, s'. unfold finish_review. rewrite (interrupt_of_none st Hi), Hg.
  cbn [as_str sql_eq]. rewrite String.eqb_refl. cbn [negb]. unfold in_session. cbn [fst snd].
  rewrite Er. split; [done|].
  destruct (recorded_wf s run d s' dec f W Hco Hin Hno Hd Edec Hc' Hw Hr Hp) as [W' Hco'].
  split; [done|]. split; [done|]. rewrite Edec. split; [done|]. split; [done|].
  by rewrite Hw, Edec.
Qed.

(** The first decision of a run. *)
Lemma decide_first run d s t :
  review_wf s → decisions_coherent (working s) →
  run ∈ workflow_runs (working s) → processing_status_of run = "awaiting_review" →
  decisions_of (run_id run) (working s) = [] → in_strs d ["approved"; "rejected"] = true →
  reviewable (run_id run) d (aget_state (run_id run) t) (committed s) →
  ∃ dec s' t', decide_review graph (run_id run) d (s, t)
      = (Ok (Decided (decided_run d run) dec false), (s', t'))
    ∧ review_wf s' ∧ decisions_coherent (working s')
    ∧ review_decisions (committed s') = review_decisions (committed s) ++ [dec]
    ∧ workflow_runs (committed s')
      = update_where (λ r, String.eqb (run_id r) (run_id run)) (λ _, decided_run d run)
          (workflow_runs (committed s))
    ∧ decision_run_id dec = run_id run ∧ settled_by dec (decided_run d run)
    ∧ disposition dec = d
    ∧ final_decision (values (aget_state (run_id run) t')) = Some d
    ∧ ∀ rid', rid' ≠ run_id run → aget_state rid' t' = aget_state rid' t.
Proof.
  intros W Hco Hin Haw Hno Hd Hrev. destruct (locked_run_found s run W Hin) as (o & El & Ho).
  assert (o = None) as ->.
  { destruct o as [x|]; [|done]. destruct Ho as [Hx Hk]. exfalso.
    assert (Hx' : x ∈ decisions_of (run_id run) (working s)).
    { apply elem_of_where. split; [done|]. by apply String.eqb_eq. }
    rewrite Hno in Hx'. by apply not_elem_of_nil in Hx'. }
  unfold decide_review. rewrite bind_unfold. unfold in_session at 1. cbn [fst snd]. rewrite El, Haw.
  change (String.eqb "awaiting_review" "awaiting_review") with true. cbn [negb].
  rewrite bind_unfold.
  unfold get_state, gets. cbn [snd].
  assert (Hc : committed s = working s) by apply W. rewrite Hc.
  destruct Hrev as [Hn Hp|Hf Hk].
  - pose proof (invoke_paused _ d s t Hd Hc Hn Hp) as (st2 & t' & Ei & Hout & Hk & Et & Hoth).
    rewrite (pr_undecided _ _ _ Hp).
    destruct (values (aget_state (run_id run) t)) as [|kv vs] eqn:Ev.
    { pose proof (pr_run_id _ _ _ Hp) as H. done. }
    rewrite Hn. cbn [is_nil orb]. rewrite bind_unfold, Ei.
    destruct Hout as (Hg & _).
    destruct (finish_review_runs s t' run d st2 W Hco Hin Hno Hd Hg Hk)
      as (dec & s' & Ef & W' & C' & Edisp & Erid & Edec & Eruns).
    exists dec, s', t'. rewrite Ef, (proj1 W').
    repeat (split; [done|]). split; [by rewrite <- Edisp|]. split; [done|].
    split; [|done]. rewrite Et. cbn [values]. unfold final_decision. rewrite Hg. cbn [as_str]. by rewrite Hd.
  - rewrite Hf, String.eqb_refl. cbn [negb]. apply final_decision_get in Hf as Hg.
    destruct Hg as [Hg _].
    destruct (finish_review_runs s t run d _ W Hco Hin Hno Hd Hg Hk)
      as (dec & s' & Ef & W' & C' & Edisp & Erid & Edec & Eruns).
    exists dec, s', t. rewrite Ef, (proj1 W').
    repeat (split; [done|]). split; [by rewrite <- Edisp|]. split; [done|].
    done.
Qed.

(** The first decision on a run that awaits review is recorded exactly once:
    with a paused thread, or with a thread that already took this decision before
    a crash, [decide_review] returns, and commits in one step the decision, the
    run's statuses (complete; ready for posting when approved, blocked when
    rejected) and nothing else of the two tables; the thread then holds the same
    decision, so that a crash before the commit is repaired by asking again. *)
Theorem decide_review_correct run d s t :
  review_wf s → decisions_coherent (working s) →
  run ∈ workflow_runs (working s) → processing_status_of run = "awaiting_review" →
  decisions_of (run_id run) (working s) = [] → in_strs d ["approved"; "rejected"] = true →
  reviewable (run_id run) d (aget_state (run_id run) t) (committed s) →
  ∃ dec s' t', decide_review graph (run_id run) d (s, t)
      = (Ok (Decided (decided_run d run) dec false), (s', t'))
    ∧ committed s' = working s'
    ∧ review_decisions (committed s') = review_decisions (committed s) ++ [dec]
    ∧ workflow_runs (committed s')
      = update_where (λ r, String.eqb (run_id r) (run_id run)) (λ _, decided_run d run)
          (workflow_runs (committed s))
    ∧ decision_run_id dec = run_id run ∧ settled_by dec (decided_run d run)
    ∧ disposition dec = d
    ∧ final_decision (values (aget_state (run_id run) t')) = Some d
    ∧ ∀ rid', rid' ≠ run_id run → aget_state rid' t' = aget_state rid' t.
Proof.
  intros W Hco Hin Haw Hno Hd Hrev.
  destruct (decide_first run d s t W Hco Hin Haw Hno Hd Hrev)
    as (dec & s' & t' & E1 & [Hc' _] & _ & H). by exists dec, s', t'.
Qed.

(** A decision that exists. *)
Lemma decide_review_found run dec requested s t :
  review_wf s → run ∈ workflow_runs (working s) → dec ∈ review_decisions (working s) →
  decision_run_id dec = run_id run →
  decide_review graph (run_id run) requested (s, t)
  = (Ok (if String.eqb (disposition dec) requested then Decided run dec true
         else Conflict (mk_conflict "review_decision_conflict"
                "A different review decision already exists"
                (Some [("existing_decision", JStr (disposition dec));
                       ("requested_decision", JStr requested)]))), (s, t)).
Proof.
  intros W Hin Hdec Hk. destruct (locked_run_found s run W Hin) as (o & El & Ho).
  assert (o = Some dec) as ->.
  { destruct W as [Hc [_ W2 _ _]]. unfold business_of in W2. rewrite Hc in W2. cbn in W2.
    destruct o as [x|].
    - destruct Ho as [Hx Hkx]. f_equal.
      apply (NoDup_fmap_inj decision_run_id (review_decisions (working s))); [done..|congruence].
    - assert (Hx : dec ∈ decisions_of (run_id run) (working s)).
      { apply elem_of_where. split; [done|]. by apply String.eqb_eq. }
      rewrite Ho in Hx. by apply not_elem_of_nil in Hx. }
  unfold decide_review. rewrite bind_unfold. unfold in_session at 1. cbn [fst snd]. rewrite El.
  destruct (String.eqb (disposition dec) requested); [|done]. cbn [negb].
  rewrite bind_unfold. cbn. destruct W as [Hc _]. destruct s as [cm wk ev]. cbn in *. by subst.
Qed.

(** A decision that exists is never replaced: asking for it again returns it as
    an idempotent repeat, asking for the other one is a conflict that names both,
    and neither changes a table or the thread. *)
Theorem decide_review_repeated run dec requested s t :
  review_wf s → run ∈ workflow_runs (working s) → dec ∈ review_decisions (working s) →
  decision_run_id dec = run_id run →
  decide_review graph (run_id run) requested (s, t)
  = (Ok (if String.eqb (disposition dec) requested then Decided run dec true
         else Conflict (mk_conflict "review_decision_conflict"
                "A different review decision already exists"
                (Some [("existing_decision", JStr (disposition dec));
                       ("requested_decision", JStr requested)]))), (s, t)).
Proof. apply decide_review_found. Qed.

(** The reviews of many clients, with crashes: a decision of the API, or a graph
    call of some request that stops before it writes the business tables. *)
Inductive review_step : session * threads → session * threads → Prop :=
  | step_decide rid d s t r s' t' :
      in_strs d ["approved"; "rejected"] = true →
      decide_review graph rid d (s, t) = (r, (s', t')) → review_step (s, t) (s', t')
  | step_graph rid input s t r s' t' :
      invoke graph rid input (s, t) = (r, (s', t')) → review_step (s, t) (s', t').

(** What a step keeps. *)
Record review_inv (s s' : session) : Prop := {
  ri_wf : review_wf s';
  ri_coherent : decisions_coherent (working s');
  ri_final : ∃ new, review_decisions (working s') = review_decisions (working s) ++ new
}.

Lemma review_inv_refl s : review_wf s → decisions_coherent (working s) → review_inv s s.
Proof. intros W H. split; [done|done|exists []; by rewrite app_nil_r]. Qed.

Lemma review_inv_trans s1 s2 s3 : review_inv s1 s2 → review_inv s2 s3 → review_inv s1 s3.
Proof.
  intros [_ _ [n1 E1]] [W C [n2 E2]]. split; [done|done|].
  exists (n1 ++ n2). by rewrite E2, E1, app_assoc.
Qed.

Lemma invoke_inv rid input s t r s' t' :
  review_wf s → decisions_coherent (working s) → invoke graph rid input (s, t) = (r, (s', t')) →
  review_inv s s' ∧ keeps_business (business_of s) s'.
Proof.
  intros W Hco. unfold invoke. cbn [fst snd].
  assert (Hc : committed s = working s) by apply W.
  assert (Hk : keeps_world (business_of s) (world_of s)).
  { unfold keeps_world. rewrite world_session by done. by apply business_kept. }
  pose proof (kept_ainvoke (business_of s) model_fields triage_fields replies sla_hours
    rid input t (world_of s) Hk) as H.
  destruct (ainvoke graph rid input t (world_of s)) as [[r' t''] w']. cbn [snd] in H.
  intros [= <- <- <-]. split; [|exact H]. split.
  - by eapply invoked_wf.
  - by eapply invoked_coherent.
  - exists []. rewrite app_nil_r. destruct H as [_ _ -> _ _ _]. cbn. by rewrite Hc.
Qed.

Lemma finish_inv s (t : threads) run d st r s' t' :
  review_wf s → decisions_coherent (working s) → run ∈ workflow_runs (working s) →
  decisions_of (run_id run) (working s) = [] → in_strs d ["approved"; "rejected"] = true →
  finish_review run (run_id run) d st (s, t) = (r, (s', t')) → review_inv s s'.
Proof.
  intros W Hco Hin Hno Hd. unfold finish_review.
  destruct (interrupt_of st); [intros [= _ <- _]; by apply review_inv_refl|].
  destruct (negb _); [intros [= _ <- _]; by apply review_inv_refl|].
  destruct (record_decision_runs s run d W Hin Hno Hd)
    as (dec & f & s1 & Er & Edec & Hc' & Hw & Hr & Hp).
  unfold in_session. cbn [fst snd]. rewrite Er. intros [= _ <- _].
  destruct (recorded_wf s run d s1 dec f W Hco Hin Hno Hd Edec Hc' Hw Hr Hp) as [W' Hco'].
  split; [done|done|]. exists [dec]. by rewrite Hw.
Qed.

Lemma decide_inv rid d s t r s' t' :
  review_wf s → decisions_coherent (working s) → in_strs d ["approved"; "rejected"] = true →
  decide_review graph rid d (s, t) = (r, (s', t')) → review_inv s s'.
Proof.
  intros W Hco Hd. pose proof (review_inv_refl s W Hco) as Hrefl.
  destruct (has_run rid (working s)) eqn:Hrun.
  2:{ unfold decide_review. rewrite bind_unfold. unfold in_session at 1. cbn [fst snd].
      rewrite locked_run_missing by done. by intros [= _ <- _]. }
  apply existsb_exists in Hrun as (run & Hin%list_elem_of_In & <-%String.eqb_eq).
  destruct (locked_run_found s run W Hin) as ([x|] & El & Ho).
  - destruct Ho as [Hx Hk]. rewrite (decide_review_found run x d s t W Hin Hx Hk).
    by intros [= _ <- _].
  - unfold decide_review. rewrite bind_unfold. unfold in_session at 1. cbn [fst snd]. rewrite El.
    destruct (negb _); [by intros [= _ <- _]|]. rewrite bind_unfold. unfold get_state, gets.
    cbn [snd]. destruct (final_decision (values (aget_state (run_id run) t))) as [c|].
    { destruct (negb _); [by intros [= _ <- _]|]. by apply finish_inv. }
    destruct (_ || _); [by intros [= _ <- _]|]. rewrite bind_unfold.
    destruct (invoke graph (run_id run) (Resume d) (s, t)) as [[st|e] [s1 t1]] eqn:Ei;
      destruct (invoke_inv _ _ _ _ _ _ _ W Hco Ei) as [Hi [K1 _ K3 _ _ _]];
      [|by intros [= _ <- _]].
    intros Hf. apply (review_inv_trans _ s1); [done|]. destruct Hi as [W1 C1 _].
    assert (Hc : committed s = working s) by apply W. cbn in K1, K3. rewrite Hc in K1, K3.
    apply (finish_inv s1 t1 run d st r s' t'); try done; [by rewrite K1|].
    unfold decisions_of. by rewrite K3.
Qed.

(** C14 Decisions are final: through any sequence of decisions, repeats, conflicting
    requests, graph calls and crashes between the graph and the commit, the
    decisions that exist are kept, each run has at most one, and each decision
    stands with its run complete and posted accordingly. *)
Theorem review_decisions_final s t s' t' :
  review_wf s → decisions_coherent (working s) → rtc review_step (s, t) (s', t') →
  (∃ new, review_decisions (committed s') = review_decisions (committed s) ++ new)
  ∧ NoDup (decision_run_id <$> review_decisions (committed s'))
  ∧ decisions_coherent (committed s').
Proof.
  intros W Hco Hrtc. assert (H : review_inv s s').
  { remember (s, t) as x eqn:Ex. remember (s', t') as y eqn:Ey.
    revert s t Ex W Hco. induction Hrtc as [x|x [s1 t1] y Hs _ IH]; intros s t Ex W Hco; subst.
    - injection Ex as -> ->. by apply review_inv_refl.
    - assert (Hi : review_inv s s1).
      { inversion Hs; subst; [by eapply decide_inv|].
        by eapply invoke_inv. }
      apply (review_inv_trans _ s1); [done|]. destruct Hi as [W1 C1 _]. by eapply IH. }
  destruct H as [[Hc' [_ W2 _ _]] C' F]. destruct W as [Hc _].
  rewrite Hc', Hc. split; [done|]. split; [|done]. cbn in W2. by rewrite Hc' in W2.
Qed.
End Decisions.

(** ** Examples *)

(** The run of the invoice over 2000, paused, with its row awaiting review. *)
Definition demo_review : session * threads :=
  let d := w_db (demo_run 2000).2 in
  let d := on_workflow_runs (λ t, set_processing_status "awaiting_review" <$> t) d in
  (mk_session d d (w_env (demo_run 2000).2),
   [("r1", mk_snapshot (demo_final (demo_run 2000)) ["exception_node"])]).

Definition demo_review_run : WorkflowRun :=
  mkWorkflowRun 1 "r1" 1 "running" "awaiting_review" "not_ready" None 0.

Lemma demo_business : business_of demo_review.1
  = mk_business [demo_review_run] [] (rng (senv demo_review.1)) (rng_pos (senv demo_review.1)).
Proof. unfold business_of. f_equal; vm_compute; reflexivity. Qed.

Lemma run_keeps_rng mf tf replies sla n name resume st w :
  rng (w_env (run_graph (build_state_graph mf tf replies sla) n name resume st w).2)
  = rng (w_env w).
Proof.
  exact (kb_rng _ _ (kept_run_graph (business_of (session_of w)) mf tf replies sla n name resume
    st w (keeps_refl w))).
Qed.

Lemma demo_review_rng n : rng (senv demo_review.1) n = (1000 + N.of_nat n)%N.
Proof.
  exact (f_equal (λ f, f n) (run_keeps_rng demo_fields demo_triage (demo_replies 2000) 72
    recursion_limit "extract_node" None demo_input demo_graph_world)).
Qed.

Lemma demo_review_wf : review_wf demo_review.1 ∧ decisions_coherent (working demo_review.1).
Proof.
  split; [split; [reflexivity|]|].
  - rewrite demo_business. split; cbn [b_runs b_decisions b_rng b_pos].
    + repeat constructor; set_solver.
    + constructor.
    + intros n _. apply not_elem_of_nil.
    + intros n m _ Hn. rewrite !demo_review_rng. lia.
  - intros dec Hdec. exfalso. revert Hdec.
    assert (review_decisions (working demo_review.1) = []) as -> by (vm_compute; reflexivity).
    apply not_elem_of_nil.
Qed.

Lemma demo_review_paused :
  paused_review "r1" (values (aget_state "r1" demo_review.2)) (committed demo_review.1).
Proof. split; vm_compute; reflexivity. Qed.

Lemma demo_runs : workflow_runs (working demo_review.1) = [demo_review_run].
Proof. vm_compute. reflexivity. Qed.

Lemma decide_review_correct_witness :
  ∃ dec s' t', decide_review (build_state_graph demo_fields demo_triage (demo_replies 2000) 72)
      "r1" "approved" demo_review
    = (Ok (Decided (decided_run "approved" demo_review_run) dec false), (s', t'))
    ∧ review_decisions (committed s') = [dec].
Proof.
  destruct demo_review_wf as [W C].
  destruct (decide_review_correct demo_fields demo_triage (demo_replies 2000) 72 demo_review_run
    "approved" demo_review.1 demo_review.2 W C)
    as (dec & s' & t' & E & _ & Hd & _).
  - rewrite demo_runs. apply list_elem_of_here.
  - reflexivity.
  - vm_compute. reflexivity.
  - reflexivity.
  - apply reviewable_paused; [reflexivity|exact demo_review_paused].
  - exists dec, s', t'. split; [exact E|]. rewrite Hd. vm_compute. reflexivity.
Defined.

(** The same after an approval. *)
Definition demo_decision : ReviewDecision := mkReviewDecision 7 "r1" "approved" 0 None.
Definition demo_decided : session :=
  let d := on_review_decisions (λ _, [demo_decision]) (working demo_shipments) in
  let d := on_workflow_runs (λ _, [decided_run "approved" demo_review_run]) d in
  mk_session d d (counting_env 0).

Lemma demo_decided_wf : review_wf demo_decided ∧ decisions_coherent (working demo_decided).
Proof.
  split; [split; [reflexivity|]|].
  - split; cbn.
    + repeat constructor; set_solver.
    + repeat constructor; set_solver.
    + intros n _. rewrite list_elem_of_singleton. lia.
    + intros n m _ Hn. lia.
  - intros dec ->%list_elem_of_singleton. split; [reflexivity|].
    exists (decided_run "approved" demo_review_run). split; [apply list_elem_of_here|].
    by repeat split.
Qed.

Lemma decide_review_repeated_witness :
  decide_review (build_state_graph demo_fields demo_triage (demo_replies 2000) 72)
    "r1" "approved" (demo_decided, demo_review.2)
  = (Ok (Decided (decided_run "approved" demo_review_run) demo_decision true),
     (demo_decided, demo_review.2)).
Proof.
  destruct demo_decided_wf as [W _].
  apply (decide_review_repeated demo_fields demo_triage (demo_replies 2000) 72
    (decided_run "approved" demo_review_run) demo_decision "approved" demo_decided demo_review.2 W).
  - apply list_elem_of_here.
  - apply list_elem_of_here.
  - reflexivity.
Defined.

Lemma review_decisions_final_witness :
  ∃ new, review_decisions (committed demo_decided) = review_decisions (committed demo_decided) ++ new.
Proof.
  destruct demo_decided_wf as [W C].
  apply (review_decisions_final demo_fields demo_triage (demo_replies 2000) 72
    demo_decided demo_review.2 demo_decided demo_review.2 W C).
  apply rtc_once.
  apply (step_decide demo_fields demo_triage (demo_replies 2000) 72 "r1" "approved" _ _
    (Ok (Decided (decided_run "approved" demo_review_run) demo_decision true))); [reflexivity|].
  vm_compute. reflexivity.
Defined.
