(* ===== verification/WorkflowRoutes.v ===== *)
(** * The workflow routes

    [app/api/routes/workflow.py].  A handler runs in the request's session; an
    [HTTPException] is a value of [http], any other exception is raised (the server
    answers 500).  The [updated_at] column is not modelled. *)

From S2P Require Import Prelude PyText LoadNumbers DateTime PyFloat Json Database MissingDocs.
From S2P Require Import Shipments Reconciliation SlaScanner Extraction Workflow WorkflowSafety.
From S2P Require Import Frame BusinessState.
From stdpp Require Import relations.
From Stdlib Require Import Ascii.
Local Open Scope string_scope.
Local Open Scope list_scope.
Local Open Scope nat_scope.

(** A response, or an [HTTPException]: its status code and its detail. *)
Inductive http (A : Type) :=
  | Response (a : A)
  | HttpError (status_code : Z) (detail : json).
Arguments Response {A} a.
Arguments HttpError {A} status_code detail.

Definition not_found {A} : http A := HttpError 404 (JStr "Workflow run not found").

(** ** Projections of a row *)

Definition extracted_carrier (ex : option json) : option json :=
  if opt_truthy jtruthy ex then get_key ex "carrier_name" else None.

Definition extracted_amount (ex : option json) : res (option float) :=
  if opt_truthy jtruthy ex then
    match get_key ex "doc_type" with
    | Some (JStr t) =>
        if String.eqb t "invoice" then
          match get_key ex "total_amount" with
          | None | Some JNull => Ok None
          | Some amount => py_float amount
          end
        else Ok None
    | _ => Ok None
    end
  else Ok None.

(** [payload.get("reason") or payload.get("error")] *)
Definition exception_reason_of (run : WorkflowRun) : option json :=
  jor (get_key (interrupt_payload run) "reason") (get_key (interrupt_payload run) "error").

Record triage_view := mk_triage_view {
  tv_route : option json; tv_reasoning : option json; tv_confidence : option json
}.

Definition triage_from_payload (payload : option json) : triage_view :=
  if opt_truthy jtruthy payload then
    mk_triage_view (get_key payload "triage_route") (get_key payload "triage_reasoning")
      (get_key payload "triage_confidence")
  else mk_triage_view None None None.

(** ** [POST /workflow/run] *)

(** [persist_run_state]: the new values of the row. *)
Definition persisted_run (status_value : string) (processing posting : option string)
    (payload : option json) (preserve_payload : bool) (run : WorkflowRun) : WorkflowRun :=
  let run := set_status status_value run in
  let run := set_processing_status (default status_value (str_or processing None)) run in
  let run := match posting with Some p => set_posting_status p run | None => run end in
  if preserve_payload then run else set_interrupt_payload payload run.

Definition persist_run_state (status_value : string) (processing posting : option string)
    (payload : option json) (preserve_payload : bool) (run : WorkflowRun) : M session WorkflowRun :=
  let run := persisted_run status_value processing posting payload preserve_payload run in
  _ ← save_run run;
  _ ← commit;
  mret run.

Definition new_run_document (name : string) (i : Z) (now : datetime) : Document :=
  mkDocument i name "unknown" "received" None None None None None None None None None now.

Definition new_run (rid : string) (did : Z) (pk : Z) (now : datetime) : WorkflowRun :=
  mkWorkflowRun pk rid did "running" "running" "not_ready" None now.

Definition initial_state (rid : string) (did : Z) (file_bytes : chars) (name : string) : dict :=
  [("run_id", JStr rid); ("document_id", JStr (str_of_Z did));
   ("file_bytes", JStr (of_chars file_bytes)); ("filename", JStr name);
   ("extraction", JNull); ("match_result", JNull); ("exception_reason", JNull);
   ("triage_route", JNull); ("triage_reasoning", JNull); ("triage_confidence", JNull);
   ("human_decision", JNull); ("status", JStr "running"); ("processing_status", JStr "running");
   ("posting_status", JStr "not_ready"); ("messages", JArr []); ("iteration_count", JInt 0)].

(** [result.get(k, d)] of a string. *)
Definition result_str (k d : string) (result : dict) : string :=
  default d (as_str (dict_get k result)).

Section Routes.
Context `{E : GraphEngine} (graph : state_graph).

Abbreviation request := (M (session * threads)).

(** The rows of a new run. *)
Definition create_run (name : string) : M session WorkflowRun :=
  u ← uuid4;
  document ← insert_document (new_run_document name);
  run ← insert_run (new_run (uuid_str u) (doc_id document));
  _ ← commit;
  mret run.

Definition view (run : WorkflowRun) (decision : option ReviewDecision) : request state_payload :=
  in_session (status ← select (reconciliation_status_for_run (run_id run));
              mret (state_payload_of run decision status)).

(** What is stored when the graph raises. *)
Definition persist_failure (run : WorkflowRun) (e : exn) : request WorkflowRun :=
  in_session (persist_run_state "failed" (Some "failed") None
                (Some (JObj [("error", JStr (exn_msg e))])) false run).

(** After the graph: paused, or ended. *)
Definition persist_result (run : WorkflowRun) (result : dict) : request WorkflowRun :=
  in_session
    (match interrupt_of result with
     | Some p => persist_run_state "awaiting_review" (Some "awaiting_review") (Some "not_ready")
                   (Some p) false run
     | None => persist_run_state (result_str "status" "complete" result)
                 (Some (result_str "processing_status" "complete" result))
                 (Some (result_str "posting_status" "not_ready" result)) None true run
     end).

Definition run_workflow (file_bytes : chars) (name : string) : request (http state_payload) :=
  match detect_file_type name with
  | Raise e => mret (HttpError 415 (JStr (exn_msg e)))
  | Ok _ =>
      run ← in_session (create_run name);
      let state := initial_state (run_id run) (document_id run) file_bytes name in
      try_except
        (result ← invoke graph (run_id run) (Start state);
         mret (inr result))
        (λ e, if isinstance_exn e ExtractionError then
                Some (_ ← persist_failure run e; mret (inl (HttpError 422 (JStr (exn_msg e)))))
              else if is_Exception e then Some (_ ← persist_failure run e; raise e)
              else None)
      ≫= λ r : http state_payload + dict,
      match r with
      | inl error => mret error
      | inr result =>
          run ← persist_result run result;
          p ← view run None;
          mret (Response p)
      end
  end.

(** ** [POST /workflow/{run_id}/resume] *)

Definition conflict_detail (c : conflict) : json :=
  JObj ([("code", JStr (code c)); ("message", JStr (conflict_message c))] ++ default [] (details c)).

Definition resume_workflow (rid decision : string) : request (http (state_payload * bool)) :=
  outcome ← decide_review graph rid decision;
  match outcome with
  | Conflict c => _ ← in_session rollback; mret (HttpError 409 (conflict_detail c))
  | NoSuchRun => mret not_found
  | Decided run dec idempotent =>
      p ← view run (Some dec);
      mret (Response (p, idempotent))
  end.

(** ** Reading *)

Definition get_workflow_run (rid : string) (d : database) : option WorkflowRun :=
  head (runs_with rid d).
Definition get_review_decision (rid : string) (d : database) : option ReviewDecision :=
  head (decisions_of rid d).

(** [GET /workflow/{run_id}/status]; the payload only while awaiting review. *)
Definition workflow_status (rid : string) (d : database) : http (state_payload * option json) :=
  match get_workflow_run rid d with
  | None => not_found
  | Some run =>
      Response (state_payload_of run (get_review_decision rid d)
                  (reconciliation_status_for_run rid d),
                if String.eqb (processing_status run) "awaiting_review"
                then interrupt_payload run else None)
  end.

(** [GET /workflow/{run_id}/audit], the oldest entry first. *)
Definition workflow_audit (rid : string) (d : database) : http (list WorkflowAuditLog) :=
  match get_workflow_run rid d with
  | None => not_found
  | Some _ => Response (sort_by (λ a b, (audit_created_at a <=? audit_created_at b)%Z)
                (where_ (λ a, String.eqb (audit_run_id a) rid) (audit_logs d)))
  end.

(** [GET /workflow/runs] *)
Record run_view := mk_run_view {
  rv_state : state_payload;
  rv_filename : string;
  rv_doc_type : option json;
  rv_carrier_name : option json;
  rv_amount : option float;
  rv_triage : triage_view;
  rv_created_at : datetime
}.

Definition triage_priority : list (string * Z) :=
  [("escalate_priority", 0%Z); ("escalate_standard", 1%Z); ("auto_resolve", 2%Z)].

(** [_run_sort_key]; tuples compare lexicographically. *)
Definition run_sort_key (r : run_view) : Z * Z * datetime :=
  let review_priority :=
    if String.eqb (sp_processing_status (rv_state r)) "awaiting_review" then 0%Z else 1%Z in
  let route_rank := match tv_route (rv_triage r) with
                    | Some (JStr route) =>
                        if str_truthy route then default 3%Z (dict_get route triage_priority) else 3%Z
                    | _ => 3%Z
                    end in
  (review_priority, route_rank, rv_created_at r).

Definition key_leb (a b : Z * Z * datetime) : bool :=
  let '(a1, a2, a3) := a in
  let '(b1, b2, b3) := b in
  (a1 <? b1)%Z || ((a1 =? b1)%Z && ((a2 <? b2)%Z || ((a2 =? b2)%Z && (a3 <=? b3)%Z))).

Definition run_rows (d : database) : list (WorkflowRun * Document) :=
  r ← sort_by (λ a b, (run_created_at b <=? run_created_at a)%Z) (workflow_runs d);
  doc ← where_ (λ x, Z.eqb (doc_id x) (document_id r)) (documents d);
  [(r, doc)].

(** [document.extracted_data or {}] *)
Definition or_empty (j : option json) : option json :=
  if opt_truthy jtruthy j then j else Some (JObj []).

Definition view_of_run (d : database) (row : WorkflowRun * Document) : res run_view :=
  let '(run, document) := row in
  let ex := or_empty (extracted_data document) in
  match extracted_amount ex with
  | Raise e => Raise e
  | Ok amount =>
      Ok (mk_run_view
            (state_payload_of run (get_review_decision (run_id run) d)
               (reconciliation_status_for_run (run_id run) d))
            (filename document) (jor (get_key ex "doc_type") (Some (JStr (doc_type document))))
            (extracted_carrier ex) amount (triage_from_payload (interrupt_payload run))
            (run_created_at run))
  end.

Fixpoint map_res {A B} (f : A → res B) (l : list A) : res (list B) :=
  match l with
  | [] => Ok []
  | x :: l' => match f x with
               | Raise e => Raise e
               | Ok y => match map_res f l' with Ok ys => Ok (y :: ys) | Raise e => Raise e end
               end
  end.

Definition workflow_runs_view (d : database) : res (list run_view) :=
  match map_res (view_of_run d) (take 20 (run_rows d)) with
  | Ok runs => Ok (sort_by (λ a b, key_leb (run_sort_key a) (run_sort_key b)) runs)
  | Raise e => Raise e
  end.

(** [GET /workflow/{run_id}] *)
Record match_view := mk_match_view {
  mv_matched : bool; mv_result : ReconciliationResult
}.

Record run_detail := mk_run_detail {
  rd_state : state_payload;
  rd_filename : string;
  rd_created_at : datetime;
  rd_extraction : option json;
  rd_match_result : option match_view;
  rd_exception_reason : option json;
  rd_interrupt_payload : option json;
  rd_triage : triage_view
}.

Definition latest_result (rid : string) (d : database) : option ReconciliationResult :=
  head (sort_by (λ a b, (result_created_at b <=? result_created_at a)%Z)
          (where_ (λ r, sql_eq String.eqb (result_run_id r) rid) (reconciliation_results d))).

Definition workflow_detail (rid : string) (d : database) : http run_detail :=
  let rows := run ← runs_with rid d;
              doc ← where_ (λ x, Z.eqb (doc_id x) (document_id run)) (documents d);
              [(run, doc)] in
  match rows with
  | [] => not_found
  | (run, document) :: _ =>
      let reconciliation := latest_result (run_id run) d in
      let match_result := (λ r, mk_match_view (is_nil (exception_reasons r)) r) <$> reconciliation in
      let status := r ← reconciliation;
                    reconciliation_status
                      <$> find_first (λ x, N.eqb (shipment_id x) (result_shipment_id r)) (shipments d) in
      Response (mk_run_detail
        (state_payload_of run (get_review_decision (run_id run) d) status)
        (filename document) (run_created_at run)
        (if opt_truthy jtruthy (extracted_data document) then extracted_data document else None)
        match_result (exception_reason_of run) (interrupt_payload run)
        (triage_from_payload (interrupt_payload run)))
  end.
End Routes.

(** ** Lemmas: a new run *)

Section RouteFacts.
Context `{E : GraphEngine} (model_fields : schema → json → option coerced)
        (triage_fields : json → option (string * string * float))
        (replies : claude_replies) (sla_hours : Z).

Abbreviation graph := (build_state_graph model_fields triage_fields replies sla_hours).

Lemma uuid4_runs s :
  uuid4 s = (Ok (rng (senv s) (rng_pos (senv s))),
    mk_session (committed s) (working s)
      (mk_env (doc_seq (senv s)) (run_seq (senv s)) (audit_seq (senv s)) (notif_seq (senv s))
         (clock (senv s)) (rng (senv s)) (S (rng_pos (senv s))))).
Proof. reflexivity. Qed.

Lemma insert_run_ok mk s run s' :
  insert_run mk s = (Ok run, s') →
  run = mk (run_seq (senv s)) (clock (senv s)) ∧ has_run (run_id run) (working s) = false
  ∧ committed s' = committed s ∧ working s' = on_workflow_runs (λ t, t ++ [run]) (working s)
  ∧ rng (senv s') = rng (senv s) ∧ rng_pos (senv s') = rng_pos (senv s).
Proof.
  session_unfold. intros H. repeat (case_match; simplify_eq/=; try done).
  repeat split; try done. by apply Bool.negb_true_iff.
Qed.

Lemma insert_document_ok mk s doc s' :
  insert_document mk s = (Ok doc, s') →
  doc = mk (doc_seq (senv s)) (clock (senv s)) ∧ committed s' = committed s
  ∧ working s' = on_documents (λ t, t ++ [doc]) (working s)
  ∧ rng (senv s') = rng (senv s) ∧ rng_pos (senv s') = rng_pos (senv s).
Proof. session_unfold. intros H. by repeat (case_match; simplify_eq/=; try done). Qed.

Lemma create_run_ok name s run s' :
  review_wf s → decisions_coherent (working s) → create_run name s = (Ok run, s') →
  review_wf s' ∧ decisions_coherent (working s')
  ∧ run_id run = uuid_str (rng (senv s) (rng_pos (senv s)))
  ∧ run ∈ workflow_runs (working s') ∧ decisions_of (run_id run) (working s') = []
  ∧ (∃ pk did now, run = new_run (run_id run) did pk now).
Proof.
  intros [Hc [W1 W2 W3 W4]] Hco H. unfold create_run in H.
  apply bind_ok_inv in H as (u & s1 & Hu & H). apply bind_ok_inv in H as (doc & s2 & Hd & H).
  apply bind_ok_inv in H as (run' & s3 & Hr & H). apply bind_ok_inv in H as (tt' & s4 & Hcm & H).
  injection H as -> <-. injection Hcm as _ <-. rewrite uuid4_runs in Hu.
  injection Hu as <- <-.
  apply insert_document_ok in Hd as (_ & Hdc & Hdw & Hdr & Hdp). cbn in Hdc, Hdw, Hdr, Hdp.
  apply insert_run_ok in Hr as (-> & Hno & Hrc & Hrw & Hrr & Hrp).
  unfold business_of in *. rewrite Hc in *. cbn in W1, W2, W3, W4.
  cbn [new_run run_id] in *. set (rid := uuid_str _) in *.
  assert (Hruns : workflow_runs (working s3) = workflow_runs (working s) ++ [new_run rid (doc_id doc) (run_seq (senv s2)) (clock (senv s2))])
    by (by rewrite Hrw, Hdw).
  assert (Hdecs : review_decisions (working s3) = review_decisions (working s))
    by (by rewrite Hrw, Hdw).
  assert (Hfresh : ∀ r, r ∈ workflow_runs (working s) → run_id r ≠ rid).
  { intros r Hr <-. apply Bool.not_true_iff_false in Hno. apply Hno. rewrite Hdw. cbn.
    apply existsb_exists. exists r. split; [by apply list_elem_of_In|apply String.eqb_refl]. }
  split; [split; [done|]|split; [|split; [done|split; [|split]]]].
  - unfold business_of. split; cbn [committed b_runs b_decisions b_rng b_pos senv];
      rewrite ?Hruns, ?Hdecs, ?Hrr, ?Hrp, ?Hdr, ?Hdp.
    + rewrite fmap_app. apply NoDup_app. split; [done|]. split; [|repeat constructor; set_solver].
      intros x (r & Er & Hr)%list_elem_of_fmap Hx%list_elem_of_singleton.
      apply (Hfresh r Hr). by rewrite <- Er.
    + done.
    + intros n Hn. apply W3. lia.
    + intros n m Hn. apply W4. lia.
  - intros dec. cbn [working]. rewrite Hdecs, Hruns. intros Hx.
    destruct (Hco dec Hx) as (Hdx & r & Hr & H). split; [done|]. exists r.
    rewrite elem_of_app. auto.
  - cbn [working]. rewrite Hruns, elem_of_app, list_elem_of_singleton. by right.
  - cbn [working]. unfold decisions_of. rewrite Hdecs. apply filter_none. intros dec Hx.
    apply String.eqb_neq. intros Ek. destruct (Hco dec Hx) as (_ & r & Hr & Er & _).
    apply (Hfresh r Hr). by rewrite Er.
  - by eexists _, _, _.
Qed.

Definition with_row (run' : WorkflowRun) (d : database) : database :=
  on_workflow_runs (update_where (λ r, String.eqb (run_id r) (run_id run')) (λ _, run')) d.

Lemma persist_runs sv ps po pl keep run s :
  ck_workflow_run (persisted_run sv ps po pl keep run) = true →
  persist_run_state sv ps po pl keep run s
  = (Ok (persisted_run sv ps po pl keep run),
     mk_session (with_row (persisted_run sv ps po pl keep run) (working s))
       (with_row (persisted_run sv ps po pl keep run) (working s)) (senv s)).
Proof.
  intros Hck. unfold persist_run_state, save_run. rewrite bind_unfold, bind_unfold.
  unfold insist. by rewrite Hck.
Qed.

Lemma persisted_run_id sv ps po pl keep run :
  run_id (persisted_run sv ps po pl keep run) = run_id run.
Proof. unfold persisted_run. by destruct po, keep. Qed.

(** Writing the row of a run without a decision keeps the invariants. *)
Lemma with_row_wf s run run' :
  review_wf s → decisions_coherent (working s) → run ∈ workflow_runs (working s) →
  run_id run' = run_id run → decisions_of (run_id run) (working s) = [] →
  let s' := mk_session (with_row run' (working s)) (with_row run' (working s)) (senv s) in
  review_wf s' ∧ decisions_coherent (working s')
  ∧ run' ∈ workflow_runs (working s') ∧ decisions_of (run_id run') (working s') = [].
Proof.
  intros [Hc [W1 W2 W3 W4]] Hco Hin Hid Hno. unfold business_of in *. rewrite Hc in *.
  cbn [b_runs b_decisions b_rng b_pos] in *. cbv zeta.
  split; [split; [done|]|split; [|split]].
  - unfold business_of. split; cbn [committed senv b_runs b_decisions b_rng b_pos with_row
      workflow_runs review_decisions on_workflow_runs]; [|done..].
    rewrite update_where_map; [done|]. by intros r _ ->%String.eqb_eq.
  - intros dec Hdec. cbn [working with_row on_workflow_runs review_decisions] in Hdec.
    destruct (Hco dec Hdec) as (Hdx & r & Hr & Hk & Hs). split; [done|]. exists r.
    split; [|done]. apply elem_of_update_where. exists r. split; [done|].
    assert (String.eqb (run_id r) (run_id run') = false) as ->; [|done].
    apply String.eqb_neq. intros E1.
    assert (Hx : dec ∈ decisions_of (run_id run) (working s)).
    { apply elem_of_where. split; [done|]. apply String.eqb_eq. congruence. }
    rewrite Hno in Hx. by apply not_elem_of_nil in Hx.
  - apply elem_of_update_where. exists run. split; [done|]. by rewrite Hid, String.eqb_refl.
  - by rewrite Hid.
Qed.

(** The graph call of a new run: its thread is empty, so the call runs the graph
    from its entry point. *)
Lemma invoke_start rid st s t :
  committed s = working s → aget_state rid t = mk_snapshot [] [] →
  ∃ r w' t', run_graph graph recursion_limit "extract_node" None (merge_state [] st) (world_of s)
             = (Some r, w')
    ∧ invoke graph rid (Start st) (s, t) = (call_result r, (session_of w', t'))
    ∧ aget_state rid t' = call_snapshot r.
Proof.
  intros Hc Ht.
  destruct (extract_ends model_fields triage_fields replies sla_hours 21 None (merge_state [] st)
    (world_of s)) as (r & w' & Hr).
  destruct (ainvoke_documented graph rid (Start st) t (world_of s) "extract_node" None
    (merge_state [] st) r w') as (t' & Ei & Et); [by rewrite Ht|exact Hr|].
  exists r, w', t'. split; [exact Hr|]. split; [|done]. unfold invoke. cbn [fst snd]. by rewrite Ei.
Qed.

(** A completed run has a final status. *)
Lemma completed_processing n name resume st w st' w' :
  run_graph graph n name resume st w = (Some (Completed st'), w') →
  result_str "processing_status" "complete" st' ∈ ["failed"; "complete"].
Proof.
  intros (st1 & ->)%completed_inv. unfold result_str. rewrite complete_processing.
  destruct (unresolved_exception st1); cbn; set_solver.
Qed.

Lemma initial_get k rid did bytes name :
  in_strs k ["run_id"; "human_decision"; interrupt_key] = true →
  dict_get k (merge_state [] (initial_state rid did bytes name))
  = dict_get k [("run_id", JStr rid); ("human_decision", JNull)].
Proof.
  intros Hk%in_strs_In. repeat (apply elem_of_cons in Hk as [->|Hk];
    [unfold initial_state; by state_get|]). by apply not_elem_of_nil in Hk.
Qed.

Lemma run_keeps_start k n name st w r w' :
  in_strs k ["run_id"; "human_decision"; interrupt_key] = true →
  run_graph graph n name None st w = (Some r, w') →
  dict_get k (result_state r) = dict_get k st.
Proof.
  intros Hk%in_strs_In Hr. apply (run_keeps_key _ _ _ _ k) in Hr; [done|..];
    repeat (apply elem_of_cons in Hk as [->|Hk]; [done|]); by apply not_elem_of_nil in Hk.
Qed.

Lemma persist_ok sv ps po pl keep run s run' s' :
  persist_run_state sv ps po pl keep run s = (Ok run', s') →
  run' = persisted_run sv ps po pl keep run.
Proof.
  unfold persist_run_state, save_run. rewrite bind_unfold, bind_unfold. unfold insist.
  destruct (ck_workflow_run _); [|done]. by intros [= <- _].
Qed.

Lemma view_runs run dec s (t : threads) :
  view run dec (s, t)
  = (Ok (state_payload_of run dec (reconciliation_status_for_run (run_id run) (working s))), (s, t)).
Proof. reflexivity. Qed.

(** What a response awaiting review leaves behind. *)
Lemma run_workflow_paused bytes name s t p s1 t1 :
  review_wf s → decisions_coherent (working s) →
  aget_state (uuid_str (rng (senv s) (rng_pos (senv s)))) t = mk_snapshot [] [] →
  run_workflow graph bytes name (s, t) = (Ok (Response p), (s1, t1)) →
  sp_processing_status p = "awaiting_review" →
  review_wf s1 ∧ decisions_coherent (working s1)
  ∧ ∃ run, run ∈ workflow_runs (working s1) ∧ run_id run = sp_run_id p
    ∧ processing_status_of run = "awaiting_review"
    ∧ decisions_of (run_id run) (working s1) = []
    ∧ next (aget_state (run_id run) t1) = ["exception_node"]
    ∧ paused_review (run_id run) (values (aget_state (run_id run) t1)) (committed s1).
Proof.
  intros W Hco Ht. unfold run_workflow. destruct (detect_file_type name) as [ft|e]; [|done].
  rewrite bind_unfold. unfold in_session at 1. cbn [fst snd].
  destruct (create_run name s) as [[run|e] s0] eqn:Ec; [|done].
  destruct (create_run_ok name s run s0 W Hco Ec) as (W0 & C0 & Hid & Hin & Hno & pk & did & now & Erun).
  rewrite <- Hid in Ht. rewrite bind_unfold. unfold try_except. rewrite bind_unfold.
  set (st := initial_state _ _ _ _).
  destruct (invoke_start (run_id run) st s0 t (proj1 W0) Ht) as (r & w' & t' & Hr & Ei & Et).
  destruct (invoke_inv _ _ _ _ _ _ _ _ _ _ _ W0 C0 Ei) as [[W' C' _] [K1 _ K3 _ _ _]].
  rewrite Ei. set (s' := session_of w') in *.
  assert (Hin' : run ∈ workflow_runs (working s')).
  { rewrite K1. cbn. by rewrite (proj1 W0). }
  assert (Hno' : decisions_of (run_id run) (working s') = []).
  { unfold decisions_of. rewrite K3. cbn. by rewrite (proj1 W0). }
  destruct r as [st'|st' m pay|st' m e]; cbn [call_result].
  - cbn [mret M_ret].
    pose proof (run_keeps_start interrupt_key _ _ _ _ _ _ eq_refl Hr) as Hk.
    cbn [result_state] in Hk. unfold st in Hk. rewrite initial_get in Hk by done.
    pose proof (completed_processing _ _ _ _ _ _ _ Hr) as Hp.
    rewrite bind_unfold. unfold persist_result, in_session at 1. cbn [fst snd].
    rewrite (interrupt_of_none st' Hk).
    destruct (persist_run_state _ _ _ _ _ _ _) as [[run'|e] s2] eqn:Epr; [|done].
    apply persist_ok in Epr as ->. rewrite bind_unfold, view_runs. cbn [mret M_ret].
    intros [= <- _ _]. cbn [state_payload_of sp_processing_status]. intros Haw. exfalso.
    revert Hp Haw. unfold processing_status_of.
    generalize (result_str "processing_status" "complete" st'). intros x Hx.
    repeat (apply elem_of_cons in Hx as [->|Hx]; [done|]). by apply not_elem_of_nil in Hx.
  - cbn [mret M_ret]. apply paused_inv in Hr as Hpi.
    destruct Hpi as (-> & -> & rid & Hrid & Hlog).
    assert (Hkeep : ∀ k, in_strs k ["run_id"; "human_decision"; interrupt_key] = true →
      dict_get k st' = dict_get k [("run_id", JStr (run_id run)); ("human_decision", JNull)]).
    { intros k Hk. rewrite <- (initial_get k (run_id run) (document_id run) bytes name Hk).
      by apply (run_keeps_start k _ _ _ _ _ _ Hk Hr). }
    assert (rid = run_id run) as ->.
    { unfold state_str in Hrid. rewrite Hkeep in Hrid by done. by injection Hrid as ->. }
    rewrite bind_unfold. unfold persist_result, in_session at 1. cbn [fst snd].
    assert (interrupt_of (dict_set interrupt_key (JArr [interrupt_payload_of st']) st')
            = Some (interrupt_payload_of st')) as ->.
    { unfold interrupt_of. by rewrite dict_get_set, String.eqb_refl. }
    rewrite persist_runs by (by rewrite Erun).
    set (run' := persisted_run _ _ _ _ _ _).
    rewrite bind_unfold, view_runs. cbn [mret M_ret]. intros [= <- <- <-] _.
    destruct (with_row_wf s' run run' W' C' Hin' eq_refl Hno') as (W2 & C2 & Hin2 & Hno2).
    split; [done|]. split; [done|]. exists run'. split; [exact Hin2|]. split; [done|].
    split; [done|]. split; [done|]. change (run_id run') with (run_id run). rewrite Et.
    split; [done|]. split; cbn [values call_snapshot].
    + unfold state_str. by rewrite Hkeep.
    + unfold final_decision. by rewrite Hkeep.
    + by rewrite Hkeep.
    + exact Hlog.
  - destruct (isinstance_exn e ExtractionError).
    + rewrite bind_unfold. by destruct (persist_failure run e (s', t')) as [[?|?] ?].
    + destruct (is_Exception e); [|done]. rewrite bind_unfold.
      by destruct (persist_failure run e (s', t')) as [[?|?] ?].
Qed.

(** C13 From upload to decision: when [POST /workflow/run] answers that the run
    awaits review, [POST /workflow/{run_id}/resume] with either decision answers
    with that decision, the run complete and ready for posting or blocked; a
    second resume with the same decision answers the same, marked idempotent, and
    one with the other decision is a 409 conflict; neither changes anything. *)
Theorem review_roundtrip bytes name s t p s1 t1 d :
  review_wf s → decisions_coherent (working s) →
  aget_state (uuid_str (rng (senv s) (rng_pos (senv s)))) t = mk_snapshot [] [] →
  run_workflow graph bytes name (s, t) = (Ok (Response p), (s1, t1)) →
  sp_processing_status p = "awaiting_review" → in_strs d ["approved"; "rejected"] = true →
  ∃ p2 st2, resume_workflow graph (sp_run_id p) d (s1, t1) = (Ok (Response (p2, false)), st2)
    ∧ sp_status p2 = d ∧ sp_review_disposition p2 = d ∧ sp_processing_status p2 = "complete"
    ∧ sp_posting_status p2 = posting_of d
    ∧ resume_workflow graph (sp_run_id p) d st2 = (Ok (Response (p2, true)), st2)
    ∧ ∀ d', d' ≠ d → ∃ detail,
        resume_workflow graph (sp_run_id p) d' st2 = (Ok (HttpError 409 detail), st2).
Proof.
  intros W C Ht Hrun Haw Hd.
  destruct (run_workflow_paused _ _ _ _ _ _ _ W C Ht Hrun Haw)
    as (W1 & C1 & run & Hin & Hid & Hproc & Hno & Hnext & Hpause). rewrite <- Hid.
  destruct (decide_first model_fields triage_fields replies sla_hours run d s1 t1 W1 C1 Hin Hproc
    Hno Hd (reviewable_paused _ _ _ _ Hnext Hpause))
    as (dec & s2 & t2 & Ed & W2 & C2 & Hdecs & Hruns & Hk & Hset & Hdisp & _).
  unfold resume_workflow. rewrite bind_unfold, Ed, bind_unfold, view_runs. cbn [mret M_ret].
  eexists _, _. split; [done|]. destruct Hset as (Hs1 & Hs2 & Hs3).
  assert (Hin2 : decided_run d run ∈ workflow_runs (working s2)).
  { rewrite <- (proj1 W2), Hruns. apply elem_of_update_where. exists run.
    rewrite String.eqb_refl. split; [|done]. by rewrite (proj1 W1). }
  assert (Hdec2 : dec ∈ review_decisions (working s2)).
  { rewrite <- (proj1 W2), Hdecs. apply elem_of_app. right. apply list_elem_of_here. }
  cbn [state_payload_of sp_status sp_review_disposition sp_processing_status sp_posting_status].
  unfold legacy_status, review_disposition. rewrite Hdisp.
  split; [done|]. split; [done|]. split; [done|]. split; [done|].
  pose proof (λ x, decide_review_found model_fields triage_fields replies sla_hours
    (decided_run d run) dec x s2 t2 W2 Hin2 Hdec2 Hk) as Hfound.
  change (run_id (decided_run d run)) with (run_id run) in Hfound.
  split.
  - rewrite bind_unfold, Hfound, Hdisp, String.eqb_refl, bind_unfold, view_runs. done.
  - intros d' Hne. eexists. rewrite bind_unfold, Hfound, Hdisp.
    assert (String.eqb d d' = false) as -> by (apply String.eqb_neq; congruence).
    rewrite bind_unfold. cbn. destruct W2 as [Hc2 _]. destruct s2 as [cm wk ev]. cbn in *.
    by subst.
Qed.
End RouteFacts.

(** ** Ordering of the runs *)

Lemma key_leb_total a b : key_leb a b = false → key_leb b a = true.
Proof.
  destruct a as [[a1 a2] a3], b as [[b1 b2] b3]. unfold key_leb.
  intros H. apply Bool.orb_false_iff in H as [H1 H2]. apply Bool.orb_true_iff.
  rewrite Bool.andb_true_iff, Bool.orb_true_iff, Bool.andb_true_iff.
  rewrite Bool.andb_false_iff, Bool.orb_false_iff, Bool.andb_false_iff in H2. lia.
Qed.

Lemma key_leb_trans a b c : key_leb a b = true → key_leb b c = true → key_leb a c = true.
Proof.
  destruct a as [[a1 a2] a3], b as [[b1 b2] b3], c as [[c1 c2] c3]. unfold key_leb.
  rewrite !Bool.orb_true_iff, !Bool.andb_true_iff, !Bool.orb_true_iff, !Bool.andb_true_iff. lia.
Qed.

Lemma map_res_ok {A B} (f : A → res B) l l' :
  map_res f l = Ok l' → Forall2 (λ x y, f x = Ok y) l l'.
Proof.
  revert l'. induction l as [|x l IH]; intros l'; cbn; [by intros [= <-]|].
  destruct (f x) as [y|] eqn:E; [|done]. destruct (map_res f l) as [ys|]; [|done].
  intros [= <-]. constructor; [done|]. by apply IH.
Qed.

Definition awaiting (r : run_view) : bool :=
  String.eqb (sp_processing_status (rv_state r)) "awaiting_review".

(** The list of runs loses and adds none of the twenty latest rows, is sorted by
    the key of the source, and shows every run that awaits review before every
    run that does not. *)
Theorem runs_listed_reviews_first d runs :
  workflow_runs_view d = Ok runs →
  (∃ rows, Forall2 (λ row v, view_of_run d row = Ok v) (take 20 (run_rows d)) rows ∧ runs ≡ₚ rows)
  ∧ StronglySorted (λ a b, key_leb (run_sort_key a) (run_sort_key b) = true) runs
  ∧ ∀ l1 l2 a b, runs = l1 ++ a :: l2 → b ∈ l2 → awaiting b = true → awaiting a = true.
Proof.
  unfold workflow_runs_view. destruct (map_res _ _) as [rows|] eqn:E; [|done]. intros Hok.
  set (leb := λ a b, key_leb (run_sort_key a) (run_sort_key b)) in *.
  assert (runs = sort_by leb rows) as -> by congruence. clear Hok.
  assert (Hs : StronglySorted (λ a b, leb a b = true) (sort_by leb rows)).
  { apply Sorted_StronglySorted; [intros a b c; apply key_leb_trans|].
    apply sort_by_sorted. intros a b. apply key_leb_total. }
  split; [|split; [exact Hs|]].
  - exists rows. split; [by apply map_res_ok|]. apply sort_by_perm.
  - intros l1 l2 a b El Hb Haw. rewrite El in Hs.
    assert (Hab : leb a b = true).
    { clear El E. induction l1 as [|x l1 IH]; cbn in Hs; inversion Hs; subst; [|by apply IH].
      match goal with H : Forall _ l2 |- _ => exact (proj1 (Forall_forall _ _) H b Hb) end. }
    unfold awaiting in *. unfold leb, run_sort_key, key_leb in Hab. rewrite Haw in Hab.
    by destruct (String.eqb (sp_processing_status (rv_state a)) "awaiting_review").
Qed.

(** ** Examples *)

Definition no_threads : @threads reference_engine := [].

Definition demo_upload : res (http state_payload) * (session * threads) :=
  run_workflow (build_state_graph demo_fields demo_triage (demo_replies 2000) 72)
    (to_chars "%PDF") "invoice.pdf" (session_of demo_graph_world, no_threads).

Definition demo_response : state_payload :=
  match demo_upload.1 with
  | Ok (Response p) => p
  | _ => mk_state_payload "" "" "" None "" "" None None
  end.

Lemma demo_graph_review_wf :
  review_wf (session_of demo_graph_world) ∧ decisions_coherent (working (session_of demo_graph_world)).
Proof.
  split; [split; [reflexivity|]|].
  - split; cbn.
    + repeat constructor; set_solver.
    + constructor.
    + intros n _. apply not_elem_of_nil.
    + intros n m _ Hn. lia.
  - intros dec Hdec. by apply not_elem_of_nil in Hdec.
Qed.

Lemma review_roundtrip_witness :
  ∃ p2 st2, resume_workflow (build_state_graph demo_fields demo_triage (demo_replies 2000) 72)
      (sp_run_id demo_response) "rejected" (demo_upload.2.1, demo_upload.2.2) = (Ok (Response (p2, false)), st2)
    ∧ sp_posting_status p2 = "blocked".
Proof.
  destruct demo_graph_review_wf as [W C].
  destruct (review_roundtrip demo_fields demo_triage (demo_replies 2000) 72
    (to_chars "%PDF") "invoice.pdf" (session_of demo_graph_world) no_threads demo_response
    demo_upload.2.1 demo_upload.2.2 "rejected" W C)
    as (p2 & st2 & E & _ & _ & _ & Hp & _).
  - reflexivity.
  - vm_compute. reflexivity.
  - vm_compute. reflexivity.
  - reflexivity.
  - exists p2, st2. split; [exact E|exact Hp].
Defined.

Lemma runs_listed_reviews_first_witness :
  ∃ runs, workflow_runs_view (committed demo_upload.2.1) = Ok runs ∧ length runs = 2.
Proof.
  destruct (workflow_runs_view (committed demo_upload.2.1)) as [runs|e] eqn:Ev.
  - exists runs. split; [reflexivity|].
    destruct (runs_listed_reviews_first _ _ Ev) as [(rows & Hr & Hp) _].
    rewrite Hp, <- (Forall2_length _ _ _ Hr). vm_compute. reflexivity.
  - exfalso. revert Ev. vm_compute. discriminate.
Defined.
