(* ===== verification/Health.v ===== *)
(** * Liveness and readiness

    [app/services/health.py] with the schemas of [app/schemas/health.py]: the outcomes
    of the background tasks, the probes, the capabilities and the readiness of the
    process.  A probe is its outcome: a return, or the exception that reaches
    [_bounded_probe], where the time limit is a [TimeoutError].  The latencies are
    measured and given. *)

From S2P Require Import Prelude PyText DateTime PyFloat Json Database.
From Stdlib Require Import Ascii.
Local Open Scope string_scope.
Local Open Scope list_scope.
Local Open Scope Z_scope.

(** ** The schemas *)

Inductive OverallStatus := READY | OVERALL_DEGRADED | OVERALL_UNAVAILABLE.
Inductive ProcessPhase := PHASE_STARTING | RUNNING | STOPPING.
Inductive CheckStatus := AVAILABLE | STARTING | UNAVAILABLE.
Inductive CapabilityStatus := CAP_AVAILABLE | CAP_DEGRADED | CAP_STARTING | CAP_UNAVAILABLE.
Inductive VerificationKind :=
  CONFIGURATION_ONLY | OBSERVED_RUNTIME | CONFIGURATION_AND_OBSERVED_RUNTIME.

#[export] Instance ProcessPhase_eq_dec : EqDecision ProcessPhase.
Proof. solve_decision. Defined.
#[export] Instance CheckStatus_eq_dec : EqDecision CheckStatus.
Proof. solve_decision. Defined.
#[export] Instance CapabilityStatus_eq_dec : EqDecision CapabilityStatus.
Proof. solve_decision. Defined.

Record DependencyCheck := mk_dependency {
  dep_status : CheckStatus; dep_reason : option string; latency_ms : option float
}.

Record CapabilityCheck := mk_capability {
  cap_status : CapabilityStatus;
  cap_reason : option string;
  verification : VerificationKind;
  cap_last_attempt_at : option datetime;
  cap_last_success_at : option datetime;
  cap_last_failure_at : option datetime;
  cap_last_result_count : option Z;
  stale : bool
}.

Record DependencyChecks := mk_dependencies {
  postgresql : DependencyCheck; checkpoints : DependencyCheck; redis : DependencyCheck;
  invoice_worker : DependencyCheck
}.

Record CapabilityChecks := mk_capabilities {
  gmail_ingestion : CapabilityCheck; claude_processing : CapabilityCheck;
  notifications : CapabilityCheck; scheduled_sla_scanning : CapabilityCheck
}.

Record ReadinessResponse := mk_readiness {
  rd_status : OverallStatus; ready : bool; rd_phase : ProcessPhase; rd_observed_at : datetime;
  dependencies : DependencyChecks; capabilities : CapabilityChecks
}.

(** ** The outcomes of a background task *)

Record BackgroundOutcome := mk_outcome {
  last_attempt_at : option datetime;
  last_success_at : option datetime;
  last_failure_at : option datetime;
  last_result_count : option Z;
  reason_code : option string;
  in_progress : bool
}.

Definition no_outcome : BackgroundOutcome := mk_outcome None None None None None false.

Definition started (now : datetime) (o : BackgroundOutcome) : BackgroundOutcome :=
  mk_outcome (Some now) (last_success_at o) (last_failure_at o) (last_result_count o) (reason_code o) true.

Definition succeeded (now : datetime) (count : option Z) (o : BackgroundOutcome) : BackgroundOutcome :=
  mk_outcome (last_attempt_at o) (Some now) (last_failure_at o) count None false.

Definition failed (now : datetime) (reason : string) (o : BackgroundOutcome) : BackgroundOutcome :=
  mk_outcome (last_attempt_at o) (last_success_at o) (Some now) (last_result_count o) (Some reason) false.

Record RuntimeHealth := mk_runtime {
  phase : ProcessPhase;
  invoice_worker_status : CheckStatus;
  invoice_worker_reason : option string;
  rt_gmail : BackgroundOutcome;
  rt_notifications : BackgroundOutcome;
  rt_sla_scanner : BackgroundOutcome
}.

Definition new_runtime : RuntimeHealth :=
  mk_runtime PHASE_STARTING STARTING None no_outcome no_outcome no_outcome.

Definition worker_started (r : RuntimeHealth) : RuntimeHealth :=
  mk_runtime (phase r) AVAILABLE None (rt_gmail r) (rt_notifications r) (rt_sla_scanner r).
Definition worker_failed (reason : string) (r : RuntimeHealth) : RuntimeHealth :=
  mk_runtime (phase r) UNAVAILABLE (Some reason) (rt_gmail r) (rt_notifications r) (rt_sla_scanner r).
Definition set_phase (p : ProcessPhase) (r : RuntimeHealth) : RuntimeHealth :=
  mk_runtime p (invoice_worker_status r) (invoice_worker_reason r) (rt_gmail r) (rt_notifications r)
    (rt_sla_scanner r).
Definition on_gmail_outcome (f : BackgroundOutcome → BackgroundOutcome) (r : RuntimeHealth) : RuntimeHealth :=
  mk_runtime (phase r) (invoice_worker_status r) (invoice_worker_reason r) (f (rt_gmail r))
    (rt_notifications r) (rt_sla_scanner r).
Definition on_notification_outcome (f : BackgroundOutcome → BackgroundOutcome) (r : RuntimeHealth)
  : RuntimeHealth :=
  mk_runtime (phase r) (invoice_worker_status r) (invoice_worker_reason r) (rt_gmail r)
    (f (rt_notifications r)) (rt_sla_scanner r).
Definition on_sla_outcome (f : BackgroundOutcome → BackgroundOutcome) (r : RuntimeHealth)
  : RuntimeHealth :=
  mk_runtime (phase r) (invoice_worker_status r) (invoice_worker_reason r) (rt_gmail r)
    (rt_notifications r) (f (rt_sla_scanner r)).

(** [liveness] *)
Record LivenessResponse := mk_liveness { lv_status : string; lv_phase : ProcessPhase; lv_observed_at : datetime }.
Definition liveness (r : RuntimeHealth) (now : datetime) : LivenessResponse := mk_liveness "alive" (phase r) now.

(** ** The probes *)

Definition CHECKPOINT_TABLES : list string :=
  ["checkpoint_migrations"; "checkpoints"; "checkpoint_blobs"; "checkpoint_writes"].

(** [probe_checkpoints], from the rows of its two queries. *)
Definition probe_checkpoints (tables : list string) (task_path : bool) : res unit :=
  let missing := Raise (Exn LookupError "checkpoint schema missing") in
  if negb (forallb (λ t, in_strs t tables) CHECKPOINT_TABLES
           && forallb (λ t, in_strs t CHECKPOINT_TABLES) tables) then missing
  else if negb task_path then missing else Ok tt.

(** [inspect_gmail_token], from the size of the file, if it is one, and what
    [Credentials.from_authorized_user_file] gives: validity and refresh token. *)
Definition inspect_gmail_token (size : option Z) (credentials : res (bool * option string))
  : res (option string) :=
  match size with
  | None | Some 0 => Ok (Some "gmail_token_missing")
  | Some _ =>
      match credentials with
      | Ok (valid, refresh_token) =>
          Ok (if negb valid && negb (opt_truthy str_truthy refresh_token)
              then Some "gmail_token_invalid" else None)
      | Raise e =>
          if isinstance_exn e ValueError || isinstance_exn e TypeError
             || match exn_cls e with OtherError n => String.eqb n "OSError" | _ => false end
          then Ok (Some "gmail_token_invalid") else Raise e
      end
  end.

Definition inspect_anthropic_configuration (api_key : string) : option string :=
  let key := py_strip api_key in
  if String.eqb key "" || String.eqb key "sk-ant-your-key-here" then Some "anthropic_not_configured"
  else None.

(** [_bounded_probe]; a cancellation escapes. *)
Definition bounded_probe (outcome : res unit) (timeout_ms latency : float) : res DependencyCheck :=
  match outcome with
  | Ok _ => Ok (mk_dependency AVAILABLE None (Some latency))
  | Raise e =>
      if isinstance_exn e TimeoutError then
        Ok (mk_dependency UNAVAILABLE (Some "probe_timeout") (Some timeout_ms))
      else if isinstance_exn e LookupError then
        Ok (mk_dependency UNAVAILABLE (Some "checkpoint_schema_missing") (Some latency))
      else if is_Exception e then
        Ok (mk_dependency UNAVAILABLE (Some "connection_failed") (Some latency))
      else Raise e
  end.

Definition bounded_configuration_probe (outcome : res (option string)) (unavailable_code : string)
  : res (option string) :=
  match outcome with
  | Ok r => Ok r
  | Raise e =>
      if isinstance_exn e TimeoutError then Ok (Some "probe_timeout")
      else if is_Exception e then Ok (Some unavailable_code) else Raise e
  end.

(** ** The capabilities *)

Definition opt_or {A} (a b : option A) : option A := match a with Some _ => a | None => b end.

Definition is_stale (now : datetime) (stale_after_seconds : option float) (o : BackgroundOutcome) : bool :=
  match stale_after_seconds, opt_or (last_success_at o) (last_attempt_at o) with
  | Some limit, Some reference => fltb limit (timestamp (now - reference))
  | _, _ => false
  end.

(** [_runtime_capability] *)
Definition runtime_capability (o : BackgroundOutcome) (now : datetime)
    (stale_after_seconds : option float) (kind : VerificationKind)
    (configuration_reason : option string) : CapabilityCheck :=
  let capability status reason kind stale :=
    mk_capability status reason kind (last_attempt_at o) (last_success_at o) (last_failure_at o)
      (last_result_count o) stale in
  match configuration_reason with
  | Some reason => capability CAP_UNAVAILABLE (Some reason) CONFIGURATION_ONLY false
  | None =>
      let stale := is_stale now stale_after_seconds o in
      match reason_code o with
      | Some reason =>
          capability (match last_success_at o with Some _ => CAP_DEGRADED | None => CAP_UNAVAILABLE end)
            (Some reason) kind stale
      | None =>
          if stale then capability CAP_DEGRADED (Some "background_success_stale") kind stale
          else match last_success_at o with
               | None => capability CAP_STARTING None kind stale
               | Some _ => capability CAP_AVAILABLE None kind stale
               end
      end
  end.

(** The part of the settings that readiness uses. *)
Record health_settings := mk_health_settings {
  GMAIL_POLL_INTERVAL_SECONDS : float;
  MISSING_DOCUMENT_SCAN_INTERVAL_SECONDS : float;
  HEALTH_STALE_AFTER_MULTIPLIER : float
}.

(** The results of the five probes. *)
Record probes := mk_probes {
  pr_postgresql : DependencyCheck;
  pr_checkpoints : DependencyCheck;
  pr_redis : DependencyCheck;
  pr_gmail : option string;
  pr_anthropic : option string
}.

Definition is_status (s : CheckStatus) (c : DependencyCheck) : bool := bool_decide (dep_status c = s).

Definition dependencies_of (r : RuntimeHealth) (p : probes) : DependencyChecks :=
  mk_dependencies (pr_postgresql p)
    (if is_status UNAVAILABLE (pr_postgresql p)
     then mk_dependency UNAVAILABLE (Some "postgresql_unavailable") None else pr_checkpoints p)
    (pr_redis p)
    (mk_dependency (invoice_worker_status r) (invoice_worker_reason r) None).

Definition with_status (status : CapabilityStatus) (reason : option string) (c : CapabilityCheck)
  : CapabilityCheck :=
  mk_capability status reason (verification c) (cap_last_attempt_at c) (cap_last_success_at c)
    (cap_last_failure_at c) (cap_last_result_count c) (stale c).

Definition capabilities_of (s : health_settings) (r : RuntimeHealth) (p : probes) (now : datetime)
  : CapabilityChecks :=
  let gmail := runtime_capability (rt_gmail r) now
    (Some (fmul (GMAIL_POLL_INTERVAL_SECONDS s) (HEALTH_STALE_AFTER_MULTIPLIER s)))
    CONFIGURATION_AND_OBSERVED_RUNTIME (pr_gmail p) in
  let notifications :=
    match pr_gmail p, last_attempt_at (rt_notifications r) with
    | None, None => mk_capability CAP_AVAILABLE None CONFIGURATION_ONLY None None None None false
    | _, _ => runtime_capability (rt_notifications r) now None CONFIGURATION_AND_OBSERVED_RUNTIME
                (pr_gmail p)
    end in
  let sla := runtime_capability (rt_sla_scanner r) now
    (Some (fmul (MISSING_DOCUMENT_SCAN_INTERVAL_SECONDS s) (HEALTH_STALE_AFTER_MULTIPLIER s)))
    OBSERVED_RUNTIME None in
  let sla := if is_status UNAVAILABLE (pr_postgresql p)
             then with_status (match last_success_at (rt_sla_scanner r) with
                               | Some _ => CAP_DEGRADED | None => CAP_UNAVAILABLE end)
                    (Some "postgresql_unavailable") sla
             else sla in
  let claude := mk_capability (if opt_truthy str_truthy (pr_anthropic p) then CAP_UNAVAILABLE
                               else CAP_AVAILABLE)
                  (pr_anthropic p) CONFIGURATION_ONLY None None None None false in
  mk_capabilities gmail claude notifications sla.

Definition all_available (d : DependencyChecks) : bool :=
  forallb (is_status AVAILABLE) [postgresql d; checkpoints d; redis d; invoice_worker d].

Definition some_capability_missing (c : CapabilityChecks) : bool :=
  existsb (λ x, negb (bool_decide (cap_status x = CAP_AVAILABLE)))
    [gmail_ingestion c; claude_processing c; notifications c; scheduled_sla_scanning c].

Definition readiness (s : health_settings) (r : RuntimeHealth) (p : probes) (now : datetime)
  : ReadinessResponse :=
  let d := dependencies_of r p in
  let c := capabilities_of s r p now in
  let core_ready := bool_decide (phase r = RUNNING) && all_available d in
  let overall := if negb core_ready then OVERALL_UNAVAILABLE
                 else if some_capability_missing c then OVERALL_DEGRADED else READY in
  mk_readiness overall core_ready (phase r) now d c.

(** [GET /health/ready]: its status code. *)
Definition health_ready (s : health_settings) (r : RuntimeHealth) (p : probes) (now : datetime)
  : Z * ReadinessResponse :=
  let payload := readiness s r p now in (if ready payload then 200 else 503, payload).

Definition reason_code_for_exception (e : exn) : string :=
  if py_contains "No Gmail token found" (exn_msg e) then "gmail_token_missing" else "operation_failed".

(** ** What the outcome of a task says of its history *)

Inductive event :=
  | Started (now : datetime)
  | Succeeded (now : datetime) (count : option Z)
  | Failed (now : datetime) (reason : string).

Definition apply_event (o : BackgroundOutcome) (e : event) : BackgroundOutcome :=
  match e with
  | Started t => started t o
  | Succeeded t n => succeeded t n o
  | Failed t r => failed t r o
  end.

Definition after (l : list event) : BackgroundOutcome := fold_left apply_event l no_outcome.

(** The history, the latest event first: the last completion, success and start. *)
Definition completion (e : event) : bool := match e with Started _ => false | _ => true end.
Definition last_completion (l : list event) : option event := find_first completion (reverse l).

Definition success_time (e : event) : option datetime :=
  match e with Succeeded t _ => Some t | _ => None end.
Definition start_time (e : event) : option datetime := match e with Started t => Some t | _ => None end.
Definition last_success (l : list event) : option datetime := head (omap success_time (reverse l)).
Definition last_start (l : list event) : option datetime := head (omap start_time (reverse l)).

Lemma after_snoc l e : after (l ++ [e]) = apply_event (after l) e.
Proof. unfold after. by rewrite fold_left_app. Qed.

(** The record is a summary of the history. *)
Lemma after_history l :
  last_success_at (after l) = last_success l
  ∧ last_attempt_at (after l) = last_start l
  ∧ reason_code (after l) = match last_completion l with Some (Failed _ r) => Some r | _ => None end
  ∧ in_progress (after l) = match last l with Some (Started _) => true | _ => false end.
Proof.
  unfold last_success, last_start, last_completion.
  induction l as [|e l IH] using rev_ind; [done|]. destruct IH as (I1 & I2 & I3 & I4).
  rewrite after_snoc, reverse_snoc, last_snoc. cbn [omap list_omap find_first List.find].
  destruct e; cbn; by rewrite ?I1, ?I2, ?I3.
Qed.

Definition too_old (now : datetime) (limit : option float) (t : option datetime) : bool :=
  match limit, t with Some limit, Some t => fltb limit (timestamp (now - t)) | _, _ => false end.

(** A capability is judged by its whole history: after any events, a task whose
    last completion failed is degraded if it ever succeeded and unavailable if not,
    with the reason of that failure; one whose last completion succeeded is
    available while that success is recent and degraded as stale after; one that
    never completed is starting, and stale when its last start is too old. *)
Theorem capability_reflects_history l now limit kind :
  let c := runtime_capability (after l) now limit kind None in
  cap_last_success_at c = last_success l
  ∧ (cap_status c, cap_reason c) =
    match last_completion l with
    | Some (Failed _ reason) =>
        (match last_success l with Some _ => CAP_DEGRADED | None => CAP_UNAVAILABLE end, Some reason)
    | Some (Succeeded t _) =>
        if too_old now limit (Some t) then (CAP_DEGRADED, Some "background_success_stale")
        else (CAP_AVAILABLE, None)
    | _ =>
        if too_old now limit (last_start l) then (CAP_DEGRADED, Some "background_success_stale")
        else (CAP_STARTING, None)
    end.
Proof.
  destruct (after_history l) as (Hs & Ha & Hr & _). unfold runtime_capability, is_stale.
  assert (Hc : match last_completion l with
               | Some (Succeeded t _) => last_success l = Some t
               | None => last_success l = None
               | _ => True end ∧ (∀ t, last_completion l ≠ Some (Started t))).
  { unfold last_completion, last_success. clear. induction (reverse l) as [|e l' [IH1 IH2]]; [done|].
    cbn [find_first List.find omap list_omap]. destruct e; cbn; done. }
  destruct Hc as [Hc Hns]. rewrite Hs, Ha, Hr.
  destruct (last_completion l) as [[t|t n|t r]|]; [by destruct (Hns t)|..|].
  - rewrite Hc. cbn. unfold too_old. by destruct limit as [x|]; [destruct (fltb _ _)|].
  - cbn. done.
  - rewrite Hc. cbn. unfold too_old.
    by destruct limit as [x|]; [destruct (last_start l); [destruct (fltb _ _)|]|].
Qed.

(** Readiness: the process is ready, and the route answers 200, exactly when it is
    running and its four dependencies are available; it reports READY exactly when
    every capability is available as well; and without PostgreSQL neither the
    checkpoints nor the scanner count as available. *)
Theorem readiness_correct s r p now :
  let '(code, x) := health_ready s r p now in
  (ready x = true ↔ phase r = RUNNING ∧ dep_status (pr_postgresql p) = AVAILABLE
     ∧ dep_status (pr_checkpoints p) = AVAILABLE ∧ dep_status (pr_redis p) = AVAILABLE
     ∧ invoice_worker_status r = AVAILABLE)
  ∧ code = (if ready x then 200 else 503)
  ∧ (rd_status x = READY ↔ ready x = true
       ∧ Forall (λ c, cap_status c = CAP_AVAILABLE)
           [gmail_ingestion (capabilities x); claude_processing (capabilities x);
            notifications (capabilities x); scheduled_sla_scanning (capabilities x)])
  ∧ (rd_status x = OVERALL_UNAVAILABLE ↔ ready x = false)
  ∧ (dep_status (pr_postgresql p) = UNAVAILABLE →
       dep_status (checkpoints (dependencies x)) = UNAVAILABLE
       ∧ cap_status (scheduled_sla_scanning (capabilities x)) ≠ CAP_AVAILABLE).
Proof.
  unfold health_ready, readiness. cbn [ready rd_status dependencies capabilities].
  set (c := capabilities_of s r p now). set (rdy := bool_decide _ && _).
  assert (Hrdy : rdy = true ↔ phase r = RUNNING ∧ dep_status (pr_postgresql p) = AVAILABLE
     ∧ dep_status (pr_checkpoints p) = AVAILABLE ∧ dep_status (pr_redis p) = AVAILABLE
     ∧ invoice_worker_status r = AVAILABLE).
  { unfold rdy, all_available, dependencies_of, is_status. cbn.
    rewrite !Bool.andb_true_iff, !bool_decide_eq_true.
    destruct (dep_status (pr_postgresql p)) eqn:E; cbn; naive_solver. }
  assert (Hm : some_capability_missing c = false ↔ Forall (λ c, cap_status c = CAP_AVAILABLE)
           [gmail_ingestion c; claude_processing c; notifications c; scheduled_sla_scanning c]).
  { unfold some_capability_missing. rewrite existsb_false_Forall.
    split; intros H; (eapply Forall_impl; [exact H|]); intros x Hx; cbn in *.
    - by apply Bool.negb_false_iff, bool_decide_eq_true in Hx.
    - by apply Bool.negb_false_iff, bool_decide_eq_true. }
  split; [done|]. split; [done|]. split; [|split].
  - destruct rdy; cbn [negb]; [|split; [done|by intros [? _]]].
    destruct (some_capability_missing c) eqn:Em.
    + split; [done|]. intros [_ H%Hm]. done.
    + split; [|done]. intros _. split; [done|by apply Hm].
  - destruct rdy; cbn [negb]; [|done]. by destruct (some_capability_missing c).
  - intros E. unfold c, dependencies_of, capabilities_of, is_status. cbn.
    rewrite (bool_decide_eq_true_2 _ E). cbn. split; [done|].
    by destruct (last_success_at (rt_sla_scanner r)).
Qed.
