(* ===== verification/InvoiceJob.v ===== *)
(** * The invoice job

    [app/schemas/invoice_job.py] and [parse_delivery] of
    [app/services/invoice_queue.py].  pydantic is not in the repository: [JobCodec] is
    its part, the coercion of a JSON object to the declared types and the printer,
    with the documented round trip; the constraints and the validator that the
    source declares are definitions here. *)

From S2P Require Import Prelude PyText Base64 Sha256 DateTime PyFloat Json Database Extraction.
From Stdlib Require Import Ascii.
Local Open Scope string_scope.
Local Open Scope list_scope.
Local Open Scope nat_scope.

(** [InvoiceJobEnvelope]; [job_tz] tells whether [enqueued_at] has a time zone. *)
Record InvoiceJobEnvelope := mk_job {
  schema_version : Z;
  idempotency_key : string;
  gmail_account : string;
  message_id : string;
  gmail_thread_id : string;
  mime_part_id : string;
  job_filename : string;
  file_bytes : string;
  job_content_sha256 : string;
  enqueued_at : datetime;
  job_tz : bool
}.

(** ** Validation *)

Definition is_hex_char (c : ascii) : bool := in_range 48 57 (code c) || in_range 97 102 (code c).

(** The pattern [^[0-9a-f]{64}$]. *)
Definition is_hex64 (s : string) : bool :=
  Nat.eqb (length (to_chars s)) 64 && forallb is_hex_char (to_chars s).

Definition min_length_1 (s : string) : bool := negb (String.eqb s "").

Definition field_constraints (j : InvoiceJobEnvelope) : bool :=
  Z.eqb (schema_version j) 1 && is_hex64 (idempotency_key j) && min_length_1 (gmail_account j)
  && min_length_1 (message_id j) && min_length_1 (mime_part_id j) && min_length_1 (job_filename j)
  && min_length_1 (file_bytes j)
  && (Z.of_nat (length (to_chars (file_bytes j))) <=? 35000000)%Z
  && is_hex64 (job_content_sha256 j).

Definition SUPPORTED_ATTACHMENT_EXTENSIONS : list string := [".pdf"; ".png"; ".jpg"; ".jpeg"].

(** [validate_content]: [None], or the message of its [ValueError]. *)
Definition validate_content (j : InvoiceJobEnvelope) : option string :=
  if negb (in_strs (py_lower (path_suffix (job_filename j))) SUPPORTED_ATTACHMENT_EXTENSIONS) then
    Some "filename has an unsupported attachment extension"
  else if negb (job_tz j) then Some "enqueued_at must include a timezone"
  else match b64decode true (to_chars (file_bytes j)) with
       | None => Some "file_bytes must be valid base64"
       | Some decoded =>
           if String.eqb (sha256_hex decoded) (job_content_sha256 j) then None
           else Some "content_sha256 does not match file_bytes"
       end.

Definition job_valid (j : InvoiceJobEnvelope) : bool :=
  field_constraints j && match validate_content j with None => true | Some _ => false end.

(** [decoded_file_bytes]; the validator has decoded the same text. *)
Definition decoded_file_bytes (j : InvoiceJobEnvelope) : res chars :=
  match b64decode true (to_chars (file_bytes j)) with
  | Some l => Ok l
  | None => Raise (Exn ValueError "Incorrect padding")
  end.

(** ** Digests *)

(** A SHA-256 digest is 64 lower-case hexadecimal digits. *)
Lemma compress_length h b : length h = 8 → length (compress h b) = 8.
Proof.
  intros Hh. unfold compress. rewrite length_zip_with, Hh.
  assert (Hr : ∀ l h, length h = 8 → length (fold_left round l h) = 8).
  { induction l as [|kw l IH]; intros h' Hh'; [done|]. apply IH.
    by do 9 (destruct h' as [|? h']; try discriminate Hh'). }
  by rewrite Hr.
Qed.

Lemma blocks_length fuel : ∀ h ws, length h = 8 → length (blocks fuel h ws) = 8.
Proof.
  induction fuel as [|fuel IH]; intros h ws Hh; [done|]. destruct ws as [|w ws]; [done|].
  cbn [blocks]. by apply IH, compress_length.
Qed.

Lemma hex_byte_hex b : (0 ≤ b < 256)%Z → length (hex_byte b) = 2 ∧ forallb is_hex_char (hex_byte b) = true.
Proof.
  intros Hb. split; [done|].
  assert (Hall : forallb (λ n, forallb is_hex_char (hex_byte (Z.of_nat n))) (seq 0 256) = true)
    by (vm_compute; reflexivity).
  rewrite forallb_forall in Hall. rewrite <- (Z2Nat.id b) by lia. apply Hall, in_seq. lia.
Qed.

Lemma hex_bytes_hex l :
  Forall (λ b, (0 ≤ b < 256)%Z) l →
  length (l ≫= hex_byte) = 2 * length l ∧ forallb is_hex_char (l ≫= hex_byte) = true.
Proof.
  induction 1 as [|b l Hb _ [IH1 IH2]]; [done|]. rewrite bind_cons, length_app, forallb_app, IH1, IH2.
  destruct (hex_byte_hex b Hb) as [-> ->]. cbn. split; [lia|done].
Qed.

Lemma be_bytes_range w n : Forall (λ b, (0 ≤ b < 256)%Z) (be_bytes w n) ∧ length (be_bytes w n) = w.
Proof.
  induction w as [|w [IH1 IH2]]; cbn [be_bytes length]; [by split|]. rewrite IH2. split; [|done].
  constructor; [|done]. change 255%Z with (Z.ones 8). rewrite Z.land_ones by lia.
  apply Z.mod_pos_bound. lia.
Qed.

Lemma hex_words_hex l :
  length (l ≫= λ w, be_bytes 4 w ≫= hex_byte) = 8 * length l
  ∧ forallb is_hex_char (l ≫= λ w, be_bytes 4 w ≫= hex_byte) = true.
Proof.
  induction l as [|w l [IH1 IH2]]; [done|]. rewrite bind_cons, length_app, forallb_app, IH1, IH2.
  destruct (be_bytes_range 4 w) as [Hr Hl]. destruct (hex_bytes_hex _ Hr) as [H1 H2].
  rewrite H1, H2, Hl. cbn [length]. split; [lia|done].
Qed.

Lemma sha256_is_hex64 l : is_hex64 (sha256_hex l) = true.
Proof.
  unfold is_hex64, sha256_hex. rewrite to_of_chars. cbv zeta.
  set (ws := blocks _ _ _). destruct (hex_words_hex ws) as [-> ->].
  unfold ws. by rewrite blocks_length.
Qed.

(** ** pydantic's part *)

(** The text of a job, on which JSON printer and parser are inverse. *)
Definition job_text (j : InvoiceJobEnvelope) : Prop :=
  Forall ascii_text [idempotency_key j; gmail_account j; message_id j; gmail_thread_id j;
    mime_part_id j; job_filename j; file_bytes j; job_content_sha256 j].

Class JobCodec := {
  job_fields : json → option InvoiceJobEnvelope;
  validation_message : json → string;
  model_dump_json : InvoiceJobEnvelope → string;
  dump_round_trip j :
    job_text j → field_constraints j = true →
    ascii_text (model_dump_json j)
    ∧ ∃ d, json_loads (model_dump_json j) = JOk (JObj d) ∧ job_fields (JObj d) = Some j
}.

Section Parsing.
Context `{JobCodec}.

(** [InvoiceJobEnvelope.model_validate] *)
Definition job_validate (payload : json) : option InvoiceJobEnvelope :=
  j ← job_fields payload;
  if job_valid j then Some j else None.

Definition permanent {A} (msg : string) : res A := Raise (Exn PermanentJobError msg).

(** [parse_delivery], of the fields of a delivery. *)
Definition parse_delivery (fields : list (string * string)) : res InvoiceJobEnvelope :=
  match dict_get "payload" fields with
  | None => permanent "missing payload field"
  | Some raw_payload =>
      match json_loads raw_payload with
      | JErr msg => permanent ("payload is not valid JSON: " +:+ msg)
      | JOk (JObj d) =>
          match job_validate (JObj d) with
          | Some j => Ok j
          | None => permanent ("payload validation failed: " +:+ validation_message (JObj d))
          end
      | JOk _ => permanent "payload must be a JSON object"
      end
  end.

(** What a producer puts on the stream is what the consumer reads. *)
Lemma parse_dumped j extra :
  job_text j → job_valid j = true →
  parse_delivery (("payload", model_dump_json j) :: extra) = Ok j.
Proof.
  intros Ht Hv. assert (Hc : field_constraints j = true).
  { unfold job_valid in Hv. by apply Bool.andb_true_iff in Hv as [? _]. }
  destruct (dump_round_trip j Ht Hc) as (_ & d & El & Ef).
  unfold parse_delivery. change (dict_get "payload" _) with (Some (model_dump_json j)).
  cbv iota. rewrite El. unfold job_validate. rewrite Ef. cbn [mbind option_bind]. by rewrite Hv.
Qed.

(** A parsed job is valid, and a failure is permanent. *)
Lemma parse_delivery_spec fields :
  match parse_delivery fields with
  | Ok j => job_valid j = true ∧ ∃ l, decoded_file_bytes j = Ok l ∧ sha256_hex l = job_content_sha256 j
  | Raise e => exn_cls e = PermanentJobError
  end.
Proof.
  unfold parse_delivery. destruct (dict_get "payload" fields) as [raw|]; [|done].
  destruct (json_loads raw) as [[]|]; try done. unfold job_validate.
  destruct (job_fields _) as [j|]; [|done]. cbn. destruct (job_valid j) eqn:Hv; [|done].
  split; [done|]. unfold job_valid in Hv. apply Bool.andb_true_iff in Hv as [_ Hv].
  unfold validate_content in Hv. destruct (negb _); [done|]. destruct (negb _); [done|].
  unfold decoded_file_bytes. destruct (b64decode true _) as [l|]; [|done].
  destruct (String.eqb_spec (sha256_hex l) (job_content_sha256 j)) as [E|]; [|done]. eauto.
Qed.
End Parsing.

(** ** A codec with these properties *)

Fixpoint bits_of (p : positive) : chars :=
  match p with
  | xH => []
  | xO p' => "0"%char :: bits_of p'
  | xI p' => "1"%char :: bits_of p'
  end.

Fixpoint bits_to (l : chars) : positive :=
  match l with
  | [] => xH
  | c :: l' => if Ascii.eqb c "1" then xI (bits_to l') else xO (bits_to l')
  end.

Definition time_code (t : datetime) : string :=
  match t with
  | Z0 => "="
  | Zpos p => of_chars ("+"%char :: bits_of p)
  | Zneg p => of_chars ("-"%char :: bits_of p)
  end.

Definition time_decode (s : string) : datetime :=
  match to_chars s with
  | c :: l => if Ascii.eqb c "+" then Zpos (bits_to l)
              else if Ascii.eqb c "-" then Zneg (bits_to l) else 0%Z
  | [] => 0%Z
  end.

Lemma bits_round_trip p : bits_to (bits_of p) = p.
Proof. induction p as [p IH|p IH|]; cbn; by rewrite ?IH. Qed.

Lemma time_round_trip t : time_decode (time_code t) = t.
Proof.
  destruct t as [|p|p]; [done|..]; unfold time_decode, time_code; rewrite to_of_chars; cbn;
    by rewrite bits_round_trip.
Qed.

Definition ascii_chars (l : chars) : bool := forallb (λ c, code c <? 128) l.

Lemma ascii_chars_Forall l : ascii_chars l = true ↔ Forall (λ c, code c < 128) l.
Proof.
  unfold ascii_chars. rewrite forallb_forall, Forall_forall.
  split; intros H x Hx; specialize (H x); rewrite list_elem_of_In in *; apply Nat.ltb_lt; auto.
Qed.

(** A literal text is ASCII. *)
Ltac ascii_lit := apply ascii_chars_Forall; vm_compute; reflexivity.

Lemma ascii_cons c l :
  code c < 128 → Forall (λ c, code c < 128) l → Forall (λ c, code c < 128) (c :: l).
Proof. by constructor. Qed.

Lemma bits_ascii p : Forall (λ c, code c < 128) (bits_of p).
Proof.
  induction p as [p IH|p IH|]; cbn; [apply ascii_cons; [by apply Nat.ltb_lt|done]..|constructor].
Qed.

Lemma time_ascii t : ascii_text (time_code t).
Proof.
  unfold ascii_text. destruct t as [|p|p]; [ascii_lit|..]; unfold time_code;
    rewrite to_of_chars; (apply ascii_cons; [by apply Nat.ltb_lt|apply bits_ascii]).
Qed.

(** What the printer prints is ASCII when its strings are. *)
Lemma escape_char_ascii c : code c < 128 → Forall (λ c, code c < 128) (escape_char c).
Proof.
  intros H%Nat.ltb_lt. apply ascii_chars_Forall.
  assert (E : implb (code c <? 128) (ascii_chars (escape_char c)) = true)
    by (by destruct c as [[] [] [] [] [] [] [] []]).
  by rewrite H in E.
Qed.

Lemma dumps_ascii l :
  Forall (λ c, code c < 128) l → Forall (λ c, code c < 128) (dumps_str_chars l).
Proof.
  intros H. unfold dumps_str_chars. apply ascii_cons; [by apply Nat.ltb_lt|].
  apply Forall_app. split; [|ascii_lit].
  induction H as [|c l Hc _ IH]; [constructor|]. rewrite bind_cons. apply Forall_app.
  split; [by apply escape_char_ascii|done].
Qed.

Lemma dumps_str_dict_ascii d :
  Forall (λ kv, ascii_text kv.1 ∧ ascii_text kv.2) d → ascii_text (dumps_str_dict d).
Proof.
  intros H. unfold ascii_text. rewrite dumps_str_dict_chars.
  rewrite <- (sort_by_perm key_leb d) in H.
  apply ascii_cons; [by apply Nat.ltb_lt|]. apply Forall_app. split; [|ascii_lit].
  assert (Hm : ∀ kv : string * string, ascii_text kv.1 ∧ ascii_text kv.2 →
    Forall (λ c, code c < 128) (member_chars kv)).
  { intros kv [Hk Hv]. unfold member_chars. rewrite !Forall_app.
    split; [by apply dumps_ascii|]. split; [ascii_lit|by apply dumps_ascii]. }
  induction H as [|kv l Hkv Hl IH]; [constructor|].
  destruct l as [|kv2 l]; [by apply Hm|].
  change (members_chars (kv :: kv2 :: l))
    with (member_chars kv ++ to_chars ", " ++ members_chars (kv2 :: l)).
  rewrite !Forall_app. split; [by apply Hm|]. split; [ascii_lit|exact IH].
Qed.

(** The fields as strings. *)
Definition job_dict (j : InvoiceJobEnvelope) : list (string * string) :=
  [("idempotency_key", idempotency_key j); ("gmail_account", gmail_account j);
   ("message_id", message_id j); ("gmail_thread_id", gmail_thread_id j);
   ("mime_part_id", mime_part_id j); ("filename", job_filename j); ("file_bytes", file_bytes j);
   ("content_sha256", job_content_sha256 j); ("enqueued_at", time_code (enqueued_at j));
   ("tz", if job_tz j then "utc" else "")].

Definition job_of_json (payload : json) : option InvoiceJobEnvelope :=
  i ← as_str (jget "idempotency_key" payload); a ← as_str (jget "gmail_account" payload);
  m ← as_str (jget "message_id" payload); t ← as_str (jget "gmail_thread_id" payload);
  p ← as_str (jget "mime_part_id" payload); f ← as_str (jget "filename" payload);
  b ← as_str (jget "file_bytes" payload); h ← as_str (jget "content_sha256" payload);
  e ← as_str (jget "enqueued_at" payload); z ← as_str (jget "tz" payload);
  Some (mk_job 1 i a m t p f b h (time_decode e) (String.eqb z "utc")).

#[export] #[refine] Instance reference_codec : JobCodec := {
  job_fields := job_of_json;
  validation_message _ := "";
  model_dump_json j := dumps_str_dict (job_dict j)
}.
Proof.
  intros j Ht Hc. unfold job_text in Ht.
  assert (Ha : Forall (λ kv, ascii_text kv.1 ∧ ascii_text kv.2) (job_dict j)).
  { unfold job_dict. repeat (apply Forall_cons_iff in Ht as [? Ht]).
    do 10 (apply Forall_cons_2;
      [split; [ascii_lit|first [done|apply time_ascii|destruct (job_tz j); ascii_lit]]|]).
    apply Forall_nil_2. }
  assert (Hnd : NoDup (job_dict j).*1) by (cbn; repeat constructor; set_solver).
  split; [by apply dumps_str_dict_ascii|].
  eexists. split; [by apply parse_dumps_str_dict|].
  unfold field_constraints in Hc. repeat (apply Bool.andb_true_iff in Hc as [Hc _]).
  apply Z.eqb_eq in Hc. destruct j as [v i a m t p f b h e z]. cbn in Hc. subst v. clear Ht Ha Hnd.
  unfold job_dict. cbn [idempotency_key gmail_account message_id gmail_thread_id mime_part_id
    job_filename file_bytes job_content_sha256 enqueued_at job_tz].
  assert (E : ∀ tc tz, job_of_json (JObj (str_item <$> sort_by key_leb
      [("idempotency_key", i); ("gmail_account", a); ("message_id", m); ("gmail_thread_id", t);
       ("mime_part_id", p); ("filename", f); ("file_bytes", b); ("content_sha256", h);
       ("enqueued_at", tc); ("tz", tz)]))
    = Some (mk_job 1 i a m t p f b h (time_decode tc) (String.eqb tz "utc"))) by reflexivity.
  rewrite E, time_round_trip. by destruct z.
Defined.
