(* ===== verification/Redis.v ===== *)
(** * Redis, as the queue relies on it

    The server is not in the repository.  [Redis] is its interface: a state, a view
    of it as a keyspace of strings, hashes and streams with consumer groups, and the
    commands the source issues, each of which answers and changes the view as its
    documentation says ([documented]).  Connection failures are not modelled.
    [follows] relates a client against any server with the same client on the
    keyspace itself ([reference_redis]); it composes, so that a property proved on
    the keyspace holds of every server.  Server-generated stream ids come from
    [ids], which is increasing. *)

From S2P Require Import Prelude PyText Json.
From Stdlib Require Import Ascii.
Local Open Scope string_scope.
Local Open Scope list_scope.
Local Open Scope nat_scope.

(** ** The keyspace *)

Abbreviation fields := (list (string * string)) (only parsing).
Definition entry : Type := string * list (string * string).

(** An entry delivered to a consumer and not acknowledged: since when (in
    milliseconds of the server), and how often it was delivered. *)
Record pending := mk_pending {
  p_id : string; p_consumer : string; p_since : Z; p_deliveries : Z
}.

Record group := mk_group { g_last : option string; g_pending : list pending }.

Record stream := mk_stream { s_entries : list entry; s_groups : list (string * group) }.

Inductive rvalue := RString (s : string) | RHash (d : list (string * string)) | RStream (s : stream).

Record keyspace := mk_keyspace {
  keys : list (string * rvalue);
  ids : nat → string;
  id_pos : nat;
  server_ms : Z
}.

Definition empty_stream : stream := mk_stream [] [].

(** ** Stream ids *)

(** [ms-seq], two unsigned numbers. *)
Definition digits_value (l : chars) : option Z :=
  match l with
  | [] => None
  | _ => if forallb is_digit l then Some (fold_left (λ acc c, acc * 10 + digit_val c)%Z l 0%Z)
         else None
  end.

Definition sid_of (s : string) : option (Z * Z) :=
  match split_on "-"%char [] (to_chars s) with
  | [a; b] => ms ← digits_value a; seq ← digits_value b; Some (ms, seq)
  | _ => None
  end.

Definition sid_ltb (a b : string) : bool :=
  match sid_of a, sid_of b with
  | Some (m1, s1), Some (m2, s2) => (m1 <? m2)%Z || ((m1 =? m2)%Z && (s1 <? s2)%Z)
  | _, _ => false
  end.

Definition sid_eqb (a b : string) : bool :=
  match sid_of a, sid_of b with
  | Some (m1, s1), Some (m2, s2) => (m1 =? m2)%Z && (s1 =? s2)%Z
  | _, _ => false
  end.

(** A bound of a range: [-], [+], an id, or an id excluded with a parenthesis. *)
Inductive bound := Lowest | Highest | Incl (id : string) | Excl (id : string).

Definition above (b : bound) (id : string) : bool :=
  match b with
  | Lowest => true
  | Highest => false
  | Incl x => negb (sid_ltb id x)
  | Excl x => sid_ltb x id
  end.

Definition below (b : bound) (id : string) : bool :=
  match b with
  | Lowest => false
  | Highest => true
  | Incl x => negb (sid_ltb x id)
  | Excl x => sid_ltb id x
  end.

(** A complete id is two unsigned 64-bit numbers; an excluded bound needs a
    neighbour. *)
Definition valid_id (id : string) : bool :=
  match sid_of id with
  | Some (ms, seq) => (ms <? 2 ^ 64)%Z && (seq <? 2 ^ 64)%Z
  | None => false
  end.

Definition valid_low (b : bound) : bool :=
  match b with
  | Incl x => valid_id x
  | Excl x => valid_id x && negb (sid_eqb x "18446744073709551615-18446744073709551615")
  | _ => true
  end.

Definition valid_high (b : bound) : bool :=
  match b with
  | Incl x => valid_id x
  | Excl x => valid_id x && negb (sid_eqb x "0-0")
  | _ => true
  end.

Definition limited {A} (count : option nat) (l : list A) : list A :=
  match count with Some n => take n l | None => l end.

Definition range (lo hi : bound) (l : list entry) : list entry :=
  List.filter (λ e, above lo e.1 && below hi e.1) l.

(** ** The commands *)

Inductive cmd : Type → Type :=
  | GET (k : string) : cmd (option string)
  | SETEX (k v : string) (ttl : Z) : cmd unit
  | XADD (k : string) (f : list (string * string)) : cmd string
  | XDEL (k id : string) : cmd unit
  | XACK (k g id : string) : cmd unit
  | XRANGE (k : string) (lo hi : bound) (count : option nat) : cmd (list entry)
  | XREVRANGE (k : string) (hi lo : bound) (count : option nat) : cmd (list entry)
  | XLEN (k : string) : cmd Z
  | XGROUP_CREATE (k g : string) : cmd unit
  | XREADGROUP (g consumer k : string) (count : nat) : cmd (list entry)
  | XAUTOCLAIM (k g consumer : string) (min_idle : Z) (count : nat) : cmd (list entry)
  | XPENDING_RANGE (k g id : string) : cmd (list pending)
  | XPENDING (k g : string) : cmd (Z * option string)
  | XCLAIM (k g consumer id : string) (retrycount : Z) : cmd unit
  | XINFO_GROUPS (k : string) : cmd (list string)
  | HSET (k : string) (mapping : list (string * string)) : cmd unit
  | HGET (k f : string) : cmd (option string)
  | HGETALL (k : string) : cmd (list (string * string))
  | HINCRBY (k f : string) (n : Z) : cmd Z
  | DEL (k : string) : cmd unit
  | TYPE_ (k : string) : cmd string.

(** ** What the commands do *)

Definition response_error {S A} (msg : string) : M S A := raise (Exn ResponseError msg).
Definition wrong_type {S A} : M S A :=
  response_error "WRONGTYPE Operation against a key holding the wrong kind of value".

Definition lookup_key (k : string) (ks : keyspace) : option rvalue := dict_get k (keys ks).

Definition put_key (k : string) (v : rvalue) (ks : keyspace) : keyspace :=
  mk_keyspace (dict_set k v (keys ks)) (ids ks) (id_pos ks) (server_ms ks).

Definition del_key (k : string) (ks : keyspace) : keyspace :=
  mk_keyspace (List.filter (λ kv, negb (String.eqb kv.1 k)) (keys ks)) (ids ks) (id_pos ks)
    (server_ms ks).

Definition stream_at (k : string) (ks : keyspace) : stream :=
  match lookup_key k ks with Some (RStream s) => s | _ => empty_stream end.

Definition hash_at (k : string) (ks : keyspace) : list (string * string) :=
  match lookup_key k ks with Some (RHash d) => d | _ => [] end.

(** The stream or hash of a key, an empty one for a missing key. *)
Definition get_stream (k : string) : M keyspace stream := λ ks,
  match lookup_key k ks with
  | None => (Ok empty_stream, ks)
  | Some (RStream s) => (Ok s, ks)
  | Some _ => wrong_type ks
  end.

Definition get_hash (k : string) : M keyspace (list (string * string)) := λ ks,
  match lookup_key k ks with
  | None => (Ok [], ks)
  | Some (RHash d) => (Ok d, ks)
  | Some _ => wrong_type ks
  end.

Definition set_entries (l : list entry) (s : stream) : stream := mk_stream l (s_groups s).
Definition set_group (g : string) (x : group) (s : stream) : stream :=
  mk_stream (s_entries s) (dict_set g x (s_groups s)).

Definition put_stream (k : string) (s : stream) : M keyspace unit := modify (put_key k (RStream s)).

Definition get_group (k g : string) (s : stream) : M keyspace group :=
  match dict_get g (s_groups s) with
  | Some x => mret x
  | None => response_error ("NOGROUP No such key '" +:+ k +:+ "' or consumer group '" +:+ g +:+ "'")
  end.

Definition next_id : M keyspace string := λ ks,
  (Ok (ids ks (id_pos ks)), mk_keyspace (keys ks) (ids ks) (S (id_pos ks)) (server_ms ks)).

Definition not_id (id : string) (x : string) : bool := negb (String.eqb x id).

(** The entries a group has not delivered yet. *)
Definition undelivered (g : group) (s : stream) : list entry :=
  match g_last g with
  | None => s_entries s
  | Some last => List.filter (λ e, sid_ltb last e.1) (s_entries s)
  end.

Definition delivered_to (consumer : string) (now : Z) (e : entry) : pending :=
  mk_pending e.1 consumer now 1.

Definition in_entries (s : stream) (p : pending) : option entry :=
  List.find (λ e, String.eqb e.1 (p_id p)) (s_entries s).

Definition claim (consumer : string) (now : Z) (claimed : list entry) (p : pending) : pending :=
  if existsb (λ e, String.eqb e.1 (p_id p)) claimed
  then mk_pending (p_id p) consumer now (p_deliveries p + 1) else p.

Definition int64 (z : Z) : bool := (- 2 ^ 63 <=? z)%Z && (z <? 2 ^ 63)%Z.

(** The value of a counter field: a missing one is 0, a stored one must be the
    canonical decimal of a 64-bit integer. *)
Definition counter_value (o : option string) : option Z :=
  match o with
  | None => Some 0%Z
  | Some s => z ← py_int s;
              if String.eqb (str_of_Z z) s && int64 z then Some z else None
  end.

Definition documented {A} (c : cmd A) : M keyspace A :=
  match c in cmd A return M keyspace A with
  | GET k => λ ks,
      match lookup_key k ks with
      | None => (Ok None, ks)
      | Some (RString s) => (Ok (Some s), ks)
      | Some _ => wrong_type ks
      end
  | SETEX k v _ => modify (put_key k (RString v))
  | XADD k f =>
      s ← get_stream k;
      id ← next_id;
      _ ← put_stream k (set_entries (s_entries s ++ [(id, f)]) s);
      mret id
  | XDEL k id =>
      s ← get_stream k;
      if existsb (λ e, String.eqb e.1 id) (s_entries s)
      then put_stream k (set_entries (List.filter (λ e, not_id id e.1) (s_entries s)) s)
      else mret tt
  | XACK k g id =>
      s ← get_stream k;
      match dict_get g (s_groups s) with
      | None => mret tt
      | Some x => put_stream k (set_group g
                    (mk_group (g_last x) (List.filter (λ p, not_id id (p_id p)) (g_pending x))) s)
      end
  | XRANGE k lo hi count =>
      if valid_low lo && valid_high hi
      then s ← get_stream k; mret (limited count (range lo hi (s_entries s)))
      else response_error "ERR Invalid stream ID specified as stream command argument"
  | XREVRANGE k hi lo count =>
      if valid_low lo && valid_high hi
      then s ← get_stream k; mret (limited count (reverse (range lo hi (s_entries s))))
      else response_error "ERR Invalid stream ID specified as stream command argument"
  | XLEN k => s ← get_stream k; mret (Z.of_nat (length (s_entries s)))
  | XGROUP_CREATE k g =>
      s ← get_stream k;
      match dict_get g (s_groups s) with
      | Some _ => response_error "BUSYGROUP Consumer Group name already exists"
      | None => put_stream k (set_group g (mk_group None []) s)
      end
  | XREADGROUP g consumer k count =>
      s ← get_stream k;
      x ← get_group k g s;
      now ← gets server_ms;
      let new := take count (undelivered x s) in
      let last := match List.last ((λ e, Some e.1) <$> new) None with
                  | Some i => Some i | None => g_last x end in
      _ ← put_stream k (set_group g
            (mk_group last (g_pending x ++ (delivered_to consumer now <$> new))) s);
      mret new
  | XAUTOCLAIM k g consumer min_idle count =>
      s ← get_stream k;
      x ← get_group k g s;
      now ← gets server_ms;
      let idle := List.filter (λ p, (min_idle <=? now - p_since p)%Z) (g_pending x) in
      let claimed := take count (omap (in_entries s) idle) in
      let alive := List.filter (λ p, negb (min_idle <=? now - p_since p)%Z
                                     || existsb (λ e, String.eqb e.1 (p_id p)) (s_entries s))
                               (g_pending x) in
      _ ← put_stream k (set_group g (mk_group (g_last x) (claim consumer now claimed <$> alive)) s);
      mret claimed
  | XPENDING_RANGE k g id =>
      s ← get_stream k; x ← get_group k g s;
      mret (List.filter (λ p, sid_eqb (p_id p) id) (g_pending x))
  | XPENDING k g =>
      s ← get_stream k; x ← get_group k g s;
      mret (Z.of_nat (length (g_pending x)), p_id <$> head (g_pending x))
  | XCLAIM k g consumer id retrycount =>
      s ← get_stream k; x ← get_group k g s;
      now ← gets server_ms;
      put_stream k (set_group g (mk_group (g_last x)
        ((λ p, if String.eqb (p_id p) id then mk_pending id consumer now retrycount else p)
           <$> g_pending x)) s)
  | XINFO_GROUPS k => λ ks,
      match lookup_key k ks with
      | None => response_error "ERR no such key" ks
      | Some (RStream s) => (Ok (s_groups s).*1, ks)
      | Some _ => wrong_type ks
      end
  | HSET k mapping =>
      d ← get_hash k; modify (put_key k (RHash (dict_update d mapping)))
  | HGET k f => d ← get_hash k; mret (dict_get f d)
  | HGETALL k => get_hash k
  | HINCRBY k f n =>
      d ← get_hash k;
      match counter_value (dict_get f d) with
      | None => response_error "ERR hash value is not an integer"
      | Some z =>
          if int64 (z + n) then
            _ ← modify (put_key k (RHash (dict_set f (str_of_Z (z + n)) d)));
            mret (z + n)%Z
          else response_error "ERR increment or decrement would overflow"
      end
  | DEL k => modify (del_key k)
  | TYPE_ k => gets (λ ks, match lookup_key k ks with
                           | None => "none" | Some (RString _) => "string"
                           | Some (RHash _) => "hash" | Some (RStream _) => "stream" end)
  end.

(** ** The server *)

Class Redis := {
  rdb : Type;
  view : rdb → keyspace;
  command {A} : cmd A → M rdb A;
  command_documented {A} (c : cmd A) r :
    (command c r).1 = (documented c (view r)).1
    ∧ view (command c r).2 = (documented c (view r)).2
}.

#[export] #[refine] Instance reference_redis : Redis := {
  rdb := keyspace;
  view ks := ks;
  command A c := documented c
}.
Proof. done. Defined.

(** [pipeline(transaction=True)]: every command runs, then the first error is
    raised. *)
Fixpoint pipeline {S} (l : list (M S unit)) : M S unit := λ s,
  match l with
  | [] => (Ok tt, s)
  | m :: l' =>
      let '(x, s') := m s in
      let '(y, s'') := pipeline l' s' in
      (match x with Raise e => Raise e | Ok _ => y end, s'')
  end.

(** A client on a server, and the same client on the keyspace. *)
Definition follows {R : Redis} {A} (m : M rdb A) (m0 : M keyspace A) : Prop :=
  ∀ r, (m r).1 = (m0 (view r)).1 ∧ view (m r).2 = (m0 (view r)).2.

Section Follows.
Context {R : Redis}.

Lemma follows_command {A} (c : cmd A) : follows (command c) (@command reference_redis A c).
Proof. intros r. apply command_documented. Qed.

Lemma follows_ret {A} (a : A) : follows (mret a) (mret a).
Proof. done. Qed.

Lemma follows_raise {A} e : follows (raise e : M rdb A) (raise e).
Proof. done. Qed.

Lemma follows_of_res {A} (x : res A) : follows (of_res x) (of_res x).
Proof. done. Qed.

Lemma follows_bind {A B} (m : M rdb A) m0 (f : A → M rdb B) f0 :
  follows m m0 → (∀ a, follows (f a) (f0 a)) → follows (m ≫= f) (m0 ≫= f0).
Proof.
  intros Hm Hf r. rewrite !bind_unfold. destruct (Hm r) as [H1 H2].
  destruct (m r) as [x r'], (m0 (view r)) as [x0 ks']. cbn in H1, H2. subst x0 ks'.
  destruct x as [a|e]; [apply Hf|done].
Qed.

Lemma follows_try {A} (m : M rdb A) m0 h h0 :
  follows m m0 → (∀ e, match h e, h0 e with
                       | Some k, Some k0 => follows k k0 | None, None => True | _, _ => False end) →
  follows (try_except m h) (try_except m0 h0).
Proof.
  intros Hm Hh r. unfold try_except. destruct (Hm r) as [H1 H2].
  destruct (m r) as [x r'], (m0 (view r)) as [x0 ks']. cbn in H1, H2. subst x0 ks'.
  destruct x as [a|e]; [done|]. specialize (Hh e).
  destruct (h e), (h0 e); [apply Hh|done..].
Qed.

Lemma follows_pipeline l l0 :
  Forall2 follows l l0 → follows (pipeline l) (pipeline l0).
Proof.
  induction 1 as [|m m0 l l0 Hm _ IH]; [done|]. intros r. cbn [pipeline].
  destruct (Hm r) as [H1 H2]. destruct (m r) as [x r'], (m0 (view r)) as [x0 ks'].
  cbn in H1, H2. subst x0 ks'. destruct (IH r') as [H3 H4].
  destruct (pipeline l r') as [y r''], (pipeline l0 (view r')) as [y0 ks''].
  cbn in H3, H4. by subst.
Qed.

(** What a client does on a server, from what it does on the keyspace. *)
Lemma follows_run {A} (m : M rdb A) m0 r x ks :
  follows m m0 → m0 (view r) = (x, ks) → ∃ r', m r = (x, r') ∧ view r' = ks.
Proof.
  intros Hm E. destruct (Hm r) as [H1 H2]. rewrite E in H1, H2.
  destruct (m r) as [x' r']. cbn in *. subst. eauto.
Qed.
End Follows.

Create HintDb redis discriminated.
#[export] Hint Resolve follows_command follows_ret follows_raise follows_of_res : redis.

Ltac follow_step :=
  first
    [ solve [eauto with redis]
    | apply follows_bind; [|intros ?]
    | apply follows_pipeline
    | apply Forall2_cons_2; [|]
    | apply Forall2_app; [|]
    | apply Forall2_nil_2
    | apply follows_try; [|intros ?; try case_match; try done]
    | case_match ].
Ltac follow := repeat follow_step.

(** ** What a command does to its key

    [sets k v ks ks']: only the key [k] changed, and it holds [v] now. *)

Definition is_stream (k : string) (ks : keyspace) : bool :=
  match lookup_key k ks with None | Some (RStream _) => true | _ => false end.
Definition is_hash (k : string) (ks : keyspace) : bool :=
  match lookup_key k ks with None | Some (RHash _) => true | _ => false end.
Definition is_string (k : string) (ks : keyspace) : bool :=
  match lookup_key k ks with None | Some (RString _) => true | _ => false end.

Definition others_kept (l : list string) (ks ks' : keyspace) : Prop :=
  ∀ k, k ∉ l → lookup_key k ks' = lookup_key k ks.

Record sets_stream (k : string) (s : stream) (ks ks' : keyspace) : Prop := {
  ss_stream : stream_at k ks' = s;
  ss_type : is_stream k ks' = true;
  ss_others : others_kept [k] ks ks'
}.

Record sets_hash (k : string) (d : list (string * string)) (ks ks' : keyspace) : Prop := {
  sh_hash : hash_at k ks' = d;
  sh_type : is_hash k ks' = true;
  sh_others : others_kept [k] ks ks'
}.

Lemma lookup_put k k' v ks :
  lookup_key k (put_key k' v ks) = if String.eqb k k' then Some v else lookup_key k ks.
Proof. apply dict_get_set. Qed.

Lemma lookup_put_ne k k' v ks : k ≠ k' → lookup_key k (put_key k' v ks) = lookup_key k ks.
Proof. intros H. by rewrite lookup_put, (proj2 (String.eqb_neq _ _) H). Qed.

Lemma lookup_put_eq k v ks : lookup_key k (put_key k v ks) = Some v.
Proof. by rewrite lookup_put, String.eqb_refl. Qed.

Lemma stream_at_same k ks ks' : lookup_key k ks' = lookup_key k ks → stream_at k ks' = stream_at k ks.
Proof. unfold stream_at. by intros ->. Qed.
Lemma hash_at_same k ks ks' : lookup_key k ks' = lookup_key k ks → hash_at k ks' = hash_at k ks.
Proof. unfold hash_at. by intros ->. Qed.
Lemma is_stream_same k ks ks' : lookup_key k ks' = lookup_key k ks → is_stream k ks' = is_stream k ks.
Proof. unfold is_stream. by intros ->. Qed.
Lemma is_hash_same k ks ks' : lookup_key k ks' = lookup_key k ks → is_hash k ks' = is_hash k ks.
Proof. unfold is_hash. by intros ->. Qed.

Lemma others_kept_refl l ks : others_kept l ks ks.
Proof. done. Qed.

Lemma others_kept_trans l1 l2 ks1 ks2 ks3 :
  others_kept l1 ks1 ks2 → others_kept l2 ks2 ks3 → others_kept (l1 ++ l2) ks1 ks3.
Proof.
  intros H1 H2 k Hk. apply not_elem_of_app in Hk as [Hk1 Hk2].
  rewrite H2 by done. by apply H1.
Qed.

Lemma others_kept_weaken l1 l2 ks ks' : others_kept l1 ks ks' → l1 ⊆ l2 → others_kept l2 ks ks'.
Proof. intros H Hs k Hk. apply H. set_solver. Qed.

Lemma get_stream_ok k ks : is_stream k ks = true → get_stream k ks = (Ok (stream_at k ks), ks).
Proof. unfold is_stream, get_stream, stream_at. by destruct (lookup_key k ks) as [[]|]. Qed.

Lemma get_hash_ok k ks : is_hash k ks = true → get_hash k ks = (Ok (hash_at k ks), ks).
Proof. unfold is_hash, get_hash, hash_at. by destruct (lookup_key k ks) as [[]|]. Qed.

Lemma put_stream_sets k s ks : sets_stream k s ks (put_key k (RStream s) ks).
Proof.
  split; unfold stream_at, is_stream; [by rewrite lookup_put_eq..|].
  intros k' Hk. apply lookup_put_ne. set_solver.
Qed.

Lemma put_hash_sets k d ks : sets_hash k d ks (put_key k (RHash d) ks).
Proof.
  split; unfold hash_at, is_hash; [by rewrite lookup_put_eq..|].
  intros k' Hk. apply lookup_put_ne. set_solver.
Qed.

Lemma sets_stream_refl k ks : is_stream k ks = true → sets_stream k (stream_at k ks) ks ks.
Proof. done. Qed.

(** The entries that do not have this id. *)
Definition without (id : string) (l : list entry) : list entry :=
  List.filter (λ e, not_id id e.1) l.

(** A group without this pending entry. *)
Definition settle (id : string) (x : group) : group :=
  mk_group (g_last x) (List.filter (λ p, not_id id (p_id p)) (g_pending x)).

Definition acked (g id : string) (s : stream) : stream :=
  match dict_get g (s_groups s) with None => s | Some x => set_group g (settle id x) s end.

Lemma without_none id l : existsb (λ e : entry, String.eqb e.1 id) l = false → without id l = l.
Proof.
  induction l as [|e l IH]; cbn; [done|]. unfold not_id. intros [H1 H2]%Bool.orb_false_iff.
  rewrite H1. cbn. f_equal. by apply IH.
Qed.

Lemma xadd_runs k f ks :
  is_stream k ks = true →
  ∃ ks', documented (XADD k f) ks = (Ok (ids ks (id_pos ks)), ks')
    ∧ sets_stream k (set_entries (s_entries (stream_at k ks) ++ [(ids ks (id_pos ks), f)])
                       (stream_at k ks)) ks ks'.
Proof.
  intros H. cbn [documented]. rewrite bind_unfold, get_stream_ok by done.
  eexists. split; [reflexivity|].
  destruct (put_stream_sets k (set_entries (s_entries (stream_at k ks) ++ [(ids ks (id_pos ks), f)])
              (stream_at k ks)) (next_id ks).2) as [? ? Ho].
  split; [done|done|]. intros k' Hk. by apply Ho.
Qed.

Lemma xdel_runs k id ks :
  is_stream k ks = true →
  ∃ ks', documented (XDEL k id) ks = (Ok tt, ks')
    ∧ sets_stream k (set_entries (without id (s_entries (stream_at k ks))) (stream_at k ks)) ks ks'.
Proof.
  intros H. cbn [documented]. rewrite bind_unfold, get_stream_ok by done.
  destruct (existsb _ _) eqn:E.
  - eexists. split; [reflexivity|]. apply put_stream_sets.
  - eexists. split; [reflexivity|]. rewrite without_none by done.
    assert (Es : ∀ s, set_entries (s_entries s) s = s) by (by intros []).
    rewrite Es. by apply sets_stream_refl.
Qed.

Lemma xack_runs k g id ks :
  is_stream k ks = true →
  ∃ ks', documented (XACK k g id) ks = (Ok tt, ks') ∧ sets_stream k (acked g id (stream_at k ks)) ks ks'.
Proof.
  intros H. cbn [documented]. rewrite bind_unfold, get_stream_ok by done. unfold acked.
  destruct (dict_get g (s_groups (stream_at k ks))) as [x|].
  - eexists. split; [reflexivity|]. apply put_stream_sets.
  - eexists. split; [reflexivity|]. by apply sets_stream_refl.
Qed.

Lemma hset_runs k m ks :
  is_hash k ks = true →
  ∃ ks', documented (HSET k m) ks = (Ok tt, ks') ∧ sets_hash k (dict_update (hash_at k ks) m) ks ks'.
Proof.
  intros H. cbn [documented]. rewrite bind_unfold, get_hash_ok by done.
  eexists. split; [reflexivity|]. apply put_hash_sets.
Qed.

Lemma hincrby_runs k f n z ks :
  is_hash k ks = true → counter_value (dict_get f (hash_at k ks)) = Some z → int64 (z + n) = true →
  ∃ ks', documented (HINCRBY k f n) ks = (Ok (z + n)%Z, ks')
    ∧ sets_hash k (dict_set f (str_of_Z (z + n)) (hash_at k ks)) ks ks'.
Proof.
  intros H Hc Hi. cbn [documented]. rewrite bind_unfold, get_hash_ok, Hc, Hi by done.
  eexists. split; [reflexivity|]. apply put_hash_sets.
Qed.

Lemma bind_run {S A B} (m : M S A) (f : A → M S B) s a s' :
  m s = (Ok a, s') → (m ≫= f) s = f a s'.
Proof. intros E. by rewrite bind_unfold, E. Qed.

(** [pipeline] runs its commands one after the other. *)
Lemma pipeline_step {S} (m : M S unit) l s s' :
  m s = (Ok tt, s') → pipeline (m :: l) s = pipeline l s'.
Proof. intros E. cbn [pipeline]. rewrite E. by destruct (pipeline l s'). Qed.

Lemma not_id_spec id x : not_id id x = true ↔ x ≠ id.
Proof. unfold not_id. rewrite Bool.negb_true_iff. apply String.eqb_neq. Qed.

Lemma elem_of_without id e l : e ∈ without id l ↔ e ∈ l ∧ e.1 ≠ id.
Proof.
  unfold without. rewrite !list_elem_of_In, filter_In. by rewrite not_id_spec.
Qed.

Lemma settled id x p : p ∈ g_pending (settle id x) ↔ p ∈ g_pending x ∧ p_id p ≠ id.
Proof.
  unfold settle. cbn. rewrite !list_elem_of_In, filter_In. by rewrite not_id_spec.
Qed.
