(* ===== verification/InvoiceQueue.v ===== *)
(** * The invoice queue

    [app/services/invoice_queue.py]: the commands and the Lua script the poller and
    the worker issue, against any [Redis].  A Lua script and a MULTI pipeline are
    atomic; the clock of the process is an argument. *)

From S2P Require Import Prelude PyText Sha256 DateTime Json Database InvoiceJob Redis.
From Stdlib Require Import Ascii.
Local Open Scope string_scope.
Local Open Scope list_scope.
Local Open Scope nat_scope.

(** [StreamDelivery] *)
Record StreamDelivery := mk_delivery {
  stream_id : string;
  d_fields : list (string * string);
  attempt : Z
}.

(** [replay_context]: both fields present and not empty. *)
Definition replay_context (d : StreamDelivery) : option (string * string) :=
  match str_or (dict_get "replay_dlq_id" (d_fields d)) None,
        str_or (dict_get "replay_request_id" (d_fields d)) None with
  | Some dlq_id, Some request_id => Some (dlq_id, request_id)
  | _, _ => None
  end.

Definition replay_key_of (replay_prefix dlq_id : string) : string := replay_prefix +:+ ":" +:+ dlq_id.
Definition metadata_key (metadata_prefix id : string) : string := metadata_prefix +:+ ":" +:+ id.

Definition replay_metadata_key (replay_prefix : string) (d : StreamDelivery) : option string :=
  (λ c : string * string, replay_key_of replay_prefix c.1) <$> replay_context d.

Definition action_prefix (request_id : string) : string := "action:" +:+ request_id +:+ ":".

(** [_replay_action_fields] *)
Definition replay_action_fields (d : StreamDelivery) (state : string)
    (workflow_processing_status : option string) (now : datetime) : list (string * string) :=
  match replay_context d with
  | None => []
  | Some (_, request_id) =>
      let p := action_prefix request_id in
      [(p +:+ "state", state); (p +:+ "processing_updated_at", datetime_isoformat now)]
      ++ match workflow_processing_status with
         | Some s => [(p +:+ "workflow_processing_status", s)]
         | None => []
         end
  end.

Section Queue.
Context {R : Redis}.

(** [ENQUEUE_SCRIPT] *)
Definition ENQUEUE_SCRIPT (stream dedupe_key payload : string) (ttl : Z) : M rdb string :=
  existing ← command (GET dedupe_key);
  match existing with
  | Some id => mret id
  | None =>
      id ← command (XADD stream [("payload", payload)]);
      _ ← command (SETEX dedupe_key id ttl);
      mret id
  end.

Definition dedupe_key_of (dedupe_prefix key : string) : string := dedupe_prefix +:+ ":" +:+ key.

Definition enqueue_job `{JobCodec} (stream dedupe_prefix : string) (ttl : Z)
    (job : InvoiceJobEnvelope) : M rdb string :=
  ENQUEUE_SCRIPT stream (dedupe_key_of dedupe_prefix (idempotency_key job)) (model_dump_json job) ttl.

(** [ensure_consumer_group]: an existing group is not an error. *)
Definition ensure_consumer_group (stream group : string) : M rdb unit :=
  try_except (command (XGROUP_CREATE stream group))
    (λ e, if isinstance_exn e ResponseError && py_contains "BUSYGROUP" (exn_msg e)
          then Some (mret tt) else None).

Definition new_delivery (e : entry) : StreamDelivery := mk_delivery e.1 e.2 1.

Definition read_new_batch (stream group consumer : string) (count : nat)
  : M rdb (list StreamDelivery) :=
  entries ← command (XREADGROUP group consumer stream count);
  mret (new_delivery <$> entries).

(** The delivery of a claimed entry, with its attempt number. *)
Definition claimed_delivery (stream group : string) (e : entry) : M rdb StreamDelivery :=
  l ← command (XPENDING_RANGE stream group e.1);
  mret (mk_delivery e.1 e.2 (match l with p :: _ => p_deliveries p | [] => 1%Z end)).

Fixpoint map_m {S A B} (f : A → M S B) (l : list A) : M S (list B) :=
  match l with
  | [] => mret []
  | x :: l' => y ← f x; ys ← map_m f l'; mret (y :: ys)
  end.

Definition claim_stale_batch (stream group consumer : string) (min_idle : Z) (count : nat)
  : M rdb (list StreamDelivery) :=
  entries ← command (XAUTOCLAIM stream group consumer min_idle count);
  map_m (claimed_delivery stream group) entries.

Definition failure_fields (d : StreamDelivery) (reason : string) (now : datetime)
  : list (string * string) :=
  [("state", "retrying"); ("attempt_count", str_of_Z (attempt d));
   ("last_failure_reason", py_take 2000 reason); ("updated_at", datetime_isoformat now)].

Definition record_failure (metadata_prefix : string) (d : StreamDelivery) (reason : string)
    (replay_prefix : option string) (now : datetime) : M rdb unit :=
  let failure := command (HSET (metadata_key metadata_prefix (stream_id d))
                            (failure_fields d reason now)) in
  match p ← replay_prefix; replay_metadata_key p d with
  | None => failure
  | Some key =>
      pipeline [failure; command (HSET key (replay_action_fields d "retrying" None now))]
  end.

Definition record_replay_processing (replay_prefix : string) (d : StreamDelivery) (now : datetime)
  : M rdb unit :=
  match replay_metadata_key replay_prefix d with
  | Some key => command (HSET key (replay_action_fields d "processing" None now))
  | None => mret tt
  end.

(** The update of the replay metadata at the end of a delivery. *)
Definition replay_update (replay_prefix : option string) (d : StreamDelivery) (state : string)
    (processing : option string) (now : datetime) : list (M rdb unit) :=
  match p ← replay_prefix; replay_metadata_key p d with
  | Some key => [command (HSET key (replay_action_fields d state processing now))]
  | None => []
  end.

Definition acknowledge (stream group : string) (d : StreamDelivery) (replay_prefix : option string)
    (processing : option string) (now : datetime) : M rdb unit :=
  pipeline ([command (XACK stream group (stream_id d)); command (XDEL stream (stream_id d))]
            ++ replay_update replay_prefix d "acknowledged" processing now).

Definition dead_letter_fields (d : StreamDelivery) (reason : string) (now : datetime)
  : list (string * string) :=
  [("original_stream_id", stream_id d); ("attempt_count", str_of_Z (attempt d));
   ("failed_at", datetime_isoformat now); ("failure_reason", py_take 2000 reason);
   ("original_fields", dumps_str_dict (d_fields d))].

Definition ignore {S A} (m : M S A) : M S unit := _ ← m; mret tt.

Definition dead_letter (stream group dead_letter_stream : string) (d : StreamDelivery)
    (reason : string) (replay_prefix : option string) (now : datetime) : M rdb unit :=
  pipeline ([ignore (command (XADD dead_letter_stream (dead_letter_fields d reason now)));
             command (XACK stream group (stream_id d)); command (XDEL stream (stream_id d))]
            ++ replay_update replay_prefix d "dead_lettered" (Some "failed") now).
End Queue.

(** ** The clients on the keyspace *)

Section Transfer.
Context {R : Redis}.

Lemma follows_replay_update p d s o now :
  Forall2 follows (replay_update p d s o now) (replay_update (R:=reference_redis) p d s o now).
Proof. unfold replay_update. follow. Qed.

Lemma follows_enqueue_job `{JobCodec} stream prefix ttl job :
  follows (enqueue_job stream prefix ttl job)
          (enqueue_job (R:=reference_redis) stream prefix ttl job).
Proof. unfold enqueue_job, ENQUEUE_SCRIPT. follow. Qed.

Lemma follows_ensure_consumer_group stream group :
  follows (ensure_consumer_group stream group)
          (ensure_consumer_group (R:=reference_redis) stream group).
Proof.
  unfold ensure_consumer_group. apply follows_try; [apply follows_command|].
  intros e. destruct (isinstance_exn _ _ && _); [apply follows_ret|done].
Qed.

Lemma follows_read_new_batch stream group consumer count :
  follows (read_new_batch stream group consumer count)
          (read_new_batch (R:=reference_redis) stream group consumer count).
Proof. unfold read_new_batch. follow. Qed.

Lemma follows_map_m {A B} (f : A → M rdb B) f0 l :
  (∀ x, follows (f x) (f0 x)) → follows (map_m f l) (map_m f0 l).
Proof.
  intros Hf. induction l as [|x l IH]; cbn [map_m]; [apply follows_ret|].
  apply follows_bind; [done|]. intros y. apply follows_bind; [done|]. intros ys. apply follows_ret.
Qed.

Lemma follows_claim_stale_batch stream group consumer idle count :
  follows (claim_stale_batch stream group consumer idle count)
          (claim_stale_batch (R:=reference_redis) stream group consumer idle count).
Proof.
  unfold claim_stale_batch. apply follows_bind; [apply follows_command|]. intros l.
  apply follows_map_m. intros e. unfold claimed_delivery. follow.
Qed.

Lemma follows_record_failure prefix d reason p now :
  follows (record_failure prefix d reason p now)
          (record_failure (R:=reference_redis) prefix d reason p now).
Proof. unfold record_failure. follow. Qed.

Lemma follows_record_replay_processing p d now :
  follows (record_replay_processing p d now) (record_replay_processing (R:=reference_redis) p d now).
Proof. unfold record_replay_processing. follow. Qed.

Lemma follows_acknowledge stream group d p o now :
  follows (acknowledge stream group d p o now)
          (acknowledge (R:=reference_redis) stream group d p o now).
Proof.
  unfold acknowledge. apply follows_pipeline, Forall2_app; [follow|apply follows_replay_update].
Qed.

Lemma follows_dead_letter stream group dlq d reason p now :
  follows (dead_letter stream group dlq d reason p now)
          (dead_letter (R:=reference_redis) stream group dlq d reason p now).
Proof.
  unfold dead_letter. apply follows_pipeline, Forall2_app; [|apply follows_replay_update].
  unfold ignore. follow.
Qed.
End Transfer.

#[export] Hint Resolve follows_enqueue_job follows_ensure_consumer_group follows_read_new_batch
  follows_claim_stale_batch follows_record_failure follows_record_replay_processing
  follows_acknowledge follows_dead_letter : redis.


(** ** Enqueueing *)

(** The script on a new key, and on a key it has seen. *)
Lemma enqueue_new `{JobCodec} stream prefix ttl job ks :
  let key := dedupe_key_of prefix (idempotency_key job) in
  key ≠ stream → is_stream stream ks = true → lookup_key key ks = None →
  let id := ids ks (id_pos ks) in
  ∃ ks', enqueue_job (R:=reference_redis) stream prefix ttl job ks = (Ok id, ks')
    ∧ lookup_key key ks' = Some (RString id)
    ∧ stream_at stream ks' = set_entries (s_entries (stream_at stream ks)
                               ++ [(id, [("payload", model_dump_json job)])]) (stream_at stream ks)
    ∧ is_stream stream ks' = true
    ∧ others_kept [stream; key] ks ks'.
Proof.
  intros key Hne Hs Hk id. destruct (xadd_runs stream [("payload", model_dump_json job)] ks Hs)
    as (ks1 & E1 & [Hst Hty Ho]).
  unfold enqueue_job, ENQUEUE_SCRIPT. fold key.
  exists (put_key key (RString id) ks1).
  assert (El : lookup_key stream (put_key key (RString id) ks1) = lookup_key stream ks1)
    by (apply lookup_put_ne; congruence).
  split; [|split; [apply lookup_put_eq|]; split; [|split]].
  - rewrite (bind_run _ _ _ None ks) by (cbn; by rewrite Hk). cbv iota.
    by rewrite (bind_run _ _ _ id ks1) by exact E1.
  - by rewrite (stream_at_same _ ks1).
  - by rewrite (is_stream_same _ ks1).
  - intros k Hk2. rewrite lookup_put_ne by set_solver. apply Ho. set_solver.
Qed.

Lemma enqueue_seen `{JobCodec} stream prefix ttl job ks id :
  lookup_key (dedupe_key_of prefix (idempotency_key job)) ks = Some (RString id) →
  enqueue_job (R:=reference_redis) stream prefix ttl job ks = (Ok id, ks).
Proof.
  intros Hk. unfold enqueue_job, ENQUEUE_SCRIPT.
  by rewrite (bind_run _ _ _ (Some id) ks) by (cbn; by rewrite Hk).
Qed.

(** A job is enqueued once.  The first time, its dump is appended to the live
    stream under the id that is returned and nothing but that stream and the
    dedupe key changes; from then on, any job with the same idempotency key gets
    the same id and the server stays as it is. *)
Theorem enqueue_once `{JobCodec} {R : Redis} stream prefix ttl job (r : rdb) :
  let key := dedupe_key_of prefix (idempotency_key job) in
  key ≠ stream → is_stream stream (view r) = true → lookup_key key (view r) = None →
  ∃ id r1, enqueue_job stream prefix ttl job r = (Ok id, r1)
    ∧ s_entries (stream_at stream (view r1))
      = s_entries (stream_at stream (view r)) ++ [(id, [("payload", model_dump_json job)])]
    ∧ s_groups (stream_at stream (view r1)) = s_groups (stream_at stream (view r))
    ∧ others_kept [stream; key] (view r) (view r1)
    ∧ ∀ job' ttl' r2, idempotency_key job' = idempotency_key job →
        others_kept [stream] (view r1) (view r2) →
        ∃ r3, enqueue_job stream prefix ttl' job' r2 = (Ok id, r3) ∧ view r3 = view r2.
Proof.
  intros key Hne Hs Hk.
  destruct (enqueue_new stream prefix ttl job (view r) Hne Hs Hk) as (ks' & E & Hl & Hst & _ & Ho).
  destruct (follows_run _ _ _ _ _ (follows_enqueue_job stream prefix ttl job) E) as (r1 & E1 & <-).
  eexists _, r1. split; [exact E1|]. rewrite Hst. do 2 (split; [done|]). split; [done|].
  intros job' ttl' r2 Hi Hk2. assert (Hl2 : lookup_key key (view r2) = Some (RString (ids (view r) (id_pos (view r)))))
    by (etrans; [apply Hk2; set_solver|exact Hl]).
  unfold key in Hl2. rewrite <- Hi in Hl2.
  apply (follows_run _ _ _ _ _ (follows_enqueue_job stream prefix ttl' job')).
  by apply enqueue_seen.
Qed.

(** ** Settling a delivery *)

(** The metadata key of the replay that produced a delivery, if one did. *)
Definition replay_keys (p : option string) (d : StreamDelivery) : list string :=
  match p ≫= λ p, replay_metadata_key p d with Some k => [k] | None => [] end.

(** The stream without the delivery. *)
Definition settled_stream (group id : string) (s : stream) : stream :=
  let s := acked group id s in set_entries (without id (s_entries s)) s.

Lemma settled_stream_entries g id s :
  s_entries (settled_stream g id s) = without id (s_entries s).
Proof. unfold settled_stream, acked. by destruct (dict_get g (s_groups s)). Qed.

Lemma settled_stream_group g id s g' :
  dict_get g' (s_groups (settled_stream g id s))
  = if String.eqb g' g then settle id <$> dict_get g (s_groups s) else dict_get g' (s_groups s).
Proof.
  unfold settled_stream, acked. cbn. destruct (dict_get g (s_groups s)) as [x|] eqn:E; cbn.
  - rewrite dict_get_set. by destruct (String.eqb g' g).
  - destruct (String.eqb_spec g' g) as [->|]; [by rewrite E|done].
Qed.

Lemma replay_update_runs p d state o now ks :
  Forall (λ k, is_hash k ks = true) (replay_keys p d) →
  ∃ ks', pipeline (replay_update (R:=reference_redis) p d state o now) ks = (Ok tt, ks')
    ∧ Forall (λ k, hash_at k ks' = dict_update (hash_at k ks) (replay_action_fields d state o now)
                   ∧ is_hash k ks' = true) (replay_keys p d)
    ∧ others_kept (replay_keys p d) ks ks'.
Proof.
  unfold replay_keys, replay_update. destruct (p ≫= _) as [k|].
  - intros [Hh _]%Forall_cons. destruct (hset_runs k (replay_action_fields d state o now) ks Hh)
      as (ks' & E & [Hh' Ht' Ho]).
    exists ks'. split; [|split; [by apply Forall_singleton|done]].
    by rewrite (pipeline_step _ _ _ ks').
  - intros _. exists ks. by split.
Qed.

Lemma settle_runs stream group d p state o now ks :
  is_stream stream ks = true → stream ∉ replay_keys p d →
  Forall (λ k, is_hash k ks = true) (replay_keys p d) →
  ∃ ks', pipeline ([command (Redis:=reference_redis) (XACK stream group (stream_id d));
                    command (XDEL stream (stream_id d))]
                   ++ replay_update (R:=reference_redis) p d state o now) ks = (Ok tt, ks')
    ∧ stream_at stream ks' = settled_stream group (stream_id d) (stream_at stream ks)
    ∧ Forall (λ k, hash_at k ks' = dict_update (hash_at k ks) (replay_action_fields d state o now)
                   ∧ is_hash k ks' = true) (replay_keys p d)
    ∧ others_kept (stream :: replay_keys p d) ks ks'
    ∧ is_stream stream ks' = true.
Proof.
  intros Hs Hn Hh.
  destruct (xack_runs stream group (stream_id d) ks Hs) as (ks1 & E1 & [S1 T1 O1]).
  destruct (xdel_runs stream (stream_id d) ks1 T1) as (ks2 & E2 & [S2 T2 O2]).
  assert (K2 : ∀ k, k ∈ replay_keys p d → lookup_key k ks2 = lookup_key k ks).
  { intros k Hk. rewrite O2, O1; [done|set_solver..]. }
  destruct (replay_update_runs p d state o now ks2) as (ks3 & E3 & H3 & O3).
  { apply Forall_forall. intros k Hk. rewrite (is_hash_same _ ks) by auto.
    by apply (proj1 (Forall_forall _ _) Hh). }
  exists ks3. split; [|split; [|split; [|split]]].
  - cbn [app]. rewrite (pipeline_step _ _ _ ks1), (pipeline_step _ _ _ ks2) by done. exact E3.
  - rewrite (stream_at_same _ ks2), S2, S1 by (apply O3; done). done.
  - apply Forall_forall. intros k Hk. destruct (proj1 (Forall_forall _ _) H3 k Hk) as [-> ->].
    by rewrite (hash_at_same _ ks) by auto.
  - intros k Hk. rewrite O3, O2, O1; [done|set_solver..].
  - by rewrite (is_stream_same _ ks2) by (apply O3; done).
Qed.

Lemma dead_letter_runs {R : Redis} stream group dlq d reason p now (r : rdb) :
  stream ≠ dlq → is_stream stream (view r) = true → is_stream dlq (view r) = true →
  stream ∉ replay_keys p d → dlq ∉ replay_keys p d →
  Forall (λ k, is_hash k (view r) = true) (replay_keys p d) →
  let id := ids (view r) (id_pos (view r)) in
  ∃ r', dead_letter stream group dlq d reason p now r = (Ok tt, r')
    ∧ s_entries (stream_at dlq (view r'))
      = s_entries (stream_at dlq (view r)) ++ [(id, dead_letter_fields d reason now)]
    ∧ stream_at stream (view r')
      = settled_stream group (stream_id d) (stream_at stream (view r))
    ∧ Forall (λ k, hash_at k (view r') = dict_update (hash_at k (view r))
                     (replay_action_fields d "dead_lettered" (Some "failed") now)
                   ∧ is_hash k (view r') = true) (replay_keys p d)
    ∧ others_kept (stream :: dlq :: replay_keys p d) (view r) (view r')
    ∧ is_stream stream (view r') = true ∧ is_stream dlq (view r') = true.
Proof.
  intros Hne Hs Hd Hn1 Hn2 Hh id.
  destruct (xadd_runs dlq (dead_letter_fields d reason now) (view r) Hd) as (ks1 & E1 & [S1 T1 O1]).
  assert (Ks : lookup_key stream ks1 = lookup_key stream (view r)) by (apply O1; set_solver).
  assert (Kr : ∀ k, k ∈ replay_keys p d → lookup_key k ks1 = lookup_key k (view r))
    by (intros k Hk; apply O1; set_solver).
  destruct (settle_runs stream group d p "dead_lettered" (Some "failed") now ks1)
    as (ks2 & E2 & S2 & H2 & O2 & T2); [by rewrite (is_stream_same _ (view r))|done| |].
  { apply Forall_forall. intros k Hk. rewrite (is_hash_same _ (view r)) by auto.
    by apply (proj1 (Forall_forall _ _) Hh). }
  destruct (follows_run (dead_letter stream group dlq d reason p now)
    (dead_letter (R:=reference_redis) stream group dlq d reason p now) r (Ok tt) ks2)
    as (r' & E & V).
  - apply follows_dead_letter.
  - unfold dead_letter. cbn [app]. rewrite (pipeline_step _ _ _ ks1); [exact E2|].
    unfold ignore. by rewrite (bind_run _ _ _ _ ks1) by exact E1.
  - exists r'. subst ks2. split; [exact E|].
    split; [|split; [|split; [|split; [|split]]]].
    + rewrite (stream_at_same _ ks1), S1 by (apply O2; set_solver). done.
    + rewrite S2. by rewrite (stream_at_same _ (view r)) by done.
    + apply Forall_forall. intros k Hk. destruct (proj1 (Forall_forall _ _) H2 k Hk) as [-> ->].
      by rewrite (hash_at_same _ (view r)) by auto.
    + intros k Hk. rewrite O2, O1; [done|set_solver..].
    + done.
    + by rewrite (is_stream_same _ ks1) by (apply O2; set_solver).
Qed.

Lemma acknowledge_runs {R : Redis} stream group d p o now (r : rdb) :
  is_stream stream (view r) = true → stream ∉ replay_keys p d →
  Forall (λ k, is_hash k (view r) = true) (replay_keys p d) →
  ∃ r', acknowledge stream group d p o now r = (Ok tt, r')
    ∧ stream_at stream (view r') = settled_stream group (stream_id d) (stream_at stream (view r))
    ∧ Forall (λ k, hash_at k (view r') = dict_update (hash_at k (view r))
                     (replay_action_fields d "acknowledged" o now)
                   ∧ is_hash k (view r') = true) (replay_keys p d)
    ∧ others_kept (stream :: replay_keys p d) (view r) (view r')
    ∧ is_stream stream (view r') = true.
Proof.
  intros Hs Hn Hh.
  destruct (settle_runs stream group d p "acknowledged" o now (view r) Hs Hn Hh) as (ks & E & H).
  destruct (follows_run _ _ _ _ _ (follows_acknowledge stream group d p o now) E) as (r' & E' & <-).
  by exists r'.
Qed.

(** Dead-lettering a delivery moves it, as one transaction: its evidence is
    appended to the dead-letter stream, the entry has left the live stream and the
    pending entries of its group, every other entry, pending entry and key is as
    before, and the replay that produced it, if any, is recorded as dead-lettered. *)
Theorem dead_letter_moves {R : Redis} stream group dlq d reason p now (r : rdb) :
  stream ≠ dlq → is_stream stream (view r) = true → is_stream dlq (view r) = true →
  stream ∉ replay_keys p d → dlq ∉ replay_keys p d →
  Forall (λ k, is_hash k (view r) = true) (replay_keys p d) →
  ∃ r' id, dead_letter stream group dlq d reason p now r = (Ok tt, r')
    ∧ s_entries (stream_at dlq (view r'))
      = s_entries (stream_at dlq (view r)) ++ [(id, dead_letter_fields d reason now)]
    ∧ stream_at stream (view r')
      = settled_stream group (stream_id d) (stream_at stream (view r))
    ∧ Forall (λ k, hash_at k (view r') = dict_update (hash_at k (view r))
                     (replay_action_fields d "dead_lettered" (Some "failed") now)) (replay_keys p d)
    ∧ others_kept (stream :: dlq :: replay_keys p d) (view r) (view r').
Proof.
  intros Hne Hs Hd Hn1 Hn2 Hh.
  destruct (dead_letter_runs stream group dlq d reason p now r Hne Hs Hd Hn1 Hn2 Hh)
    as (r' & E & H1 & H2 & H3 & H4 & _). exists r', (ids (view r) (id_pos (view r))).
  do 3 (split; [done|]). split; [|done]. eapply Forall_impl; [exact H3|]. by intros k [? _].
Qed.

(** ** Witnesses *)

Definition demo_job : InvoiceJobEnvelope :=
  mk_job 1 (of_chars (replicate 64 "a"%char)) "ap@example.com" "m1" "t1" "0.1" "invoice.pdf" "QQ=="
    (sha256_hex ["A"%char]) 0 true.

Lemma demo_job_valid : job_valid demo_job = true.
Proof. vm_compute. reflexivity. Qed.

Lemma demo_job_text : job_text demo_job.
Proof. unfold job_text. repeat (apply Forall_cons_2; [ascii_lit|]). apply Forall_nil_2. Qed.

(** One delivery in progress on the live stream, produced by a replay. *)
Definition demo_delivery : StreamDelivery :=
  mk_delivery "5-0" [("payload", model_dump_json demo_job); ("replay_dlq_id", "2-0");
                     ("replay_request_id", "q")] 3.

Definition demo_keyspace : keyspace :=
  mk_keyspace
    [("live", RStream (mk_stream [("5-0", d_fields demo_delivery)]
                [("g", mk_group (Some "5-0") [mk_pending "5-0" "c" 0 3])]))]
    (λ n, str_of_Z (Z.of_nat n + 10) +:+ "-0") 0 100.

Lemma enqueue_once_witness :
  ∃ id r1, enqueue_job (R:=reference_redis) "live" "dedupe" 60 demo_job demo_keyspace = (Ok id, r1)
    ∧ s_entries (stream_at "live" r1)
      = s_entries (stream_at "live" demo_keyspace) ++ [(id, [("payload", model_dump_json demo_job)])].
Proof.
  destruct (enqueue_once (R:=reference_redis) "live" "dedupe" 60 demo_job demo_keyspace)
    as (id & r1 & E & Hs & _); [by vm_compute|reflexivity|vm_compute; reflexivity|].
  exists id, r1. split; [exact E|exact Hs].
Defined.

Lemma dead_letter_moves_witness :
  ∃ r' id, dead_letter (R:=reference_redis) "live" "g" "dlq" demo_delivery "boom" (Some "rp") 0
             demo_keyspace = (Ok tt, r')
    ∧ s_entries (stream_at "dlq" r') = [(id, dead_letter_fields demo_delivery "boom" 0)].
Proof.
  destruct (dead_letter_moves (R:=reference_redis) "live" "g" "dlq" demo_delivery "boom" (Some "rp") 0
    demo_keyspace) as (r' & id & E & Hd & _); [done|reflexivity|reflexivity|..].
  - change (replay_keys (Some "rp") demo_delivery) with ["rp:2-0"]. set_solver.
  - change (replay_keys (Some "rp") demo_delivery) with ["rp:2-0"]. set_solver.
  - by repeat constructor.
  - exists r', id. split; [exact E|exact Hd].
Defined.
