(* ===== verification/QueueOperations.v ===== *)
(** * Operations on the dead-letter queue

    [app/services/queue_operations.py]: decoding the evidence of a dead letter,
    listing, replaying and purging dead letters, and the metrics of the queue.  The
    two Lua scripts are computations on the server, atomic as scripts are; the
    pages, replies and metrics are records with the fields of
    [app/schemas/queue_operations.py].  The clock is an argument. *)

From S2P Require Import Prelude PyText DateTime PyFloat Json Database InvoiceJob Redis.
From S2P Require Import InvoiceQueue.
From Stdlib Require Import Ascii.
Local Open Scope string_scope.
Local Open Scope list_scope.
Local Open Scope nat_scope.

Definition NONTERMINAL_REPLAY_STATES : list string := ["enqueued"; "processing"; "retrying"].
Definition REPLAY_STATES : list string :=
  NONTERMINAL_REPLAY_STATES ++ ["acknowledged"; "dead_lettered"].

(** ** The schemas *)

Record DLQSource := mk_DLQSource {
  src_gmail_account : option string;
  src_message_id : option string;
  src_mime_part_id : option string;
  src_idempotency_key : option string
}.

Record ReplaySummary := mk_ReplaySummary {
  count : Z;
  last_request_id : option string;
  last_requested_at : option datetime;
  last_enqueued_at : option datetime;
  last_live_stream_id : option string;
  rs_state : option string;
  rs_workflow_processing_status : option string
}.

Record DLQEntry := mk_DLQEntry {
  dlq_id : string;
  original_stream_id : option string;
  failure_reason : option string;
  attempt_count : Z;
  failed_at : option datetime;
  dlq_filename : option string;
  source : DLQSource;
  replayable : bool;
  replay_block_reason : option string;
  replay : ReplaySummary
}.

Record DLQPage := mk_DLQPage { items : list DLQEntry; next_cursor : option string }.

Record ReplayResponse := mk_ReplayResponse {
  rr_dlq_id : string;
  rr_request_id : string;
  created : bool;
  replay_count : Z;
  rr_state : string;
  requested_at : datetime;
  rr_enqueued_at : datetime;
  live_stream_id : string
}.

Record QueueMetrics := mk_QueueMetrics {
  live_stream_length : Z;
  pending_count : Z;
  oldest_pending_age_seconds : option float;
  dlq_count : Z;
  observed_at : datetime
}.

(** ** Decoding *)

Record DecodedDLQEvidence := mk_evidence {
  original_fields_json : string;
  original_fields : list (string * string);
  job : InvoiceJobEnvelope
}.

(** [STREAM_ID_RE], matched to the end. *)
Definition digits (l : chars) : bool := match l with [] => false | _ => forallb is_digit l end.
Definition stream_id_text (s : string) : bool :=
  match split_on "-"%char [] (to_chars s) with
  | [a; b] => digits a && digits b
  | _ => false
  end.

Definition validate_stream_id (value : string) : res string :=
  if stream_id_text value then Ok value
  else Raise (Exn ValueError "cursor must be a Redis stream ID such as 1752940000000-0").

Definition string_items (d : list (string * json)) : option (list (string * string)) :=
  mapM (λ kv, (λ v, (kv.1, v)) <$> as_str (Some kv.2)) d.

Definition not_replayable {A} (msg : string) : res A := Raise (Exn DLQNotReplayable msg).

Section Decode.
Context `{JobCodec}.

Definition decode_dlq_evidence (fields : list (string * string)) : res DecodedDLQEvidence :=
  match dict_get "original_fields" fields with
  | None => not_replayable "missing original_fields"
  | Some raw =>
      match json_loads raw with
      | JErr _ => not_replayable "original_fields is not valid JSON"
      | JOk loaded =>
          match match loaded with JObj d => string_items d | _ => None end with
          | None => not_replayable "original_fields must be a string-to-string object"
          | Some original =>
              match parse_delivery original with
              | Ok j => Ok (mk_evidence raw original j)
              | Raise e =>
                  if isinstance_exn e PermanentJobError then not_replayable (exn_msg e) else Raise e
              end
          end
      end
  end.
End Decode.

(** [value.replace(Z, +00:00)] *)
Definition replace_char (c : ascii) (by_ : chars) (s : string) : string :=
  of_chars (to_chars s ≫= λ x, if Ascii.eqb x c then by_ else [x]).

Definition optional_datetime (value : option string) : option datetime :=
  match str_or value None with
  | None => None
  | Some v => instant 0 <$> fromisoformat (replace_char "Z" (to_chars "+00:00") v)
  end.

(** [int(s)], 0 on a [ValueError]. *)
Definition int_or_0 (s : option string) : Z := default 0%Z (py_int (default "0" s)).

Definition replay_summary (metadata : list (string * string)) : ReplaySummary :=
  let request_id := dict_get "last_request_id" metadata in
  let prefix := action_prefix <$> str_or request_id None in
  let raw_state := p ← prefix; dict_get (p +:+ "state") metadata in
  mk_ReplaySummary
    (int_or_0 (dict_get "replay_count" metadata))
    request_id
    (optional_datetime (dict_get "last_replay_requested_at" metadata))
    (optional_datetime (dict_get "last_replay_enqueued_at" metadata))
    (dict_get "last_live_stream_id" metadata)
    (if opt_truthy (λ s, in_strs s REPLAY_STATES) raw_state then raw_state else None)
    (p ← prefix; dict_get (p +:+ "workflow_processing_status") metadata).

(** [_recover_payload_identity]: what is read of an object that is no valid job;
    [None] when there is no such object. *)
Definition recovered_payload (fields : list (string * string)) : option json :=
  match json_loads (default "" (dict_get "original_fields" fields)) with
  | JErr _ => None
  | JOk (JObj original) =>
      match dict_get "payload" original with
      | None => match json_loads "" with JOk p => Some p | JErr _ => None end
      | Some (JStr s) => match json_loads s with JOk p => Some p | JErr _ => None end
      | Some _ => None
      end
  | JOk _ => None
  end.

Definition recover_payload_identity (fields : list (string * string)) (key : string) : option string :=
  match recovered_payload fields with
  | Some (JObj payload) => as_str (dict_get key payload)
  | _ => None
  end.

Section Entry.
Context `{JobCodec}.

Definition dlq_entry_from_fields (id : string) (fields metadata : list (string * string))
  : res DLQEntry :=
  match match decode_dlq_evidence fields with
        | Ok ev => Ok (Some ev, None)
        | Raise e => if isinstance_exn e DLQNotReplayable then Ok (None, Some (exn_msg e)) else Raise e
        end with
  | Raise e => Raise e
  | Ok (evidence, block_reason) =>
      let of_job (f : InvoiceJobEnvelope → string) key :=
        match evidence with
        | Some ev => Some (f (job ev))
        | None => recover_payload_identity fields key
        end in
      Ok (mk_DLQEntry id (dict_get "original_stream_id" fields) (dict_get "failure_reason" fields)
            (int_or_0 (dict_get "attempt_count" fields))
            (optional_datetime (dict_get "failed_at" fields))
            (of_job job_filename "filename")
            (mk_DLQSource (of_job gmail_account "gmail_account") (of_job message_id "message_id")
               (of_job mime_part_id "mime_part_id") (of_job idempotency_key "idempotency_key"))
            (match evidence with Some _ => true | None => false end)
            block_reason (replay_summary metadata))
  end.
End Entry.

Fixpoint for_each {S A} (f : A → M S unit) (l : list A) : M S unit :=
  match l with
  | [] => mret tt
  | x :: l' => _ ← f x; for_each f l'
  end.

(** The fields a new replay writes. *)
Definition replay_fields (request_id requested enqueued stream_id : string)
  : list (string * string) :=
  let prefix := action_prefix request_id in
  [("last_request_id", request_id); ("last_replay_requested_at", requested);
   ("last_replay_enqueued_at", enqueued); ("last_live_stream_id", stream_id);
   (prefix +:+ "requested_at", requested); (prefix +:+ "enqueued_at", enqueued);
   (prefix +:+ "live_stream_id", stream_id); (prefix +:+ "state", "enqueued")].

(** The reply of [REPLAY_SCRIPT]. *)
Inductive replay_reply :=
  | WrongType | NotFound | EvidenceChanged | InProgress
  | Replayed (new : bool) (id count requested_at enqueued_at state : string).

(** [int(s)] *)
Definition int_of (s : string) : res Z :=
  match py_int s with
  | Some z => Ok z
  | None => Raise (Exn ValueError ("invalid literal for int() with base 10: " +:+ str_repr s))
  end.

Definition queue_error {A} (msg : string) : res A := Raise (Exn QueueOperationError msg).

(** What [replay_dlq_entry] makes of the reply. *)
Definition replay_response (id request_id : string) (now : datetime) (response : replay_reply)
  : res ReplayResponse :=
  match response with
  | NotFound => Raise (Exn DLQNotFound "DLQ entry not found")
  | InProgress => Raise (Exn ReplayInProgress "another replay action is still in progress")
  | EvidenceChanged => queue_error "DLQ evidence changed during replay validation"
  | WrongType => queue_error "a configured queue key has the wrong Redis type"
  | Replayed new stream_id n requested enqueued state =>
      if negb (in_strs state REPLAY_STATES)
      then queue_error ("unexpected replay state: " +:+ state)
      else
        match int_of n with
        | Raise e => Raise e
        | Ok n =>
            Ok (mk_ReplayResponse id request_id new n state
                  (default now (optional_datetime (Some requested)))
                  (default now (optional_datetime (Some enqueued))) stream_id)
        end
  end.

Section Operations.
Context {R : Redis}.

(** ** Listing *)

Definition list_dlq_entries `{JobCodec} (dead_letter_stream replay_prefix : string) (limit : nat)
    (cursor : option string) : M rdb DLQPage :=
  maximum ← match str_or cursor None with
            | Some c => v ← of_res (validate_stream_id c); mret (Excl v)
            | None => mret Highest
            end;
  rows ← command (XREVRANGE dead_letter_stream maximum Lowest (Some (limit + 1)));
  let visible_rows := take limit rows in
  metadata_rows ← map_m (λ e : entry, command (HGETALL (replay_key_of replay_prefix e.1))) visible_rows;
  its ← map_m (λ em : entry * list (string * string),
                 of_res (dlq_entry_from_fields em.1.1 em.1.2 em.2))
          (zip visible_rows metadata_rows);
  mret (mk_DLQPage its
          (if limit <? length rows then fst <$> last visible_rows else None)).

(** ** Replaying *)

(** The action of a request on a dead letter that is there: recorded before, refused
    while another one is in progress, or appended to the live stream. *)
Definition replay_action (live meta id request_id payload requested enqueued : string)
  : M rdb replay_reply :=
  let prefix := action_prefix request_id in
  existing ← command (HGET meta (prefix +:+ "live_stream_id"));
  match existing with
  | Some existing =>
      n ← command (HGET meta "replay_count");
      req ← command (HGET meta (prefix +:+ "requested_at"));
      enq ← command (HGET meta (prefix +:+ "enqueued_at"));
      st ← command (HGET meta (prefix +:+ "state"));
      mret (Replayed false existing (default "0" n) (default "" req) (default "" enq)
              (default "enqueued" st))
  | None =>
      last_request_id ← command (HGET meta "last_request_id");
      busy ← match last_request_id with
             | Some l =>
                 if String.eqb l request_id then mret false
                 else st ← command (HGET meta (action_prefix l +:+ "state"));
                      mret (opt_truthy (λ s, in_strs s NONTERMINAL_REPLAY_STATES) st)
             | None => mret false
             end;
      if (busy : bool) then mret InProgress else
      stream_id ← command (XADD live [("payload", payload); ("replay_dlq_id", id);
                                      ("replay_request_id", request_id)]);
      n ← command (HINCRBY meta "replay_count" 1);
      _ ← command (HSET meta (replay_fields request_id requested enqueued stream_id));
      mret (Replayed true stream_id (str_of_Z n) requested enqueued "enqueued")
  end.

(** [REPLAY_SCRIPT] *)
Definition REPLAY_SCRIPT (dlq live meta id request_id evidence payload requested enqueued : string)
  : M rdb replay_reply :=
  dlq_type ← command (TYPE_ dlq);
  live_type ← command (TYPE_ live);
  meta_type ← command (TYPE_ meta);
  if negb (in_strs dlq_type ["none"; "stream"]) then mret WrongType else
  if negb (in_strs live_type ["none"; "stream"]) then mret WrongType else
  if negb (in_strs meta_type ["none"; "hash"]) then mret WrongType else
  rows ← command (XRANGE dlq (Incl id) (Incl id) None);
  match rows with
  | [] => mret NotFound
  | (_, fields) :: _ =>
      if negb (opt_eqb String.eqb (dict_get "original_fields" fields) (Some evidence))
      then mret EvidenceChanged
      else replay_action live meta id request_id payload requested enqueued
  end.

Definition replay_dlq_entry `{JobCodec} (dead_letter_stream live_stream replay_prefix id request_id
    : string) (now : datetime) : M rdb ReplayResponse :=
  _ ← of_res (validate_stream_id id);
  rows ← command (XRANGE dead_letter_stream (Incl id) (Incl id) (Some 1));
  match rows with
  | [] => raise (Exn DLQNotFound "DLQ entry not found")
  | (_, fields) :: _ =>
      evidence ← of_res (decode_dlq_evidence fields);
      let timestamp := datetime_isoformat now in
      response ← REPLAY_SCRIPT dead_letter_stream live_stream (replay_key_of replay_prefix id) id
                   request_id (original_fields_json evidence) (model_dump_json (job evidence))
                   timestamp timestamp;
      of_res (replay_response id request_id now response)
  end.

(** ** Metrics *)

Definition queue_metrics (live_stream group dead_letter_stream : string) (now : datetime)
  : M rdb QueueMetrics :=
  live_length ← command (XLEN live_stream);
  dlq_count ← command (XLEN dead_letter_stream);
  groups ← try_except (command (XINFO_GROUPS live_stream))
             (λ e, if isinstance_exn e ResponseError then Some (mret []) else None);
  if existsb (String.eqb group) groups then
    pending ← command (XPENDING live_stream group);
    let '(pending_count, oldest_id) := pending in
    age ← match str_or oldest_id None with
          | Some i =>
              if Z.eqb pending_count 0 then mret None else
              oldest_ms ← of_res (int_of (of_chars (hd [] (split_on "-"%char [] (to_chars i)))));
              let age := fsub (timestamp now) (true_div oldest_ms 1000) in
              mret (Some (if fltb fzero age then age else fzero))
          | None => mret None
          end;
    mret (mk_QueueMetrics live_length pending_count age dlq_count now)
  else mret (mk_QueueMetrics live_length 0 None dlq_count now).

(** ** Purging *)

Definition purge_row (dlq replay_prefix metadata_prefix : string) (row : entry) : M rdb unit :=
  _ ← command (XDEL dlq row.1);
  _ ← command (DEL (replay_key_of replay_prefix row.1));
  match dict_get "original_stream_id" row.2 with
  | Some original => command (DEL (metadata_key metadata_prefix original))
  | None => mret tt
  end.

(** [PURGE_BATCH_SCRIPT]: [None] is [wrong_type]. *)
Definition PURGE_BATCH_SCRIPT (dlq cutoff : string) (limit : nat) (replay_prefix metadata_prefix : string)
  : M rdb (option (nat * nat)) :=
  dlq_type ← command (TYPE_ dlq);
  if String.eqb dlq_type "none" then mret (Some (0, 0)) else
  if negb (String.eqb dlq_type "stream") then mret None else
  rows ← command (XRANGE dlq Lowest (Excl cutoff) (Some limit));
  _ ← for_each (purge_row dlq replay_prefix metadata_prefix) rows;
  remaining ← command (XRANGE dlq Lowest (Excl cutoff) (Some 1));
  mret (Some (length rows, length remaining)).

(** The loop, from [purged_count] and [has_more]; [None] when the fuel runs out. *)
Fixpoint purge_loop (fuel : nat) (dlq replay_prefix metadata_prefix cutoff : string)
    (max_delete batch_size purged_count : nat) (has_more : bool) : M rdb (option (nat * bool)) :=
  if purged_count <? max_delete then
    match fuel with
    | O => mret None
    | S fuel' =>
        let limit := Nat.min batch_size (max_delete - purged_count) in
        response ← PURGE_BATCH_SCRIPT dlq cutoff limit replay_prefix metadata_prefix;
        match response with
        | None => of_res (queue_error "the configured DLQ key has the wrong Redis type")
        | Some (removed, remaining) =>
            let purged_count := purged_count + removed in
            let has_more := 0 <? remaining in
            if (removed <? limit) || negb has_more then mret (Some (purged_count, has_more))
            else purge_loop fuel' dlq replay_prefix metadata_prefix cutoff max_delete batch_size
                   purged_count has_more
        end
    end
  else mret (Some (purged_count, has_more)).

Definition cutoff_id (before : datetime) : string :=
  str_of_Z (float_trunc (fmul (timestamp before) (true_div 1000 1))) +:+ "-0".

Definition purge_dlq_entries (dead_letter_stream replay_prefix metadata_prefix : string)
    (before : datetime) (max_delete batch_size : nat) : M rdb (option (nat * bool)) :=
  purge_loop max_delete dead_letter_stream replay_prefix metadata_prefix (cutoff_id before)
    max_delete batch_size 0 false.
End Operations.

(** ** The clients on the keyspace *)

Section Transfer.
Context {R : Redis}.

Lemma follows_for_each {A} (f : A → M rdb unit) f0 l :
  (∀ x, follows (f x) (f0 x)) → follows (for_each f l) (for_each f0 l).
Proof.
  intros Hf. induction l as [|x l IH]; cbn [for_each]; [apply follows_ret|].
  by apply follows_bind.
Qed.

Lemma follows_replay_dlq_entry `{JobCodec} dlq live rp id q now :
  follows (replay_dlq_entry dlq live rp id q now)
          (replay_dlq_entry (R:=reference_redis) dlq live rp id q now).
Proof. unfold replay_dlq_entry, REPLAY_SCRIPT, replay_action. follow. Qed.

Lemma follows_list_dlq_entries `{JobCodec} dlq rp limit cursor :
  follows (list_dlq_entries dlq rp limit cursor)
          (list_dlq_entries (R:=reference_redis) dlq rp limit cursor).
Proof.
  unfold list_dlq_entries. apply follows_bind; [follow|]. intros b.
  apply follows_bind; [follow|]. intros rows.
  apply follows_bind; [apply follows_map_m; intros e; follow|]. intros ms.
  apply follows_bind; [apply follows_map_m; intros e; follow|]. intros its. follow.
Qed.

Lemma follows_queue_metrics live group dlq now :
  follows (queue_metrics live group dlq now) (queue_metrics (R:=reference_redis) live group dlq now).
Proof.
  unfold queue_metrics. apply follows_bind; [follow|]. intros a.
  apply follows_bind; [follow|]. intros b. apply follows_bind; [|intros gs; follow].
  apply follows_try; [follow|]. intros e. destruct (isinstance_exn e ResponseError); [follow|done].
Qed.

Lemma follows_PURGE_BATCH_SCRIPT dlq cutoff limit rp mp :
  follows (PURGE_BATCH_SCRIPT dlq cutoff limit rp mp)
          (PURGE_BATCH_SCRIPT (R:=reference_redis) dlq cutoff limit rp mp).
Proof.
  unfold PURGE_BATCH_SCRIPT. apply follows_bind; [follow|]. intros t.
  destruct (String.eqb t "none"); [follow|]. destruct (negb _); [follow|].
  apply follows_bind; [follow|]. intros rows. apply follows_bind; [|intros _; follow].
  apply follows_for_each. intros row. unfold purge_row. follow.
Qed.

Lemma follows_purge_loop fuel dlq rp mp cutoff mx bs : ∀ n more,
  follows (purge_loop fuel dlq rp mp cutoff mx bs n more)
          (purge_loop (R:=reference_redis) fuel dlq rp mp cutoff mx bs n more).
Proof.
  induction fuel as [|fuel IH]; intros n more; cbn [purge_loop]; destruct (n <? mx);
    try apply follows_ret.
  apply follows_bind; [apply follows_PURGE_BATCH_SCRIPT|]. intros [[removed remaining]|];
    [|apply follows_of_res].
  destruct ((removed <? _) || _); [apply follows_ret|apply IH].
Qed.
End Transfer.

#[export] Hint Resolve follows_replay_dlq_entry follows_list_dlq_entries follows_queue_metrics
  follows_purge_loop : redis.

(** ** Evidence *)

Lemma string_items_str_item l : string_items (str_item <$> l) = Some l.
Proof.
  unfold string_items. induction l as [|[k v] l IH]; [done|]. cbn in *. by rewrite IH.
Qed.

Lemma parse_delivery_payload `{JobCodec} f1 f2 :
  dict_get "payload" f1 = dict_get "payload" f2 → parse_delivery f1 = parse_delivery f2.
Proof. unfold parse_delivery. by intros ->. Qed.

Definition text_fields (f : list (string * string)) : Prop :=
  Forall (λ kv, ascii_text kv.1 ∧ ascii_text kv.2) f ∧ NoDup f.*1.

(** What the evidence of a dead letter decodes to: what its delivery parses to. *)
Lemma decode_dead_letter_fields `{JobCodec} d reason now :
  text_fields (d_fields d) →
  decode_dlq_evidence (dead_letter_fields d reason now) =
  match parse_delivery (d_fields d) with
  | Ok j => Ok (mk_evidence (dumps_str_dict (d_fields d)) (sort_by key_leb (d_fields d)) j)
  | Raise e => not_replayable (exn_msg e)
  end.
Proof.
  intros [Ha Hnd]. unfold decode_dlq_evidence, dead_letter_fields.
  change (dict_get "original_fields" _) with (Some (dumps_str_dict (d_fields d))). cbv iota.
  rewrite parse_dumps_str_dict, string_items_str_item by done. cbv iota.
  rewrite (parse_delivery_payload _ (d_fields d)).
  - pose proof (parse_delivery_spec (d_fields d)) as Hp.
    destruct (parse_delivery (d_fields d)) as [j|e]; [done|].
    unfold isinstance_exn. by rewrite Hp.
  - apply dict_get_perm; [|apply sort_by_perm]. by rewrite sort_by_perm.
Qed.

(** ** Replaying *)

Lemma digits_value_digits l : is_Some (digits_value l) → digits l = true.
Proof. destruct l as [|c l]; [by intros [? ?]|]. cbn. destruct (is_digit c && _); [done|by intros [? ?]]. Qed.

Lemma valid_id_text id : valid_id id = true → stream_id_text id = true.
Proof.
  unfold valid_id, sid_of, stream_id_text.
  destruct (split_on _ _ _) as [|a [|b [|]]]; try done.
  destruct (digits_value a) eqn:Ea; [|done]. destruct (digits_value b) eqn:Eb; [|done].
  intros _. by rewrite !digits_value_digits by eauto.
Qed.

(** The keys of one action. *)
Ltac in_list := repeat first [apply list_elem_of_here | apply list_elem_of_further].

Lemma append_inj_l p a b : p +:+ a = p +:+ b → a = b.
Proof.
  intros E. apply to_chars_inj, (app_inv_head (to_chars p)). by rewrite <- !to_chars_app, E.
Qed.

Definition action_names : list string := ["requested_at"; "enqueued_at"; "live_stream_id"; "state"].

Lemma action_live_inj q q' f :
  f ∈ action_names → action_prefix q +:+ "live_stream_id" = action_prefix q' +:+ f →
  q = q' ∧ f = "live_stream_id".
Proof.
  intros Hf E. apply (f_equal to_chars) in E. rewrite !to_chars_app in E.
  assert (El : last (to_chars f) = Some "d"%char).
  { apply (f_equal last) in E. rewrite !last_app in E. cbn in E.
    unfold action_names in Hf. repeat (apply elem_of_cons in Hf as [->|Hf]; [cbn in *; congruence|]).
    by apply elem_of_nil in Hf. }
  assert (f = "live_stream_id") as ->.
  { unfold action_names in Hf. repeat (apply elem_of_cons in Hf as [->|Hf]; [by cbn in El|]).
    by apply elem_of_nil in Hf. }
  split; [|done]. apply app_inv_tail, to_chars_inj in E. unfold action_prefix in E.
  apply append_inj_l in E. apply (f_equal to_chars) in E. rewrite !to_chars_app in E.
  by apply app_inv_tail, to_chars_inj in E.
Qed.

Lemma replay_fields_nodup q req enq i : NoDup (replay_fields q req enq i).*1.
Proof.
  cbn. repeat (apply NoDup_cons; split); try (repeat (apply not_elem_of_cons; split));
    try apply not_elem_of_nil; try apply NoDup_nil_2; try done;
    intros E; apply append_inj_l in E; discriminate E.
Qed.

(** A dead letter that can be replayed: its id finds it, its evidence decodes, and
    the keys have their types. *)
Record replay_target `{JobCodec} (dlq live meta id : string) (ev : DecodedDLQEvidence)
    (ks : keyspace) : Prop := {
  rt_valid : valid_id id = true;
  rt_live : is_stream live ks = true;
  rt_dlq : is_stream dlq ks = true;
  rt_meta : is_hash meta ks = true;
  rt_entry : ∃ i f rest, range (Incl id) (Incl id) (s_entries (stream_at dlq ks)) = (i, f) :: rest
                         ∧ decode_dlq_evidence f = Ok ev
}.

Lemma type_of_stream k ks :
  is_stream k ks = true → ∃ t, documented (TYPE_ k) ks = (Ok t, ks) ∧ in_strs t ["none"; "stream"] = true.
Proof.
  unfold is_stream. cbn. unfold gets. destruct (lookup_key k ks) as [[]|]; try done; eauto.
Qed.

Lemma type_of_hash k ks :
  is_hash k ks = true → ∃ t, documented (TYPE_ k) ks = (Ok t, ks) ∧ in_strs t ["none"; "hash"] = true.
Proof.
  unfold is_hash. cbn. unfold gets. destruct (lookup_key k ks) as [[]|]; try done; eauto.
Qed.

Lemma xrange_runs k id n ks :
  is_stream k ks = true → valid_id id = true →
  documented (XRANGE k (Incl id) (Incl id) n) ks
  = (Ok (limited n (range (Incl id) (Incl id) (s_entries (stream_at k ks)))), ks).
Proof.
  intros Hs Hv. cbn [documented valid_low valid_high]. rewrite Hv. cbn [andb].
  by rewrite bind_unfold, get_stream_ok.
Qed.

Lemma hget_runs k f ks :
  is_hash k ks = true → documented (HGET k f) ks = (Ok (dict_get f (hash_at k ks)), ks).
Proof. intros Hh. cbn [documented]. by rewrite bind_unfold, get_hash_ok. Qed.

Section Replay.
Context `{JobCodec}.
Variables (dlq live rp id : string) (ev : DecodedDLQEvidence).
Let meta := replay_key_of rp id.
Abbreviation run q now := (replay_dlq_entry (R:=reference_redis) dlq live rp id q now).
Abbreviation target := (replay_target dlq live meta id ev).

(** The evidence is what it was when it was decoded: what is left of the script. *)
Lemma decode_original fields : decode_dlq_evidence fields = Ok ev →
  dict_get "original_fields" fields = Some (original_fields_json ev).
Proof using Type.
  unfold decode_dlq_evidence. destruct (dict_get "original_fields" fields); [|done].
  destruct (json_loads _) as [loaded|]; [|done].
  destruct (match loaded with JObj d => string_items d | _ => None end); [|done].
  destruct (parse_delivery _); [by intros [= <-]|]. by destruct (isinstance_exn _ _).
Qed.

Lemma replay_checked q now ks :
  target ks →
  run q now ks =
  (response ← replay_action (R:=reference_redis) live meta id q (model_dump_json (job ev))
                (datetime_isoformat now) (datetime_isoformat now);
   of_res (replay_response id q now response)) ks.
Proof using Type.
  intros [Hv Hl Hd Hm (i & f & rest & Hr & Hdec)]. unfold replay_dlq_entry, validate_stream_id.
  rewrite valid_id_text by done.
  rewrite (bind_run _ _ _ id ks) by reflexivity.
  rewrite (bind_run _ _ _ _ ks) by (apply xrange_runs; done).
  rewrite Hr. cbn [limited take]. rewrite Hdec.
  rewrite (bind_run _ _ _ ev ks) by reflexivity. fold meta.
  cbv zeta. rewrite !(bind_unfold _ (λ r, of_res _)). unfold REPLAY_SCRIPT.
  destruct (type_of_stream dlq ks Hd) as (t1 & T1 & B1).
  destruct (type_of_stream live ks Hl) as (t2 & T2 & B2).
  destruct (type_of_hash meta ks Hm) as (t3 & T3 & B3).
  rewrite (bind_run _ _ _ t1 ks), (bind_run _ _ _ t2 ks), (bind_run _ _ _ t3 ks) by done.
  rewrite B1, B2, B3. cbn [negb].
  rewrite (bind_run _ _ _ _ ks) by (apply xrange_runs; done). rewrite Hr. cbn [limited].
  rewrite (decode_original f Hdec). unfold opt_eqb. rewrite String.eqb_refl. cbn [negb].
  reflexivity.
Qed.

(** A request that is recorded. *)
Lemma replay_existing q now ks sid n st :
  target ks →
  dict_get (action_prefix q +:+ "live_stream_id") (hash_at meta ks) = Some sid →
  dict_get "replay_count" (hash_at meta ks) = Some (str_of_Z n) →
  dict_get (action_prefix q +:+ "state") (hash_at meta ks) = Some st → in_strs st REPLAY_STATES = true →
  ∃ resp, run q now ks = (Ok resp, ks) ∧ created resp = false ∧ live_stream_id resp = sid
    ∧ replay_count resp = n ∧ rr_state resp = st.
Proof using Type.
  intros Ht Hx Hn Hst Hok. rewrite replay_checked by done. unfold replay_action. cbv zeta.
  assert (G : ∀ f, @command reference_redis _ (HGET meta f) ks = (Ok (dict_get f (hash_at meta ks)), ks))
    by (intros f; apply hget_runs, Ht).
  rewrite bind_unfold, !(bind_run _ _ _ _ _ (G _)), Hx. cbv iota.
  rewrite !(bind_run _ _ _ _ _ (G _)), Hn, Hst. unfold mret, M_ret, of_res, replay_response, int_of.
  cbn [from_option Datatypes.id]. rewrite Hok, py_int_str_of_Z. cbn [negb].
  eexists. split; [reflexivity|]. done.
Qed.

(** Another request is in progress. *)
Definition in_progress (q : string) (h : list (string * string)) : bool :=
  match dict_get "last_request_id" h with
  | Some l => negb (String.eqb l q)
              && opt_truthy (λ s, in_strs s NONTERMINAL_REPLAY_STATES)
                            (dict_get (action_prefix l +:+ "state") h)
  | None => false
  end.

Lemma busy_runs q ks :
  is_hash meta ks = true →
  (match dict_get "last_request_id" (hash_at meta ks) with
   | Some l =>
       if String.eqb l q then mret false
       else st ← @command reference_redis _ (HGET meta (action_prefix l +:+ "state"));
            mret (opt_truthy (λ s, in_strs s NONTERMINAL_REPLAY_STATES) st)
   | None => mret false
   end) ks = (Ok (in_progress q (hash_at meta ks)), ks).
Proof using Type.
  intros Hm. unfold in_progress. destruct (dict_get "last_request_id" _) as [l|]; [|done].
  destruct (String.eqb l q); [done|].
  by rewrite (bind_run _ _ _ _ _ (hget_runs meta (action_prefix l +:+ "state") ks Hm)).
Qed.

Lemma replay_in_progress q now ks :
  target ks → dict_get (action_prefix q +:+ "live_stream_id") (hash_at meta ks) = None →
  in_progress q (hash_at meta ks) = true →
  run q now ks
  = (Raise (Exn ReplayInProgress "another replay action is still in progress"), ks).
Proof using Type.
  intros Ht Hx Hb. rewrite replay_checked by done. unfold replay_action. cbv zeta.
  pose proof (rt_meta _ _ _ _ _ _ Ht) as Hm.
  rewrite bind_unfold, !(bind_run _ _ _ _ _ (hget_runs meta _ ks Hm)), Hx. cbv iota.
  rewrite !(bind_run _ _ _ _ _ (hget_runs meta _ ks Hm)).
  rewrite (bind_run _ _ _ _ _ (busy_runs q ks Hm)), Hb. reflexivity.
Qed.

(** A new request. *)
Lemma replay_new q now ks n :
  target ks → live ≠ meta →
  dict_get (action_prefix q +:+ "live_stream_id") (hash_at meta ks) = None →
  in_progress q (hash_at meta ks) = false →
  counter_value (dict_get "replay_count" (hash_at meta ks)) = Some n → int64 (n + 1) = true →
  let sid := ids ks (id_pos ks) in
  let stamp := datetime_isoformat now in
  ∃ resp ks', run q now ks = (Ok resp, ks') ∧ created resp = true ∧ live_stream_id resp = sid
    ∧ replay_count resp = (n + 1)%Z
    ∧ stream_at live ks'
      = set_entries (s_entries (stream_at live ks)
          ++ [(sid, [("payload", model_dump_json (job ev)); ("replay_dlq_id", id);
                     ("replay_request_id", q)])]) (stream_at live ks)
    ∧ hash_at meta ks' = dict_update (dict_set "replay_count" (str_of_Z (n + 1)) (hash_at meta ks))
                           (replay_fields q stamp stamp sid)
    ∧ is_hash meta ks' = true
    ∧ others_kept [live; meta] ks ks'.
Proof using Type.
  intros Ht Hne Hx Hb Hc Hi sid stamp. pose proof (rt_meta _ _ _ _ _ _ Ht) as Hm.
  destruct (xadd_runs live [("payload", model_dump_json (job ev)); ("replay_dlq_id", id);
    ("replay_request_id", q)] ks (rt_live _ _ _ _ _ _ Ht)) as (ks1 & E1 & [S1 T1 O1]).
  fold sid in E1, S1.
  assert (K1 : lookup_key meta ks1 = lookup_key meta ks) by (apply O1; set_solver).
  destruct (hincrby_runs meta "replay_count" 1 n ks1) as (ks2 & E2 & [S2 T2 O2]);
    [by rewrite (is_hash_same _ ks)|by rewrite (hash_at_same _ ks)|done|].
  destruct (hset_runs meta (replay_fields q stamp stamp sid) ks2 T2) as (ks3 & E3 & [S3 T3 O3]).
  eexists _, ks3. split; [|split; [|split; [|split; [|split; [|split; [|split]]]]]].
  - rewrite replay_checked by done. unfold replay_action. cbv zeta.
    rewrite bind_unfold, !(bind_run _ _ _ _ _ (hget_runs meta _ ks Hm)), Hx. cbv iota.
    rewrite !(bind_run _ _ _ _ _ (hget_runs meta _ ks Hm)).
    rewrite (bind_run _ _ _ _ _ (busy_runs q ks Hm)), Hb. cbv iota.
    rewrite (bind_run _ _ _ _ _ E1), (bind_run _ _ _ _ _ E2), (bind_run _ _ _ _ _ E3).
    unfold mret, M_ret, of_res, replay_response, int_of. rewrite py_int_str_of_Z. reflexivity.
  - done.
  - done.
  - done.
  - rewrite (stream_at_same _ ks1); [exact S1|]. rewrite O3, O2; [done|set_solver..].
  - rewrite S3, S2, (hash_at_same _ ks ks1); done.
  - done.
  - intros k Hk. rewrite O3, O2, O1; [done|set_solver..].
Qed.
End Replay.


(** ** Purging *)

Definition older (cutoff : string) (l : list entry) : list entry := range Lowest (Excl cutoff) l.

Definition kept (rows l : list entry) : list entry :=
  List.filter (λ e, negb (in_strs e.1 rows.*1)) l.

(** The keys that go with purged rows. *)
Definition purged_keys (rp mp : string) (rows : list entry) : list string :=
  rows ≫= λ row, replay_key_of rp row.1 ::
    match dict_get "original_stream_id" row.2 with Some o => [metadata_key mp o] | None => [] end.

Lemma kept_nil l : kept [] l = l.
Proof. induction l as [|e l IH]; [done|]. unfold kept in *. cbn. f_equal. exact IH. Qed.

Lemma in_strs_app s l1 l2 : in_strs s (l1 ++ l2) = in_strs s l1 || in_strs s l2.
Proof. unfold in_strs. apply existsb_app. Qed.

Lemma filter_filter {A} (p q : A → bool) l :
  List.filter p (List.filter q l) = List.filter (λ x, q x && p x) l.
Proof.
  induction l as [|x l IH]; [done|]. cbn. destruct (q x); cbn; [|done].
  destruct (p x); cbn; by rewrite IH.
Qed.

Lemma filter_comm {A} (p q : A → bool) l :
  List.filter p (List.filter q l) = List.filter q (List.filter p l).
Proof. rewrite !filter_filter. apply filter_ext. intros x. apply Bool.andb_comm. Qed.

Lemma kept_app r1 r2 l : kept r2 (kept r1 l) = kept (r1 ++ r2) l.
Proof.
  unfold kept. rewrite filter_filter. apply filter_ext. intros e.
  by rewrite fmap_app, in_strs_app, Bool.negb_orb.
Qed.

Lemma filter_fmap_nodup (p : entry → bool) l : NoDup l.*1 → NoDup (List.filter p l).*1.
Proof.
  induction l as [|e l IH]; [done|]. rewrite fmap_cons. intros [Hn Hnd]%NoDup_cons. cbn.
  destruct (p e); [|by apply IH]. rewrite fmap_cons. apply NoDup_cons. split; [|by apply IH].
  intros Hin. apply Hn. apply list_elem_of_fmap in Hin as (e' & -> & He').
  apply list_elem_of_In, filter_In in He' as [He' _].
  by apply list_elem_of_fmap_2, list_elem_of_In.
Qed.

(** What is older than the cutoff after the first [n] of them are gone. *)
Lemma older_kept cutoff n l :
  NoDup l.*1 → older cutoff (kept (take n (older cutoff l)) l) = drop n (older cutoff l).
Proof.
  intros Hnd. unfold older at 1, range, kept. rewrite filter_comm.
  fold (range Lowest (Excl cutoff) l). fold (older cutoff l).
  assert (Ho : NoDup (older cutoff l).*1) by by apply filter_fmap_nodup.
  revert Ho. generalize (older cutoff l). intros o. clear.
  revert n. induction o as [|e o IH]; intros [|n] Hnd; [done..| |].
  - exact (kept_nil (e :: o)).
  - rewrite fmap_cons in Hnd. apply NoDup_cons in Hnd as [Hn Hnd]. cbn [take drop].
    cbn [List.filter]. rewrite fmap_cons. unfold in_strs at 1. cbn [existsb].
    rewrite String.eqb_refl. cbn [orb negb]. etrans; [|apply (IH n Hnd)].
    apply filter_ext_in. intros e' He'. unfold in_strs at 1. cbn [existsb].
    rewrite (proj2 (String.eqb_neq e'.1 e.1)); [done|].
    intros E. apply Hn. rewrite <- E. by apply list_elem_of_fmap_2, list_elem_of_In.
Qed.

Section Purge.
Variables (dlq rp mp cutoff : string).
Hypothesis Hrp : ∀ x, replay_key_of rp x ≠ dlq.
Hypothesis Hmp : ∀ x, metadata_key mp x ≠ dlq.
Hypothesis Hcut : valid_high (Excl cutoff) = true.

Abbreviation entries ks := (s_entries (stream_at dlq ks)).

(** The server after [rows] are purged. *)
Record purged (rows : list entry) (ks ks' : keyspace) : Prop := {
  pg_stream : is_stream dlq ks' = true;
  pg_entries : entries ks' = kept rows (entries ks);
  pg_keys : ∀ k, k ≠ dlq →
    lookup_key k ks' = if in_strs k (purged_keys rp mp rows) then None else lookup_key k ks
}.

Lemma purged_nil ks : is_stream dlq ks = true → purged [] ks ks.
Proof using Type. intros H. split; [done|by rewrite kept_nil|done]. Qed.

Lemma purged_app r1 r2 ks1 ks2 ks3 :
  purged r1 ks1 ks2 → purged r2 ks2 ks3 → purged (r1 ++ r2) ks1 ks3.
Proof using Type.
  intros [S1 E1 K1] [S2 E2 K2]. split; [done|by rewrite E2, E1, kept_app|].
  intros k Hk. rewrite K2, K1 by done.
  assert (purged_keys rp mp (r1 ++ r2) = purged_keys rp mp r1 ++ purged_keys rp mp r2) as ->
    by apply bind_app.
  rewrite in_strs_app.
  by destruct (in_strs k (purged_keys rp mp r1)), (in_strs k (purged_keys rp mp r2)).
Qed.

Lemma lookup_del k k' ks :
  lookup_key k (del_key k' ks) = if String.eqb k k' then None else lookup_key k ks.
Proof using Type.
  unfold lookup_key, del_key. cbn. induction (keys ks) as [|[k2 v] l IH]; cbn.
  - by destruct (String.eqb k k').
  - destruct (String.eqb_spec k2 k') as [->|Hne]; cbn.
    + rewrite IH. by destruct (String.eqb k k').
    + destruct (String.eqb_spec k k2) as [->|]; [|exact IH].
      by rewrite (proj2 (String.eqb_neq _ _) Hne).
Qed.

Lemma purge_row_runs row ks :
  is_stream dlq ks = true →
  ∃ ks', purge_row (R:=reference_redis) dlq rp mp row ks = (Ok tt, ks') ∧ purged [row] ks ks'.
Proof using All.
  intros Hs. unfold purge_row. destruct (xdel_runs dlq row.1 ks Hs) as (ks1 & E1 & [S1 T1 O1]).
  rewrite (bind_run _ _ _ tt ks1) by exact E1. set (rk := replay_key_of rp row.1).
  set (ks2 := del_key rk ks1). rewrite (bind_run _ _ _ tt ks2) by reflexivity.
  assert (Hk : ∀ k, k ≠ dlq → lookup_key k ks2 = if String.eqb k rk then None else lookup_key k ks).
  { intros k Hk. unfold ks2. rewrite lookup_del, O1; [done|set_solver]. }
  assert (Hd : lookup_key dlq ks2 = lookup_key dlq ks1).
  { unfold ks2. rewrite lookup_del. rewrite (proj2 (String.eqb_neq dlq rk)); [done|].
    intros E. by apply (Hrp row.1). }
  assert (Hp : ∀ ks', lookup_key dlq ks' = lookup_key dlq ks1 →
    is_stream dlq ks' = true ∧ entries ks' = kept [row] (entries ks)).
  { intros ks' E. rewrite (is_stream_same _ ks1), (stream_at_same _ ks1), S1 by done.
    split; [done|]. cbn. unfold kept, without. apply filter_ext. intros e. unfold not_id.
    cbn. by rewrite Bool.orb_false_r. }
  destruct (dict_get "original_stream_id" row.2) as [o|] eqn:Eo.
  - exists (del_key (metadata_key mp o) ks2). split; [reflexivity|].
    destruct (Hp (del_key (metadata_key mp o) ks2)) as [? ?].
    { rewrite lookup_del, (proj2 (String.eqb_neq dlq _)); [done|]. intros E. by apply (Hmp o). }
    split; [done..|]. intros k Hk2. rewrite lookup_del, Hk by done.
    unfold purged_keys. cbn. rewrite Eo. fold rk. cbn. rewrite Bool.orb_false_r.
    by destruct (String.eqb k rk), (String.eqb k (metadata_key mp o)).
  - exists ks2. split; [reflexivity|]. destruct (Hp ks2 Hd) as [? ?].
    split; [done..|]. intros k Hk2. rewrite Hk by done.
    unfold purged_keys. cbn. rewrite Eo. fold rk. cbn. by rewrite Bool.orb_false_r.
Qed.

Lemma purge_rows_run rows : ∀ ks,
  is_stream dlq ks = true →
  ∃ ks', for_each (purge_row (R:=reference_redis) dlq rp mp) rows ks = (Ok tt, ks')
    ∧ purged rows ks ks'.
Proof using All.
  induction rows as [|row rows IH]; intros ks Hs; [exists ks; split; [done|by apply purged_nil]|].
  destruct (purge_row_runs row ks Hs) as (ks1 & E1 & P1).
  destruct (IH ks1 (pg_stream _ _ _ P1)) as (ks2 & E2 & P2).
  exists ks2. split; [|exact (purged_app [row] rows ks ks1 ks2 P1 P2)].
  cbn [for_each]. by rewrite (bind_run _ _ _ tt ks1).
Qed.

Lemma older_runs n ks :
  is_stream dlq ks = true →
  documented (XRANGE dlq Lowest (Excl cutoff) (Some n)) ks
  = (Ok (take n (older cutoff (entries ks))), ks).
Proof using All.
  intros Hs. cbn [documented]. rewrite Hcut. cbn [andb valid_low].
  by rewrite bind_unfold, get_stream_ok.
Qed.

Lemma purge_batch_runs limit ks :
  is_stream dlq ks = true → NoDup (entries ks).*1 →
  let o := older cutoff (entries ks) in
  ∃ ks', PURGE_BATCH_SCRIPT (R:=reference_redis) dlq cutoff limit rp mp ks
    = (Ok (Some (Nat.min limit (length o), Nat.min 1 (length o - limit))), ks')
    ∧ purged (take limit o) ks ks'.
Proof using All.
  intros Hs Hnd o. unfold PURGE_BATCH_SCRIPT.
  destruct (lookup_key dlq ks) as [v|] eqn:El.
  - assert (v = RStream (stream_at dlq ks)) as ->.
    { revert Hs. unfold is_stream, stream_at. rewrite El. by destruct v. }
    rewrite (bind_run _ _ _ "stream" ks) by (cbn; unfold gets; by rewrite El).
    cbn [String.eqb Ascii.eqb Bool.eqb negb].
    rewrite (bind_run _ _ _ _ _ (older_runs limit ks Hs)). fold o.
    destruct (purge_rows_run (take limit o) ks Hs) as (ks' & E & P).
    rewrite (bind_run _ _ _ tt ks') by exact E.
    rewrite (bind_run _ _ _ _ _ (older_runs 1 ks' (pg_stream _ _ _ P))).
    exists ks'. split; [|exact P].
    rewrite (pg_entries _ _ _ P). unfold o. rewrite older_kept by done.
    unfold mret, M_ret. by rewrite !length_take, length_drop.
  - rewrite (bind_run _ _ _ "none" ks) by (cbn; unfold gets; by rewrite El).
    cbn [String.eqb Ascii.eqb Bool.eqb].
    assert (Eo : o = []) by (unfold o, stream_at; by rewrite El).
    rewrite Eo, take_nil. exists ks. split; [|by apply purged_nil].
    unfold mret, M_ret. cbn [length]. by rewrite Nat.min_0_r.
Qed.

Lemma purge_loop_runs mx bs : 1 ≤ bs → ∀ fuel n more ks,
  mx - n ≤ fuel → is_stream dlq ks = true → NoDup (entries ks).*1 →
  let o := older cutoff (entries ks) in
  let k := Nat.min (mx - n) (length o) in
  ∃ ks', purge_loop (R:=reference_redis) fuel dlq rp mp cutoff mx bs n more ks
    = (Ok (Some (n + k, if n <? mx then k <? length o else more)), ks')
    ∧ purged (take k o) ks ks'.
Proof using All.
  intros Hbs. induction fuel as [|fuel IH]; intros n more ks Hf Hs Hnd o k; cbn [purge_loop].
  - destruct (Nat.ltb_spec n mx) as [|Hge]; [lia|].
    assert (k = 0) as -> by lia. exists ks. rewrite Nat.add_0_r. split; [done|by apply purged_nil].
  - destruct (Nat.ltb_spec n mx) as [Hlt|Hge].
    2: { assert (k = 0) as -> by lia. exists ks. rewrite Nat.add_0_r.
         split; [done|by apply purged_nil]. }
    cbv zeta. set (limit := Nat.min bs (mx - n)).
    destruct (purge_batch_runs limit ks Hs Hnd) as (ks1 & E1 & P1). fold o in E1, P1.
    rewrite (bind_run _ _ _ _ ks1) by exact E1. cbv iota beta.
    destruct (Nat.ltb_spec 0 (Nat.min 1 (length o - limit))) as [Hm|Hm].
    + assert (Hr : (Nat.min limit (length o) <? limit) = false) by (apply Nat.ltb_ge; lia).
      rewrite Hr. cbn [orb negb].
      destruct (IH (n + Nat.min limit (length o)) true ks1) as (ks2 & E2 & P2);
        [lia|exact (pg_stream _ _ _ P1)|..].
      { rewrite (pg_entries _ _ _ P1). by apply filter_fmap_nodup. }
      rewrite (pg_entries _ _ _ P1) in E2, P2. unfold o in E2, P2.
      rewrite older_kept in E2, P2 by done. fold o in E2, P2.
      rewrite length_drop in E2, P2. exists ks2. split.
      * rewrite E2. f_equal. f_equal. f_equal. f_equal; [lia|].
        destruct (Nat.ltb_spec (n + Nat.min limit (length o)) mx);
          repeat match goal with |- context [?a <? ?b] => destruct (Nat.ltb_spec a b) end; lia || done.
      * pose proof (purged_app _ _ _ _ _ P1 P2) as P. rewrite take_take_drop in P.
        by replace (limit + Nat.min (mx - (n + Nat.min limit (length o))) (length o - limit))
          with k in P by lia.
    + assert (Hk : k = length o) by lia. exists ks1. rewrite Bool.orb_true_r. split.
      * unfold mret, M_ret. rewrite (proj2 (Nat.ltb_ge k (length o))) by lia.
        assert (Nat.min limit (length o) = k) as -> by lia. done.
      * rewrite Hk. rewrite !take_ge in * by lia. exact P1.
Qed.
End Purge.

(** C32 A purge returns, whatever the fuel beyond [max_delete]: it removes the oldest
    dead letters before the cutoff, at most [max_delete] of them, with their replay
    and failure metadata, reports how many they were and whether more are left, and
    leaves every other dead letter and key as it is. *)
Theorem purge_correct {R : Redis} dlq rp mp before mx bs (r : rdb) :
  (∀ x, replay_key_of rp x ≠ dlq) → (∀ x, metadata_key mp x ≠ dlq) →
  valid_high (Excl (cutoff_id before)) = true → 1 ≤ bs →
  is_stream dlq (view r) = true → NoDup (s_entries (stream_at dlq (view r))).*1 →
  let o := older (cutoff_id before) (s_entries (stream_at dlq (view r))) in
  let k := Nat.min mx (length o) in
  ∃ r', purge_dlq_entries dlq rp mp before mx bs r
        = (Ok (Some (k, (0 <? mx) && (k <? length o))), r')
    ∧ s_entries (stream_at dlq (view r')) = kept (take k o) (s_entries (stream_at dlq (view r)))
    ∧ ∀ key, key ≠ dlq → lookup_key key (view r')
        = if in_strs key (purged_keys rp mp (take k o)) then None else lookup_key key (view r).
Proof.
  intros Hrp Hmp Hcut Hbs Hs Hnd o k.
  destruct (purge_loop_runs dlq rp mp (cutoff_id before) Hrp Hmp Hcut mx bs Hbs mx 0 false (view r))
    as (ks & E & [_ P2 P3]); [lia|done|done|].
  rewrite Nat.sub_0_r in E, P2, P3. fold o k in E, P2, P3. rewrite Nat.add_0_l in E.
  destruct (follows_run (purge_dlq_entries dlq rp mp before mx bs) _ _ _ _
    (follows_purge_loop mx dlq rp mp (cutoff_id before) mx bs 0 false) E) as (r' & E' & <-).
  exists r'. split; [|done]. rewrite E'. by destruct (0 <? mx).
Qed.

(** ** From dead letter to delivery *)

Lemma sid_ltb_irrefl i : sid_ltb i i = false.
Proof.
  unfold sid_ltb. destruct (sid_of i) as [[a b]|]; [|done].
  by rewrite !Z.ltb_irrefl, Bool.andb_false_r.
Qed.

(** The entry that an increasing id was just given to. *)
Lemma range_new i f l :
  Forall (λ e : entry, sid_ltb e.1 i = true) l → range (Incl i) (Incl i) (l ++ [(i, f)]) = [(i, f)].
Proof.
  intros Hl. unfold range. rewrite List.filter_app.
  replace (List.filter _ l) with (@nil entry)
    by (induction Hl as [|e l He _ IH]; [done|]; cbn in *; by rewrite He).
  cbn. by rewrite sid_ltb_irrefl.
Qed.

(** C23 A dead letter can be brought back.  When a delivery that holds a job has been
    dead-lettered, replaying its dead letter puts a delivery on the live stream that
    holds the same job, after everything that is there, and that knows the dead
    letter and the request. *)
Theorem dead_letter_replay_roundtrip `{JobCodec} {R : Redis} live group dlq rp d j reason p now (r : rdb) :
  let i := ids (view r) (id_pos (view r)) in
  let meta := replay_key_of rp i in
  text_fields (d_fields d) → parse_delivery (d_fields d) = Ok j → job_text j →
  live ≠ dlq → is_stream live (view r) = true → is_stream dlq (view r) = true →
  live ∉ replay_keys p d → dlq ∉ replay_keys p d →
  Forall (λ k, is_hash k (view r) = true) (replay_keys p d) →
  valid_id i = true → Forall (λ e, sid_ltb e.1 i = true) (s_entries (stream_at dlq (view r))) →
  meta ∉ [live; dlq] → meta ∉ replay_keys p d → lookup_key meta (view r) = None →
  ∃ r1, dead_letter live group dlq d reason p now r = (Ok tt, r1)
    ∧ ∀ q now2, q ≠ "" → ∃ resp r2 f, replay_dlq_entry dlq live rp i q now2 r1 = (Ok resp, r2)
      ∧ created resp = true ∧ replay_count resp = 1%Z
      ∧ s_entries (stream_at live (view r2))
        = s_entries (stream_at live (view r1)) ++ [(live_stream_id resp, f)]
      ∧ parse_delivery f = Ok j
      ∧ replay_context (new_delivery (live_stream_id resp, f)) = Some (i, q).
Proof.
  intros i meta Htxt Hp Hj Hne Hl Hd Hn1 Hn2 Hh Hv Hlt Hm1 Hm2 Hm3.
  destruct (dead_letter_runs live group dlq d reason p now r Hne Hl Hd Hn1 Hn2 Hh)
    as (r1 & E & Sd & Sl & _ & Ho & Tl & Td). fold i in Sd.
  exists r1. split; [exact E|]. intros q now2 Hq.
  set (ev := mk_evidence (dumps_str_dict (d_fields d)) (sort_by key_leb (d_fields d)) j).
  assert (Hm4 : lookup_key meta (view r1) = None) by (rewrite Ho; [done|set_solver]).
  assert (Hh1 : hash_at meta (view r1) = []) by (unfold hash_at; by rewrite Hm4).
  assert (Ht : replay_target dlq live meta i ev (view r1)).
  { split; [done|done|done|unfold is_hash; by rewrite Hm4|].
    exists i, (dead_letter_fields d reason now), []. rewrite Sd. split; [by apply range_new|].
    by rewrite decode_dead_letter_fields, Hp. }
  destruct (replay_new dlq live rp i ev q now2 (view r1) 0 Ht)
    as (resp & ks & E2 & Hc & Hs & Hn & Hlv & _);
    [set_solver|fold meta; by rewrite Hh1..|done|].
  destruct (follows_run _ _ _ _ _ (follows_replay_dlq_entry dlq live rp i q now2) E2)
    as (r2 & E3 & <-).
  eexists resp, r2, _. split; [exact E3|]. split; [done|]. split; [done|]. rewrite Hlv, Hs.
  split; [done|]. split.
  - apply parse_dumped; [done|]. pose proof (parse_delivery_spec (d_fields d)) as Hps.
    rewrite Hp in Hps. apply Hps.
  - unfold replay_context, new_delivery. cbn [d_fields snd].
    cbn [dict_get String.eqb Ascii.eqb Bool.eqb].
    unfold str_or, opt_truthy, str_truthy. rewrite (proj2 (String.eqb_neq q "")) by done.
    rewrite (proj2 (String.eqb_neq i "")); [done|]. intros Ei. rewrite Ei in Hv. by vm_compute in Hv.
Qed.

(** ** Witnesses *)

Definition demo_ids (n : nat) : string := str_of_Z (Z.of_nat n + 10) +:+ "-0".
Definition demo_dlq : keyspace :=
  mk_keyspace [("dlq", RStream (mk_stream [("1-0", dead_letter_fields demo_delivery "boom" 0)] []))]
    demo_ids 0 100.

Definition demo_evidence : DecodedDLQEvidence :=
  mk_evidence (dumps_str_dict (d_fields demo_delivery)) (sort_by key_leb (d_fields demo_delivery))
    demo_job.

Lemma demo_text : text_fields (d_fields demo_delivery).
Proof.
  split; [|cbn; repeat constructor; set_solver].
  repeat (apply Forall_cons_2; [split; ascii_lit|]). apply Forall_nil_2.
Qed.

Lemma demo_parse : parse_delivery (d_fields demo_delivery) = Ok demo_job.
Proof. apply parse_dumped; [apply demo_job_text|apply demo_job_valid]. Qed.

Lemma demo_target : replay_target "dlq" "live" (replay_key_of "rp" "1-0") "1-0" demo_evidence demo_dlq.
Proof.
  split; [reflexivity..|]. exists "1-0", (dead_letter_fields demo_delivery "boom" 0), [].
  split; [reflexivity|]. rewrite decode_dead_letter_fields by apply demo_text.
  by rewrite demo_parse.
Qed.


Lemma dead_letter_replay_roundtrip_witness :
  ∃ r1, dead_letter (R:=reference_redis) "live" "g" "dlq" demo_delivery "boom" None 0 demo_keyspace
        = (Ok tt, r1)
    ∧ ∃ resp r2, replay_dlq_entry (R:=reference_redis) "dlq" "live" "rp" "10-0" "q" 0 r1 = (Ok resp, r2)
        ∧ created resp = true.
Proof.
  destruct (dead_letter_replay_roundtrip (R:=reference_redis) "live" "g" "dlq" "rp" demo_delivery demo_job
    "boom" None 0 demo_keyspace) as (r1 & E & H).
  - apply demo_text.
  - apply demo_parse.
  - apply demo_job_text.
  - done.
  - reflexivity.
  - reflexivity.
  - apply not_elem_of_nil.
  - apply not_elem_of_nil.
  - apply Forall_nil_2.
  - reflexivity.
  - apply Forall_nil_2.
  - change (replay_key_of "rp" _) with "rp:10-0". set_solver.
  - apply not_elem_of_nil.
  - reflexivity.
  - exists r1. split; [exact E|]. destruct (H "q" 0%Z) as (resp & r2 & f & E2 & Hc & _); [done|].
    exists resp, r2. split; [exact E2|exact Hc].
Defined.

Lemma purge_correct_witness :
  ∃ r', purge_dlq_entries (R:=reference_redis) "dlq" "rp" "mp" 10000 5 2 demo_dlq
        = (Ok (Some (1, false)), r')
    ∧ s_entries (stream_at "dlq" r') = [].
Proof.
  destruct (purge_correct (R:=reference_redis) "dlq" "rp" "mp" 10000 5 2 demo_dlq)
    as (r' & E & H & _).
  - intros x Ex. discriminate Ex.
  - intros x Ex. discriminate Ex.
  - vm_compute. reflexivity.
  - lia.
  - reflexivity.
  - cbn. repeat constructor. set_solver.
  - exists r'. split.
    + rewrite E. vm_compute. reflexivity.
    + change (s_entries (stream_at "dlq" (view r')) = []). rewrite H. vm_compute. reflexivity.
Defined.

(** Two ids of one entry: the replay of the first does not exclude the second, since
    the metadata is kept under the text of the id and the entry is found by its
    number. *)
Lemma replay_alias_duplicates :
  let run id q r := replay_dlq_entry (R:=reference_redis) "dlq" "live" "rp" id q 0 r in
  let '(a, r1) := run "1-0" "q1" demo_dlq in
  let '(b, r2) := run "01-0" "q2" r1 in
  match a, b with
  | Ok a, Ok b => created a = true ∧ created b = true
                  ∧ length (s_entries (stream_at "live" r2)) = 2
  | _, _ => False
  end.
Proof. vm_compute. repeat split. Qed.
