(* ===== verification/QueueRoutes.v ===== *)
(** * The queue routes

    [app/api/routes/queue_operations.py]: the operations of [QueueOperations] as HTTP
    answers.  The settings are a record; FastAPI's own validation of a request comes
    before the handlers and is not modelled. *)

From S2P Require Import Prelude PyText DateTime PyFloat Json Database WorkflowRoutes.
From S2P Require Import InvoiceJob Redis InvoiceQueue QueueOperations.
From Stdlib Require Import Ascii.
Local Open Scope string_scope.
Local Open Scope list_scope.
Local Open Scope nat_scope.

(** The queue's part of [Settings] in [app/core/config.py]. *)
Record queue_settings := mk_queue_settings {
  INVOICE_STREAM : string;
  INVOICE_CONSUMER_GROUP : string;
  INVOICE_DEAD_LETTER_STREAM : string;
  INVOICE_DEDUPE_PREFIX : string;
  INVOICE_METADATA_PREFIX : string;
  INVOICE_DLQ_REPLAY_PREFIX : string;
  INVOICE_DLQ_RETENTION_MAX_DELETE : nat;
  INVOICE_MAX_ATTEMPTS : Z;
  INVOICE_VISIBILITY_TIMEOUT_MS : Z;
  INVOICE_DEDUPE_TTL_SECONDS : Z;
  MAX_BATCH_SIZE : nat
}.

Definition default_settings : queue_settings :=
  mk_queue_settings "freight-ap:invoice-jobs:v1" "freight-ap:invoice-workers:v1"
    "freight-ap:invoice-jobs:dlq:v1" "freight-ap:invoice-dedupe" "freight-ap:invoice-meta"
    "freight-ap:invoice-dlq-replay:v1" 1000 3 300000 (30 * 24 * 60 * 60) 10.

Definition coded (code message : string) : json :=
  JObj [("code", JStr code); ("message", JStr message)].

Definition service_unavailable {A} (e : exn) : http A :=
  HttpError 503 (coded "redis_unavailable" (exn_msg e)).

(** The class attribute [code] of a [QueueOperationError]. *)
Definition error_code (e : exn) : string :=
  match exn_cls e with
  | DLQNotFound => "dlq_not_found"
  | DLQNotReplayable => "not_replayable"
  | ReplayInProgress => "replay_in_progress"
  | _ => "queue_operation_error"
  end.

Section Routes.
Context {R : Redis} `{JobCodec}.

(** An answer, with the handlers of its [except] clauses: the first class that fits. *)
Definition answering {A} (clauses : list (exn_class * (exn → http A))) (m : M rdb (http A))
  : M rdb (http A) :=
  try_except m (λ e, (λ c, mret (c.2 e)) <$> find_first (λ c, isinstance_exn e c.1) clauses).

Definition list_dead_letters (s : queue_settings) (limit : nat) (cursor : option string)
  : M rdb (http DLQPage) :=
  answering [(ValueError, λ e, HttpError 422 (JStr (exn_msg e))); (RedisError, service_unavailable)]
    (p ← list_dlq_entries (INVOICE_DEAD_LETTER_STREAM s) (INVOICE_DLQ_REPLAY_PREFIX s) limit cursor;
     mret (Response p)).

Definition conflict_coded {A} (e : exn) : http A :=
  HttpError 409 (coded (error_code e) (exn_msg e)).

(** The status is 201 when the replay is new, 200 otherwise. *)
Definition replay_dead_letter (s : queue_settings) (id request_id : string) (now : datetime)
  : M rdb (http (Z * ReplayResponse)) :=
  answering [(ValueError, λ e, HttpError 422 (coded "invalid_dlq_id" (exn_msg e)));
             (DLQNotFound, λ e, HttpError 404 (coded "dlq_not_found" (exn_msg e)));
             (DLQNotReplayable, conflict_coded); (ReplayInProgress, conflict_coded);
             (QueueOperationError, conflict_coded); (RedisError, service_unavailable)]
    (r ← replay_dlq_entry (INVOICE_DEAD_LETTER_STREAM s) (INVOICE_STREAM s)
           (INVOICE_DLQ_REPLAY_PREFIX s) id request_id now;
     mret (Response (if created r then 201 else 200, r)%Z)).

Definition read_queue_metrics (s : queue_settings) (now : datetime) : M rdb (http QueueMetrics) :=
  answering [(RedisError, service_unavailable)]
    (m ← queue_metrics (INVOICE_STREAM s) (INVOICE_CONSUMER_GROUP s) (INVOICE_DEAD_LETTER_STREAM s) now;
     mret (Response m)).

(** [before] is an aware instant, or a naive datetime. *)
Definition purge_dead_letters (s : queue_settings) (before : pydatetime) (now : datetime)
  : M rdb (http (option (datetime * nat * bool))) :=
  match dt_tz before with
  | None => mret (HttpError 422 (JStr "before must include a timezone"))
  | Some _ =>
      let before := instant 0 before in
      if (now <=? before)%Z then mret (HttpError 422 (JStr "before must be in the past"))
      else
        answering [(QueueOperationError, conflict_coded); (RedisError, service_unavailable)]
          (r ← purge_dlq_entries (INVOICE_DEAD_LETTER_STREAM s) (INVOICE_DLQ_REPLAY_PREFIX s)
                 (INVOICE_METADATA_PREFIX s) before (INVOICE_DLQ_RETENTION_MAX_DELETE s) 100;
           mret (Response ((λ r : nat * bool, (before, r.1, r.2)) <$> r)))
  end.
End Routes.

(** ** Every answer is an HTTP answer *)

(** The exceptions a computation may raise. *)
Definition raises_in {S A} (cs : list exn_class) (m : M S A) : Prop :=
  ∀ s e s', m s = (Raise e, s') → exn_cls e ∈ cs.

Section Raises.
Context {S : Type} (cs : list exn_class).

Lemma raises_ret {A} (a : A) : raises_in cs (mret a : M S A).
Proof. intros s e s' E. discriminate E. Qed.

Lemma raises_of_res {A} (x : res A) :
  match x with Raise e => exn_cls e ∈ cs | Ok _ => True end → raises_in cs (of_res x : M S A).
Proof. intros H s e s' E. unfold of_res in E. by simplify_eq. Qed.

Lemma raises_bind {A B} (m : M S A) (f : A → M S B) :
  raises_in cs m → (∀ a, raises_in cs (f a)) → raises_in cs (m ≫= f).
Proof.
  intros Hm Hf s e s'. rewrite bind_unfold. destruct (m s) as [[a|e1] s1] eqn:E1.
  - apply Hf.
  - intros [= -> ->]. by apply (Hm s e s').
Qed.

Lemma raises_try {A} (m : M S A) (h : exn → option (M S A)) :
  (∀ s e s', m s = (Raise e, s') → match h e with Some k => raises_in cs k | None => exn_cls e ∈ cs end) →
  raises_in cs (try_except m h).
Proof.
  intros Hm s e s'. unfold try_except. destruct (m s) as [[a|e1] s1] eqn:E1; [done|].
  specialize (Hm s e1 s1 E1). destruct (h e1) as [k|]; [apply Hm|by intros [= -> ->]].
Qed.

Lemma raises_map_m {A B} (f : A → M S B) l :
  (∀ x, raises_in cs (f x)) → raises_in cs (map_m f l).
Proof.
  intros Hf. induction l as [|x l IH]; cbn [map_m]; [apply raises_ret|].
  apply raises_bind; [done|]. intros y. apply raises_bind; [done|]. intros ys. apply raises_ret.
Qed.

Lemma raises_for_each {A} (f : A → M S unit) l :
  (∀ x, raises_in cs (f x)) → raises_in cs (for_each f l).
Proof.
  intros Hf. induction l as [|x l IH]; cbn [for_each]; [apply raises_ret|]. by apply raises_bind.
Qed.
End Raises.

(** A documented command fails with an error reply only. *)
Lemma documented_raises {A} (c : cmd A) : raises_in [ResponseError] (documented c).
Proof.
  assert (Hs : ∀ k, raises_in [ResponseError] (get_stream k)).
  { intros k ks e ks'. unfold get_stream. destruct (lookup_key k ks) as [[]|]; intros [= <- _]; left. }
  assert (Hh : ∀ k, raises_in [ResponseError] (get_hash k)).
  { intros k ks e ks'. unfold get_hash. destruct (lookup_key k ks) as [[]|]; intros [= <- _]; left. }
  assert (Hg : ∀ k g s, raises_in [ResponseError] (get_group k g s)).
  { intros k g s ks e ks'. unfold get_group. destruct (dict_get g _); intros [= <- _]; left. }
  assert (Hm : ∀ f, raises_in [ResponseError] (modify f : M keyspace unit)) by (intros f ks e ks'; done).
  assert (Hgs : ∀ {B} (f : keyspace → B), raises_in [ResponseError] (gets f)) by (intros B f ks e ks'; done).
  assert (Hr : ∀ {B} m, raises_in [ResponseError] (response_error m : M keyspace B))
    by (intros B m ks e ks' [= <- _]; left).
  assert (Hret : ∀ {B} (b : B), raises_in [ResponseError] (mret b : M keyspace B))
    by (intros; apply raises_ret).
  assert (Hp : ∀ k s, raises_in [ResponseError] (put_stream k s)) by (intros; apply Hm).
  assert (Hn : raises_in [ResponseError] next_id) by (intros ks e ks'; done).
  destruct c; cbn [documented];
    repeat first
      [ solve [auto]
      | apply raises_bind; [|intros ?]
      | case_match ];
    intros ks e ks'; cbn;
    (destruct (lookup_key _ ks) as [[]|]; [..|]; intros [= <- _]; left).
Qed.

Section Total.
Context {R : Redis}.

Lemma raises_command cs {A} (c : cmd A) : ResponseError ∈ cs → raises_in cs (command c).
Proof.
  intros Hc r e r' E. destruct (command_documented c r) as [H1 _]. rewrite E in H1. cbn in H1.
  destruct (documented c (view r)) as [x ks] eqn:Ed. cbn in H1. subst x.
  apply documented_raises in Ed. apply list_elem_of_singleton in Ed. by rewrite Ed.
Qed.

Ltac in_classes :=
  simplify_eq; cbn [exn_cls];
  solve [repeat first [apply list_elem_of_here | apply list_elem_of_further]].
Ltac raises_step :=
  first
    [ apply raises_command; in_classes
    | apply raises_ret
    | apply raises_of_res
    | apply raises_map_m; intros ?
    | apply raises_for_each; intros ?
    | apply raises_bind; [|intros ?]
    | case_match; try done ].

(** The classes of an operation's exceptions. *)
Lemma decode_raises `{JobCodec} fields e :
  decode_dlq_evidence fields = Raise e → exn_cls e = DLQNotReplayable.
Proof.
  unfold decode_dlq_evidence. destruct (dict_get "original_fields" fields); [|by intros [= <-]].
  destruct (json_loads _) as [l|]; [|by intros [= <-]].
  destruct (match l with JObj d => string_items d | _ => None end) as [o|]; [|by intros [= <-]].
  pose proof (parse_delivery_spec o) as Hp. destruct (parse_delivery o) as [j|e1]; [done|].
  unfold isinstance_exn. rewrite Hp. by intros [= <-].
Qed.

Lemma dlq_entry_total `{JobCodec} id fields metadata :
  ∃ x, dlq_entry_from_fields id fields metadata = Ok x.
Proof.
  unfold dlq_entry_from_fields. destruct (decode_dlq_evidence fields) as [ev|e] eqn:E; [eauto|].
  unfold isinstance_exn. rewrite (decode_raises _ _ E). eauto.
Qed.

Lemma list_raises `{JobCodec} dlq rp limit cursor :
  raises_in [ValueError; ResponseError] (list_dlq_entries dlq rp limit cursor).
Proof.
  unfold list_dlq_entries, validate_stream_id. repeat raises_step; try in_classes.
  destruct (dlq_entry_total x.1.1 x.1.2 x.2) as (? & Ex). by rewrite Ex in *.
Qed.

Lemma replay_raises `{JobCodec} dlq live rp id q now :
  raises_in [ValueError; DLQNotFound; DLQNotReplayable; ReplayInProgress; QueueOperationError;
             ResponseError] (replay_dlq_entry dlq live rp id q now).
Proof.
  unfold replay_dlq_entry, validate_stream_id, REPLAY_SCRIPT, replay_action, replay_response, int_of,
    queue_error.
  repeat raises_step; try in_classes.
  all: try (intros r1 e1 r2 [= <- _]; in_classes).
  rewrite (decode_raises _ _ ltac:(eassumption)). in_classes.
Qed.

Lemma metrics_raises live group dlq now :
  raises_in [ValueError; ResponseError] (queue_metrics live group dlq now).
Proof.
  unfold queue_metrics, int_of. apply raises_bind; [raises_step|]. intros a.
  apply raises_bind; [raises_step|]. intros b. apply raises_bind.
  - apply raises_try. intros s e s' E. destruct (isinstance_exn e ResponseError) eqn:Ei.
    + apply raises_ret.
    + apply (raises_command [ResponseError]) in E; [|in_classes].
      apply list_elem_of_singleton in E. unfold isinstance_exn in Ei. by rewrite E in Ei.
  - intros gs. repeat raises_step; try in_classes.
Qed.

Lemma purge_raises fuel dlq rp mp cutoff mx bs : ∀ n more,
  raises_in [QueueOperationError; ResponseError] (purge_loop fuel dlq rp mp cutoff mx bs n more).
Proof.
  induction fuel as [|fuel IH]; intros n more; cbn [purge_loop]; [repeat raises_step|].
  unfold PURGE_BATCH_SCRIPT, purge_row, queue_error.
  repeat first [apply IH | raises_step]; try in_classes.
Qed.
End Total.

(** A handler whose clauses cover the exceptions of its operation answers. *)
Lemma answering_total {R : Redis} {A} (P : http A → Prop) clauses (cs : list exn_class) (m : M rdb (http A)) r :
  raises_in cs m → (∀ h r', m r = (Ok h, r') → P h) →
  (∀ e, exn_cls e ∈ cs → ∃ c, find_first (λ c, isinstance_exn e c.1) clauses = Some c ∧ P (c.2 e)) →
  ∃ h r', answering clauses m r = (Ok h, r') ∧ P h.
Proof.
  intros Hm Hok Hc. unfold answering, try_except. destruct (m r) as [[h|e] r'] eqn:E.
  - exists h, r'. split; [done|]. by apply (Hok h r').
  - destruct (Hc e (Hm _ _ _ E)) as (c & -> & HP). cbn. by exists (c.2 e), r'.
Qed.

Lemma raises_response {S A B} cs (m : M S A) (f : A → B) :
  raises_in cs m → raises_in cs (a ← m; mret (f a)).
Proof. intros H. apply raises_bind; [done|]. intros a. apply raises_ret. Qed.

(** Decide which clause takes an exception of a known class. *)
Ltac clause_of :=
  intros e He; unfold find_first, isinstance_exn; cbn [List.find fst];
  repeat (apply elem_of_cons in He as [->|He]; [eexists; split; [reflexivity|cbn; set_solver]|]);
  by apply elem_of_nil in He.

(** Listing, replaying and purging dead letters always answer: whatever the
    server holds and the request asks for, no exception leaves a handler.  A page or
    a purge is answered or refused with 409, 422 or 503; a replay is answered with
    201 when it is new and 200 when it was made before, or refused with 404, 409, 422
    or 503. *)
Theorem queue_routes_answer {R : Redis} `{JobCodec} s limit cursor id q before now (r : rdb) :
  (∃ h r', list_dead_letters s limit cursor r = (Ok h, r')
     ∧ match h with Response _ => True | HttpError c _ => c ∈ [422; 503]%Z end)
  ∧ (∃ h r', replay_dead_letter s id q now r = (Ok h, r')
       ∧ match h with
         | Response (c, resp) => c = if created resp then 201%Z else 200%Z
         | HttpError c _ => c ∈ [404; 409; 422; 503]%Z
         end)
  ∧ (∃ h r', purge_dead_letters s before now r = (Ok h, r')
       ∧ match h with Response _ => True | HttpError c _ => c ∈ [409; 422; 503]%Z end).
Proof.
  split; [|split].
  - apply (answering_total (λ h, match h with Response _ => True | HttpError c _ => c ∈ [422; 503]%Z end)
      _ [ValueError; ResponseError]); [apply raises_response, list_raises| |clause_of].
    intros h r'. rewrite bind_unfold. destruct (list_dlq_entries _ _ _ _ _) as [[]]; by intros [= <- _].
  - apply (answering_total (λ h, match h with
         | Response (c, resp) => c = if created resp then 201%Z else 200%Z
         | HttpError c _ => c ∈ [404; 409; 422; 503]%Z end)
      _ [ValueError; DLQNotFound; DLQNotReplayable; ReplayInProgress; QueueOperationError;
         ResponseError]); [apply raises_response, replay_raises| |clause_of].
    intros h r'. rewrite bind_unfold. destruct (replay_dlq_entry _ _ _ _ _ _ _) as [[]]; by intros [= <- _].
  - unfold purge_dead_letters.
    assert (Hm : ∀ m d, ∃ h r', (mret (HttpError 422 (JStr m)) : M rdb (http d)) r = (Ok h, r')
      ∧ match h with Response _ => True | HttpError c _ => c ∈ [409; 422; 503]%Z end).
    { intros m d. eexists _, r. split; [reflexivity|]. cbn. set_solver. }
    destruct (dt_tz before); [|apply Hm]. destruct (now <=? _)%Z; [apply Hm|].
    apply (answering_total (λ h, match h with Response _ => True | HttpError c _ => c ∈ [409; 422; 503]%Z end)
      _ [QueueOperationError; ResponseError]); [apply raises_response, purge_raises| |clause_of].
    intros h r'. rewrite bind_unfold. destruct (purge_dlq_entries _ _ _ _ _ _ _) as [[]]; by intros [= <- _].
Qed.
