(* ===== verification/InvoiceWorker.v ===== *)
(** * The invoice worker

    [app/services/invoice_worker.py]: from a delivery on the live stream to its end,
    through the rows of the job, the workflow graph and the queue.  The state of a
    worker is the server, the committed database and the checkpoint store; every
    [async with AsyncSessionLocal()] is a session of its own.  The heartbeat task of a
    delivery only claims it again: it is given as the number of its beats, which
    touch the server alone and so commute with the workflow.  The deliveries of a
    batch, which the source gathers, are processed one after the other. *)

From S2P Require Import Prelude PyText Sha256 Sha1 DateTime PyFloat Json Database Reconciliation.
From S2P Require Import SlaScanner Extraction Workflow WorkflowSafety Frame BusinessState WorkflowRoutes.
From S2P Require Import InvoiceJob Redis InvoiceQueue QueueRoutes.
From Stdlib Require Import Ascii.
Local Open Scope string_scope.
Local Open Scope list_scope.
Local Open Scope nat_scope.

(** ** The summary of a delivery *)

Record summary := mk_summary {
  sm_filename : string;
  sm_run_id : string;
  sm_status : string;
  sm_processing_status : string;
  sm_reconciliation_status : option json;
  sm_review_disposition : string;
  sm_posting_status : string;
  sm_carrier_name : option json;
  sm_total_amount : option json;
  sm_exception_reason : option json
}.

Definition is_json_str (s : string) (j : option json) : bool :=
  match j with Some (JStr t) => String.eqb t s | _ => false end.

(** [_summary_result] *)
Definition summary_result (filename run_id status : string) (extraction exception_reason : option json)
    (processing_status : option string) (reconciliation_status : option json)
    (review_disposition posting_status : option string) : summary :=
  let settled := in_strs status ["approved"; "rejected"] in
  let processing := default (if settled then "complete" else status) processing_status in
  let disposition := default (if settled then status
                              else if String.eqb processing "awaiting_review" then "pending"
                              else "not_required") review_disposition in
  let posting := default (if String.eqb disposition "approved"
                             || is_json_str "reconciled" reconciliation_status
                          then "ready_for_posting"
                          else if String.eqb disposition "rejected" then "blocked"
                          else "not_ready") posting_status in
  mk_summary filename run_id status processing reconciliation_status disposition posting
    (get_key extraction "carrier_name") (get_key extraction "total_amount") exception_reason.

Definition deterministic_run_id (key : string) : string :=
  uuid_str (uuid5 NAMESPACE_URL ("freight-ap:gmail:" +:+ key)).

Definition REDELIVERY_SHORT_CIRCUIT_PROCESSING_STATUSES : list string :=
  ["complete"; "awaiting_review"].

(** ** The rows of a job *)

Definition documents_with_key (key : string) (d : database) : list Document :=
  where_ (λ x, sql_eq String.eqb (source_idempotency_key x) key) (documents d).

Definition find_run_for_document (i : Z) : M session (option WorkflowRun) :=
  select (λ d, head (where_ (λ r, Z.eqb (document_id r) i) (workflow_runs d))).

Definition new_job_document (job : InvoiceJobEnvelope) (i : Z) (now : datetime) : Document :=
  mkDocument i (job_filename job) "unknown" "received" None None (Some "gmail")
    (Some (idempotency_key job)) (Some (message_id job)) (Some (mime_part_id job))
    (Some (enqueued_at job)) (Some (job_content_sha256 job)) None now.

Definition gmail_fields (job : InvoiceJobEnvelope) : dict :=
  [("gmail_message_id", JStr (message_id job)); ("gmail_thread_id", JStr (gmail_thread_id job))].

Definition new_job_run (job : InvoiceJobEnvelope) (did : Z) (pk : Z) (now : datetime) : WorkflowRun :=
  mkWorkflowRun pk (deterministic_run_id (idempotency_key job)) did "running" "running" "not_ready"
    (Some (JObj (gmail_fields job))) now.

Definition runtime_error {S A} (msg : string) : M S A := raise (Exn RuntimeError msg).

(** [_get_or_create_job_records] *)
Definition get_or_create_job_records (job : InvoiceJobEnvelope)
  : M session (Document * WorkflowRun) :=
  found ← select (documents_with_key (idempotency_key job));
  document ← scalar_one_or_none found;
  match document with
  | Some doc =>
      run ← find_run_for_document (doc_id doc);
      match run with
      | None => runtime_error "idempotent document is missing its workflow run"
      | Some run => mret (doc, run)
      end
  | None =>
      try_except
        (doc ← insert_document (new_job_document job);
         run ← insert_run (new_job_run job (doc_id doc));
         _ ← commit;
         mret (doc, run))
        (λ e, if isinstance_exn e IntegrityError then Some
           (_ ← rollback;
            found ← select (documents_with_key (idempotency_key job));
            doc ← scalar_one found;
            run ← find_run_for_document (doc_id doc);
            match run with
            | None => runtime_error "concurrent document creation did not create a workflow run"
            | Some run => mret (doc, run)
            end)
         else None)
  end.

(** [_mark_job_failed] *)
Definition mark_job_failed (job : InvoiceJobEnvelope) (reason : string) : M session unit :=
  found ← select (documents_with_key (idempotency_key job));
  document ← scalar_one_or_none found;
  match document with
  | None => mret tt
  | Some doc =>
      run ← find_run_for_document (doc_id doc);
      match run with
      | None => mret tt
      | Some run =>
          let payload := match interrupt_payload run with Some (JObj d) => d | _ => [] end in
          _ ← save_run (set_interrupt_payload (Some (JObj (dict_set "error" (JStr reason) payload)))
                         (set_posting_status "not_ready"
                           (set_processing_status "failed" (set_status "failed" run))));
          commit
      end
  end.

(** ** The workflow of a job *)

Definition job_initial_state (rid : string) (did : Z) (file_bytes : chars)
    (job : InvoiceJobEnvelope) : dict :=
  dict_set "messages" (JArr [JStr ("Queued from Gmail message " +:+ message_id job +:+ ".")])
    (initial_state rid did file_bytes (job_filename job)).

(** [payload.update(run.interrupt_payload or {})] *)
Definition with_run_payload (p : json) (run : WorkflowRun) : json :=
  match p, interrupt_payload run with
  | JObj d, Some (JObj e) => JObj (dict_update d e)
  | _, _ => p
  end.

Section Worker.
Context {R : Redis} `{JobCodec} `{E : GraphEngine} (graph : state_graph).

Abbreviation db := (M (world * threads)).

(** [async with AsyncSessionLocal()]: what is committed is kept. *)
Definition with_session {A} (m : M (session * threads) A) : db A := λ wt,
  let '(r, (s, t)) := m (session_of wt.1, wt.2) in (r, (world_of s, t)).

(** The result of the graph: the final checkpoint when there is one, a new or a
    continued run otherwise. *)
Definition graph_result (rid : string) (start : dict) : M (session * threads) dict :=
  snap ← get_state rid;
  if negb (is_nil (values snap)) && is_nil (next snap) then mret (values snap)
  else invoke graph rid (if is_nil (next snap) then Start start else Continue).

Definition retrying_run (job : InvoiceJobEnvelope) (run : WorkflowRun) (e : exn)
  : M session WorkflowRun :=
  persist_run_state "retrying" (Some "retrying") (Some "not_ready")
    (Some (JObj (("error", JStr (exn_msg e)) :: gmail_fields job))) false run.

(** What is stored when the graph paused or ended. *)
Definition persist_job_result (run : WorkflowRun) (result : dict) : M session WorkflowRun :=
  match interrupt_of result with
  | Some p => persist_run_state "awaiting_review" (Some "awaiting_review") (Some "not_ready")
                (Some (with_run_payload p run)) false run
  | None => persist_run_state (result_str "status" "complete" result)
              (Some (result_str "processing_status" "complete" result))
              (Some (result_str "posting_status" "not_ready" result)) None true run
  end.

Definition job_summary (job : InvoiceJobEnvelope) (rid : string) (payload : option json) (result : dict)
  : summary :=
  let paused := match payload with Some _ => true | None => false end in
  summary_result (job_filename job) rid
    (if paused then "awaiting_review" else result_str "status" "complete" result)
    (dict_get "extraction" result)
    (jor (dict_get "exception_reason" result) (get_key payload "reason"))
    (Some (if paused then "awaiting_review" else result_str "processing_status" "complete" result))
    (get_key (dict_get "match_result" result) "reconciliation_status") None
    (Some (if paused then "not_ready" else result_str "posting_status" "not_ready" result)).

(** The second session: the graph, and what it ends with. *)
Definition drive_job (job : InvoiceJobEnvelope) (operator_replay : bool) (rid : string) (start : dict)
  : M (session * threads) summary :=
  found ← in_session (select (runs_with rid));
  run ← scalar_one found;
  run ← in_session (if operator_replay && String.eqb (processing_status run) "failed"
                    then persist_run_state "retrying" (Some "retrying") (Some "not_ready") None true run
                    else mret run);
  result ← try_except (graph_result rid start)
    (λ e, if is_Exception e then Some (_ ← in_session (retrying_run job run e); raise e) else None);
  run' ← in_session (persist_job_result run result);
  mret (job_summary job rid ((λ p, with_run_payload p run) <$> interrupt_of result) result).

(** What is said of a job that has been processed. *)
Definition settled_summary (document : Document) (run : WorkflowRun) : summary :=
  summary_result (filename document) (run_id run) (status run) (extracted_data document)
    (exception_reason_of run) (Some (processing_status run)) None None (Some (posting_status run)).

(** [_run_workflow_for_job] *)
Definition run_workflow_for_job (job : InvoiceJobEnvelope) (operator_replay : bool) : db summary :=
  '(document, existing_run) ← with_session (in_session (get_or_create_job_records job));
  let rid := run_id existing_run in
  if String.eqb (processing_status existing_run) "failed" && negb operator_replay then
    runtime_error (match get_key (interrupt_payload existing_run) "error" with
                   | Some x => if jtruthy x then py_str x else "workflow previously failed"
                   | None => "workflow previously failed"
                   end)
  else if in_strs (processing_status existing_run) REDELIVERY_SHORT_CIRCUIT_PROCESSING_STATUSES then
    mret (settled_summary document existing_run)
  else
    file_bytes ← of_res (decoded_file_bytes job);
    with_session (drive_job job operator_replay rid
                    (job_initial_state rid (doc_id document) file_bytes job)).

(** ** A delivery *)

(** The state of the worker. *)
Record worker := mk_worker { wk_queue : rdb; wk_db : world * threads }.

Definition on_queue {A} (m : M rdb A) : M worker A := λ w,
  let '(r, q) := m (wk_queue w) in (r, mk_worker q (wk_db w)).
Definition on_db {A} (m : db A) : M worker A := λ w,
  let '(r, d) := m (wk_db w) in (r, mk_worker (wk_queue w) d).

Context (s : queue_settings).

(** [_heartbeat]: so many beats. *)
Fixpoint heartbeat (beats : nat) (d : StreamDelivery) (consumer : string) : M rdb unit :=
  match beats with
  | O => mret tt
  | S n =>
      _ ← command (XCLAIM (INVOICE_STREAM s) (INVOICE_CONSUMER_GROUP s) consumer (stream_id d) (attempt d));
      heartbeat n d consumer
  end.

(** The outcome of a computation as a value. *)
Definition attempted {S A} (m : M S A) : M S (res A) := λ st, let '(r, st) := m st in (Ok r, st).

(** [finally: await heartbeat]: what the task raised replaces the outcome. *)
Definition finally {S A} (m : M S A) (task : res unit) : M S A := λ st,
  let '(r, st) := m st in (match task with Raise e => Raise e | Ok _ => r end, st).

(** [type(exc).__name__] *)
Definition class_name (c : exn_class) : string :=
  match c with
  | ValueError => "ValueError" | TypeError => "TypeError" | KeyError => "KeyError"
  | LookupError => "LookupError" | RuntimeError => "RuntimeError"
  | PermanentJobError => "PermanentJobError" | ExtractionError => "ExtractionError"
  | UnsupportedFileTypeError => "UnsupportedFileTypeError" | ValidationError => "ValidationError"
  | IntegrityError => "IntegrityError" | QueueOperationError => "QueueOperationError"
  | DLQNotFound => "DLQNotFound" | DLQNotReplayable => "DLQNotReplayable"
  | ReplayInProgress => "ReplayInProgress" | BusinessStateConflict => "BusinessStateConflict"
  | TimeoutError => "TimeoutError" | RedisError => "RedisError" | ResponseError => "ResponseError"
  | RedisTimeoutError => "TimeoutError" | HTTPException => "HTTPException"
  | CancelledError => "CancelledError" | OtherError name => name
  end.

Definition reason_of (e : exn) : string :=
  if String.eqb (exn_msg e) "" then class_name (exn_cls e) else exn_msg e.

Definition to_dead_letters (d : StreamDelivery) (reason : string) (now : datetime) : M worker unit :=
  on_queue (dead_letter (INVOICE_STREAM s) (INVOICE_CONSUMER_GROUP s) (INVOICE_DEAD_LETTER_STREAM s)
              d reason (Some (INVOICE_DLQ_REPLAY_PREFIX s)) now).

Definition failed_summary (filename rid reason : string) : summary :=
  summary_result filename rid "failed" None (Some (JStr reason)) None None None None.

(** The [except Exception] clause: given up at the last attempt, left for a later one
    before. *)
Definition delivery_failed (d : StreamDelivery) (job : InvoiceJobEnvelope) (now : datetime) (e : exn)
  : M worker (option summary) :=
  let reason := reason_of e in
  if (INVOICE_MAX_ATTEMPTS s <=? attempt d)%Z then
    _ ← on_db (with_session (in_session (mark_job_failed job reason)));
    _ ← to_dead_letters d reason now;
    mret (Some (failed_summary (job_filename job) (deterministic_run_id (idempotency_key job)) reason))
  else
    _ ← on_queue (record_failure (INVOICE_METADATA_PREFIX s) d reason
                    (Some (INVOICE_DLQ_REPLAY_PREFIX s)) now);
    mret None.

(** [_process_delivery]; [None] is no summary: the delivery is retried. *)
Definition process_delivery (beats : nat) (consumer : string) (now : datetime) (d : StreamDelivery)
  : M worker (option summary) :=
  match parse_delivery (d_fields d) with
  | Raise e =>
      if isinstance_exn e PermanentJobError then
        _ ← to_dead_letters d (exn_msg e) now;
        mret (Some (failed_summary "unknown" "" (exn_msg e)))
      else raise e
  | Ok job =>
      let replayed := match replay_context d with Some _ => true | None => false end in
      _ ← (if replayed then on_queue (record_replay_processing (INVOICE_DLQ_REPLAY_PREFIX s) d now)
           else mret tt);
      beat ← attempted (on_queue (heartbeat beats d consumer));
      outcome ← finally
        (try_except (result ← on_db (run_workflow_for_job job replayed); mret (inr result))
           (λ e, if is_Exception e then Some (x ← delivery_failed d job now e; mret (inl x)) else None))
        beat;
      match outcome with
      | inl x => mret x
      | inr result =>
          _ ← on_queue (acknowledge (INVOICE_STREAM s) (INVOICE_CONSUMER_GROUP s) d
                          (Some (INVOICE_DLQ_REPLAY_PREFIX s)) (Some (sm_processing_status result)) now);
          mret (Some result)
      end
  end.

(** [_process_batch]: the summaries; a delivery that fails is logged, a cancellation
    is raised after all. *)
Definition batch_summaries (outcomes : list (res (option summary))) : res (list summary) :=
  match find_first (λ o, match o with Raise e => negb (is_Exception e) | Ok _ => false end) outcomes with
  | Some (Raise e) => Raise e
  | _ => Ok (omap (λ o, match o with Ok x => x | Raise _ => None end) outcomes)
  end.

Definition process_batch (beats : nat) (consumer : string) (now : datetime) (deliveries : list StreamDelivery)
  : M worker (list summary) :=
  outcomes ← map_m (λ d, attempted (process_delivery beats consumer now d)) deliveries;
  of_res (batch_summaries outcomes).

(** The deliveries of one turn of the loop: stale ones first. *)
Definition next_deliveries (consumer : string) : M rdb (list StreamDelivery) :=
  deliveries ← claim_stale_batch (INVOICE_STREAM s) (INVOICE_CONSUMER_GROUP s) consumer
                 (INVOICE_VISIBILITY_TIMEOUT_MS s) (MAX_BATCH_SIZE s);
  if is_nil deliveries then
    read_new_batch (INVOICE_STREAM s) (INVOICE_CONSUMER_GROUP s) consumer (MAX_BATCH_SIZE s)
  else mret deliveries.
End Worker.

(** ** Lemmas: the rows *)

Lemma find_run_elem i s run s' :
  find_run_for_document i s = (Ok (Some run), s') → s' = s ∧ run ∈ workflow_runs (working s) ∧ document_id run = i.
Proof.
  unfold find_run_for_document, select, gets. intros [= H <-]. split; [done|].
  apply head_Some_elem_of, elem_of_where in H as [? ?%Z.eqb_eq]. done.
Qed.

Lemma scalar_one_ok {S A} (l : list A) (s : S) x s' : scalar_one l s = (Ok x, s') → l = [x] ∧ s' = s.
Proof. unfold scalar_one. destruct l as [|y [|]]; by intros [= -> ->]. Qed.

Lemma scalar_one_or_none_ok {S A} (l : list A) (s : S) x s' :
  scalar_one_or_none l s = (Ok x, s') → l = match x with Some y => [y] | None => [] end ∧ s' = s.
Proof. unfold scalar_one_or_none. destruct l as [|y [|]]; by intros [= <- <-]. Qed.

(** The rows of a job, once they were obtained, are committed. *)
Lemma get_or_create_ok job s doc run s' :
  committed s = working s → get_or_create_job_records job s = (Ok (doc, run), s') →
  committed s' = working s' ∧ run ∈ workflow_runs (working s').
Proof.
  intros Hc H. unfold get_or_create_job_records in H.
  apply bind_ok_inv in H as (found & s1 & [= <- <-] & H).
  apply bind_ok_inv in H as (o & s2 & Ho & H). apply scalar_one_or_none_ok in Ho as [_ ->].
  destruct o as [doc0|].
  - apply bind_ok_inv in H as (r & s3 & Hr & H). destruct r as [run0|]; [|done].
    apply find_run_elem in Hr as (-> & Hin & _). by injection H as _ <- <-.
  - unfold try_except in H.
    destruct ((doc ← insert_document (new_job_document job); _) s) as [[p|e] s3] eqn:E.
    + injection H as -> ->. apply bind_ok_inv in E as (doc1 & s4 & _ & E).
      apply bind_ok_inv in E as (run1 & s5 & Hr & E). apply insert_run_ok in Hr as (_ & _ & _ & Hw & _).
      injection E as _ -> <-. split; [done|]. cbn. rewrite Hw. cbn.
      apply elem_of_app. right. apply list_elem_of_here.
    + destruct (isinstance_exn e IntegrityError); [|done].
      apply bind_ok_inv in H as ([] & s4 & [= <-] & H).
      apply bind_ok_inv in H as (found & s5 & [= <- <-] & H).
      apply bind_ok_inv in H as (doc1 & s6 & Hd & H). apply scalar_one_ok in Hd as [_ ->].
      apply bind_ok_inv in H as (r & s7 & Hr & H). destruct r as [run0|]; [|done].
      apply find_run_elem in Hr as (-> & Hin & _). injection H as _ <- <-. by split.
Qed.

(** What [persist_run_state] commits. *)
Lemma persist_commits sv ps po pl keep run s run' s' :
  persist_run_state sv ps po pl keep run s = (Ok run', s') → run ∈ workflow_runs (working s) →
  run' = persisted_run sv ps po pl keep run ∧ committed s' = working s'
  ∧ run' ∈ workflow_runs (working s') ∧ run_id run' = run_id run.
Proof.
  intros H Hin. pose proof (persist_ok _ _ _ _ _ _ _ _ _ H) as ->.
  unfold persist_run_state, save_run in H. rewrite bind_unfold, bind_unfold in H. unfold insist in H.
  destruct (ck_workflow_run _); [|done]. injection H as <-. cbn.
  rewrite persisted_run_id. split; [done|]. split; [done|]. split; [|done].
  apply elem_of_update_where. exists run. by rewrite String.eqb_refl.
Qed.

(** ** Lemmas: the graph keeps the runs *)

Section Graph.
Context `{JC : JobCodec} `{E : GraphEngine} (model_fields : schema → json → option coerced)
        (triage_fields : json → option (string * string * float))
        (replies : claude_replies) (sla_hours : Z).

Abbreviation graph := (build_state_graph model_fields triage_fields replies sla_hours).

Lemma graph_result_runs rid start s t o s' t' :
  committed s = working s → graph_result graph rid start (s, t) = (o, (s', t')) →
  committed s' = working s' ∧ workflow_runs (working s') = workflow_runs (working s).
Proof.
  intros Hc. unfold graph_result. rewrite bind_unfold. cbn [get_state gets].
  unfold get_state, gets. cbn [snd]. destruct (negb _ && _); [by intros [= <- <- <-]|].
  unfold invoke. cbn [fst snd].
  set (input := if is_nil _ then Start start else Continue).
  pose proof (kept_ainvoke (business_of s) model_fields triage_fields replies sla_hours rid input t
    (world_of s)) as H. unfold keeps_world in H. rewrite session_of_world_of in H by done.
  specialize (H (business_kept s Hc)).
  destruct (ainvoke graph rid input t (world_of s)) as [[r' t1] w1]. cbn [snd] in H.
  intros [= <- <- <-]. split; [done|]. rewrite (kb_runs _ _ H). cbn. by rewrite Hc.
Qed.

(** The status that is stored for a summary: an empty one is replaced. *)
Definition recorded_processing (x : summary) : string :=
  if String.eqb (sm_processing_status x) "" then sm_status x else sm_processing_status x.

Definition recorded (x : summary) (run : WorkflowRun) : Prop :=
  run_id run = sm_run_id x ∧ status run = sm_status x
  ∧ processing_status run = recorded_processing x ∧ posting_status run = sm_posting_status x.

Lemma drive_job_ok job replay rid start s t x s' t' :
  committed s = working s → drive_job graph job replay rid start (s, t) = (Ok x, (s', t')) →
  ∃ run, run ∈ workflow_runs (committed s') ∧ recorded x run.
Proof.
  intros Hc H. unfold drive_job in H.
  apply bind_ok_inv in H as (found & st1 & [= <- <-] & H).
  apply bind_ok_inv in H as (run & st2 & Hr & H). apply scalar_one_ok in Hr as [Hr ->].
  assert (Hin : run ∈ runs_with rid (working s)) by (rewrite Hr; left).
  unfold runs_with in Hin. apply elem_of_where in Hin as [Hin Hid%String.eqb_eq].
  apply bind_ok_inv in H as (run1 & [s1 t1] & H1 & H).
  assert (committed s1 = working s1 ∧ run1 ∈ workflow_runs (working s1) ∧ run_id run1 = rid)
    as (Hc1 & Hin1 & Hid1).
  { unfold in_session in H1. cbn [fst snd] in H1. destruct (replay && _).
    - destruct (persist_run_state _ _ _ _ _ _ s) as [r s2] eqn:Ep. injection H1 as -> -> _.
      apply persist_commits in Ep as (_ & ? & ? & ?); [|done]. split; [done|]. split; [done|congruence].
    - injection H1 as -> -> _. done. }
  apply bind_ok_inv in H as (result & [s2 t2] & H2 & H).
  assert (H2' : graph_result graph rid start (s1, t1) = (Ok result, (s2, t2))).
  { unfold try_except in H2. destruct (graph_result graph rid start (s1, t1)) as [[a|e] st3].
    - by injection H2 as -> ->.
    - destruct (is_Exception e); [|done]. rewrite bind_unfold in H2. by destruct (in_session _ _) as [[]]. }
  apply graph_result_runs in H2' as [Hc2 Hruns]; [|done].
  apply bind_ok_inv in H as (run2 & [s3 t3] & H3 & H). injection H as <- <- <-.
  unfold in_session in H3. cbn [fst snd] in H3.
  destruct (persist_job_result run1 result s2) as [r s4] eqn:Ep. injection H3 as -> -> _.
  exists run2. unfold persist_job_result in Ep. unfold job_summary.
  destruct (interrupt_of result) as [p|]; apply persist_commits in Ep as (-> & Hc4 & Hin4 & Hid4);
    try (by rewrite Hruns); rewrite Hc4; (split; [exact Hin4|]);
    (split; [by rewrite Hid4|]); cbn; [done|].
  unfold recorded_processing, str_or. cbn. unfold str_truthy.
  split; [done|]. split; [|done]. by destruct (String.eqb _ "").
Qed.

Lemma with_session_ok {A} (m : M (session * threads) A) w t x w' t' :
  with_session m (w, t) = (Ok x, (w', t')) →
  ∃ s', m (session_of w, t) = (Ok x, (s', t')) ∧ w' = world_of s'.
Proof.
  unfold with_session. cbn [fst snd]. destruct (m _) as [r [s1 t1]].
  intros [= -> <- <-]. by exists s1.
Qed.

(** C16 A summary is true when it is returned: the run it names is committed with the
    statuses the summary has.  A delivery is acknowledged only after that. *)
Theorem job_outcome_recorded job operator_replay w t x w' t' :
  run_workflow_for_job graph job operator_replay (w, t) = (Ok x, (w', t')) →
  ∃ run, run ∈ workflow_runs (w_db w') ∧ recorded x run.
Proof.
  unfold run_workflow_for_job. intros H.
  apply bind_ok_inv in H as ([doc run] & [w1 t1] & H1 & H).
  apply with_session_ok in H1 as (s1 & H1 & ->). unfold in_session in H1. cbn [fst snd] in H1.
  destruct (get_or_create_job_records job (session_of w)) as [r s2] eqn:Eg. injection H1 as -> -> <-.
  apply get_or_create_ok in Eg as [Hc Hin]; [|done]. rewrite <- Hc in Hin.
  destruct (String.eqb (processing_status run) "failed" && _); [done|].
  destruct (in_strs (processing_status run) _) eqn:Es.
  - injection H as <- <- <-. exists run. split; [exact Hin|].
    split; [done|]. split; [done|]. split; [|done]. unfold recorded_processing. cbn.
    destruct (String.eqb_spec (processing_status run) "") as [E0|]; [|done].
    rewrite E0 in Es. discriminate Es.
  - apply bind_ok_inv in H as (bytes & [w2 t2] & Hb & H). unfold of_res in Hb. injection Hb as _ <- <-.
    apply with_session_ok in H as (s3 & H & ->).
    by apply drive_job_ok in H.
Qed.
End Graph.

(** ** Redelivery *)

Section Redelivery.
Context `{JC : JobCodec} `{E : GraphEngine} (graph : state_graph).

(** The rows of a job that was delivered before. *)
Definition job_rows (job : InvoiceJobEnvelope) (doc : Document) (run : WorkflowRun) (d : database) : Prop :=
  documents_with_key (idempotency_key job) d = [doc]
  ∧ head (where_ (λ r, Z.eqb (document_id r) (doc_id doc)) (workflow_runs d)) = Some run
  ∧ runs_with (run_id run) d = [run].

Lemma session_world w : world_of (session_of w) = w.
Proof. by destruct w. Qed.

Lemma get_or_create_again job doc run w t :
  job_rows job doc run (w_db w) →
  with_session (in_session (get_or_create_job_records job)) (w, t) = (Ok (doc, run), (w, t)).
Proof.
  intros (Hd & Hr & _). unfold with_session, in_session. cbn [fst snd].
  unfold get_or_create_job_records. rewrite bind_unfold. cbn [select gets].
  unfold select, gets. cbn [session_of working]. rewrite Hd. cbn [scalar_one_or_none].
  rewrite bind_unfold. cbn. rewrite bind_unfold. unfold find_run_for_document, select, gets. cbn.
  rewrite Hr. cbn. f_equal. f_equal. apply session_world.
Qed.

(** Only the rows of runs differ. *)
Definition same_but_runs (d d' : database) : Prop := d' = on_workflow_runs (λ _, workflow_runs d') d.

Lemma same_but_runs_trans d1 d2 d3 : same_but_runs d1 d2 → same_but_runs d2 d3 → same_but_runs d1 d3.
Proof. unfold same_but_runs. intros H1 H2. rewrite H2 at 1. rewrite H1 at 1. done. Qed.

Lemma persist_same_but_runs sv ps po pl keep run s :
  committed s = working s →
  let s' := (persist_run_state sv ps po pl keep run s).2 in
  same_but_runs (committed s) (committed s').
Proof.
  intros Hc. unfold persist_run_state, save_run. rewrite bind_unfold, bind_unfold. unfold insist.
  unfold same_but_runs. destruct (ck_workflow_run _); cbn; [by rewrite Hc|].
  by destruct (committed s).
Qed.

(** A thread with its final checkpoint: the graph is not run again. *)
Definition final_checkpoint (rid : string) (t : threads) : Prop :=
  values (aget_state rid t) ≠ [] ∧ next (aget_state rid t) = [].

Lemma drive_from_checkpoint job replay run start s t :
  committed s = working s → runs_with (run_id run) (working s) = [run] →
  final_checkpoint (run_id run) t →
  let '(s', t') := (drive_job graph job replay (run_id run) start (s, t)).2 in
  t' = t ∧ same_but_runs (committed s) (committed s').
Proof.
  intros Hc Hr [Hv Hn]. unfold drive_job. rewrite bind_unfold. unfold in_session at 1, select, gets.
  cbn [fst snd]. rewrite Hr. rewrite bind_unfold. cbn [scalar_one mret M_ret].
  assert (H0 : ∃ r1 s1, in_session (E:=E) (if replay && String.eqb (processing_status run) "failed"
      then persist_run_state "retrying" (Some "retrying") (Some "not_ready") None true run
      else mret run) (s, t) = (r1, (s1, t)) ∧ same_but_runs (committed s) (committed s1)
      ∧ committed s1 = working s1).
  { unfold in_session. cbn [fst snd]. destruct (replay && _).
    - pose proof (persist_same_but_runs "retrying" (Some "retrying") (Some "not_ready") None true run s Hc)
        as Hp.
      destruct (persist_run_state _ _ _ _ _ _ s) as [r1 s1] eqn:Ep. exists r1, s1. split; [done|].
      split; [exact Hp|]. revert Ep. unfold persist_run_state, save_run.
      rewrite bind_unfold, bind_unfold. unfold insist. destruct (ck_workflow_run _); by intros [= <- <-].
    - exists (Ok run), s. split; [done|]. split; [|done]. unfold same_but_runs. by destruct (committed s). }
  destruct H0 as (r1 & s1 & E1 & S1 & C1). rewrite bind_unfold, E1.
  destruct r1 as [run1|e]; [|by split]. rewrite bind_unfold.
  assert (E2 : graph_result graph (run_id run) start (s1, t)
               = (Ok (values (aget_state (run_id run) t)), (s1, t))).
  { unfold graph_result, get_state, gets. rewrite bind_unfold. cbn [snd]. rewrite Hn.
    by destruct (values (aget_state (run_id run) t)). }
  unfold try_except. rewrite E2. set (result := values _). rewrite bind_unfold.
  unfold in_session. cbn [fst snd].
  assert (H3 : same_but_runs (committed s1) (committed (persist_job_result run1 result s1).2)).
  { unfold persist_job_result. destruct (interrupt_of result); by apply persist_same_but_runs. }
  destruct (persist_job_result run1 result s1) as [[run2|e] s2]; cbn in H3 |- *;
    (split; [done|by eapply same_but_runs_trans]).
Qed.

End Redelivery.

(** ** Witnesses *)

Definition demo_graph : state_graph :=
  build_state_graph demo_fields demo_triage (demo_replies 2000) 72.

Definition demo_outcome : res summary * (world * @threads reference_engine) :=
  run_workflow_for_job demo_graph demo_job false (demo_graph_world, no_threads).

Definition demo_summary : summary :=
  match demo_outcome.1 with Ok x => x | Raise _ => failed_summary "" "" "" end.

Lemma job_outcome_recorded_witness :
  sm_processing_status demo_summary = "awaiting_review"
  ∧ ∃ run, run ∈ workflow_runs (w_db demo_outcome.2.1) ∧ recorded demo_summary run.
Proof.
  split; [vm_compute; reflexivity|].
  apply (job_outcome_recorded demo_fields demo_triage (demo_replies 2000) 72 demo_job false
    demo_graph_world no_threads demo_summary demo_outcome.2.1 demo_outcome.2.2).
  vm_compute. reflexivity.
Defined.

Definition demo_job_doc : Document := new_job_document demo_job 1 0.
Definition demo_job_run : WorkflowRun :=
  set_status "awaiting_review" (set_processing_status "awaiting_review"
    (mkWorkflowRun 1 "r1" 1 "running" "running" "not_ready" (Some (JObj (gmail_fields demo_job))) 0)).
Definition demo_job_world : world :=
  mk_world (on_workflow_runs (λ _, [demo_job_run]) (on_documents (λ _, [demo_job_doc]) empty_database))
    (counting_env 0).

