(* ===== verification/DeliveryLifecycle.v ===== *)
(** * What happens to a delivery

    The abstract queue: the entries on the live stream and the evidence of the dead
    letters.  A delivery ends in one of three ways: acknowledged once its outcome is
    committed, dead-lettered with its evidence, or kept for a later attempt.  The
    worker of InvoiceWorker, on any server, does nothing else to the queue, so no job
    is lost between the two streams. *)

From S2P Require Import Prelude PyText Sha256 DateTime PyFloat Json Database Reconciliation.
From S2P Require Import SlaScanner Extraction Workflow WorkflowSafety Frame BusinessState.
From S2P Require Import WorkflowRoutes InvoiceJob Redis InvoiceQueue QueueRoutes InvoiceWorker.
From stdpp Require Import relations.
From Stdlib Require Import Ascii.
Local Open Scope string_scope.
Local Open Scope list_scope.
Local Open Scope nat_scope.

(** ** The abstract queue *)

Record aqueue := mk_aqueue { live : list entry; dead : list (list (string * string)) }.

Definition acknowledged (d : StreamDelivery) (a : aqueue) : aqueue :=
  mk_aqueue (without (stream_id d) (live a)) (dead a).

Definition dead_lettered (d : StreamDelivery) (reason : string) (now : datetime) (a : aqueue) : aqueue :=
  mk_aqueue (without (stream_id d) (live a)) (dead a ++ [dead_letter_fields d reason now]).

Section Queue.
Context (s : queue_settings).

(** The queue of a server, and when its keys are as the settings say. *)
Definition queue_of (ks : keyspace) : aqueue :=
  mk_aqueue (s_entries (stream_at (INVOICE_STREAM s) ks))
            (s_entries (stream_at (INVOICE_DEAD_LETTER_STREAM s) ks)).*2.

Definition streams : list string := [INVOICE_STREAM s; INVOICE_DEAD_LETTER_STREAM s].

(** The keys of the metadata are no streams: a fact about the settings. *)
Record settings_ok : Prop := {
  so_streams : INVOICE_STREAM s ≠ INVOICE_DEAD_LETTER_STREAM s;
  so_metadata x : metadata_key (INVOICE_METADATA_PREFIX s) x ∉ streams;
  so_replay x : replay_key_of (INVOICE_DLQ_REPLAY_PREFIX s) x ∉ streams
}.

Record queue_ok (ks : keyspace) : Prop := {
  qo_live : is_stream (INVOICE_STREAM s) ks = true;
  qo_dead : is_stream (INVOICE_DEAD_LETTER_STREAM s) ks = true;
  qo_metadata x : is_hash (metadata_key (INVOICE_METADATA_PREFIX s) x) ks = true;
  qo_replay x : is_hash (replay_key_of (INVOICE_DLQ_REPLAY_PREFIX s) x) ks = true
}.

(** The server is sound and its queue is [a]. *)
Definition holds (a : aqueue) (ks : keyspace) : Prop := queue_ok ks ∧ queue_of ks = a.

(** ** The frame of the commands *)

Lemma holds_same a ks ks' :
  holds a ks →
  (∀ k, k ∈ streams → s_entries (stream_at k ks') = s_entries (stream_at k ks)
                      ∧ is_stream k ks' = true) →
  (∀ k, is_hash k ks = true → k ∉ streams → is_hash k ks' = true) →
  settings_ok → holds a ks'.
Proof.
  intros [[Hl Hd Hm Hr] Hq] Hs Hh [_ Sm Sr].
  destruct (Hs (INVOICE_STREAM s)) as [E1 T1]; [by left|].
  destruct (Hs (INVOICE_DEAD_LETTER_STREAM s)) as [E2 T2]; [right; by left|].
  split; [split; auto|]. unfold queue_of. by rewrite E1, E2.
Qed.

Lemma holds_others a ks ks' l :
  settings_ok → holds a ks → others_kept l ks ks' → (∀ k, k ∈ l → k ∉ streams ∧ is_hash k ks' = true) →
  holds a ks'.
Proof.
  intros So Ha Ho Hl. apply (holds_same a ks); [done| | |done].
  - intros k Hk. assert (lookup_key k ks' = lookup_key k ks).
    { apply Ho. intros Hin. by apply Hl in Hin as [? _]. }
    rewrite (stream_at_same _ ks), (is_stream_same _ ks) by done. split; [done|].
    destruct Ha as [[? ? _ _] _]. unfold streams in Hk.
    apply elem_of_cons in Hk as [->|Hk%list_elem_of_singleton]; [done|by subst].
  - intros k Hk _. destruct (decide (k ∈ l)) as [Hin|Hin]; [by apply Hl|].
    by rewrite (is_hash_same _ ks) by (by apply Ho).
Qed.

Lemma holds_hset a k m :
  settings_ok → k ∉ streams → preserves (holds a) (documented (HSET k m)).
Proof.
  intros So Hk ks Ha. cbn [documented]. rewrite bind_unfold.
  destruct (is_hash k ks) eqn:Hh.
  - rewrite get_hash_ok by done. cbn [modify snd].
    destruct (put_hash_sets k (dict_update (hash_at k ks) m) ks) as [_ Ht Ho].
    apply (holds_others a ks _ [k]); [done..|]. intros k' ->%list_elem_of_singleton. done.
  - unfold get_hash. unfold is_hash in Hh. destruct (lookup_key k ks) as [[]|]; try done.
Qed.

(** A command that changes a consumer group of the live stream only. *)
Lemma holds_regroup a g x ks :
  settings_ok → holds a ks →
  holds a (put_key (INVOICE_STREAM s) (RStream (set_group g x (stream_at (INVOICE_STREAM s) ks))) ks).
Proof.
  intros So Ha. set (x' := set_group _ _ _).
  destruct (put_stream_sets (INVOICE_STREAM s) x' ks) as [E T Ho].
  apply (holds_same a ks); [done| | |done].
  - intros k Hk. destruct (decide (k = INVOICE_STREAM s)) as [->|Hne]; [by rewrite E|].
    assert (lookup_key k (put_key (INVOICE_STREAM s) (RStream x') ks) = lookup_key k ks)
      by (apply Ho; by intros ->%list_elem_of_singleton).
    rewrite (stream_at_same _ ks), (is_stream_same _ ks) by done. split; [done|].
    unfold streams in Hk. apply elem_of_cons in Hk as [->| ->%list_elem_of_singleton]; [done|apply Ha].
  - intros k Hh Hk. rewrite (is_hash_same _ ks); [done|]. apply Ho.
    intros ->%list_elem_of_singleton. apply Hk. unfold streams. left.
Qed.

Lemma holds_xclaim a g c i n :
  settings_ok → preserves (holds a) (documented (XCLAIM (INVOICE_STREAM s) g c i n)).
Proof.
  intros So ks Ha. cbn [documented]. rewrite bind_unfold.
  rewrite get_stream_ok by apply Ha. rewrite bind_unfold. unfold get_group.
  destruct (dict_get g _) as [x|]; [|done]. cbn [mret M_ret]. rewrite bind_unfold. cbn [gets].
  cbn [put_stream modify snd]. by apply holds_regroup.
Qed.

(** The commands that read from the live stream: what they give is on it. *)
Lemma holds_xgroup_create a g :
  settings_ok → preserves (holds a) (documented (XGROUP_CREATE (INVOICE_STREAM s) g)).
Proof.
  intros So ks Ha. cbn [documented]. rewrite bind_unfold. rewrite get_stream_ok by apply Ha.
  destruct (dict_get g _) as [x|]; [done|]. cbn [put_stream modify snd]. by apply holds_regroup.
Qed.

Lemma holds_xreadgroup a g c n ks :
  settings_ok → holds a ks →
  let '(r, ks') := documented (XREADGROUP g c (INVOICE_STREAM s) n) ks in
  holds a ks' ∧ ∀ l, r = Ok l → l ⊆ live a.
Proof.
  intros So Ha. cbn [documented]. rewrite bind_unfold. rewrite get_stream_ok by apply Ha.
  rewrite bind_unfold. unfold get_group. destruct (dict_get g _) as [x|]; [|done].
  cbn [mret M_ret]. rewrite bind_unfold. cbn [gets]. rewrite bind_unfold.
  cbn [put_stream modify]. split; [by apply holds_regroup|].
  intros l [= <-] e He. pose proof Ha as [_ <-]. cbn.
  assert (Hu : e ∈ undelivered x (stream_at (INVOICE_STREAM s) ks)).
  { rewrite <- (take_drop n (undelivered x _)). apply elem_of_app. by left. }
  unfold undelivered in Hu. destruct (g_last x); [|done].
  by rewrite list_elem_of_In, filter_In, <- list_elem_of_In in Hu; destruct Hu.
Qed.

Lemma holds_xautoclaim a g c t n ks :
  settings_ok → holds a ks →
  let '(r, ks') := documented (XAUTOCLAIM (INVOICE_STREAM s) g c t n) ks in
  holds a ks' ∧ ∀ l, r = Ok l → l ⊆ live a.
Proof.
  intros So Ha. cbn [documented]. rewrite bind_unfold. rewrite get_stream_ok by apply Ha.
  rewrite bind_unfold. unfold get_group. destruct (dict_get g _) as [x|]; [|done].
  cbn [mret M_ret]. rewrite bind_unfold. cbn [gets]. rewrite bind_unfold.
  cbn [put_stream modify]. split; [by apply holds_regroup|].
  intros l [= <-] e He. pose proof Ha as [_ <-]. cbn.
  assert (Hu : e ∈ omap (in_entries (stream_at (INVOICE_STREAM s) ks))
                     (List.filter (λ p, (t <=? server_ms ks - p_since p)%Z) (g_pending x))).
  { rewrite <- (take_drop n (omap _ _)). apply elem_of_app. by left. }
  apply list_elem_of_omap in Hu as (p & _ & Hf). apply find_some in Hf as [Hf _].
  by apply list_elem_of_In.
Qed.

Lemma holds_xpending a g i : settings_ok → preserves (holds a) (documented (XPENDING_RANGE (INVOICE_STREAM s) g i)).
Proof.
  intros So ks Ha. cbn [documented]. rewrite bind_unfold. rewrite get_stream_ok by apply Ha.
  rewrite bind_unfold. unfold get_group. by destruct (dict_get g _).
Qed.

(** The same on a server. *)
Context {R : Redis}.

Definition holds_on (a : aqueue) (r : rdb) : Prop := holds a (view r).

Lemma kept_command {A} (P : keyspace → Prop) (c : cmd A) :
  preserves P (documented c) → preserves (λ r, P (view r)) (command c).
Proof. intros Hc r Hr. destruct (command_documented c r) as [_ ->]. by apply Hc. Qed.

Lemma kept_pipeline {S} (P : S → Prop) l : Forall (preserves P) l → preserves P (pipeline l).
Proof.
  induction 1 as [|m l Hm _ IH]; intros st Hst; [done|]. cbn [pipeline].
  specialize (Hm st Hst). destruct (m st) as [x st1]. cbn [snd] in Hm.
  specialize (IH st1 Hm). by destruct (pipeline l st1).
Qed.

Context (So : settings_ok).

Lemma kept_heartbeat a beats d consumer : preserves (holds_on a) (heartbeat s beats d consumer).
Proof using So.
  induction beats as [|n IH]; cbn [heartbeat]; [by intros r|].
  apply preserves_bind; [|by intros _]. apply (kept_command (holds a)). by apply holds_xclaim.
Qed.

Lemma replay_key_not_stream p d k :
  replay_metadata_key p d = Some k → p = INVOICE_DLQ_REPLAY_PREFIX s → k ∉ streams.
Proof using So.
  unfold replay_metadata_key. destruct (replay_context d) as [[i q]|]; [|done].
  intros [= <-] ->. apply (so_replay So).
Qed.

Lemma kept_record_failure a d reason now :
  preserves (holds_on a) (record_failure (INVOICE_METADATA_PREFIX s) d reason
                            (Some (INVOICE_DLQ_REPLAY_PREFIX s)) now).
Proof using So.
  unfold record_failure. cbn [mbind option_bind].
  assert (H1 : preserves (holds_on a) (command (HSET (metadata_key (INVOICE_METADATA_PREFIX s)
      (stream_id d)) (failure_fields d reason now))))
    by (apply (kept_command (holds a)), holds_hset; [done|apply (so_metadata So)]).
  destruct (replay_metadata_key _ d) as [k|] eqn:Ek; [|done].
  apply kept_pipeline. repeat apply Forall_cons_2; [done| |apply Forall_nil_2].
  apply (kept_command (holds a)), holds_hset; [done|]. by eapply replay_key_not_stream.
Qed.

Lemma kept_record_replay a d now :
  preserves (holds_on a) (record_replay_processing (INVOICE_DLQ_REPLAY_PREFIX s) d now).
Proof using So.
  unfold record_replay_processing. destruct (replay_metadata_key _ d) as [k|] eqn:Ek; [|by intros r].
  apply (kept_command (holds a)), holds_hset; [done|]. by eapply replay_key_not_stream.
Qed.

(** The keys of a replay are hashes apart from the streams. *)
Lemma replay_keys_ok d ks :
  queue_ok ks →
  INVOICE_STREAM s ∉ replay_keys (Some (INVOICE_DLQ_REPLAY_PREFIX s)) d
  ∧ INVOICE_DEAD_LETTER_STREAM s ∉ replay_keys (Some (INVOICE_DLQ_REPLAY_PREFIX s)) d
  ∧ Forall (λ k, is_hash k ks = true) (replay_keys (Some (INVOICE_DLQ_REPLAY_PREFIX s)) d).
Proof using So.
  intros [_ _ _ Hr]. unfold replay_keys. cbn [mbind option_bind].
  destruct (replay_metadata_key _ d) as [k|] eqn:Ek.
  - pose proof (replay_key_not_stream _ _ _ Ek eq_refl) as Hn. unfold streams in Hn.
    split; [set_solver|]. split; [set_solver|]. apply Forall_singleton.
    unfold replay_metadata_key in Ek. destruct (replay_context d) as [[i q]|]; [|done].
    injection Ek as <-. apply Hr.
  - split; [apply not_elem_of_nil|]. split; [apply not_elem_of_nil|apply Forall_nil_2].
Qed.

(** The hashes stay hashes when streams and hashes change. *)
Lemma hashes_kept d state o now ks ks' :
  queue_ok ks → others_kept (streams ++ replay_keys (Some (INVOICE_DLQ_REPLAY_PREFIX s)) d) ks ks' →
  Forall (λ k, hash_at k ks' = dict_update (hash_at k ks) (replay_action_fields d state o now)
               ∧ is_hash k ks' = true) (replay_keys (Some (INVOICE_DLQ_REPLAY_PREFIX s)) d) →
  (∀ x, is_hash (metadata_key (INVOICE_METADATA_PREFIX s) x) ks' = true)
  ∧ (∀ x, is_hash (replay_key_of (INVOICE_DLQ_REPLAY_PREFIX s) x) ks' = true).
Proof using So.
  intros [_ _ Hm Hr] Ho Hh. rewrite Forall_forall in Hh.
  assert (Hk : ∀ k, k ∉ streams → is_hash k ks = true → is_hash k ks' = true).
  { intros k Hk Hk2. destruct (decide (k ∈ replay_keys (Some (INVOICE_DLQ_REPLAY_PREFIX s)) d)) as [Hin|Hin].
    - by apply Hh.
    - rewrite (is_hash_same _ ks); [done|]. apply Ho. set_solver. }
  split; intros x; apply Hk; [apply (so_metadata So)|done|apply (so_replay So)|done].
Qed.

Lemma holds_acknowledge a d o now r :
  holds_on a r →
  ∃ r', acknowledge (INVOICE_STREAM s) (INVOICE_CONSUMER_GROUP s) d
          (Some (INVOICE_DLQ_REPLAY_PREFIX s)) o now r = (Ok tt, r')
    ∧ holds_on (acknowledged d a) r'.
Proof using So.
  intros [Hok Hq]. destruct (replay_keys_ok d (view r) Hok) as (N1 & N2 & Hh).
  destruct (acknowledge_runs (INVOICE_STREAM s) (INVOICE_CONSUMER_GROUP s) d
    (Some (INVOICE_DLQ_REPLAY_PREFIX s)) o now r (qo_live _ Hok) N1 Hh)
    as (r' & E & Es & Hh' & Ho & Ht).
  exists r'. split; [exact E|].
  assert (Kd : lookup_key (INVOICE_DEAD_LETTER_STREAM s) (view r')
               = lookup_key (INVOICE_DEAD_LETTER_STREAM s) (view r)).
  { apply Ho. pose proof (so_streams So). set_solver. }
  destruct (hashes_kept d "acknowledged" o now (view r) (view r') Hok) as [M1 M2];
    [eapply others_kept_weaken; [exact Ho|unfold streams; set_solver]|done|].
  split.
  - split; [done| |done|done]. rewrite (is_stream_same _ (view r)) by done. apply Hok.
  - unfold queue_of, acknowledged. rewrite Es, settled_stream_entries, <- Hq. cbn.
    by rewrite (stream_at_same _ (view r) (view r') Kd).
Qed.

Lemma holds_dead_letter a d reason now r :
  holds_on a r →
  ∃ r', dead_letter (INVOICE_STREAM s) (INVOICE_CONSUMER_GROUP s) (INVOICE_DEAD_LETTER_STREAM s)
          d reason (Some (INVOICE_DLQ_REPLAY_PREFIX s)) now r = (Ok tt, r')
    ∧ holds_on (dead_lettered d reason now a) r'.
Proof using So.
  intros [Hok Hq]. destruct (replay_keys_ok d (view r) Hok) as (N1 & N2 & Hh).
  destruct (dead_letter_runs (INVOICE_STREAM s) (INVOICE_CONSUMER_GROUP s)
    (INVOICE_DEAD_LETTER_STREAM s) d reason (Some (INVOICE_DLQ_REPLAY_PREFIX s)) now r
    (so_streams So) (qo_live _ Hok) (qo_dead _ Hok) N1 N2 Hh)
    as (r' & E & Ed & Es & Hh' & Ho & Tl & Td).
  exists r'. split; [exact E|].
  destruct (hashes_kept d "dead_lettered" (Some "failed") now (view r) (view r') Hok) as [M1 M2];
    [eapply others_kept_weaken; [exact Ho|unfold streams; set_solver]|done|].
  split; [by split|]. unfold queue_of, dead_lettered.
  rewrite Es, settled_stream_entries, Ed, <- Hq. cbn. by rewrite fmap_app.
Qed.
End Queue.

(** ** The ends of a delivery *)

Section Ends.
Context {R : Redis} `{JobCodec} `{GraphEngine} (graph : state_graph) (s : queue_settings).

(** How the processing of a delivery may end, from a worker with the abstract queue
    [a]: its outcome, the queue and the databases afterwards.

    - acknowledged: only with a summary of its workflow, after its last commit;
    - dead-lettered: only a delivery without a valid job, or one whose workflow
      failed at the last attempt;
    - kept: not with a summary. *)
Inductive delivery_end (d : StreamDelivery) (w : world * threads) (a : aqueue)
  : res (option summary) → aqueue → world * threads → Prop :=
  | end_acknowledged job x w' :
      parse_delivery (d_fields d) = Ok job →
      run_workflow_for_job graph job (bool_decide (is_Some (replay_context d))) w = (Ok x, w') →
      delivery_end d w a (Ok (Some x)) (acknowledged d a) w'
  | end_no_job e reason now o :
      parse_delivery (d_fields d) = Raise e →
      delivery_end d w a o (dead_lettered d reason now a) w
  | end_given_up job e reason now o w1 w' :
      parse_delivery (d_fields d) = Ok job →
      run_workflow_for_job graph job (bool_decide (is_Some (replay_context d))) w = (Raise e, w1) →
      (INVOICE_MAX_ATTEMPTS s ≤ attempt d)%Z →
      delivery_end d w a o (dead_lettered d reason now a) w'
  | end_kept o w' :
      (∀ x, o ≠ Ok (Some x)) →
      delivery_end d w a o a w'.

Lemma on_queue_runs {A} (m : M rdb A) q (w : world * threads) :
  on_queue m (mk_worker q w) = ((m q).1, mk_worker (m q).2 w).
Proof. unfold on_queue. cbn. by destruct (m q). Qed.

Lemma on_db_runs {A} (m : M (world * threads) A) q (w : world * threads) :
  on_db m (mk_worker q w) = ((m w).1, mk_worker q (m w).2).
Proof. unfold on_db. cbn. by destruct (m w). Qed.

Context (So : settings_ok s).

Lemma process_delivery_end beats consumer now d a q w o q' w' :
  holds_on s a q →
  process_delivery graph s beats consumer now d (mk_worker q w) = (o, mk_worker q' w') →
  ∃ a', holds_on s a' q' ∧ delivery_end d w a o a' w'.
Proof using So.
  intros Ha. unfold process_delivery. pose proof (parse_delivery_spec (d_fields d)) as Hp.
  destruct (parse_delivery (d_fields d)) as [job|e] eqn:Epd.
  2:{ unfold isinstance_exn. rewrite Hp. unfold to_dead_letters.
      rewrite bind_unfold, on_queue_runs.
      destruct (holds_dead_letter s So a d (exn_msg e) now q Ha) as (q1 & E & Ha1). rewrite E.
      cbn [fst snd]. intros [= <- <- <-]. eexists. split; [exact Ha1|].
      by eapply (end_no_job _ _ _ e). }
  clear Hp. set (replayed := match replay_context d with Some _ => true | None => false end).
  assert (Er : replayed = bool_decide (is_Some (replay_context d))).
  { unfold replayed. by destruct (replay_context d). }
  rewrite bind_unfold.
  assert (Hrec : ∃ x q1, (if replayed then on_queue (record_replay_processing
      (INVOICE_DLQ_REPLAY_PREFIX s) d now) else mret tt) (mk_worker q w) = (x, mk_worker q1 w)
      ∧ holds_on s a q1).
  { destruct replayed; [|by exists (Ok tt), q]. rewrite on_queue_runs. eexists _, _. split; [done|].
    by apply kept_record_replay. }
  destruct Hrec as (x & q1 & -> & Ha1). destruct x as [[]|e].
  2:{ intros [= <- <- <-]. exists a. split; [done|]. by apply end_kept. }
  rewrite bind_unfold. unfold attempted at 1. rewrite on_queue_runs.
  pose proof (kept_heartbeat s So a beats d consumer q1 Ha1) as Ha2.
  destruct (heartbeat s beats d consumer q1) as [beat q2]. cbn [fst snd] in Ha2 |- *.
  rewrite bind_unfold. unfold finally, try_except. rewrite bind_unfold, on_db_runs.
  rewrite Er. clear Er replayed.
  destruct (run_workflow_for_job graph job _ w) as [[x|e] w1] eqn:Ew; cbn [fst snd mret M_ret].
  - destruct beat as [[]|e].
    2:{ intros [= <- <- <-]. exists a. split; [done|]. by apply end_kept. }
    rewrite bind_unfold, on_queue_runs.
    destruct (holds_acknowledge s So a d (Some (sm_processing_status x)) now q2 Ha2) as (q3 & -> & Ha3).
    cbn [fst snd]. intros [= <- <- <-]. exists (acknowledged d a). split; [done|].
    by eapply end_acknowledged.
  - destruct (is_Exception e).
    2:{ destruct beat as [[]|eb]; intros [= <- <- <-]; exists a;
          (split; [done|by apply end_kept]). }
    assert (Hf : ∃ x q3 w3, delivery_failed s d job now e (mk_worker q2 w1) = (x, mk_worker q3 w3)
      ∧ ∃ a', holds_on s a' q3
        ∧ ∀ o, (∀ y, o = Ok (Some y) → x = Ok (Some y)) → delivery_end d w a o a' w3).
    { unfold delivery_failed, to_dead_letters. destruct (Z.leb_spec (INVOICE_MAX_ATTEMPTS s) (attempt d)).
      - rewrite bind_unfold, on_db_runs.
        destruct (with_session _ w1) as [[[]|e1] w3]; cbn [fst snd].
        + rewrite bind_unfold, on_queue_runs.
          destruct (holds_dead_letter s So a d (reason_of e) now q2 Ha2) as (q3 & -> & Ha3).
          cbn [fst snd mret M_ret]. eexists _, q3, w3. split; [done|]. eexists. split; [exact Ha3|].
          intros o1 _. by eapply end_given_up.
        + eexists _, q2, w3. split; [done|]. exists a. split; [done|]. intros o1 Ho. apply end_kept.
          intros y Hy. specialize (Ho y Hy). discriminate Ho.
      - rewrite bind_unfold, on_queue_runs.
        pose proof (kept_record_failure s So a d (reason_of e) now q2 Ha2) as Ha3.
        destruct (record_failure _ _ _ _ _ q2) as [[[]|e1] q3]; cbn [fst snd mret M_ret];
          (eexists _, q3, w1; split; [done|]; exists a; split; [done|]; intros o1 Ho; apply end_kept;
           intros y Hy; specialize (Ho y Hy); discriminate Ho). }
    rewrite bind_unfold. destruct Hf as (x & q3 & w3 & -> & a' & Ha3 & Hend).
    destruct x as [x|e1]; cbn [mret M_ret]; destruct beat as [[]|eb]; intros [= <- <- <-];
      exists a'; (split; [done|apply Hend; intros y Hy]); first [done|discriminate Hy|by injection Hy as ->].
Qed.

(** A batch: the deliveries end one after the other. *)
Inductive batch_run : list StreamDelivery → world * threads → aqueue →
    list (res (option summary)) → aqueue → world * threads → Prop :=
  | run_nil w a : batch_run [] w a [] a w
  | run_cons d ds w w1 w2 a a1 a2 o os :
      delivery_end d w a o a1 w1 → batch_run ds w1 a1 os a2 w2 →
      batch_run (d :: ds) w a (o :: os) a2 w2.

Lemma attempted_runs {S A} (m : M S A) st : attempted m st = (Ok (m st).1, (m st).2).
Proof using Type. unfold attempted. by destruct (m st). Qed.

Lemma batch_outcomes_run beats consumer now ds : ∀ a q w,
  holds_on s a q →
  ∃ os q' w', map_m (λ d, attempted (process_delivery graph s beats consumer now d)) ds (mk_worker q w)
              = (Ok os, mk_worker q' w')
    ∧ ∃ a', holds_on s a' q' ∧ batch_run ds w a os a' w'.
Proof using So.
  induction ds as [|d ds IH]; intros a q w Ha; cbn [map_m].
  { exists [], q, w. split; [done|]. exists a. split; [done|constructor]. }
  rewrite bind_unfold, attempted_runs.
  destruct (process_delivery graph s beats consumer now d (mk_worker q w)) as [o [q1 w1]] eqn:E.
  destruct (process_delivery_end _ _ _ _ _ _ _ _ _ _ Ha E) as (a1 & Ha1 & Hend). cbn [fst snd].
  destruct (IH a1 q1 w1 Ha1) as (os & q2 & w2 & E2 & a2 & Ha2 & Hrun).
  rewrite bind_unfold, E2. eexists _, q2, w2. split; [reflexivity|]. exists a2.
  split; [done|]. by eapply run_cons.
Qed.

(** C9 The worker implements the lifecycle of deliveries, on any server: a batch
    takes the abstract queue and the databases through one end of each of its
    deliveries, in order, whatever fails on the way, keeps the server sound, and
    returns the summaries of those ends. *)
Theorem worker_refines_lifecycle beats consumer now ds a q w o q' w' :
  holds_on s a q →
  process_batch graph s beats consumer now ds (mk_worker q w) = (o, mk_worker q' w') →
  ∃ a' outcomes, holds_on s a' q' ∧ batch_run ds w a outcomes a' w' ∧ o = batch_summaries outcomes.
Proof using So.
  intros Ha. unfold process_batch.
  destruct (batch_outcomes_run beats consumer now ds a q w Ha) as (os & q1 & w1 & E & a1 & Ha1 & Hr).
  rewrite bind_unfold, E. intros [= <- <- <-]. by exists a1, os.
Qed.

(** What may have become of an entry of the live stream. *)
Definition accounted (ds : list StreamDelivery) (a' : aqueue) (e : entry) : Prop :=
  e ∈ live a'
  ∨ ∃ d, d ∈ ds ∧ stream_id d = e.1
      ∧ ((∃ reason now, dead_letter_fields d reason now ∈ dead a')
         ∨ ∃ job x w1 w2, parse_delivery (d_fields d) = Ok job
             ∧ run_workflow_for_job graph job (bool_decide (is_Some (replay_context d))) w1 = (Ok x, w2)).

Lemma delivery_end_live d w a o a' w' e :
  delivery_end d w a o a' w' → e ∈ live a → accounted [d] a' e.
Proof using Type.
  intros Hend He.
  destruct (decide (e.1 = stream_id d)) as [Hid|Hid]; destruct Hend; cbn;
    try (left; by (done || (apply elem_of_without; by split))); right; exists d;
    (split; [apply list_elem_of_here|split; [done|]]).
  - right. by eexists _, _, _, _.
  - left. eexists _, _. apply elem_of_app. right. apply list_elem_of_here.
  - left. eexists _, _. apply elem_of_app. right. apply list_elem_of_here.
Qed.

Lemma delivery_end_dead d w a o a' w' : delivery_end d w a o a' w' → dead a `prefix_of` dead a'.
Proof using Type. intros []; cbn; first [done|by apply prefix_app_r]. Qed.

Lemma batch_run_dead ds w a os a' w' : batch_run ds w a os a' w' → dead a `prefix_of` dead a'.
Proof using Type. induction 1; [done|]. etrans; [by eapply delivery_end_dead|done]. Qed.

Lemma batch_run_accounted ds w a os a' w' e :
  batch_run ds w a os a' w' → e ∈ live a → accounted ds a' e.
Proof using Type.
  induction 1 as [|d ds w w1 w2 a a1 a2 o os Hend Hrun IH]; intros He; [by left|].
  destruct (delivery_end_live _ _ _ _ _ _ e Hend He) as [Hl|(d' & Hd & Hid & Hc)].
  - destruct (IH Hl) as [Hl2|(d' & Hd & Hc)]; [by left|]. right. exists d'.
    split; [by apply list_elem_of_further|done].
  - right. exists d'. apply list_elem_of_singleton in Hd as ->.
    split; [apply list_elem_of_here|]. split; [done|].
    destruct Hc as [(reason & now & Hin)|Hc]; [left|by right]. exists reason, now.
    destruct (batch_run_dead _ _ _ _ _ _ Hrun) as [l ->]. by apply elem_of_app; left.
Qed.

End Ends.

(** ** Witnesses *)

Definition default_keyspace : keyspace :=
  mk_keyspace [(INVOICE_STREAM default_settings, RStream (mk_stream [("5-0", d_fields demo_delivery)]
                 [(INVOICE_CONSUMER_GROUP default_settings,
                   mk_group (Some "5-0") [mk_pending "5-0" "c" 0 3])]))]
    (λ n, str_of_Z (Z.of_nat n + 10) +:+ "-0") 0 100.

Lemma default_settings_ok : settings_ok default_settings.
Proof.
  split; [done|intros x..]; cbn; repeat (apply not_elem_of_cons; split); try apply not_elem_of_nil;
    intros E; discriminate E.
Qed.

Lemma default_queue_ok : queue_ok default_settings default_keyspace.
Proof. by split. Qed.

Definition demo_batch : res (list summary) * worker (R:=reference_redis) (E:=reference_engine) :=
  process_batch (R:=reference_redis) demo_graph default_settings 2 "c" 0 [demo_delivery]
    (mk_worker (R:=reference_redis) default_keyspace (demo_graph_world, no_threads)).

Lemma demo_batch_end :
  process_batch (R:=reference_redis) demo_graph default_settings 2 "c" 0 [demo_delivery]
    (mk_worker (R:=reference_redis) default_keyspace (demo_graph_world, no_threads))
  = (demo_batch.1, mk_worker (R:=reference_redis) (wk_queue demo_batch.2) (wk_db demo_batch.2)).
Proof. unfold demo_batch. by destruct (process_batch _ _ _ _ _ _ _) as [o []]. Qed.

Lemma worker_refines_lifecycle_witness :
  ∃ a' os, holds_on (R:=reference_redis) default_settings a' (wk_queue demo_batch.2)
    ∧ batch_run demo_graph default_settings [demo_delivery] (demo_graph_world, no_threads)
        (queue_of default_settings default_keyspace) os a' (wk_db demo_batch.2).
Proof.
  destruct (worker_refines_lifecycle (R:=reference_redis) demo_graph default_settings
    default_settings_ok 2 "c" 0 [demo_delivery] (queue_of default_settings default_keyspace)
    default_keyspace (demo_graph_world, no_threads) demo_batch.1 (wk_queue demo_batch.2)
    (wk_db demo_batch.2)) as (a' & os & Ha & Hr & _).
  - split; [exact default_queue_ok|reflexivity].
  - exact demo_batch_end.
  - exists a', os. split; [exact Ha|exact Hr].
Defined.


(** The delivery is processed to its end: its job awaits review and the entry has
    left the live stream. *)
Example demo_batch_acknowledged :
  (match demo_batch.1 with Ok [x] => sm_processing_status x | _ => "" end) = "awaiting_review"
  ∧ live (queue_of default_settings (wk_queue demo_batch.2)) = [].
Proof. vm_compute. by split. Qed.
