(* ===== verification/Notifier.v ===== *)
(** * Notifications

    [app/services/notifier.py]: the summary of a batch, and the dispatch of the
    shipment exceptions.  Gmail is a parameter, [mailer]: getting the service, the
    address of the profile, and sending a message with its subject and body (the MIME
    encoding is the library's).  Text outside ASCII is UTF-8. *)

From S2P Require Import Prelude PyText DateTime PyFloat Json Database MissingDocs Reconciliation.
From S2P Require Import SlaScanner Frame BusinessState WorkflowRoutes Health InvoiceJob Redis.
From S2P Require Import InvoiceQueue QueueRoutes InvoiceWorker.
From Stdlib Require Import Ascii.
Local Open Scope string_scope.
Local Open Scope list_scope.
Local Open Scope nat_scope.

(** ** The summary of a batch *)

(** [_format_amount]; an integer beyond the floats raises. *)
Definition format_amount (amount : option json) : res string :=
  match amount with
  | None | Some JNull => Ok "unknown amount"
  | Some j =>
      match py_float j with
      | Ok (Some f) => Ok ("$" +:+ format_2f f)
      | Ok None => Ok (py_str j)
      | Raise e => Raise e
      end
  end.

(** [result.get(k) or default] in an f-string. *)
Definition text_or (o : option json) (default_ : string) : string :=
  match o with Some j => if jtruthy j then py_str j else default_ | None => default_ end.

Definition is_ready (r : summary) : bool := String.eqb (sm_posting_status r) "ready_for_posting".
Definition needs_review (r : summary) : bool := String.eqb (sm_processing_status r) "awaiting_review".
Definition is_rejected (r : summary) : bool := String.eqb (sm_review_disposition r) "rejected".
Definition is_not_ready (r : summary) : bool :=
  String.eqb (sm_processing_status r) "complete" && String.eqb (sm_posting_status r) "not_ready".
Definition is_failed (r : summary) : bool := String.eqb (sm_processing_status r) "failed".

Definition ready_line (r : summary) : res string :=
  match format_amount (sm_total_amount r) with
  | Ok amount => Ok ("- " +:+ sm_filename r +:+ ": " +:+ text_or (sm_carrier_name r) "Unknown carrier"
                     +:+ ", " +:+ amount)
  | Raise e => Raise e
  end.

Definition run_line (r : summary) : string := "- " +:+ sm_filename r +:+ " (" +:+ sm_run_id r +:+ ")".
Definition review_line (r : summary) : string :=
  run_line r +:+ ": " +:+ text_or (sm_exception_reason r) "No reason provided".
Definition failed_line (r : summary) : string :=
  "- " +:+ sm_filename r +:+ ": " +:+ text_or (sm_exception_reason r) "Unknown error".

Definition section (title : string) (lines : list string) : list string :=
  title :: if is_nil lines then ["- None"] else lines.

Definition build_summary_body (results : list summary) : res string :=
  match map_res ready_line (List.filter is_ready results) with
  | Raise e => Raise e
  | Ok ready =>
      Ok (py_join (of_chars [newline])
        (["AP Workflow batch summary"; ""]
         ++ section "✅ Ready for Posting" ready
         ++ "" :: section "⛔ Rejected / Blocked" (run_line <$> List.filter is_rejected results)
         ++ "" :: section "⏳ Processed, Not Ready" (run_line <$> List.filter is_not_ready results)
         ++ "" :: section "⚠️ Needs Review" (review_line <$> List.filter needs_review results)
         ++ "" :: section "❌ Failed" (failed_line <$> List.filter is_failed results)))
  end.

(** [_notification_counts] *)
Definition notification_counts (results : list summary) (i : Z) (now : datetime) : Notification :=
  let n p := Z.of_nat (count_by p results) in
  mkNotification i now (Z.of_nat (length results))
    (n (λ r, String.eqb (sm_processing_status r) "complete"))
    (n needs_review) (n is_failed)
    (n (λ r, String.eqb (sm_review_disposition r) "approved"))
    (n is_rejected) (n is_ready).

Definition insert_notification_record (results : list summary) : M world unit :=
  run_session (_ ← insert_notification (notification_counts results); commit).

(** ** Gmail *)

Record mailer (X : Type) := mk_mailer {
  get_gmail_service : M X unit;
  profile_email : M X string;
  send_message : string → string → string → M X unit
}.
Arguments get_gmail_service {X} m.
Arguments profile_email {X} m.
Arguments send_message {X} m to subject body.

Definition no_token : string := "No Gmail token found — run /gmail/auth first".

(** What a shipment exception email is made of. *)
Record exception_notice := mk_notice {
  n_transition : string; n_load_number : string; n_missing_docs : list string;
  n_reason_codes : list string
}.

Section Mail.
Context {X : Type} (mail : mailer X).

(** The service, unless there is no token. *)
Definition with_service (m : M X unit) : M X bool :=
  service ← try_except (_ ← get_gmail_service mail; mret true)
    (λ e, if isinstance_exn e RuntimeError && String.eqb (exn_msg e) no_token
          then Some (mret false) else None);
  if (service : bool) then _ ← m; mret true else mret false.

Definition summary_subject (results : list summary) : string :=
  "AP Workflow — " +:+ str_of_Z (Z.of_nat (length results)) +:+ " invoices processed, "
  +:+ str_of_Z (Z.of_nat (count_by needs_review results)) +:+ " need review".

Definition send_summary_email (results : list summary) : M X bool :=
  with_service
    (email_address ← profile_email mail;
     body ← of_res (build_summary_body results);
     send_message mail email_address (summary_subject results) body).

Definition or_none (l : list string) : string := if is_nil l then "none" else py_join ", " l.

Definition exception_body (p : exception_notice) : string :=
  py_join (of_chars [newline])
    ["Shipment " +:+ n_load_number p;
     "Missing-document SLA exception: " +:+ n_transition p;
     "Missing required documents: " +:+ or_none (n_missing_docs p);
     "Reason codes: " +:+ or_none (n_reason_codes p)].

Definition send_shipment_exception_email (p : exception_notice) : M X bool :=
  with_service
    (email_address ← profile_email mail;
     send_message mail email_address
       ("AP Workflow — shipment " +:+ n_load_number p +:+ " SLA exception " +:+ n_transition p)
       (exception_body p)).

(** ** The process *)

Record notifier := mk_notifier { nt_world : world; nt_mail : X; nt_health : RuntimeHealth }.

Definition on_world {A} (m : M world A) : M notifier A := λ n,
  let '(r, w) := m (nt_world n) in (r, mk_notifier w (nt_mail n) (nt_health n)).
Definition on_mail {A} (m : M X A) : M notifier A := λ n,
  let '(r, x) := m (nt_mail n) in (r, mk_notifier (nt_world n) x (nt_health n)).
Definition on_health (f : datetime → RuntimeHealth → RuntimeHealth) : M notifier unit :=
  modify (λ n, mk_notifier (nt_world n) (nt_mail n) (f (clock (w_env (nt_world n))) (nt_health n))).

Definition send_batch_summary (results : list summary) : M notifier unit :=
  if is_nil results then mret tt
  else
    sent ← on_mail (send_summary_email results);
    if (sent : bool) then on_world (insert_notification_record results) else mret tt.

(** ** The dispatch of shipment exceptions *)

(** The events to notify of, with their exception and shipment, the first to occur
    first. *)
Definition to_notify (ev : ShipmentExceptionEvent) : bool :=
  in_strs (notification_status ev) ["pending"; "failed"].

Definition joined (d : database) : list (ShipmentExceptionEvent * ShipmentException * Shipment) :=
  ev ← exception_events d;
  x ← where_ (λ x, N.eqb (exc_id x) (event_exception_id ev)) (shipment_exceptions d);
  s ← where_ (λ s, N.eqb (shipment_id s) (exc_shipment_id x)) (shipments d);
  [(ev, x, s)].

Definition dispatchable (d : database) : list (ShipmentExceptionEvent * ShipmentException * Shipment) :=
  where_ (λ r, to_notify r.1.1) (joined d).

Definition occurs_leb (a b : ShipmentExceptionEvent * ShipmentException * Shipment) : bool :=
  (occurred_at a.1.1 <=? occurred_at b.1.1)%Z.

Definition next_event (d : database) : option (ShipmentExceptionEvent * ShipmentException * Shipment) :=
  head (sort_by occurs_leb (dispatchable d)).

Definition sending (ev : ShipmentExceptionEvent) : ShipmentExceptionEvent :=
  set_notification_last_error None
    (set_notification_attempt_count (notification_attempt_count ev + 1)
      (set_notification_status "sending" ev)).

Definition notice_of (ev : ShipmentExceptionEvent) (s : Shipment) : exception_notice :=
  mk_notice (transition ev) (load_number s) (st_missing_docs (after_state ev))
    (st_reason_codes (after_state ev)).

(** The first session of a turn: the event is marked before anything is sent. *)
Definition claim_event : M session (option (uuid * exception_notice)) :=
  row ← select next_event;
  match row with
  | None => mret None
  | Some (ev, _, s) =>
      _ ← save_event (sending ev);
      _ ← commit;
      mret (Some (event_id ev, notice_of ev s))
  end.

(** [db.get(ShipmentExceptionEvent, event_id)] *)
Definition get_event (i : uuid) (d : database) : option ShipmentExceptionEvent :=
  find_first (λ x, N.eqb (event_id x) i) (exception_events d).

Definition update_event (i : uuid) (f : datetime → ShipmentExceptionEvent → ShipmentExceptionEvent)
  : M session unit :=
  found ← select (get_event i);
  match found with
  | None => mret tt
  | Some ev => now ← db_clock; _ ← save_event (f now ev); commit
  end.

Definition sent_event (now : datetime) (ev : ShipmentExceptionEvent) : ShipmentExceptionEvent :=
  set_notification_sent_at (Some now) (set_notification_status "sent" ev).
Definition failed_event (e : exn) (now : datetime) (ev : ShipmentExceptionEvent) : ShipmentExceptionEvent :=
  set_notification_last_error (Some (exn_msg e)) (set_notification_status "failed" ev).

(** The message of a turn: [None] when it was sent. *)
Definition deliver (p : exception_notice) : M notifier (option exn) :=
  try_except
    (sent ← on_mail (send_shipment_exception_email p);
     if (sent : bool) then mret None else raise (Exn RuntimeError "Gmail is not authenticated"))
    (λ e, if is_Exception e then Some (mret (Some e)) else None).

(** [dispatch_pending_sla_notifications]; [None] when the fuel runs out. *)
Fixpoint dispatch_pending_sla_notifications (fuel : nat) (sent_count : Z) : M notifier (option Z) :=
  match fuel with
  | O => mret None
  | S fuel' =>
      claimed ← on_world (run_session claim_event);
      match claimed with
      | None => mret (Some sent_count)
      | Some (i, payload) =>
          failure ← deliver payload;
          match failure with
          | Some e =>
              _ ← on_health (λ now, on_notification_outcome (failed now (reason_code_for_exception e)));
              _ ← on_world (run_session (update_event i (failed_event e)));
              mret (Some sent_count)
          | None =>
              _ ← on_world (run_session (update_event i sent_event));
              dispatch_pending_sla_notifications fuel' (sent_count + 1)
          end
      end
  end.
End Mail.

(** ** Lemmas: one event *)

(** The table after the row of [ev] was replaced. *)
Definition replaced (ev' : ShipmentExceptionEvent) (l : list ShipmentExceptionEvent) :=
  update_where (λ x, N.eqb (event_id x) (event_id ev')) (λ _, ev') l.

Definition with_events (l : list ShipmentExceptionEvent) (w : world) : world :=
  mk_world (on_exception_events (λ _, l) (w_db w)) (w_env w).

Lemma replaced_twice ev1 ev2 l :
  event_id ev1 = event_id ev2 → replaced ev2 (replaced ev1 l) = replaced ev2 l.
Proof.
  intros Hid. unfold replaced, update_where. rewrite <- list_fmap_compose.
  apply list_fmap_ext. intros _ x _. cbn. rewrite Hid.
  destruct (N.eqb (event_id x) (event_id ev2)) eqn:E; [|by rewrite E].
  by rewrite Hid, N.eqb_refl.
Qed.

Lemma replaced_ids ev l : event_id <$> replaced ev l = event_id <$> l.
Proof. unfold replaced. apply update_where_map. by intros x _ ->%N.eqb_eq. Qed.

Lemma get_replaced ev l :
  ev ∈ l → ∀ ev', event_id ev' = event_id ev →
  find_first (λ x, N.eqb (event_id x) (event_id ev)) (replaced ev' l) = Some ev'.
Proof.
  intros Hin ev' Hid. unfold replaced, update_where. induction l as [|x l IH]; [by apply elem_of_nil in Hin|].
  cbn. rewrite Hid. destruct (N.eqb_spec (event_id x) (event_id ev)) as [E|E].
  - by rewrite Hid, N.eqb_refl.
  - rewrite (proj2 (N.eqb_neq _ _) E). rewrite Hid in IH. apply IH.
    apply elem_of_cons in Hin as [->|]; done.
Qed.

(** Replacing the row of [x] by [y] moves the count by their difference. *)
Lemma count_replaced (p : ShipmentExceptionEvent → bool) x y l :
  NoDup (event_id <$> l) → x ∈ l → event_id y = event_id x →
  count_by p (replaced y l) + (if p x then 1 else 0) = count_by p l + (if p y then 1 else 0).
Proof.
  intros Hnd Hin Hid. unfold replaced, update_where. rewrite Hid. clear Hid.
  induction l as [|z l IH]; [by apply elem_of_nil in Hin|]. rewrite fmap_cons in Hnd.
  apply NoDup_cons in Hnd as [Hn Hnd]. rewrite fmap_cons, !count_by_cons.
  apply elem_of_cons in Hin as [<-|Hin].
  - rewrite N.eqb_refl.
    assert (E : (λ r, if N.eqb (event_id r) (event_id x) then y else r) <$> l = l).
    { rewrite <- (list_fmap_id l) at 2. apply list_fmap_ext. intros i r Hr. cbn.
      destruct (N.eqb_spec (event_id r) (event_id x)) as [E|]; [|done].
      exfalso. apply Hn. rewrite <- E. apply list_elem_of_fmap_2. by eapply list_elem_of_lookup_2. }
    rewrite E. destruct (p x), (p y); lia.
  - destruct (N.eqb_spec (event_id z) (event_id x)) as [E|].
    + exfalso. apply Hn. rewrite E. by apply list_elem_of_fmap_2.
    + specialize (IH Hnd Hin). destruct (p z); lia.
Qed.

Lemma next_event_some d ev x s : next_event d = Some (ev, x, s) → ev ∈ exception_events d ∧ to_notify ev = true.
Proof.
  unfold next_event. intros H%head_Some_elem_of. rewrite elem_of_sort_by in H.
  unfold dispatchable in H. apply elem_of_where in H as [H Ht]. split; [|done].
  unfold joined in H. apply list_elem_of_bind in H as (ev' & H & Hin).
  apply list_elem_of_bind in H as (x' & H & _). apply list_elem_of_bind in H as (s' & H & _).
  apply list_elem_of_singleton in H as [= -> _ _]. done.
Qed.

Lemma next_event_none d : next_event d = None → dispatchable d = [].
Proof.
  unfold next_event. intros H. pose proof (length_sort_by occurs_leb (dispatchable d)) as Hl.
  destruct (sort_by occurs_leb (dispatchable d)); [|done]. by destruct (dispatchable d).
Qed.

(** The constraints do not see which notification status of the four it is. *)
Lemma ck_event_again ev ev' :
  ck_event ev = true → transition ev' = transition ev →
  in_strs (notification_status ev') ["pending"; "sending"; "sent"; "failed"] = true →
  ck_event ev' = true.
Proof.
  unfold ck_event. intros [H _]%Bool.andb_true_iff -> ->. by rewrite H.
Qed.

Lemma claim_runs w ev x s :
  next_event (w_db w) = Some (ev, x, s) → ck_event ev = true →
  run_session claim_event w
  = (Ok (Some (event_id ev, notice_of ev s)),
     with_events (replaced (sending ev) (exception_events (w_db w))) w).
Proof.
  intros Hn Hck. rewrite run_session_unfold. unfold claim_event. rewrite bind_unfold.
  unfold select, gets. cbn [session_of working]. rewrite Hn. cbv iota beta.
  rewrite bind_unfold. unfold save_event. rewrite bind_unfold. unfold insist.
  rewrite (ck_event_again ev) by done.
  cbn. by destruct w as [[] ?].
Qed.

Lemma claim_event_none w : next_event (w_db w) = None → run_session claim_event w = (Ok None, w).
Proof.
  intros Hn. rewrite run_session_unfold. unfold claim_event. rewrite bind_unfold.
  unfold select, gets. cbn [session_of working]. rewrite Hn. cbn. by destruct w.
Qed.

Lemma update_runs w i f ev :
  get_event i (w_db w) = Some ev → ck_event (f (clock (w_env w)) ev) = true →
  run_session (update_event i f) w
  = (Ok tt, with_events (replaced (f (clock (w_env w)) ev) (exception_events (w_db w))) w).
Proof.
  intros Hg Hck. rewrite run_session_unfold. unfold update_event. rewrite bind_unfold.
  unfold select, gets. cbn [session_of working]. rewrite Hg. cbv iota beta.
  rewrite bind_unfold. unfold db_clock, gets. cbn [session_of senv]. rewrite bind_unfold.
  unfold save_event. rewrite bind_unfold. unfold insist. rewrite Hck. cbn. by destruct w as [[] ?].
Qed.

(** ** What a dispatch does to an event *)

Inductive settled_as (ev : ShipmentExceptionEvent) : ShipmentExceptionEvent → Prop :=
  | left_alone : settled_as ev ev
  | was_sent now : to_notify ev = true → settled_as ev (sent_event now (sending ev))
  | has_failed e now : to_notify ev = true → settled_as ev (failed_event e now (sending ev))
  | was_stopped : to_notify ev = true → settled_as ev (sending ev).

(** One turn that sends. *)
Definition sent_once (now : datetime) (ev ev' : ShipmentExceptionEvent) : Prop :=
  ev' = ev ∨ (to_notify ev = true ∧ ev' = sent_event now (sending ev)).

Lemma settled_after_sent now ev ev1 ev2 : sent_once now ev ev1 → settled_as ev1 ev2 → settled_as ev ev2.
Proof.
  intros [->|[Ht ->]] H; [done|].
  inversion H as [|? Hn|? ? Hn|Hn]; try discriminate Hn. by constructor.
Qed.

Lemma replaced_settled (P : ShipmentExceptionEvent → ShipmentExceptionEvent → Prop) ev ev' l :
  NoDup (event_id <$> l) → ev ∈ l → event_id ev' = event_id ev → P ev ev' → (∀ x, P x x) →
  Forall2 P l (replaced ev' l).
Proof.
  intros Hnd Hin Hid HP Hr. unfold replaced, update_where. apply Forall2_fmap_r.
  apply Forall_Forall2_diag, Forall_forall. intros x Hx. cbn.
  destruct (N.eqb_spec (event_id x) (event_id ev')) as [E|]; [|apply Hr].
  assert (x = ev) as ->; [|done]. rewrite Hid in E.
  apply list_elem_of_lookup in Hx as [i Hx], Hin as [j Hin].
  assert (i = j) as <-; [|congruence].
  eapply NoDup_lookup; [exact Hnd|by rewrite list_lookup_fmap, Hx|by rewrite list_lookup_fmap, Hin, E].
Qed.

Lemma replaced_in ev ev' l : ev ∈ l → event_id ev' = event_id ev → ev' ∈ replaced ev' l.
Proof.
  intros Hin Hid. unfold replaced, update_where. apply list_elem_of_fmap. exists ev. split; [|done].
  by rewrite Hid, N.eqb_refl.
Qed.

Lemma in_replaced ev ev' l : to_notify ev' = false → ev ∈ replaced ev' l → to_notify ev = true → ev ∈ l.
Proof.
  unfold replaced, update_where. intros Hf (x & -> & Hx)%list_elem_of_fmap Ht.
  destruct (N.eqb _ _); [congruence|done].
Qed.

Lemma replaced_ck ev l :
  Forall (λ x, ck_event x = true) l → ck_event ev = true → Forall (λ x, ck_event x = true) (replaced ev l).
Proof.
  intros Hl He. unfold replaced, update_where. apply Forall_fmap. eapply Forall_impl; [exact Hl|].
  intros x Hx. cbn. by destruct (N.eqb _ _).
Qed.

Section Dispatch.
Context {X : Type} (mail : mailer X).

Lemma deliver_world p n :
  let '(o, n') := deliver mail p n in
  nt_world n' = nt_world n ∧ match o with Raise e => is_Exception e = false | Ok _ => True end.
Proof.
  unfold deliver, try_except. rewrite bind_unfold. unfold on_mail.
  destruct (send_shipment_exception_email mail p (nt_mail n)) as [[[]|e] x]; cbn; [done|done|].
  destruct (is_Exception e) eqn:E; [done|]. done.
Qed.

Lemma on_world_runs {A} (m : M world A) (n : @notifier X) r w :
  m (nt_world n) = (r, w) → on_world m n = (r, mk_notifier w (nt_mail n) (nt_health n)).
Proof. unfold on_world. by intros ->. Qed.

Lemma with_events_twice l1 l2 w : with_events l2 (with_events l1 w) = with_events l2 w.
Proof. by destruct w as [[] ?]. Qed.

Lemma events_with l w : exception_events (w_db (with_events l w)) = l.
Proof. by destruct w as [[] ?]. Qed.

(** A turn that claimed [ev] and then wrote [f]'s verdict on it. *)
Lemma turn_runs (n : @notifier X) ev x s f :
  let evs := exception_events (w_db (nt_world n)) in
  let w1 := with_events (replaced (sending ev) evs) (nt_world n) in
  let ev' := f (clock (w_env (nt_world n))) (sending ev) in
  next_event (w_db (nt_world n)) = Some (ev, x, s) → ck_event ev = true →
  event_id ev' = event_id ev → transition ev' = transition ev →
  in_strs (notification_status ev') ["pending"; "sending"; "sent"; "failed"] = true →
  run_session (update_event (event_id ev) f) w1 = (Ok tt, with_events (replaced ev' evs) (nt_world n)).
Proof using Type.
  intros evs w1 ev' Hn Hck Hid Ht Hs. destruct (next_event_some _ _ _ _ Hn) as [Hin _].
  rewrite (update_runs _ _ _ (sending ev)).
  - unfold w1. rewrite events_with, with_events_twice. cbn [w_env with_events].
    rewrite replaced_twice; [done|exact (eq_sym Hid)].
  - unfold get_event, w1. rewrite events_with. by apply get_replaced.
  - by apply (ck_event_again ev).
Qed.

Lemma dispatch_settles fuel : ∀ count (n : @notifier X),
  let evs := exception_events (w_db (nt_world n)) in
  NoDup (event_id <$> evs) → Forall (λ x, ck_event x = true) evs → count_by to_notify evs < fuel →
  let '(o, n') := dispatch_pending_sla_notifications mail fuel count n in
  let evs' := exception_events (w_db (nt_world n')) in
  nt_world n' = with_events evs' (nt_world n) ∧ Forall2 settled_as evs evs'
  ∧ match o with
    | Ok None => False
    | Ok (Some c) =>
        (c + Z.of_nat (count_by to_notify evs') = count + Z.of_nat (count_by to_notify evs))%Z
        ∧ (dispatchable (w_db (nt_world n')) = []
           ∨ ∃ ev e now, ev ∈ evs ∧ to_notify ev = true ∧ failed_event e now (sending ev) ∈ evs')
    | Raise e => is_Exception e = false
    end.
Proof using Type.
  induction fuel as [|fuel IH]; intros count n evs Hnd Hck Hf; [lia|].
  cbn [dispatch_pending_sla_notifications]. rewrite bind_unfold.
  destruct (next_event (w_db (nt_world n))) as [[[ev x] s]|] eqn:En.
  2:{ rewrite (on_world_runs _ n _ _ (claim_event_none _ En)). cbn [mret M_ret nt_world].
      split; [unfold with_events; by destruct (nt_world n) as [[] ?]|].
      split; [apply Forall_Forall2_diag, Forall_true; constructor|].
      split; [fold evs; lia|]. left. by apply next_event_none. }
  destruct (next_event_some _ _ _ _ En) as [Hin Ht].
  assert (Hce : ck_event ev = true) by (by apply (proj1 (Forall_forall _ _) Hck)).
  rewrite (on_world_runs _ n _ _ (claim_runs _ _ _ _ En Hce)). rewrite bind_unfold.
  pose proof (λ f, turn_runs n ev x s f En Hce) as Hturn.
  fold evs in Hturn |- *. cbv zeta in Hturn.
  set (w1 := with_events (replaced (sending ev) evs) (nt_world n)) in *.
  set (n1 := mk_notifier w1 (nt_mail n) (nt_health n)).
  pose proof (deliver_world (notice_of ev s) n1) as Hd.
  destruct (deliver mail (notice_of ev s) n1) as [[[e|]|e] n2]; destruct Hd as [Hw He]; cbn in Hw.
  - assert (Hid : ∀ now, event_id (failed_event e now (sending ev)) = event_id ev) by done.
    specialize (Hturn (failed_event e) eq_refl eq_refl eq_refl).
    set (ev' := failed_event e (clock (w_env (nt_world n))) (sending ev)) in *.
    rewrite bind_unfold. unfold on_health at 1, modify at 1.
    erewrite bind_run; [|apply on_world_runs; cbn [nt_world]; rewrite Hw; exact Hturn].
    cbn [mret M_ret nt_world]. rewrite events_with. split; [done|].
    split; [apply (replaced_settled _ ev); [done..|by apply has_failed|apply left_alone]|].
    pose proof (count_replaced to_notify ev ev' evs Hnd Hin eq_refl) as Hc. rewrite Ht in Hc.
    change (to_notify ev') with true in Hc. cbn in Hc. split; [lia|]. right.
    exists ev, e, (clock (w_env (nt_world n))). split_and!; [done..|]. by eapply replaced_in.
  - specialize (Hturn sent_event eq_refl eq_refl eq_refl).
    set (ev' := sent_event (clock (w_env (nt_world n))) (sending ev)) in *.
    erewrite bind_run; [|apply on_world_runs; rewrite Hw; exact Hturn].
    pose proof (count_replaced to_notify ev ev' evs Hnd Hin eq_refl) as Hc. rewrite Ht in Hc.
    change (to_notify ev') with false in Hc. cbn in Hc.
    set (n3 := mk_notifier _ _ _). specialize (IH (count + 1)%Z n3). cbv zeta in IH.
    change (nt_world n3) with (with_events (replaced ev' evs) (nt_world n)) in IH.
    rewrite events_with, replaced_ids in IH.
    specialize (IH Hnd (replaced_ck _ _ Hck (ck_event_again ev ev' Hce eq_refl eq_refl)) ltac:(lia)).
    destruct (dispatch_pending_sla_notifications mail fuel (count + 1) n3) as [o n'].
    destruct IH as (IH1 & IH2 & IH3). rewrite with_events_twice in IH1. split; [done|].
    assert (Hone : Forall2 (sent_once (clock (w_env (nt_world n)))) evs (replaced ev' evs))
      by (apply (replaced_settled _ ev); [done..|by right|by left]).
    split; [eapply Forall2_trans; [|exact Hone|exact IH2]; intros; by eapply settled_after_sent|].
    destruct o as [[c|]|e]; [|done..]. destruct IH3 as [IH3 IH4]. split; [lia|].
    destruct IH4 as [IH4|(ev2 & e & now & Hin2 & Ht2 & IH4)]; [by left|right].
    exists ev2, e, now. split_and!; [by apply (in_replaced ev2 ev')|done..].
  - cbn [nt_world]. rewrite Hw. unfold w1. rewrite events_with. split; [done|].
    split; [|done]. apply (replaced_settled _ ev); [done..|by apply was_stopped|apply left_alone].
Qed.

(** C29 A dispatch returns: with one turn more than there are events to notify of, it
    never runs out.  It changes only the events, and an event only when it was pending
    or failed: it is sent, or failed with the error, or left as sending when the task
    was stopped during the message.  The result counts exactly the events that left the
    backlog; the dispatch ends when nothing is left to send, or with a failed event. *)
Theorem dispatch_correct (n : @notifier X) :
  let evs := exception_events (w_db (nt_world n)) in
  NoDup (event_id <$> evs) → Forall (λ x, ck_event x = true) evs →
  let '(o, n') := dispatch_pending_sla_notifications mail (S (count_by to_notify evs)) 0 n in
  let evs' := exception_events (w_db (nt_world n')) in
  nt_world n' = with_events evs' (nt_world n) ∧ Forall2 settled_as evs evs'
  ∧ match o with
    | Ok None => False
    | Ok (Some sent) =>
        (sent = Z.of_nat (count_by to_notify evs) - Z.of_nat (count_by to_notify evs'))%Z
        ∧ (dispatchable (w_db (nt_world n')) = []
           ∨ ∃ ev e now, ev ∈ evs ∧ to_notify ev = true ∧ failed_event e now (sending ev) ∈ evs')
    | Raise e => is_Exception e = false
    end.
Proof using Type.
  intros evs Hnd Hck. pose proof (dispatch_settles (S (count_by to_notify evs)) 0 n Hnd Hck) as H.
  fold evs in H. cbv zeta in H. specialize (H ltac:(lia)).
  destruct (dispatch_pending_sla_notifications mail _ 0 n) as [o n'].
  destruct H as (H1 & H2 & H3). split; [done|]. split; [done|].
  destruct o as [[sent|]|e]; [|done..]. destruct H3 as [H3 H4]. split; [lia|done].
Qed.
End Dispatch.

(** ** Example *)

(** A mailbox that keeps the bodies, and the world after an exception was opened. *)
Definition demo_mailer : mailer (list string) :=
  mk_mailer (list string) (mret tt) (mret "ap@example.com")
    (λ _ _ body, modify (λ sent, sent ++ [body])).
Definition demo_notifier : @notifier (list string) :=
  mk_notifier (mk_world (working demo_opened) (senv demo_opened)) [] new_runtime.

Definition demo_dispatched : res (option Z) * @notifier (list string) :=
  dispatch_pending_sla_notifications demo_mailer 2 0 demo_notifier.

Lemma dispatch_correct_witness :
  demo_dispatched.1 = Ok (Some 1%Z)
  ∧ length (nt_mail demo_dispatched.2) = 1 ∧ dispatchable (w_db (nt_world demo_dispatched.2)) = []
  ∧ Forall2 settled_as (exception_events (w_db (nt_world demo_notifier)))
      (exception_events (w_db (nt_world demo_dispatched.2))).
Proof.
  split; [vm_compute; reflexivity|]. split; [vm_compute; reflexivity|]. split; [vm_compute; reflexivity|].
  assert (Hnd : NoDup (event_id <$> exception_events (w_db (nt_world demo_notifier))))
    by (vm_compute; repeat constructor; by intros ?%elem_of_nil).
  assert (Hck : Forall (λ x, ck_event x = true) (exception_events (w_db (nt_world demo_notifier))))
    by (vm_compute; repeat constructor).
  pose proof (dispatch_correct demo_mailer demo_notifier Hnd Hck) as H.
  assert (Hn : count_by to_notify (exception_events (w_db (nt_world demo_notifier))) = 1)
    by (vm_compute; reflexivity).
  rewrite Hn in H. unfold demo_dispatched. cbv zeta in H.
  destruct (dispatch_pending_sla_notifications demo_mailer 2 0 demo_notifier) as [o n'].
  exact (proj1 (proj2 H)).
Defined.
