(* ===== verification/WorkerLoop.v ===== *)
(** * The loop of the invoice worker

    [process_invoice_queue] of [app/services/invoice_worker.py] with the summary of its
    batches: the state of the process is the worker, the mailer and the health of the
    process.  The loop does not end by itself; [process_invoice_queue] is its first
    turns, as many as given, each with its clock, the beats of its deliveries and what
    the other clients of the server did before it.

    [loop_step] is the abstract loop: entries arrive, a batch of entries of the live stream
    is worked, and the summaries collected so far are reported. *)

From S2P Require Import Prelude PyText DateTime PyFloat Json Database Reconciliation SlaScanner.
From S2P Require Import Frame BusinessState WorkflowRoutes Health InvoiceJob Redis InvoiceQueue.
From S2P Require Import QueueRoutes Workflow WorkflowSafety InvoiceWorker DeliveryLifecycle Notifier.
From Stdlib Require Import Ascii.
Local Open Scope string_scope.
Local Open Scope list_scope.
Local Open Scope nat_scope.

Section Loop.
Context {R : Redis} `{JC : JobCodec} `{GE : GraphEngine} (graph : state_graph).
Context {X : Type} (mail : mailer X) (s : queue_settings).

Record process := mk_process { pr_worker : worker; pr_mail : X; pr_health : RuntimeHealth }.

Definition on_worker {A} (m : M worker A) : M process A := λ p,
  let '(r, w) := m (pr_worker p) in (r, mk_process w (pr_mail p) (pr_health p)).

(** The notifier works on the database of the process. *)
Definition as_notifier (p : process) : notifier :=
  mk_notifier (wk_db (pr_worker p)).1 (pr_mail p) (pr_health p).
Definition with_notifier (p : process) (n : notifier) : process :=
  mk_process (mk_worker (wk_queue (pr_worker p)) (nt_world n, (wk_db (pr_worker p)).2))
    (nt_mail n) (nt_health n).
Definition notifying {A} (m : M notifier A) : M process A := λ p,
  let '(r, n) := m (as_notifier p) in (r, with_notifier p n).

Definition set_health (f : RuntimeHealth → RuntimeHealth) : M process unit :=
  modify (λ p, mk_process (pr_worker p) (pr_mail p) (f (pr_health p))).
Definition report_notifications (f : datetime → BackgroundOutcome → BackgroundOutcome) : M process unit :=
  notifying (on_health (λ now, on_notification_outcome (f now))).

(** [_flush_batch_summary] *)
Definition flush_batch_summary (results : list summary) : M process (list summary) :=
  if is_nil results then mret results
  else
    _ ← report_notifications started;
    outcome ← attempted (notifying (send_batch_summary mail results));
    match outcome with
    | Ok _ =>
        _ ← report_notifications (λ now, succeeded now (Some 1%Z));
        mret []
    | Raise e =>
        if is_Exception e then
          _ ← report_notifications (λ now, failed now (reason_code_for_exception e));
          mret []
        else raise e
    end.

(** What a turn of the loop meets. *)
Record turn := mk_turn { t_others : rdb → rdb; t_beats : nat; t_now : datetime }.

(** The body of the [while]. *)
Definition worker_turn (consumer : string) (t : turn) (batch_results : list summary)
  : M process (list summary) :=
  try_except
    (deliveries ← on_worker (on_queue (next_deliveries s consumer));
     if is_nil deliveries then flush_batch_summary batch_results
     else
       summaries ← on_worker (process_batch graph s (t_beats t) consumer (t_now t) deliveries);
       mret (batch_results ++ summaries))
    (λ e, if isinstance_exn e RedisTimeoutError then Some (flush_batch_summary batch_results)
          else if is_Exception e then Some (mret batch_results) else None).

Fixpoint worker_turns (consumer : string) (ts : list turn) (batch_results : list summary)
  : M process (list summary) :=
  match ts with
  | [] => mret batch_results
  | t :: ts' =>
      _ ← on_worker (on_queue (modify (t_others t)));
      batch_results ← worker_turn consumer t batch_results;
      worker_turns consumer ts' batch_results
  end.

(** [process_invoice_queue]: an exception that leaves the loop is reported and raised. *)
Definition process_invoice_queue (consumer : string) (ts : list turn) : M process (list summary) :=
  try_except
    (_ ← on_worker (on_queue (ensure_consumer_group (INVOICE_STREAM s) (INVOICE_CONSUMER_GROUP s)));
     _ ← set_health worker_started;
     worker_turns consumer ts [])
    (λ e, if is_Exception e
          then Some (_ ← set_health (worker_failed (reason_code_for_exception e)); raise e)
          else None).

(** ** The abstract loop *)

Record astate := mk_astate {
  as_queue : aqueue; as_db : world * threads; as_results : list summary
}.

Inductive loop_event :=
  | Arrived (es : list entry)
  | Worked (ds : list StreamDelivery) (outcomes : list (res (option summary)))
  | Reported (rs : list summary).

(** A report writes to the table of the notifications only. *)
Definition same_but_notifications (w w' : world * threads) : Prop :=
  w.2 = w'.2 ∧ on_notifications (λ _, []) (w_db w.1) = on_notifications (λ _, []) (w_db w'.1).

Inductive loop_step : astate → loop_event → astate → Prop :=
  | step_arrived a w rs es :
      loop_step (mk_astate a w rs) (Arrived es) (mk_astate (mk_aqueue (live a ++ es) (dead a)) w rs)
  | step_worked a w rs ds os a' w' :
      Forall (λ d, (stream_id d, d_fields d) ∈ live a) ds →
      batch_run graph s ds w a os a' w' →
      loop_step (mk_astate a w rs) (Worked ds os)
        (mk_astate a' w' (rs ++ match batch_summaries os with Ok xs => xs | Raise _ => [] end))
  | step_reported a w w' rs :
      rs ≠ [] → same_but_notifications w w' →
      loop_step (mk_astate a w rs) (Reported rs) (mk_astate a w' []).

Inductive loop_trace : astate → list loop_event → astate → Prop :=
  | trace_nil x : loop_trace x [] x
  | trace_cons x y z ev evs : loop_step x ev y → loop_trace y evs z → loop_trace x (ev :: evs) z.

Lemma trace_app x y z l1 l2 : loop_trace x l1 y → loop_trace y l2 z → loop_trace x (l1 ++ l2) z.
Proof using Type. induction 1; [done|]. intros Hz. eapply trace_cons; [done|auto]. Qed.

Lemma trace_one x y ev : loop_step x ev y → loop_trace x [ev] y.
Proof using Type. intros Hs. eapply trace_cons; [done|apply trace_nil]. Qed.

(** *** What a trace accounts for *)

Definition arrived (evs : list loop_event) : list entry :=
  evs ≫= λ ev, match ev with Arrived es => es | _ => [] end.
Definition worked (evs : list loop_event) : list StreamDelivery :=
  evs ≫= λ ev, match ev with Worked ds _ => ds | _ => [] end.
Definition summarised (evs : list loop_event) : list summary :=
  evs ≫= λ ev, match ev with
               | Worked _ os => match batch_summaries os with Ok xs => xs | Raise _ => [] end
               | _ => []
               end.
Definition reported (evs : list loop_event) : list summary :=
  evs ≫= λ ev, match ev with Reported rs => rs | _ => [] end.

(** The summaries of the batches are those reported, in order, and those still kept. *)
Lemma trace_summaries x evs y :
  loop_trace x evs y → as_results x ++ summarised evs = reported evs ++ as_results y.
Proof using Type.
  induction 1 as [x|x y z ev evs Hs _ IH]; [by rewrite app_nil_r|].
  unfold summarised, reported in *. cbn. destruct Hs; cbn in IH |- *.
  - exact IH.
  - by rewrite app_assoc.
  - by rewrite <- app_assoc, <- IH.
Qed.

Lemma trace_dead x evs y : loop_trace x evs y → dead (as_queue x) `prefix_of` dead (as_queue y).
Proof using Type.
  induction 1 as [x|x y z ev evs Hs _ IH]; [done|]. etrans; [|exact IH].
  destruct Hs; cbn; [done| |done]. by eapply batch_run_dead.
Qed.

Lemma accounted_more ds ds' a e : accounted graph ds a e → accounted graph (ds ++ ds') a e.
Proof using Type.
  intros [Hl|(d & Hd & Hc)]; [by left|]. right. exists d. split; [|done]. apply elem_of_app. by left.
Qed.

(** Every entry that was there or arrived is accounted for by the deliveries worked. *)
Lemma trace_accounted x evs y e :
  loop_trace x evs y → e ∈ live (as_queue x) ++ arrived evs → accounted graph (worked evs) (as_queue y) e.
Proof using Type.
  induction 1 as [x|x y z ev evs Hs Ht IH]; [by rewrite app_nil_r; left|].
  unfold arrived, worked in *. cbn.
  destruct Hs as [a w rs es|a w rs ds os a' w' _ Hb|a w w' rs]; cbn in IH |- *; intros He.
  - apply IH. by rewrite <- app_assoc.
  - apply elem_of_app in He as [He|He].
    + destruct (batch_run_accounted _ _ _ _ _ _ _ _ e Hb He) as [Hl|(d & Hd & Hid & Hc)].
      * destruct IH as [Hl'|(d & Hd & Hc)]; [apply elem_of_app; by left|by left|].
        right. exists d. split; [|done]. apply elem_of_app. by right.
      * apply accounted_more. right. exists d. split; [done|]. split; [done|].
        destruct Hc as [(reason & now & Hin)|Hc]; [left|by right]. exists reason, now.
        destruct (trace_dead _ _ _ Ht) as [l Hl]. cbn in Hl. rewrite Hl. apply elem_of_app. by left.
    + destruct IH as [Hl'|(d & Hd & Hc)]; [apply elem_of_app; by right|by left|].
      right. exists d. split; [|done]. apply elem_of_app. by right.
  - by apply IH.
Qed.

(** ** The frame of the parts *)

Lemma notifications_only (w : world) results :
  on_notifications (λ _, []) (w_db (insert_notification_record results w).2)
  = on_notifications (λ _, []) (w_db w).
Proof using Type. reflexivity. Qed.

Lemma send_batch_frame results n :
  let n' := (send_batch_summary mail results n).2 in
  on_notifications (λ _, []) (w_db (nt_world n)) = on_notifications (λ _, []) (w_db (nt_world n'))
  ∧ nt_health n' = nt_health n.
Proof using Type.
  unfold send_batch_summary. destruct (is_nil results); [done|]. cbn zeta.
  rewrite bind_unfold. unfold on_mail. destruct (send_summary_email mail results (nt_mail n)) as [[sent|e] x]; [|done].
  destruct sent; [|done]. unfold on_world. cbn [nt_world nt_mail nt_health].
  pose proof (notifications_only (nt_world n) results) as E1.
  by destruct (insert_notification_record results (nt_world n)).
Qed.

(** The process and the abstract loop. *)
Definition simulates (p : process) (x : astate) : Prop :=
  holds_on s (as_queue x) (wk_queue (pr_worker p)) ∧ as_db x = wk_db (pr_worker p).

Definition worker_health (p : process) : CheckStatus * option string :=
  (invoice_worker_status (pr_health p), invoice_worker_reason (pr_health p)).

Lemma flush_spec results p r p' x :
  flush_batch_summary results p = (r, p') → simulates p x → as_results x = results →
  ∃ evs y, loop_trace x evs y ∧ simulates p' y ∧ worker_health p' = worker_health p
    ∧ match r with
      | Ok rs => as_results y = rs
      | Raise e => is_Exception e = false
      end.
Proof using Type.
  unfold flush_batch_summary. destruct results as [|x0 results]; cbn [is_nil].
  { intros [= <- <-] Hs Hr. exists [], x. split; [apply trace_nil|done]. }
  set (rs := x0 :: results). rewrite bind_unfold. unfold report_notifications at 1, notifying at 1.
  cbn [on_health modify with_notifier as_notifier nt_world nt_mail nt_health].
  rewrite bind_unfold, attempted_runs. cbv iota beta. unfold notifying at 1 2.
  set (p1 := with_notifier _ _).
  pose proof (send_batch_frame rs (as_notifier p1)) as [Hw Hh].
  destruct (send_batch_summary mail rs (as_notifier p1)) as [o n] eqn:En. cbn [fst snd] in Hw, Hh |- *.
  intros H [Hq Hdb] Hrs. destruct x as [a w rs0]. cbn in Hq, Hdb, Hrs. subst rs0 w.
  exists [Reported rs], (mk_astate a (nt_world n, (wk_db (pr_worker p)).2) []).
  split; [apply trace_one, step_reported; [done|split; [done|exact Hw]]|].
  assert (Hp1 : worker_health (with_notifier p1 n) = worker_health p)
    by (unfold worker_health, with_notifier; cbn; by rewrite Hh).
  destruct o as [[]|e]; [|destruct (is_Exception e) eqn:Ee]; injection H as <- <-;
    (split; [by split|split; [exact Hp1|done]]).
Qed.

(** ** The frame of the queue *)

Context (So : settings_ok s).

(** What the other clients of the server do to the queue: entries arrive. *)
Definition arrives (f : rdb → rdb) : Prop :=
  ∀ a q, holds_on s a q → ∃ es, holds_on s (mk_aqueue (live a ++ es) (dead a)) (f q).

Lemma kept_ensure_group a :
  preserves (holds_on s a) (ensure_consumer_group (INVOICE_STREAM s) (INVOICE_CONSUMER_GROUP s)).
Proof using So.
  intros q Ha. unfold ensure_consumer_group, try_except.
  pose proof (kept_command (holds s a) (XGROUP_CREATE (INVOICE_STREAM s) (INVOICE_CONSUMER_GROUP s))
    (holds_xgroup_create s a _ So) q Ha) as Hk.
  destruct (command _ q) as [[[]|e] q']; [done|]. by destruct (isinstance_exn e ResponseError && _).
Qed.

Definition on_stream (a : aqueue) (d : StreamDelivery) : Prop := (stream_id d, d_fields d) ∈ live a.

Lemma claimed_spec a l : ∀ q r q',
  holds_on s a q → l ⊆ live a →
  map_m (claimed_delivery (INVOICE_STREAM s) (INVOICE_CONSUMER_GROUP s)) l q = (r, q') →
  holds_on s a q' ∧ ∀ ds, r = Ok ds → Forall (on_stream a) ds.
Proof using So.
  induction l as [|e l IH]; intros q r q' Ha Hl; cbn [map_m].
  { intros [= <- <-]. split; [done|]. intros ds [= <-]. constructor. }
  rewrite bind_unfold. unfold claimed_delivery at 1. rewrite bind_unfold.
  pose proof (kept_command (holds s a) (XPENDING_RANGE (INVOICE_STREAM s) (INVOICE_CONSUMER_GROUP s) e.1)
    (holds_xpending s a _ _ So) q Ha) as Hk.
  destruct (command _ q) as [[ps|ex] q1]; cbn [snd mret M_ret] in Hk |- *; [|by intros [= <- <-]].
  rewrite bind_unfold. assert (Hl' : l ⊆ live a) by (intros x Hx; apply Hl; by right).
  destruct (map_m _ l q1) as [[ds|ex] q2] eqn:Em; destruct (IH _ _ _ Hk Hl' Em) as [Ha2 Hds].
  - intros [= <- <-]. split; [done|]. intros ds' [= <-]. constructor; [|by apply Hds].
    unfold on_stream. cbn. destruct e. apply Hl. constructor.
  - by intros [= <- <-].
Qed.

Lemma next_deliveries_spec a consumer q r q' :
  holds_on s a q → next_deliveries s consumer q = (r, q') →
  holds_on s a q' ∧ ∀ ds, r = Ok ds → Forall (on_stream a) ds.
Proof using So.
  intros Ha. unfold next_deliveries, claim_stale_batch. rewrite bind_unfold, bind_unfold.
  set (c := XAUTOCLAIM _ _ _ _ _). destruct (command_documented c q) as [E1 E2].
  pose proof (holds_xautoclaim s a (INVOICE_CONSUMER_GROUP s) consumer (INVOICE_VISIBILITY_TIMEOUT_MS s)
    (MAX_BATCH_SIZE s) (view q) So Ha) as Hk. fold c in Hk.
  destruct (documented c (view q)) as [o ks]. cbn [fst snd] in E1, E2. destruct Hk as [Hk Hl].
  destruct (command c q) as [o' q1]. cbn [fst snd] in E1, E2. subst o'. rewrite <- E2 in Hk.
  destruct o as [l|e]; [|by intros [= <- <-]].
  destruct (map_m _ l q1) as [[ds|e] q2] eqn:Em;
    destruct (claimed_spec a l _ _ _ Hk (Hl l eq_refl) Em) as [Ha2 Hds]; [|by intros [= <- <-]].
  destruct (is_nil ds); [|intros [= <- <-]; split; [done|by intros ? [= <-]; apply Hds]].
  unfold read_new_batch. rewrite bind_unfold. set (c2 := XREADGROUP _ _ _ _).
  destruct (command_documented c2 q2) as [F1 F2].
  pose proof (holds_xreadgroup s a (INVOICE_CONSUMER_GROUP s) consumer (MAX_BATCH_SIZE s) (view q2) So Ha2)
    as Hk2. fold c2 in Hk2.
  destruct (documented c2 (view q2)) as [o ks2]. cbn [fst snd] in F1, F2. destruct Hk2 as [Hk2 Hl2].
  destruct (command c2 q2) as [o' q3]. cbn [fst snd] in F1, F2. subst o'. rewrite <- F2 in Hk2.
  destruct o as [l2|e]; intros [= <- <-]; (split; [done|]); [|done]. intros ds' [= <-].
  apply Forall_fmap, Forall_forall. intros e He. unfold on_stream. cbn. destruct e.
  by apply (Hl2 l2 eq_refl).
Qed.

(** ** The turns *)

Lemma worker_turn_spec consumer t results p r p' x :
  worker_turn consumer t results p = (r, p') → simulates p x → as_results x = results →
  ∃ evs y, loop_trace x evs y ∧ simulates p' y ∧ worker_health p' = worker_health p
    ∧ match r with
      | Ok rs => as_results y = rs
      | Raise e => is_Exception e = false
      end.
Proof using So.
  intros Ht [Hq Hdb] Hr. unfold worker_turn, try_except in Ht. rewrite bind_unfold in Ht.
  unfold on_worker at 1 in Ht. destruct (pr_worker p) as [q w] eqn:Ew. cbn in Hq, Hdb.
  rewrite on_queue_runs in Ht.
  destruct (next_deliveries s consumer q) as [o q1] eqn:En. cbn [fst snd] in Ht.
  destruct (next_deliveries_spec _ _ _ _ _ Hq En) as [Hq1 Hds].
  set (p1 := mk_process (mk_worker q1 w) (pr_mail p) (pr_health p)) in *.
  assert (Hp1 : simulates p1 x) by done.
  destruct o as [ds|e].
  2: { destruct (isinstance_exn e RedisTimeoutError).
       - by destruct (flush_spec _ _ _ _ _ Ht Hp1 Hr) as (evs & y & ?); exists evs, y.
       - exists [], x. destruct (is_Exception e) eqn:Ee; injection Ht as <- <-;
           (split; [apply trace_nil|done]). }
  destruct (is_nil ds) eqn:Ends.
  { destruct (flush_batch_summary results p1) as [[rs|e] p2] eqn:Ef;
      destruct (flush_spec _ _ _ _ _ Ef Hp1 Hr) as (evs & y & Htr & Hsim & Hh & Hx).
    - injection Ht as <- <-. by exists evs, y.
    - unfold isinstance_exn in Ht. exists evs, y. split; [done|].
      rewrite Hx in Ht. destruct (exn_cls e) eqn:Ec; try (unfold is_Exception in Hx; by rewrite Ec in Hx).
      injection Ht as <- <-. done. }
  rewrite bind_unfold in Ht. unfold on_worker in Ht. cbn [pr_worker p1 pr_mail pr_health] in Ht.
  unfold process_batch in Ht.
  destruct (batch_outcomes_run graph s So (t_beats t) consumer (t_now t) ds _ q1 w Hq1)
    as (os & q2 & w2 & Em & a2 & Ha2 & Hrun).
  rewrite bind_unfold, Em in Ht. unfold of_res in Ht. destruct x as [a w' rs]. cbn in Hr, Hdb. subst rs w'.
  exists [Worked ds os], (mk_astate a2 w2 (results ++ match batch_summaries os with Ok xs => xs | Raise _ => [] end)).
  split; [apply trace_one, step_worked; [by apply Hds|done]|].
  destruct (batch_summaries os) as [xs|e] eqn:Eb.
  - injection Ht as <- <-. done.
  - assert (He : is_Exception e = false).
    { unfold batch_summaries in Eb. destruct (find_first _ os) as [[|e']|] eqn:Ef; try done.
      apply find_first_Some in Ef as [_ Ef%negb_true_iff]. by injection Eb as <-. }
    unfold isinstance_exn in Ht. rewrite He in Ht.
    destruct (exn_cls e) eqn:Ec; try (unfold is_Exception in He; by rewrite Ec in He).
    injection Ht as <- <-. done.
Qed.

Lemma worker_turns_spec consumer ts : Forall (λ t, arrives (t_others t)) ts → ∀ results p r p' x,
  worker_turns consumer ts results p = (r, p') → simulates p x → as_results x = results →
  ∃ evs y, loop_trace x evs y ∧ simulates p' y ∧ worker_health p' = worker_health p
    ∧ match r with
      | Ok rs => as_results y = rs
      | Raise e => is_Exception e = false
      end.
Proof using So.
  induction 1 as [|t ts Ht _ IH]; intros results p r p' x; cbn [worker_turns].
  { intros [= <- <-] Hs Hr. exists [], x. split; [apply trace_nil|done]. }
  rewrite bind_unfold. unfold on_worker. destruct (pr_worker p) as [q w] eqn:Ew.
  rewrite on_queue_runs. cbn [modify fst snd]. rewrite bind_unfold.
  set (p1 := mk_process _ _ _). intros Hts [Hq Hdb] Hr. rewrite Ew in Hq, Hdb. cbn in Hq, Hdb.
  destruct (Ht _ _ Hq) as [es Hq1]. destruct x as [a w' rs0]. cbn in Hq, Hdb, Hr, Hq1. subst w' rs0.
  set (x1 := mk_astate (mk_aqueue (live a ++ es) (dead a)) w results).
  assert (Hp1 : simulates p1 x1) by done.
  destruct (worker_turn consumer t results p1) as [[rs|e] p2] eqn:Et;
    destruct (worker_turn_spec _ _ _ _ _ _ x1 Et Hp1 eq_refl) as (evs & y & Htr & Hsim & Hh & Hx).
  - destruct (IH _ _ _ _ _ Hts Hsim Hx) as (evs2 & z & Htr2 & Hsim2 & Hh2 & Hz).
    exists (Arrived es :: evs ++ evs2), z. split; [|by rewrite Hh2, Hh].
    eapply trace_cons; [apply step_arrived|]. by eapply trace_app.
  - injection Hts as <- <-. exists (Arrived es :: evs), y.
    split; [eapply trace_cons; [apply step_arrived|done]|]. by rewrite Hh.
Qed.

End Loop.

(** ** The other clients *)

Section Others.
Context {R : Redis} `{JC : JobCodec} (s : queue_settings).

(** The dedupe keys are keys of their own. *)
Definition dedupe_ok : Prop := ∀ k,
  let key := dedupe_key_of (INVOICE_DEDUPE_PREFIX s) k in
  key ∉ streams s ∧ (∀ x, key ≠ metadata_key (INVOICE_METADATA_PREFIX s) x)
  ∧ (∀ x, key ≠ replay_key_of (INVOICE_DLQ_REPLAY_PREFIX s) x).

Lemma holds_dedupe a ks k v :
  dedupe_ok → holds s a ks → holds s a (put_key (dedupe_key_of (INVOICE_DEDUPE_PREFIX s) k) (RString v) ks).
Proof.
  intros Hd [[Hl Hdl Hm Hr] Hq]. destruct (Hd k) as (Hs & Nm & Nr). unfold streams in Hs.
  set (key := dedupe_key_of _ k) in *.
  assert (L : ∀ x, x ≠ key → lookup_key x (put_key key (RString v) ks) = lookup_key x ks)
    by (intros x; apply lookup_put_ne).
  assert (N1 : INVOICE_STREAM s ≠ key) by set_solver.
  assert (N2 : INVOICE_DEAD_LETTER_STREAM s ≠ key) by set_solver.
  split.
  - split; [by rewrite (is_stream_same _ ks) by auto..| |]; intros x; rewrite (is_hash_same _ ks); auto.
  - rewrite <- Hq. unfold queue_of.
    by rewrite (stream_at_same (INVOICE_STREAM s) ks), (stream_at_same (INVOICE_DEAD_LETTER_STREAM s) ks) by auto.
Qed.

(** Enqueuing a job, from the poller or by a replay, is an arrival. *)
Lemma enqueue_arrives job :
  settings_ok s → dedupe_ok →
  arrives s (λ q, (enqueue_job (INVOICE_STREAM s) (INVOICE_DEDUPE_PREFIX s)
                     (INVOICE_DEDUPE_TTL_SECONDS s) job q).2).
Proof.
  intros So Sd a q Ha. unfold enqueue_job, ENQUEUE_SCRIPT. rewrite bind_unfold.
  set (key := dedupe_key_of _ (idempotency_key job)). set (f := [("payload", model_dump_json job)]).
  destruct (command_documented (GET key) q) as [_ Eg].
  assert (Hv : (documented (GET key) (view q)).2 = view q).
  { cbn [documented]. by destruct (lookup_key key (view q)) as [[]|]. }
  rewrite Hv in Eg. destruct (command (GET key) q) as [[[id|]|e] q1]; cbn [snd] in Eg |- *.
  1,3: exists []; unfold holds_on; cbn; rewrite Eg, app_nil_r; by destruct a.
  rewrite bind_unfold.
  destruct (command_documented (XADD (INVOICE_STREAM s) f) q1) as [E1 E2].
  destruct (xadd_runs (INVOICE_STREAM s) f (view q1)) as (ks & Ex & Hs); [rewrite Eg; apply Ha|].
  rewrite Ex in E1, E2. cbn [fst snd] in E1, E2.
  destruct (command (XADD (INVOICE_STREAM s) f) q1) as [o q2]. cbn [fst snd] in E1, E2. subst o.
  set (id := ids (view q1) (id_pos (view q1))) in *. exists [(id, f)].
  assert (H2 : holds_on s (mk_aqueue (live a ++ [(id, f)]) (dead a)) q2).
  { destruct Hs as [Es Ts Os]. destruct Ha as [[Hl Hd Hm Hr] Hq]. rewrite Eg in Es, Os.
    unfold holds_on, holds. rewrite E2.
    assert (L : ∀ x, x ≠ INVOICE_STREAM s → lookup_key x ks = lookup_key x (view q))
      by (intros x Hx; apply Os; set_solver).
    pose proof (so_streams s So) as N. destruct So as [_ Sm Sr]. unfold streams in Sm, Sr.
    split; [split|].
    - exact Ts.
    - rewrite (is_stream_same _ (view q)); auto.
    - intros x. rewrite (is_hash_same _ (view q)); [auto|]. apply L. specialize (Sm x). set_solver.
    - intros x. rewrite (is_hash_same _ (view q)); [auto|]. apply L. specialize (Sr x). set_solver.
    - unfold queue_of. rewrite Es, (stream_at_same (INVOICE_DEAD_LETTER_STREAM s) (view q)) by auto.
      by rewrite <- Hq. }
  rewrite bind_unfold.
  destruct (command_documented (SETEX key id (INVOICE_DEDUPE_TTL_SECONDS s)) q2) as [F1 F2].
  cbn [documented modify fst snd] in F1, F2.
  destruct (command (SETEX key id _) q2) as [o q3]. cbn [fst snd] in F1, F2. subst o. cbn.
  unfold holds_on. rewrite F2. by apply holds_dedupe.
Qed.

Lemma nothing_arrives : arrives s (λ q, q).
Proof. intros a q Ha. exists []. rewrite app_nil_r. by destruct a. Qed.
End Others.

(** ** Witness *)

Lemma default_dedupe_ok : dedupe_ok default_settings.
Proof.
  intros k. cbn. split; [|split; intros x E; discriminate E].
  repeat (apply not_elem_of_cons; split); try apply not_elem_of_nil; intros E; discriminate E.
Qed.

(** A job arrives and is worked; the queue is idle at the next turn. *)
Definition demo_turns : list (turn (R:=reference_redis)) :=
  [mk_turn (R:=reference_redis)
     (λ q, (enqueue_job (R:=reference_redis) (INVOICE_STREAM default_settings)
              (INVOICE_DEDUPE_PREFIX default_settings) (INVOICE_DEDUPE_TTL_SECONDS default_settings)
              demo_job q).2) 2 0;
   mk_turn (R:=reference_redis) (λ q, q) 2 0].

Definition demo_process : process (R:=reference_redis) (X:=list string) :=
  mk_process (mk_worker (R:=reference_redis) default_keyspace (demo_graph_world, no_threads)) [] new_runtime.

Definition demo_loop : res (list summary) * process (R:=reference_redis) (X:=list string) :=
  process_invoice_queue (R:=reference_redis) demo_graph demo_mailer default_settings "c" demo_turns demo_process.

(** The loop is still running, with one mail sent for the job. *)
Example demo_loop_reports :
  match demo_loop.1 with Ok kept => Some (length kept) | Raise _ => None end = Some 0%nat
  ∧ length (pr_mail demo_loop.2) = 1%nat
  ∧ rt_notifications (pr_health demo_loop.2)
    = mk_outcome (Some 0%Z) (Some 0%Z) None (Some 1%Z) None false.
Proof. vm_compute. by split. Qed.

Lemma demo_loop_runs :
  process_invoice_queue (R:=reference_redis) demo_graph demo_mailer default_settings "c" demo_turns demo_process
  = (demo_loop.1, demo_loop.2).
Proof. unfold demo_loop. by destruct (process_invoice_queue _ _ _ _ _ _). Qed.

