(* ===== verification/GmailPoller.v ===== *)
(** * Polling the mailbox

    [app/services/gmail_poller.py]: the attachments of a message, their jobs, and the
    poll that enqueues them before it marks their message as read.  The Gmail API is
    the class [Gmail]: its calls, with what the code relies on, that messages and
    attachments do not change and that nothing but the call to do so marks a message
    as read.  The clock of the process is a sequence of readings. *)

From S2P Require Import Prelude PyText Base64 Sha256 DateTime Json Database Health InvoiceJob.
From S2P Require Import Redis InvoiceQueue QueueOperations QueueRoutes.
From Stdlib Require Import Ascii ZifyNat.
Local Open Scope string_scope.
Local Open Scope list_scope.
Local Open Scope nat_scope.

(** ** The parts of a message *)

(** A MIME part: [partId], [filename], [body.attachmentId], [body.data], [parts]. *)
Inductive part :=
  Part (part_id part_filename attachment_id data : option string) (parts : list part).

Record gmail_message := mk_message { thread_id : option string; payload_parts : list part }.

Definition supported_attachment (filename : string) : bool :=
  in_strs (py_lower (path_suffix filename)) SUPPORTED_ATTACHMENT_EXTENSIONS.

Definition binascii_error : exn := Exn ValueError "Incorrect padding".

(** [_decode_gmail_attachment]; text that is not ASCII cannot be encoded. *)
Definition decode_gmail_attachment (data : string) : res chars :=
  let l := to_chars data in
  let padded := l ++ replicate ((4 - length l mod 4) mod 4) "="%char in
  if negb (ascii_chars padded) then Raise (Exn ValueError "'ascii' codec can't encode characters")
  else match urlsafe_b64decode padded with
       | Some bytes => Ok bytes
       | None => Raise binascii_error
       end.

Definition is_attachment (p : part) : bool :=
  match p with
  | Part _ filename attachment_id data _ =>
      opt_truthy str_truthy filename && supported_attachment (default "" filename)
      && (opt_truthy str_truthy attachment_id || opt_truthy str_truthy data)
  end.

(** [_iter_attachment_parts], of one part: the nested ones first. *)
Fixpoint attachment_parts (p : part) : list part :=
  match p with
  | Part _ _ _ _ parts => List.flat_map attachment_parts parts ++ (if is_attachment p then [p] else [])
  end.
Definition iter_attachment_parts (parts : list part) : list part := List.flat_map attachment_parts parts.

(** ** Jobs *)

Record attachment := mk_attachment {
  a_message_id : string;
  a_mime_part_id : option string;
  a_filename : string;
  a_file_bytes : string;
  a_gmail_thread_id : string
}.

Definition nul : string := of_chars [ascii_of_nat 0].

(** [_attachment_idempotency_key] *)
Definition attachment_idempotency_key (account message_id mime_part_id : string) : string :=
  sha256_hex (to_chars ("gmail:v1" +:+ nul +:+ py_lower (py_strip account) +:+ nul +:+ message_id
                        +:+ nul +:+ mime_part_id)).

(** The envelope that [poll_inbox] builds; [invalid] is the message of pydantic. *)
Definition attachment_job (invalid : attachment → string) (account : string) (now : datetime)
    (a : attachment) : res InvoiceJobEnvelope :=
  match b64decode true (to_chars (a_file_bytes a)), a_mime_part_id a with
  | None, _ => Raise binascii_error
  | Some _, None => Raise (Exn ValidationError (invalid a))
  | Some bytes, Some pid =>
      let job := mk_job 1 (attachment_idempotency_key account (a_message_id a) pid) account
                   (a_message_id a) (a_gmail_thread_id a) pid (a_filename a) (a_file_bytes a)
                   (sha256_hex bytes) now true in
      if job_valid job then Ok job else Raise (Exn ValidationError (invalid a))
  end.

(** ** Gmail *)

Class Gmail := {
  mailbox : Type;
  gm_service : M mailbox unit;
  gm_profile : M mailbox string;
  gm_unread : M mailbox (list string);
  gm_message : string → M mailbox gmail_message;
  gm_attachment : string → string → M mailbox string;
  gm_mark_read : string → M mailbox unit;
  (** what a mailbox holds *)
  unread : mailbox → list string;
  stored : mailbox → string → gmail_message;
  attachment_text : mailbox → string → string → string;
  (** what is documented of the calls *)
  same_content x x' := stored x' = stored x ∧ attachment_text x' = attachment_text x;
  gm_service_reads x : same_content x (gm_service x).2 ∧ unread (gm_service x).2 = unread x;
  gm_profile_reads x : same_content x (gm_profile x).2 ∧ unread (gm_profile x).2 = unread x;
  gm_unread_reads x : same_content x (gm_unread x).2 ∧ unread (gm_unread x).2 = unread x;
  gm_message_reads i x : same_content x (gm_message i x).2 ∧ unread (gm_message i x).2 = unread x;
  gm_attachment_reads i a x :
    same_content x (gm_attachment i a x).2 ∧ unread (gm_attachment i a x).2 = unread x;
  gm_message_stored i x m x' : gm_message i x = (Ok m, x') → m = stored x i;
  gm_attachment_stored i a x t x' : gm_attachment i a x = (Ok t, x') → t = attachment_text x i a;
  gm_mark_read_marks i x :
    same_content x (gm_mark_read i x).2 ∧ ∀ j, j ≠ i → j ∈ unread x → j ∈ unread (gm_mark_read i x).2
}.

(** ** The poll *)

Section Poll.
Context {R : Redis} `{JobCodec} {G : Gmail} (s : queue_settings) (invalid : attachment → string).

(** One attachment of [_download_supported_attachments]. *)
Definition download_attachment (id thread : string) (p : part) : M mailbox attachment :=
  match p with
  | Part part_id filename attachment_id data _ =>
      text ← (if opt_truthy str_truthy data then mret (default "" data)
              else gm_attachment id (default "" attachment_id));
      bytes ← of_res (decode_gmail_attachment text);
      mret (mk_attachment id (str_or part_id attachment_id) (default "" filename)
              (of_chars (b64encode bytes)) thread)
  end.

Definition download_supported_attachments (id : string) : M mailbox (list attachment) :=
  m ← gm_message id;
  map_m (download_attachment id (default "" (thread_id m))) (iter_attachment_parts (payload_parts m)).

(** [_gmail_account] *)
Definition gmail_account_of : M mailbox string :=
  address ← gm_profile; mret (py_lower (py_strip address)).

Record poller := mk_poller {
  pl_queue : rdb; pl_mail : mailbox; pl_health : option RuntimeHealth;
  pl_clock : nat → datetime; pl_readings : nat
}.

Definition on_redis {A} (m : M rdb A) : M poller A := λ p,
  let '(r, q) := m (pl_queue p) in
  (r, mk_poller q (pl_mail p) (pl_health p) (pl_clock p) (pl_readings p)).
Definition on_gmail {A} (m : M mailbox A) : M poller A := λ p,
  let '(r, x) := m (pl_mail p) in
  (r, mk_poller (pl_queue p) x (pl_health p) (pl_clock p) (pl_readings p)).
Definition utc_now : M poller datetime := λ p,
  (Ok (pl_clock p (pl_readings p)),
   mk_poller (pl_queue p) (pl_mail p) (pl_health p) (pl_clock p) (S (pl_readings p))).
(** An update of the health, when the poll is given one. *)
Definition observe (f : datetime → BackgroundOutcome → BackgroundOutcome) : M poller unit := λ p,
  match pl_health p with
  | None => (Ok tt, p)
  | Some h =>
      (Ok tt, mk_poller (pl_queue p) (pl_mail p)
                (Some (on_gmail_outcome (f (pl_clock p (pl_readings p))) h))
                (pl_clock p) (S (pl_readings p)))
  end.

Definition enqueue_attachment (account : string) (a : attachment) : M poller unit :=
  now ← utc_now;
  job ← of_res (attachment_job invalid account now a);
  _ ← on_redis (enqueue_job (INVOICE_STREAM s) (INVOICE_DEDUPE_PREFIX s)
                  (INVOICE_DEDUPE_TTL_SECONDS s) job);
  mret tt.

(** One message: whether it was processed. *)
Definition poll_message (account id : string) : M poller bool :=
  attachments ← on_gmail (download_supported_attachments id);
  if is_nil attachments then mret false
  else
    _ ← for_each (enqueue_attachment account) attachments;
    _ ← on_gmail (gm_mark_read id);
    mret true.

Fixpoint poll_messages (account : string) (processed : Z) (ids : list string) : M poller Z :=
  match ids with
  | [] => mret processed
  | id :: ids' =>
      done ← poll_message account id;
      poll_messages account (if (done : bool) then processed + 1 else processed)%Z ids'
  end.

Definition poll_inbox : M poller Z :=
  _ ← observe started;
  try_except
    (_ ← on_gmail gm_service;
     account ← on_gmail gmail_account_of;
     messages ← on_gmail gm_unread;
     processed ← poll_messages account 0 messages;
     _ ← observe (λ now, succeeded now (Some processed));
     mret processed)
    (λ e, if is_Exception e
          then Some (_ ← observe (λ now, failed now (reason_code_for_exception e)); raise e)
          else None).

(** [POST /gmail/poll]: the count. *)
Definition gmail_poll : M poller Z := poll_inbox.
End Poll.
Arguments poller {R G}.

(** [GET /gmail/auth], from the size of the token file, if it exists. *)
Definition gmail_auth (token_size : option Z) : list (string * string) :=
  if opt_truthy (λ n, (0 <? n)%Z) token_size then [("status", "authenticated")]
  else [("status", "not_authenticated");
        ("message", "Run the OAuth flow locally to generate token.json")].

(** ** Jobs of attachments *)

(** A job that was built is valid and holds the bytes of its attachment. *)
Lemma attachment_job_ok invalid account now a job :
  attachment_job invalid account now a = Ok job →
  job_valid job = true ∧ file_bytes job = a_file_bytes a ∧ message_id job = a_message_id a
  ∧ Some (mime_part_id job) = a_mime_part_id a ∧ job_filename job = a_filename a
  ∧ idempotency_key job = attachment_idempotency_key account (a_message_id a) (mime_part_id job).
Proof.
  unfold attachment_job. destruct (b64decode true _) as [bytes|]; [|done].
  destruct (a_mime_part_id a) as [pid|]; [|done]. destruct (job_valid _) eqn:E; [|done].
  by intros [= <-].
Qed.

(** Only what the envelope restricts can be wrong with it: the digests never are. *)
Lemma attachment_job_builds invalid account now a bytes pid :
  a_file_bytes a = of_chars (b64encode bytes) → a_mime_part_id a = Some pid →
  supported_attachment (a_filename a) = true →
  forallb min_length_1 [account; a_message_id a; pid; a_filename a; a_file_bytes a] = true →
  (Z.of_nat (length (b64encode bytes)) <= 35000000)%Z →
  ∃ job, attachment_job invalid account now a = Ok job.
Proof.
  intros Hf Hp Hs Hm Hl. unfold attachment_job. rewrite Hp, Hf, to_of_chars, b64decode_b64encode.
  rewrite Hf in Hm. cbn [forallb] in Hm. repeat (apply Bool.andb_true_iff in Hm as [? Hm]).
  unfold job_valid, field_constraints, validate_content. cbn [schema_version idempotency_key
    gmail_account message_id mime_part_id job_filename file_bytes job_content_sha256 job_tz].
  unfold supported_attachment in Hs. rewrite Hs, !to_of_chars, b64decode_b64encode.
  unfold attachment_idempotency_key. rewrite !sha256_is_hex64, String.eqb_refl.
  rewrite (proj2 (Z.leb_le _ _) Hl). repeat match goal with E : min_length_1 _ = true |- _ => rewrite E; clear E end.
  eexists. reflexivity.
Qed.

(** ** Computations on the mailbox that only read it *)

Section Reads.
Context {G : Gmail}.

Definition unchanged (x x' : mailbox) : Prop := same_content x x' ∧ unread x' = unread x.
Definition reads {A} (m : M mailbox A) : Prop := ∀ x, unchanged x (m x).2.

Lemma unchanged_refl x : unchanged x x.
Proof. done. Qed.

Lemma unchanged_trans x y z : unchanged x y → unchanged y z → unchanged x z.
Proof.
  unfold unchanged, same_content. intros [[? ?] ?] [[? ?] ?]. by split_and!; etrans.
Qed.

Lemma reads_ret {A} (a : A) : reads (mret a).
Proof. intros x. apply unchanged_refl. Qed.
Lemma reads_of_res {A} (r : res A) : reads (of_res r).
Proof. intros x. apply unchanged_refl. Qed.
Lemma reads_bind {A B} (m : M mailbox A) (f : A → M mailbox B) :
  reads m → (∀ a, reads (f a)) → reads (m ≫= f).
Proof.
  intros Hm Hf x. rewrite bind_unfold. specialize (Hm x). destruct (m x) as [[a|e] x1]; [|done].
  eapply unchanged_trans; [exact Hm|apply Hf].
Qed.
Lemma reads_map_m {A B} (f : A → M mailbox B) l : (∀ a, reads (f a)) → reads (map_m f l).
Proof.
  intros Hf. induction l as [|a l IH]; cbn [map_m]; [apply reads_ret|].
  apply reads_bind; [done|]. intros y. apply reads_bind; [done|]. intros ys. apply reads_ret.
Qed.
Lemma reads_calls :
  reads gm_service ∧ reads gm_profile ∧ reads gm_unread ∧ (∀ i, reads (gm_message i))
  ∧ ∀ i a, reads (gm_attachment i a).
Proof.
  split_and!; intros; intros x; [apply gm_service_reads|apply gm_profile_reads|apply gm_unread_reads
    |apply gm_message_reads|apply gm_attachment_reads].
Qed.
End Reads.

Create HintDb gmail.
#[export] Hint Resolve reads_ret reads_of_res reads_bind reads_map_m : gmail.
#[export] Hint Extern 1 (reads _) => apply reads_calls : gmail.

Section Download.
Context {G : Gmail}.

(** What a message holds: the text of a part, and its bytes. *)
Definition part_text (x : mailbox) (id : string) (p : part) : string :=
  match p with
  | Part _ _ attachment_id data _ =>
      if opt_truthy str_truthy data then default "" data
      else attachment_text x id (default "" attachment_id)
  end.
Definition content (x : mailbox) (id : string) (p : part) : res chars :=
  decode_gmail_attachment (part_text x id p).
Definition message_parts (x : mailbox) (id : string) : list part :=
  iter_attachment_parts (payload_parts (stored x id)).

Definition downloaded (x : mailbox) (id thread : string) (p : part) (a : attachment) : Prop :=
  match p with
  | Part part_id filename attachment_id _ _ =>
      ∃ bytes, content x id p = Ok bytes
        ∧ a = mk_attachment id (str_or part_id attachment_id) (default "" filename)
                (of_chars (b64encode bytes)) thread
  end.

Lemma download_reads id : reads (download_supported_attachments id).
Proof.
  unfold download_supported_attachments. apply reads_bind; [auto with gmail|]. intros m.
  apply reads_map_m. intros [pid fn aid data ps]. cbn [download_attachment].
  apply reads_bind; [destruct (opt_truthy _ _); auto with gmail|]. intros t.
  apply reads_bind; auto with gmail.
Qed.

Lemma download_one id thread p x a x' :
  download_attachment id thread p x = (Ok a, x') → downloaded x id thread p a ∧ same_content x x'.
Proof.
  destruct p as [pid fn aid data ps]. cbn [download_attachment downloaded]. unfold content. cbn [part_text]. intros H.
  apply bind_ok_inv in H as (t & x1 & Ht & H). apply bind_ok_inv in H as (bytes & x2 & Hb & H).
  injection Hb as Hb <-. injection H as <- <-.
  assert (E : t = (if opt_truthy str_truthy data then default "" data
                   else attachment_text x id (default "" aid)) ∧ same_content x x1).
  { destruct (opt_truthy str_truthy data); [by injection Ht as <- <-|].
    split; [by eapply gm_attachment_stored|].
    pose proof (gm_attachment_reads id (default "" aid) x) as [Hs _]. by rewrite Ht in Hs. }
  destruct E as [-> Hs]. split; [|done]. by exists bytes.
Qed.

Lemma same_content_downloaded x x' id thread p a :
  same_content x x' → downloaded x' id thread p a → downloaded x id thread p a.
Proof.
  intros [_ Ha]. destruct p. unfold downloaded, content, part_text. by rewrite Ha.
Qed.

Lemma map_m_downloaded id thread l : ∀ x x' atts,
  map_m (download_attachment id thread) l x = (Ok atts, x') → Forall2 (downloaded x id thread) l atts.
Proof.
  induction l as [|p l IH]; intros x x' atts; cbn [map_m]; [intros [= <- _]; constructor|].
  intros H. apply bind_ok_inv in H as (a & x1 & Ha & H). apply download_one in Ha as [Ha Hs].
  apply bind_ok_inv in H as (as' & x2 & Hl & H). injection H as <- _. constructor; [done|].
  apply IH in Hl. eapply Forall2_impl; [exact Hl|]. intros p' a'. by apply same_content_downloaded.
Qed.

Lemma download_ok id x atts x' :
  download_supported_attachments id x = (Ok atts, x') →
  Forall2 (downloaded x id (default "" (thread_id (stored x id)))) (message_parts x id) atts.
Proof.
  intros H. apply bind_ok_inv in H as (m & x1 & Hm & H).
  pose proof (gm_message_reads id x) as [Hs _]. rewrite Hm in Hs. cbn in Hs.
  apply gm_message_stored in Hm as ->. apply map_m_downloaded in H.
  eapply Forall2_impl; [exact H|]. intros p a. by apply same_content_downloaded.
Qed.
End Download.

(** ** The server during a poll *)

Section Grown.
Context `{JC : JobCodec} (s : queue_settings).

Definition job_key (j : InvoiceJobEnvelope) : string :=
  dedupe_key_of (INVOICE_DEDUPE_PREFIX s) (idempotency_key j).

(** The live stream is a stream, and the dedupe keys are other keys, with strings. *)
Definition poll_ok (ks : keyspace) : Prop :=
  is_stream (INVOICE_STREAM s) ks = true
  ∧ ∀ k, let key := dedupe_key_of (INVOICE_DEDUPE_PREFIX s) k in
      key ≠ INVOICE_STREAM s
      ∧ (lookup_key key ks = None ∨ ∃ v, lookup_key key ks = Some (RString v)).

Definition job_entry (ij : string * InvoiceJobEnvelope) : entry :=
  (ij.1, [("payload", model_dump_json ij.2)]).

(** The live stream has grown by new jobs only, each of them under its key; every new dedupe
    key is of one of them, and what was stored under another key is still there. *)
Definition grown (ks ks' : keyspace) : Prop :=
  (∃ new : list (string * InvoiceJobEnvelope),
     s_entries (stream_at (INVOICE_STREAM s) ks')
     = s_entries (stream_at (INVOICE_STREAM s) ks) ++ (job_entry <$> new)
     ∧ NoDup ((λ ij, job_key ij.2) <$> new)
     ∧ Forall (λ ij, job_valid ij.2 = true ∧ lookup_key (job_key ij.2) ks = None
                     ∧ lookup_key (job_key ij.2) ks' = Some (RString ij.1)) new
     ∧ ∀ k, lookup_key (dedupe_key_of (INVOICE_DEDUPE_PREFIX s) k) ks = None →
         is_Some (lookup_key (dedupe_key_of (INVOICE_DEDUPE_PREFIX s) k) ks') →
         ∃ ij, ij ∈ new ∧ job_key ij.2 = dedupe_key_of (INVOICE_DEDUPE_PREFIX s) k)
  ∧ ∀ k v, k ≠ INVOICE_STREAM s → lookup_key k ks = Some v → lookup_key k ks' = Some v.

Lemma grown_refl ks : grown ks ks.
Proof.
  split; [|done]. exists []. split; [by rewrite app_nil_r|]. split; [constructor|]. split; [constructor|].
  intros k ->. by intros [].
Qed.

Lemma grown_trans ks1 ks2 ks3 : poll_ok ks1 → grown ks1 ks2 → grown ks2 ks3 → grown ks1 ks3.
Proof.
  intros [_ Hok] [(n1 & E1 & D1 & F1 & A1) K1] [(n2 & E2 & D2 & F2 & A2) K2]. split; [|eauto].
  assert (Hne : ∀ j, job_key j ≠ INVOICE_STREAM s) by (intros j; apply Hok).
  exists (n1 ++ n2). split; [by rewrite E2, E1, fmap_app, app_assoc|].
  rewrite Forall_forall in F1, F2. split; [|split].
  - rewrite fmap_app. apply NoDup_app. split_and!; [done| |done].
    intros k (ij1 & -> & H1)%list_elem_of_fmap (ij2 & E & H2)%list_elem_of_fmap.
    destruct (F1 _ H1) as (_ & _ & L1), (F2 _ H2) as (_ & L2 & _). cbn in E, L1, L2.
    rewrite <- E in L2. congruence.
  - apply Forall_app. split; apply Forall_forall; intros ij Hij.
    + destruct (F1 _ Hij) as (V & L & L'). split; [done|]. split; [done|]. by apply K2.
    + destruct (F2 _ Hij) as (V & L & L'). split; [done|]. split; [|done].
      destruct (lookup_key (job_key ij.2) ks1) eqn:E; [|done].
      rewrite (K1 _ _ (Hne _) E) in L. discriminate L.
  - intros k Hn Hs. destruct (lookup_key (dedupe_key_of (INVOICE_DEDUPE_PREFIX s) k) ks2) eqn:E.
    + destruct (A1 k Hn) as (ij & Hij & Ek); [by rewrite E|]. exists ij. by split; [apply elem_of_app; left|].
    + destruct (A2 k E Hs) as (ij & Hij & Ek). exists ij. by split; [apply elem_of_app; right|].
Qed.

Lemma enqueue_grows job ks :
  poll_ok ks → job_valid job = true →
  ∃ ks' id, enqueue_job (R:=reference_redis) (INVOICE_STREAM s) (INVOICE_DEDUPE_PREFIX s)
              (INVOICE_DEDUPE_TTL_SECONDS s) job ks = (Ok id, ks')
    ∧ poll_ok ks' ∧ grown ks ks' ∧ lookup_key (job_key job) ks' = Some (RString id).
Proof.
  intros Hok Hv. destruct (proj2 Hok (idempotency_key job)) as [Hne Hl]. fold (job_key job) in Hne, Hl.
  destruct Hl as [Hl|[v Hl]].
  2:{ exists ks, v. split; [by apply enqueue_seen|]. split; [done|]. split; [apply grown_refl|done]. }
  destruct (enqueue_new (INVOICE_STREAM s) (INVOICE_DEDUPE_PREFIX s) (INVOICE_DEDUPE_TTL_SECONDS s)
    job ks Hne (proj1 Hok) Hl) as (ks' & E & Hk & Hs & Ht & Ho). fold (job_key job) in Hk, Ho.
  exists ks', (ids ks (id_pos ks)). split; [exact E|]. split.
  { split; [done|]. intros k. split; [apply Hok|].
    destruct (decide (dedupe_key_of (INVOICE_DEDUPE_PREFIX s) k = job_key job)) as [->|Hd].
    - right. by eexists.
    - rewrite Ho by (pose proof (proj1 (proj2 Hok k)); set_solver). apply Hok. }
  split; [|done]. split.
  - exists [(ids ks (id_pos ks), job)]. rewrite Hs. split; [done|]. split; [apply NoDup_singleton|].
    split; [by apply Forall_singleton|]. intros k Hn [w Hw]. exists (ids ks (id_pos ks), job).
    split; [apply list_elem_of_here|]. cbn.
    destruct (decide (dedupe_key_of (INVOICE_DEDUPE_PREFIX s) k = job_key job)) as [->|Hd]; [done|].
    rewrite Ho in Hw by (pose proof (proj1 (proj2 Hok k)); set_solver). congruence.
  - intros k v Hks E1. rewrite Ho; [done|]. assert (k ≠ job_key job) by congruence. set_solver.
Qed.
End Grown.

(** ** What a poll does *)

Section Polled.
Context {R : Redis} `{JC : JobCodec} {G : Gmail} (s : queue_settings) (invalid : attachment → string).

(** An attachment of the message [id] is on the stream: a job with its bytes was
    enqueued, in this poll or before. *)
Definition part_queued (x : mailbox) (ks : keyspace) (id : string) (p : part) : Prop :=
  ∃ bytes job sid, content x id p = Ok bytes ∧ decoded_file_bytes job = Ok bytes
    ∧ message_id job = id ∧ lookup_key (job_key s job) ks = Some (RString sid).

Definition message_queued (x : mailbox) (ks : keyspace) (id : string) : Prop :=
  message_parts x id ≠ [] ∧ Forall (part_queued x ks id) (message_parts x id).

Record polled (p p' : poller) : Prop := {
  pd_ok : poll_ok s (view (pl_queue p'));
  pd_grown : grown s (view (pl_queue p)) (view (pl_queue p'));
  pd_content : same_content (pl_mail p) (pl_mail p');
  pd_read id : id ∈ unread (pl_mail p) →
    id ∈ unread (pl_mail p') ∨ message_queued (pl_mail p) (view (pl_queue p')) id
}.

Definition polls {A} (m : M poller A) : Prop :=
  ∀ p, poll_ok s (view (pl_queue p)) → polled p (m p).2.

Lemma part_queued_grown x ks ks' id p :
  poll_ok s ks → grown s ks ks' → part_queued x ks id p → part_queued x ks' id p.
Proof.
  intros [_ Hok] [_ Hk] (b & j & sid & Hc & Hd & Hm & Hl). exists b, j, sid. split_and!; [done..|].
  apply Hk; [apply Hok|done].
Qed.

Lemma message_queued_same x x' ks id :
  same_content x x' → message_queued x' ks id → message_queued x ks id.
Proof.
  intros [Hs Ha] [Hn Hf]. unfold message_queued, message_parts in *. rewrite Hs in Hn, Hf.
  split; [done|]. eapply Forall_impl; [exact Hf|]. intros p (b & j & sid & Hc & H).
  exists b, j, sid. split; [|done]. unfold content, part_text in *. by rewrite Ha in Hc.
Qed.

Lemma polled_refl p : poll_ok s (view (pl_queue p)) → polled p p.
Proof. intros H. split; [done|apply grown_refl|done|by left]. Qed.

Lemma polled_trans p1 p2 p3 : poll_ok s (view (pl_queue p1)) → polled p1 p2 → polled p2 p3 → polled p1 p3.
Proof.
  intros Hok H12 H23. split; [apply H23| | |].
  - eapply grown_trans; [done|apply H12|apply H23].
  - destruct (pd_content _ _ H12), (pd_content _ _ H23). split; by etrans.
  - intros id Hid. destruct (pd_read _ _ H12 id Hid) as [H|H].
    + destruct (pd_read _ _ H23 id H) as [H'|H']; [by left|right].
      eapply message_queued_same; [apply H12|done].
    + right. destruct H as [Hn Hf]. split; [done|]. eapply Forall_impl; [exact Hf|].
      intros q. apply part_queued_grown; [apply H12|apply H23].
Qed.

(** Steps that leave queue and mailbox to others. *)
Lemma polled_same p p' :
  poll_ok s (view (pl_queue p)) → pl_queue p' = pl_queue p → unchanged (pl_mail p) (pl_mail p') →
  polled p p'.
Proof.
  intros Hok Eq [Hc Hu]. split; rewrite ?Eq; [done|apply grown_refl|done|]. intros id. rewrite Hu. by left.
Qed.

Lemma polls_ret {A} (a : A) : polls (mret a).
Proof. intros p. apply polled_refl. Qed.
Lemma polls_raise {A} e : polls (raise e : M poller A).
Proof. intros p. apply polled_refl. Qed.
Lemma polls_bind {A B} (m : M poller A) (f : A → M poller B) :
  polls m → (∀ a, polls (f a)) → polls (m ≫= f).
Proof.
  intros Hm Hf p Hok. rewrite bind_unfold. specialize (Hm p Hok). destruct (m p) as [[a|e] p1]; [|done].
  eapply polled_trans; [done|exact Hm|]. apply Hf, Hm.
Qed.
Lemma polls_try {A} (m : M poller A) h : polls m → (∀ e k, h e = Some k → polls k) → polls (try_except m h).
Proof.
  intros Hm Hh p Hok. unfold try_except. specialize (Hm p Hok). destruct (m p) as [[a|e] p1]; [done|].
  destruct (h e) as [k|] eqn:E; [|done]. eapply polled_trans; [done|exact Hm|].
  apply (Hh e k E), Hm.
Qed.
Lemma polls_observe f : polls (observe f).
Proof.
  intros p Hok. unfold observe. destruct (pl_health p); apply polled_same; done.
Qed.
Lemma polls_gmail {A} (m : M mailbox A) : reads m → polls (on_gmail m).
Proof.
  intros Hm p Hok. specialize (Hm (pl_mail p)). unfold on_gmail. destruct (m (pl_mail p)) as [r x].
  by apply polled_same.
Qed.

(** Enqueueing an attachment: a job with its bytes is queued when it returns. *)
Definition attachment_queued (ks : keyspace) (a : attachment) : Prop :=
  ∃ job sid, file_bytes job = a_file_bytes a ∧ message_id job = a_message_id a
    ∧ lookup_key (job_key s job) ks = Some (RString sid).

Lemma enqueue_attachment_polls account a p :
  poll_ok s (view (pl_queue p)) →
  let '(o, p') := enqueue_attachment s invalid account a p in
  polled p p' ∧ pl_mail p' = pl_mail p
  ∧ match o with Ok _ => attachment_queued (view (pl_queue p')) a | Raise _ => True end.
Proof.
  intros Hok. unfold enqueue_attachment. rewrite bind_unfold. unfold utc_now.
  set (p1 := mk_poller _ _ _ _ _). assert (H1 : polled p p1) by (by apply polled_same).
  rewrite bind_unfold. unfold of_res. set (now := pl_clock p (pl_readings p)).
  destruct (attachment_job invalid account now a) as [job|e] eqn:Ej; [|done].
  apply attachment_job_ok in Ej as (Hv & Hb & Hm & _).
  destruct (enqueue_grows s job (view (pl_queue p)) Hok Hv) as (ks & id & E & Ho & Hg & Hl).
  destruct (follows_run _ _ _ _ _ (follows_enqueue_job _ _ _ job) E) as (q & Eq & <-).
  rewrite bind_unfold. unfold on_redis. change (pl_queue p1) with (pl_queue p). rewrite Eq.
  cbn [mret M_ret pl_queue pl_mail]. split; [|split; [done|by exists job, id]].
  split; cbn [pl_queue pl_mail p1]; [done..|by left].
Qed.

Lemma enqueue_all account l : ∀ p,
  poll_ok s (view (pl_queue p)) →
  let '(o, p') := for_each (enqueue_attachment s invalid account) l p in
  polled p p' ∧ pl_mail p' = pl_mail p
  ∧ match o with Ok _ => Forall (attachment_queued (view (pl_queue p'))) l | Raise _ => True end.
Proof.
  induction l as [|a l IH]; intros p Hok; cbn [for_each]; [split; [by apply polled_refl|by split]|].
  rewrite bind_unfold. pose proof (enqueue_attachment_polls account a p Hok) as Ha.
  destruct (enqueue_attachment s invalid account a p) as [[[]|e] p1]; destruct Ha as (H1 & E1 & Q1);
    [|by split].
  specialize (IH p1 (pd_ok _ _ H1)). destruct (for_each _ l p1) as [o p2].
  destruct IH as (H2 & E2 & Q2). split; [by eapply polled_trans|]. split; [congruence|].
  destruct o; [|done]. constructor; [|done]. destruct Q1 as (job & sid & Hb & Hm & Hl).
  exists job, sid. split_and!; [done..|]. apply (pd_grown _ _ H2); [apply (pd_ok _ _ H1)|done].
Qed.

(** What was downloaded and queued is queued. *)
Lemma downloaded_queued x ks id thread p a :
  downloaded x id thread p a → attachment_queued ks a → part_queued x ks id p.
Proof.
  intros Hd (job & sid & Hb & Hm & Hl). destruct p. destruct Hd as (bytes & Hc & ->).
  exists bytes, job, sid. split_and!; [done| |done|done].
  unfold decoded_file_bytes. rewrite Hb. cbn [a_file_bytes]. by rewrite to_of_chars, b64decode_b64encode.
Qed.

Lemma poll_message_polls account id : polls (poll_message s invalid account id).
Proof.
  intros p Hok. unfold poll_message. rewrite bind_unfold.
  pose proof (polls_gmail _ (download_reads id) p Hok) as H1. unfold on_gmail in H1 |- *.
  destruct (download_supported_attachments id (pl_mail p)) as [[atts|e] x] eqn:Ed; [|done].
  cbn [snd] in H1. apply download_ok in Ed. set (p1 := mk_poller _ _ _ _ _) in *.
  destruct (is_nil atts) eqn:En; [done|]. rewrite bind_unfold.
  pose proof (enqueue_all account atts p1 (pd_ok _ _ H1)) as H2.
  destruct (for_each _ atts p1) as [[[]|e] p2]; destruct H2 as (H2 & Em & Q2);
    [|by eapply polled_trans].
  assert (H12 : polled p p2) by (by eapply polled_trans).
  rewrite bind_unfold. set (r := gm_mark_read id (pl_mail p2)).
  pose proof (gm_mark_read_marks id (pl_mail p2)) as [Hc Hu]. fold r in Hc, Hu.
  assert (H3 : polled p2 (mk_poller (pl_queue p2) r.2 (pl_health p2) (pl_clock p2) (pl_readings p2))).
  { split; cbn [pl_queue pl_mail]; [apply H12|apply grown_refl|done|].
    intros j Hj. destruct (decide (j = id)) as [->|Hne]; [right|left; by apply Hu].
    apply (message_queued_same _ (pl_mail p)).
    { rewrite Em. split; symmetry; apply (pd_content _ _ H1). }
    split.
    - intros E. rewrite E in Ed. by apply Forall2_nil_inv_l in Ed as ->.
    - apply Forall_forall. intros q Hq. apply list_elem_of_lookup in Hq as [k Hk].
      destruct (Forall2_lookup_l _ _ _ _ _ Ed Hk) as (a & Ha & Hd).
      eapply downloaded_queued; [exact Hd|]. apply (proj1 (Forall_forall _ _) Q2).
      by eapply list_elem_of_lookup_2. }
  unfold on_gmail. fold r. destruct r as [[[]|e] x3]; by eapply polled_trans.
Qed.

Lemma poll_messages_polls account ids : ∀ n, polls (poll_messages s invalid account n ids).
Proof.
  induction ids as [|id ids IH]; intros n; cbn [poll_messages]; [apply polls_ret|].
  apply polls_bind; [apply poll_message_polls|]. intros b. apply IH.
Qed.

Lemma poll_inbox_polls : polls (poll_inbox s invalid).
Proof.
  unfold poll_inbox. apply polls_bind; [apply polls_observe|]. intros _. apply polls_try.
  - apply polls_bind; [apply polls_gmail; auto with gmail|]. intros _.
    apply polls_bind; [apply polls_gmail; unfold gmail_account_of; auto with gmail|]. intros account.
    apply polls_bind; [apply polls_gmail; auto with gmail|]. intros messages.
    apply polls_bind; [apply poll_messages_polls|]. intros n.
    apply polls_bind; [apply polls_observe|]. intros _. apply polls_ret.
  - intros e k. destruct (is_Exception e); [|done]. intros [= <-].
    apply polls_bind; [apply polls_observe|]. intros _. apply polls_raise.
Qed.

End Polled.

(** ** The encoding of Gmail *)

#[local] Ltac Zify.zify_post_hook ::= Z.to_euclidean_division_equations.

(** URL-safe base64, without its padding or with it. *)
Definition to_url_char (c : ascii) : ascii :=
  if Ascii.eqb c "+" then "-"%char else if Ascii.eqb c "/" then "_"%char else c.
Definition is_pad (c : ascii) : bool := Ascii.eqb c "=".
Definition gmail_encode (padded : bool) (bytes : chars) : string :=
  let l := to_url_char <$> b64encode bytes in of_chars (if padded then l else drop_while_end is_pad l).

Definition url_digit (c : ascii) : Prop :=
  code c < 128 ∧ is_pad c = false ∧ is_pad (to_url_char c) = false ∧ code (to_url_char c) < 128
  ∧ url_char (to_url_char c) = c.

Lemma url_digit_char n : n < 64 → url_digit (b64_char n).
Proof.
  intros Hn. set (ok := λ c, (code c <? 128) && negb (is_pad c) && negb (is_pad (to_url_char c))
                         && (code (to_url_char c) <? 128) && Ascii.eqb (url_char (to_url_char c)) c).
  assert (Hall : forallb (λ n, ok (b64_char n)) (seq 0 64) = true) by (vm_compute; reflexivity).
  rewrite forallb_forall in Hall. specialize (Hall n (proj2 (in_seq _ _ _) (conj (Nat.le_0_l n) Hn))).
  unfold ok in Hall. rewrite !Bool.andb_true_iff, !Bool.negb_true_iff, !Nat.ltb_lt, Ascii.eqb_eq in Hall.
  destruct Hall as [[[[H1 H2] H3] H4] H5]. done.
Qed.

Lemma b64encode_shape n : ∀ l, length l ≤ n → ∃ body k,
  b64encode l = body ++ replicate k "="%char ∧ k ≤ 2 ∧ (length body + k) mod 4 = 0
  ∧ Forall url_digit body.
Proof.
  assert (H0 : ∃ body k, b64encode [] = body ++ replicate k "="%char ∧ k ≤ 2
    ∧ (length body + k) mod 4 = 0 ∧ Forall url_digit body)
    by (exists [], 0; split_and!; [done|lia|done|constructor]).
  induction n as [|n IH]; intros l Hl; [by destruct l; [|simpl in Hl; lia]|].
  destruct l as [|a [|b [|c l]]]; [done|clear H0..].
  - destruct (digits_of_bytes (code a) 0 0 (code_lt a)) as (H0 & H1 & _); [lia..|].
    rewrite Nat.Div0.div_0_l, Nat.add_0_r in H1.
    eexists [_; _], 2. split; [reflexivity|]. split; [lia|]. split; [done|].
    repeat (apply Forall_cons_2; [by apply url_digit_char|]). apply Forall_nil_2.
  - destruct (digits_of_bytes (code a) (code b) 0 (code_lt a) (code_lt b))
      as (H0 & H1 & H2 & _); [lia|]. rewrite Nat.Div0.div_0_l, Nat.add_0_r in H2.
    eexists [_; _; _], 1. split; [reflexivity|]. split; [lia|]. split; [done|].
    repeat (apply Forall_cons_2; [by apply url_digit_char|]). apply Forall_nil_2.
  - destruct (digits_of_bytes (code a) (code b) (code c) (code_lt a) (code_lt b) (code_lt c))
      as (H0 & H1 & H2 & H3 & _).
    destruct (IH l) as (body & k & E & Hk & Hm & Hf); [simpl in Hl; lia|].
    eexists (_ :: _ :: _ :: _ :: body), k. cbn [b64encode]. rewrite E. split; [reflexivity|].
    split; [done|]. split; [cbn [length]; lia|].
    repeat (apply Forall_cons_2; [by apply url_digit_char|]). exact Hf.
Qed.

Lemma drop_pads body k :
  Forall (λ c, is_pad c = false) body → drop_while_end is_pad (body ++ replicate k "="%char) = body.
Proof.
  intros Hb. unfold drop_while_end. rewrite reverse_app, reverse_replicate.
  assert (E : drop_while is_pad (replicate k "="%char ++ reverse body) = drop_while is_pad (reverse body))
    by (induction k as [|k IH]; [done|exact IH]).
  rewrite E. apply Forall_reverse in Hb. destruct (reverse body) as [|c r] eqn:Er.
  - apply (f_equal reverse) in Er. rewrite reverse_involutive in Er. by subst.
  - cbn [drop_while]. apply Forall_cons in Hb as [-> _]. by rewrite <- Er, reverse_involutive.
Qed.

Lemma gmail_round_trip padded bytes : decode_gmail_attachment (gmail_encode padded bytes) = Ok bytes.
Proof.
  destruct (b64encode_shape (length bytes) bytes) as (body & k & E & Hk & Hm & Hf); [lia|].
  set (u := to_url_char <$> body).
  assert (Eu : to_url_char <$> b64encode bytes = u ++ replicate k "="%char)
    by (rewrite E, fmap_app, fmap_replicate; done).
  assert (Hlen : length u = length body) by apply length_fmap.
  assert (Hu : Forall (λ c, is_pad c = false) u)
    by (apply Forall_fmap; eapply Forall_impl; [exact Hf|]; intros c (_ & _ & H & _); exact H).
  set (l := if padded then u ++ replicate k "="%char else u).
  assert (El : gmail_encode padded bytes = of_chars l).
  { unfold gmail_encode. rewrite Eu. unfold l. destruct padded; [done|]. by rewrite drop_pads. }
  assert (Ep : l ++ replicate ((4 - length l mod 4) mod 4) "="%char = u ++ replicate k "="%char).
  { unfold l. destruct padded.
    - rewrite length_app, length_replicate, Hlen, Hm. cbn. by rewrite app_nil_r.
    - do 2 f_equal. lia. }
  unfold decode_gmail_attachment. rewrite El, to_of_chars. cbv zeta. rewrite Ep.
  assert (Ha : ascii_chars (u ++ replicate k "="%char) = true).
  { apply ascii_chars_Forall, Forall_app. split.
    - apply Forall_fmap. eapply Forall_impl; [exact Hf|]. intros c (_ & _ & _ & H & _). exact H.
    - apply Forall_replicate. by apply Nat.ltb_lt. }
  rewrite Ha. cbn [negb]. unfold urlsafe_b64decode. rewrite fmap_app, fmap_replicate.
  change (url_char "=") with "="%char.
  assert (Ed : url_char <$> u = body).
  { unfold u. rewrite <- list_fmap_compose. rewrite <- (list_fmap_id body) at 2.
    apply list_fmap_ext. intros i c Hc. by apply (proj1 (Forall_lookup _ _) Hf i c). }
  by rewrite Ed, <- E, b64decode_b64encode.
Qed.

(** C30 The bytes of an attachment arrive.  However Gmail encodes them, with padding or
    without, the job of the attachment holds exactly these bytes and their digest is
    accepted, and the worker that reads the entry of the job gets the same job. *)
Theorem attachment_bytes_arrive `{JobCodec} {G : Gmail} invalid account now id thread p x a x' padded bytes job :
  part_text x id p = gmail_encode padded bytes →
  download_attachment id thread p x = (Ok a, x') →
  attachment_job invalid account now a = Ok job → job_text job →
  decoded_file_bytes job = Ok bytes ∧ job_content_sha256 job = sha256_hex bytes
  ∧ message_id job = id ∧ parse_delivery [("payload", model_dump_json job)] = Ok job.
Proof.
  intros Ht Hd Hj Htext. apply download_one in Hd as [Hd _]. destruct p as [pid fn aid data ps].
  destruct Hd as (b & Hc & ->). unfold content in Hc. rewrite Ht, gmail_round_trip in Hc.
  injection Hc as <-. apply attachment_job_ok in Hj as (Hv & Hb & Hm & _).
  assert (E : b64decode true (to_chars (file_bytes job)) = Some bytes)
    by (rewrite Hb; cbn [a_file_bytes]; by rewrite to_of_chars, b64decode_b64encode).
  split; [unfold decoded_file_bytes; by rewrite E|].
  split; [|split; [exact Hm|by apply (parse_dumped job [])]].
  unfold job_valid, validate_content in Hv. apply Bool.andb_true_iff in Hv as [_ Hv].
  destruct (negb _); [done|]. destruct (negb _); [done|]. rewrite E in Hv.
  by destruct (String.eqb_spec (sha256_hex bytes) (job_content_sha256 job)).
Qed.

(** ** A mailbox *)

Record ref_mailbox := mk_mailbox {
  rm_unread : list string;
  rm_messages : list (string * gmail_message);
  rm_attachments : list (string * list (string * string))
}.

Definition rm_stored (x : ref_mailbox) (i : string) : gmail_message :=
  default (mk_message None []) (dict_get i (rm_messages x)).
Definition rm_text (x : ref_mailbox) (i a : string) : string :=
  default "" (dict_get i (rm_attachments x) ≫= dict_get a).
Definition rm_mark (i : string) : M ref_mailbox unit :=
  modify (λ x, mk_mailbox (List.filter (λ j, negb (String.eqb j i)) (rm_unread x)) (rm_messages x)
                 (rm_attachments x)).

#[export] #[refine] Instance reference_gmail : Gmail := {
  mailbox := ref_mailbox;
  gm_service := mret tt;
  gm_profile := mret " AP@example.com ";
  gm_unread := gets rm_unread;
  gm_message i := gets (λ x, rm_stored x i);
  gm_attachment i a := gets (λ x, rm_text x i a);
  gm_mark_read := rm_mark;
  unread := rm_unread;
  stored := rm_stored;
  attachment_text := rm_text
}.
Proof.
  1-5: done.
  - by intros i x m x' [= <- _].
  - by intros i a x t x' [= <- _].
  - intros i x. split; [done|]. intros j Hj Hin. cbn. apply list_elem_of_In, filter_In.
    split; [by apply list_elem_of_In|]. by apply Bool.negb_true_iff, String.eqb_neq.
Defined.

(** ** Examples *)

Definition pdf_part (i : string) (bytes : chars) : part :=
  Part (Some i) (Some "invoice.PDF") None (Some (gmail_encode false bytes)) [].
Definition demo_mailbox : ref_mailbox :=
  mk_mailbox ["m1"; "m2"; "m3"]
    [("m1", mk_message (Some "t1") [Part None None None None [pdf_part "0.1" ["A"%char]]]);
     ("m2", mk_message None []);
     ("m3", mk_message (Some "t3") [pdf_part "0" ["B"%char]; pdf_part "1" ["C"%char; "D"%char]])] [].
Definition demo_poller (x : ref_mailbox) : poller (R:=reference_redis) (G:=reference_gmail) :=
  mk_poller (R:=reference_redis) (G:=reference_gmail)
    (mk_keyspace [] (λ n, str_of_Z (Z.of_nat n + 1) +:+ "-0") 0 100) x (Some new_runtime)
    (λ n, Z.of_nat n) 0.
Definition demo_poll (x : ref_mailbox) : res Z * poller (R:=reference_redis) (G:=reference_gmail) :=
  poll_inbox (R:=reference_redis) (G:=reference_gmail) default_settings (λ _, "invalid") (demo_poller x).

(** Three jobs of two messages; the message without attachments stays unread. *)
Example demo_poll_result :
  (demo_poll demo_mailbox).1 = Ok 2%Z ∧ rm_unread (pl_mail (demo_poll demo_mailbox).2) = ["m2"]
  ∧ length (s_entries (stream_at (INVOICE_STREAM default_settings)
                         (pl_queue (demo_poll demo_mailbox).2))) = 3.
Proof. vm_compute. by split_and!. Qed.

(** An empty attachment stops the poll: its job is not valid, and the messages listed
    after it are neither enqueued nor marked, in this poll and in every later one. *)
Example empty_attachment_blocks :
  let x := mk_mailbox ["m0"; "m1"]
    [("m0", mk_message None [Part (Some "0") (Some "empty.pdf") (Some "a") None []]);
     ("m1", mk_message (Some "t1") [pdf_part "0.1" ["A"%char]])] [] in
  (demo_poll x).1 = Raise (Exn ValidationError "invalid")
  ∧ rm_unread (pl_mail (demo_poll x).2) = ["m0"; "m1"]
  ∧ s_entries (stream_at (INVOICE_STREAM default_settings) (pl_queue (demo_poll x).2)) = [].
Proof. vm_compute. by split_and!. Qed.

Lemma demo_poll_ok : poll_ok default_settings (pl_queue (demo_poller demo_mailbox)).
Proof.
  split; [reflexivity|]. intros k. split; [|by left]. intros E. discriminate E.
Qed.


Definition demo_attachment : attachment :=
  mk_attachment "m1" (Some "0.1") "invoice.PDF" (of_chars (b64encode ["A"%char])) "t1".
Definition demo_attachment_job : InvoiceJobEnvelope :=
  match attachment_job (λ _, "invalid") "ap@example.com" 5 demo_attachment with
  | Ok job => job
  | Raise _ => demo_job
  end.

Lemma attachment_bytes_arrive_witness :
  decoded_file_bytes demo_attachment_job = Ok ["A"%char]
  ∧ parse_delivery [("payload", model_dump_json demo_attachment_job)] = Ok demo_attachment_job.
Proof.
  destruct (attachment_bytes_arrive (G:=reference_gmail) (λ _, "invalid") "ap@example.com" 5 "m1" "t1"
    (pdf_part "0.1" ["A"%char]) demo_mailbox demo_attachment demo_mailbox false ["A"%char]
    demo_attachment_job) as (H1 & _ & _ & H4).
  - vm_compute. reflexivity.
  - vm_compute. reflexivity.
  - vm_compute. reflexivity.
  - unfold job_text. repeat (apply Forall_cons_2; [ascii_lit|]). apply Forall_nil_2.
  - split; [exact H1|exact H4].
Defined.
