(* ===== verification/Schedulers.v ===== *)
(** * The schedulers

    The background loops of [app/main.py], one turn at a time: the poll of the mailbox,
    and the SLA scan followed by the dispatch of its notifications; and the callback of
    a task that ends.  The loops share the [RuntimeHealth] of the process, where each
    of them writes its own outcomes. *)

From S2P Require Import Prelude PyText DateTime PyFloat Json Database MissingDocs Shipments.
From S2P Require Import Reconciliation SlaScanner Frame BusinessState InvoiceJob Redis InvoiceQueue.
From S2P Require Import QueueOperations QueueRoutes InvoiceWorker Health Notifier GmailPoller.
From Stdlib Require Import Ascii.
Local Open Scope string_scope.
Local Open Scope list_scope.
Local Open Scope nat_scope.

(** ** The turns *)

(** One turn of [gmail_poll_scheduler]: whatever fails is logged. *)
Definition gmail_poll_turn {R : Redis} `{JobCodec} {G : Gmail} (s : queue_settings)
    (invalid : attachment → string) : M poller unit :=
  try_except (ignore (poll_inbox s invalid)) (λ e, if is_Exception e then Some (mret tt) else None).

Section Sla.
Context {X : Type} (mail : mailer X).

Record scheduler := mk_scheduler { sc_notifier : @notifier X; sc_scanner : ScannerHealth }.

Definition on_notifier {A} (m : M notifier A) : M scheduler A := λ c,
  let '(r, n) := m (sc_notifier c) in (r, mk_scheduler n (sc_scanner c)).
Definition report (f : datetime → RuntimeHealth → RuntimeHealth) : M scheduler unit :=
  on_notifier (on_health f).

(** [run_scanner_iteration] on the scanner of the application, after its scan. *)
Definition iteration (now : datetime) (scan : res Z) : M scheduler bool := λ c,
  let '(r, h) := run_scanner_iteration (sc_scanner c) now scan in
  (r, mk_scheduler (sc_notifier c) h).

(** The dispatch of a turn; [None] when the fuel runs out. *)
Definition dispatch_turn (fuel : nat) : M scheduler (option unit) :=
  _ ← report (λ now, on_notification_outcome (started now));
  outcome ← attempted (on_notifier (dispatch_pending_sla_notifications mail fuel 0));
  match outcome with
  | Ok None => mret None
  | Ok (Some sent_count) =>
      busy ← gets (λ c, in_progress (rt_notifications (nt_health (sc_notifier c))));
      _ ← (if (busy : bool)
           then report (λ now, on_notification_outcome (succeeded now (Some sent_count)))
           else mret tt);
      mret (Some tt)
  | Raise e =>
      if is_Exception e then
        _ ← report (λ now, on_notification_outcome (failed now (reason_code_for_exception e)));
        mret (Some tt)
      else raise e
  end.

(** One turn of [missing_document_sla_scheduler]: whether the scan succeeded. *)
Definition sla_turn (scan_fuel dispatch_fuel : nat) (sla : timedelta) : M scheduler (option bool) :=
  now ← gets (λ c, clock (w_env (nt_world (sc_notifier c))));
  _ ← report (λ _, on_sla_outcome (started now));
  outcome ← attempted (on_notifier (on_world (scan_missing_document_slas scan_fuel now sla 0)));
  match outcome with
  | Ok None => mret None
  | _ =>
      succeeded_ ← iteration now (match outcome with
                                  | Ok n => Ok (default 0%Z n)
                                  | Raise e => Raise e
                                  end);
      if (succeeded_ : bool) then
        count ← gets (λ c, SlaScanner.last_result_count (sc_scanner c));
        _ ← report (λ now, on_sla_outcome (succeeded now count));
        done ← dispatch_turn dispatch_fuel;
        mret ((λ _, true) <$> done)
      else
        error ← gets (λ c, last_error (sc_scanner c));
        _ ← report (λ now, on_sla_outcome (failed now (default "scan_failed" (str_or error None))));
        mret (Some false)
  end.
End Sla.

(** ** The end of a task *)

(** [_record_unexpected_task_exit], for the components that [lifespan] registers. *)
Inductive component := gmail_component | invoice_worker_component | sla_scanner_component.

Definition record_unexpected_task_exit (cancelled : bool) (c : component) (now : datetime)
    (h : RuntimeHealth) : RuntimeHealth :=
  if negb (bool_decide (phase h = RUNNING)) || cancelled then h
  else match c with
       | invoice_worker_component => worker_failed "background_task_exited" h
       | gmail_component => on_gmail_outcome (failed now "background_task_exited") h
       | sla_scanner_component => on_sla_outcome (failed now "background_task_exited") h
       end.

(** A worker that ends by an exception has reported the reason; the callback of its task
    replaces it by the generic one. *)
Lemma worker_reason_lost reason now h :
  phase h = RUNNING →
  invoice_worker_reason (record_unexpected_task_exit false invoice_worker_component now
                           (worker_failed reason h)) = Some "background_task_exited".
Proof. intros H. unfold record_unexpected_task_exit. cbn. by rewrite H. Qed.

(** ** The events stay sound *)

(** Each event has an identifier of its own and satisfies its constraints. *)
Definition events_sound (d : database) : Prop :=
  NoDup (event_id <$> exception_events d) ∧ Forall (λ ev, ck_event ev = true) (exception_events d).
Definition session_sound (s : session) : Prop := events_sound (working s) ∧ events_sound (committed s).

Abbreviation sound := (preserves session_sound).

Lemma sound_uuid4 : sound uuid4.
Proof. intros s H. unfold uuid4, with_env. by session_unfold. Qed.
Lemma sound_clock : sound db_clock.
Proof. by intros s. Qed.
Lemma sound_select {A} (q : database → A) : sound (select q).
Proof. by intros s. Qed.
Lemma sound_insist v what : sound (insist v what).
Proof. intros s H. by destruct v. Qed.
Lemma sound_commit : sound commit.
Proof. by intros s [H _]. Qed.
Lemma sound_rollback : sound rollback.
Proof. by intros s [_ H]. Qed.
Lemma sound_doc_id : sound next_doc_id.
Proof. by intros s. Qed.
Lemma sound_write (f : database → database) :
  (∀ d, exception_events (f d) = exception_events d) → sound (modify (on_working f)).
Proof. intros Hf s [H1 H2]. split; [|done]. unfold events_sound. cbn. by rewrite Hf. Qed.

Lemma sound_insert_event mk : (∀ i, event_id (mk i) = i) → sound (insert_event mk).
Proof.
  intros Hid s Hs. unfold insert_event. rewrite bind_unfold.
  pose proof (sound_uuid4 s Hs) as H1. destruct (uuid4 s) as [[i|e] s1]; [|done].
  cbn [snd] in H1. rewrite bind_unfold. cbn [select gets]. rewrite bind_unfold. unfold insist.
  destruct (ck_event (mk i)) eqn:Ec; [|done]. cbv iota. unfold mret at 1, M_ret at 1. rewrite bind_unfold.
  destruct (existsb (λ x, N.eqb (event_id x) i) (exception_events (working s1))) eqn:Ei; [done|].
  cbn [negb]. unfold mret at 1, M_ret at 1. rewrite bind_unfold.
  destruct (existsb (λ x, N.eqb (event_exception_id x) _ && _) _); [done|].
  cbn [negb]. unfold mret at 1, M_ret at 1. rewrite bind_unfold.
  destruct (existsb _ (shipment_exceptions _)); [|done]. unfold mret at 1, M_ret at 1. rewrite bind_unfold.
  destruct H1 as [[Hn Hf] H2]. split; [|done]. unfold events_sound. cbn. split.
  - rewrite fmap_app. apply NoDup_app. split_and!; [done| |apply NoDup_singleton].
    intros k (x & -> & Hx)%list_elem_of_fmap Hk. apply list_elem_of_singleton in Hk.
    rewrite Hid in Hk.
    assert (E : existsb (λ x, N.eqb (event_id x) i) (exception_events (working s1)) = true)
      by (apply existsb_exists; exists x; rewrite <- list_elem_of_In; by rewrite N.eqb_eq).
    congruence.
  - apply Forall_app. split; [done|]. by apply Forall_singleton.
Qed.

#[export] Hint Resolve sound_uuid4 sound_clock sound_select sound_insist sound_commit sound_rollback
  sound_doc_id : frame.
#[export] Hint Extern 1 (preserves session_sound (modify (on_working _))) =>
  (apply sound_write; intros ?; reflexivity) : frame.
#[export] Hint Extern 1 (preserves session_sound (insert_event _)) =>
  (apply sound_insert_event; intros ?; reflexivity) : frame.

Lemma sound_sync sh policy r now : sound (sync_missing_document_exception sh policy r now).
Proof. unfold sync_missing_document_exception, insert_exception, save_exception. frame. Qed.
#[local] Hint Resolve sound_sync : frame.

Lemma sound_scalar {A} (l : list A) : sound (scalar_one_or_none l).
Proof. unfold scalar_one_or_none. frame. Qed.
#[local] Hint Resolve sound_scalar : frame.

Lemma sound_reconcile_shipment sh rid now sla source key :
  sound (reconcile_shipment sh rid now sla source key).
Proof.
  unfold reconcile_shipment, get_linked, get_document, find_result, save_shipment, insert_result,
    save_result.
  frame.
Qed.

Lemma sound_run_session {A} (m : M session A) :
  sound m → preserves (λ w, events_sound (w_db w)) (run_session m).
Proof.
  intros Hm w Hw. rewrite run_session_unfold. cbn. by destruct (Hm (session_of w)) as [_ ?].
Qed.

Lemma sound_scan fuel now sla : ∀ n,
  preserves (λ w, events_sound (w_db w)) (scan_missing_document_slas fuel now sla n).
Proof.
  induction fuel as [|fuel IH]; intros n; cbn [scan_missing_document_slas]; [apply preserves_ret|].
  apply preserves_bind.
  - unfold claim_and_evaluate_one. apply sound_run_session.
    apply preserves_bind; [apply sound_select|]. intros [sh|]; [|frame].
    apply preserves_bind; [apply sound_reconcile_shipment|]. frame.
  - intros []; [apply IH|apply preserves_ret].
Qed.

(** ** What a turn reports *)

Section Report.
Context {X : Type} (mail : mailer X).

Lemma on_world_health {A} (m : M world A) (n : @notifier X) :
  nt_health (on_world m n).2 = nt_health n ∧ nt_world (on_world m n).2 = (m (nt_world n)).2
  ∧ (on_world m n).1 = (m (nt_world n)).1.
Proof using Type. unfold on_world. by destruct (m (nt_world n)). Qed.

Lemma deliver_health p n : nt_health (deliver mail p n).2 = nt_health n.
Proof using Type.
  unfold deliver, try_except. rewrite bind_unfold. unfold on_mail.
  destruct (send_shipment_exception_email mail p (nt_mail n)) as [[[]|e] x]; cbn; [done|done|].
  by destruct (is_Exception e).
Qed.

Lemma claim_none_inv w w' : run_session claim_event w = (Ok None, w') → dispatchable (w_db w') = [].
Proof.
  rewrite run_session_unfold. unfold claim_event. rewrite bind_unfold. cbn [select gets session_of working].
  destruct (next_event (w_db w)) as [[[ev x] s]|] eqn:En.
  - rewrite bind_unfold. destruct (save_event _ _) as [[[]|e] s1]; [|done].
    rewrite bind_unfold. by destruct (commit s1) as [[[]|e] s2].
  - intros [= <-]. by apply next_event_none.
Qed.

(** A dispatch that returns has sent everything, or has recorded its failure. *)
Lemma dispatch_reports fuel : ∀ count n c n',
  dispatch_pending_sla_notifications mail fuel count n = (Ok (Some c), n') →
  (dispatchable (w_db (nt_world n')) = [] ∧ nt_health n' = nt_health n)
  ∨ ∃ now r, nt_health n' = on_notification_outcome (failed now r) (nt_health n).
Proof using Type.
  induction fuel as [|fuel IH]; intros count n c n'; cbn [dispatch_pending_sla_notifications]; [done|].
  intros H. apply bind_ok_inv in H as (claimed & n1 & H1 & H).
  destruct (on_world_health (run_session claim_event) n) as (Eh & Ew & Er). rewrite H1 in Eh, Ew, Er.
  cbn [fst snd] in Eh, Ew, Er.
  destruct claimed as [[i payload]|].
  - apply bind_ok_inv in H as (failure & n2 & H2 & H).
    pose proof (deliver_health payload n1) as Eh2. rewrite H2 in Eh2. cbn [snd] in Eh2.
    destruct failure as [e|].
    + right. apply bind_ok_inv in H as ([] & n3 & [= <-] & H).
      apply bind_ok_inv in H as ([] & n4 & H4 & H). injection H as _ <-.
      match type of H4 with on_world ?m ?k = _ => destruct (on_world_health m k) as (Eh4 & _) end.
      rewrite H4 in Eh4. cbn [snd nt_health] in Eh4. rewrite Eh4, Eh2, Eh. by eexists _, _.
    + apply bind_ok_inv in H as ([] & n3 & H3 & H).
      match type of H3 with on_world ?m ?k = _ => destruct (on_world_health m k) as (Eh3 & _) end.
      rewrite H3 in Eh3. cbn [snd] in Eh3. specialize (IH _ _ _ _ H).
      by rewrite Eh3, Eh2, Eh in IH.
  - injection H as _ <-. left. split; [|done].
    destruct (run_session claim_event (nt_world n)) as [r w'] eqn:E. cbn [fst snd] in Er, Ew.
    rewrite Ew. apply (claim_none_inv (nt_world n)). by rewrite E, <- Er.
Qed.

(** The health of a process after the dispatch of a turn. *)
Definition notifications_reported (c : @scheduler X) : Prop :=
  let o := rt_notifications (nt_health (sc_notifier c)) in
  in_progress o = false
  ∧ (reason_code o = None → dispatchable (w_db (nt_world (sc_notifier c))) = []).

(** A dispatch says nothing of the scanner. *)
Definition scanner_said (o : BackgroundOutcome) (n : @notifier X) : Prop :=
  rt_sla_scanner (nt_health n) = o.

Lemma said_on_world o {A} (m : M world A) : preserves (scanner_said o) (on_world m).
Proof using Type.
  intros n Hn. unfold scanner_said in *. by rewrite (proj1 (on_world_health m n)).
Qed.

Lemma dispatch_says_nothing o fuel : ∀ count,
  preserves (scanner_said o) (dispatch_pending_sla_notifications mail fuel count).
Proof using Type.
  induction fuel as [|fuel IH]; intros count; cbn [dispatch_pending_sla_notifications]; [by intros n|].
  apply preserves_bind; [apply said_on_world|]. intros [[i payload]|]; [|by intros n].
  apply preserves_bind.
  { intros n Hn. unfold scanner_said. by rewrite deliver_health. }
  intros [e|]; (apply preserves_bind; [|intros _]).
  - by intros n.
  - apply preserves_bind; [apply said_on_world|]. intros _. by intros n.
  - apply said_on_world.
  - apply IH.
Qed.

Lemma dispatch_turn_reports fuel c :
  let '(o, c') := dispatch_turn mail fuel c in
  rt_sla_scanner (nt_health (sc_notifier c')) = rt_sla_scanner (nt_health (sc_notifier c))
  ∧ match o with
    | Raise e => is_Exception e = false
    | Ok None => True
    | Ok (Some _) => notifications_reported c'
    end.
Proof using Type.
  destruct c as [[w x h] sh]. unfold dispatch_turn. rewrite bind_unfold.
  unfold report at 1, on_notifier at 1, on_health at 1, modify at 1. cbn [sc_notifier sc_scanner nt_world nt_mail nt_health].
  set (n1 := mk_notifier w x _). rewrite bind_unfold. unfold attempted, on_notifier at 1. cbn [sc_notifier].
  pose proof (dispatch_says_nothing (rt_sla_scanner h) fuel 0 n1 eq_refl) as Hs.
  destruct (dispatch_pending_sla_notifications mail fuel 0 n1) as [[[c|]|e] n'] eqn:E;
    unfold scanner_said in Hs; cbn [snd] in Hs.
  - apply dispatch_reports in E. rewrite bind_unfold. unfold gets. cbn [sc_notifier].
    destruct E as [[Hd Hh]|(now & r & Hh)]; rewrite Hh; cbn; unfold notifications_reported; cbn.
    + rewrite bind_unfold. unfold report, on_notifier, on_health, modify. cbn. by rewrite Hs.
    + rewrite bind_unfold. unfold mret, M_ret. cbn. rewrite Hh. by split_and!.
  - done.
  - destruct (is_Exception e) eqn:Ee; [|done]. by cbn.
Qed.

(** With enough fuel the dispatch of a turn returns, and writes only events. *)
Lemma dispatch_turn_world fuel c :
  let w := nt_world (sc_notifier c) in
  NoDup (event_id <$> exception_events (w_db w)) →
  Forall (λ ev, ck_event ev = true) (exception_events (w_db w)) →
  count_by to_notify (exception_events (w_db w)) < fuel →
  let '(o, c') := dispatch_turn mail fuel c in
  match o with
  | Ok None => False
  | Ok (Some _) => ∃ evs, nt_world (sc_notifier c') = with_events evs w
  | Raise _ => True
  end.
Proof using Type.
  destruct c as [[w x h] sh]. cbn [sc_notifier nt_world]. intros Hn Hf Hc. unfold dispatch_turn.
  rewrite bind_unfold. unfold report at 1, on_notifier at 1, on_health at 1, modify at 1.
  cbn [sc_notifier sc_scanner nt_world nt_mail nt_health].
  set (n1 := mk_notifier w x _). rewrite bind_unfold. unfold attempted, on_notifier at 1. cbn [sc_notifier].
  pose proof (dispatch_settles mail fuel 0 n1 Hn Hf Hc) as H.
  destruct (dispatch_pending_sla_notifications mail fuel 0 n1) as [[[k|]|e] n'];
    destruct H as (Hw & _ & H); [|done|].
  - rewrite bind_unfold. unfold gets. cbn [sc_notifier sc_scanner].
    destruct (in_progress _); rewrite bind_unfold; unfold report, on_notifier, on_health, modify, mret, M_ret;
      cbn; eauto.
  - by rewrite H.
Qed.

(** ** Properties *)

(** C28 A turn of the SLA scheduler does its work and says how it went.  On sound
    tables, with fuel for the scan and enough for the dispatch, it returns, or it is
    cancelled; when it returns every shipment past its deadline that lacks a document
    has an active exception, the scanner has succeeded, no dispatch is reported as
    being in progress, and the notifications are reported without an error only when
    no event is left to notify of. *)
Theorem sla_turn_reports scan_fuel sla (c : @scheduler X) :
  let w := nt_world (sc_notifier c) in
  let now := clock (w_env w) in
  recon_wf (session_of w) → all_convert (w_db w) → events_sound (w_db w) →
  count_by (claimable now sla (w_db w)) (shipments (w_db w)) < scan_fuel →
  ∃ bound, ∀ dispatch_fuel, bound < dispatch_fuel →
    let '(o, c') := sla_turn mail scan_fuel dispatch_fuel sla c in
    let d := w_db (nt_world (sc_notifier c')) in
    match o with
    | Raise e => is_Exception e = false
    | Ok r =>
        r = Some true
        ∧ (∀ sh, sh ∈ shipments d → (created_at sh + sla <= now)%Z →
             has_invoice sh && has_rate_con sh && has_bol sh && has_pod sh = false →
             active_exception (shipment_id sh) d = true)
        ∧ reason_code (rt_sla_scanner (nt_health (sc_notifier c'))) = None
        ∧ notifications_reported c'
    end.
Proof using Type.
  intros w now W Hall He Hf. destruct c as [[w0 x h] sh]. cbn [sc_notifier nt_world] in w.
  destruct (scan_effect now sla scan_fuel w 0 W Hall Hf) as (k & w' & E & _ & Hdone & W').
  assert (He' : events_sound (w_db w'))
    by (pose proof (sound_scan scan_fuel now sla 0 w He) as H; by rewrite E in H).
  exists (count_by to_notify (exception_events (w_db w'))). intros dispatch_fuel Hd.
  unfold sla_turn. rewrite bind_unfold. unfold gets at 1. cbn [sc_notifier nt_world]. fold w now.
  rewrite bind_unfold. unfold report at 1, on_notifier at 1, on_health at 1, modify at 1.
  cbn [sc_notifier sc_scanner nt_world nt_mail nt_health]. set (h1 := on_sla_outcome _ h).
  rewrite bind_unfold. unfold attempted at 1, on_notifier at 1. cbn [sc_notifier sc_scanner].
  unfold on_world at 1. cbn [nt_world nt_mail nt_health]. rewrite E. rewrite bind_unfold.
  unfold iteration, run_scanner_iteration at 1. cbn [sc_scanner sc_notifier default].
  rewrite bind_unfold. unfold gets at 1. rewrite bind_unfold.
  unfold report at 1, on_notifier at 1, on_health at 1, modify at 1.
  cbn [sc_notifier sc_scanner nt_world nt_mail nt_health].
  set (c1 := mk_scheduler _ _). rewrite bind_unfold.
  pose proof (dispatch_turn_reports dispatch_fuel c1) as Hrep.
  pose proof (dispatch_turn_world dispatch_fuel c1 (proj1 He') (proj2 He') Hd) as Hw.
  destruct (dispatch_turn mail dispatch_fuel c1) as [[[[]|]|e] c2]; destruct Hrep as [Hs Hr]; [|done..].
  destruct Hw as [evs Hw]. cbn [mret M_ret fmap option_fmap option_map].
  split; [done|]. split; [|split; [|exact Hr]].
  - rewrite Hw. intros x' Hsh Hlate Hmiss. change (shipments _) with (shipments (w_db w')) in Hsh.
    specialize (Hdone x' Hsh). unfold claimable in Hdone.
    rewrite has_active_exception_spec in Hdone by apply W'.
    replace (created_at x' <=? now - sla)%Z with true in Hdone by lia.
    change (active_exception _ _) with (active_exception (shipment_id x') (w_db w')).
    destruct (active_exception _ _); [done|].
    by destruct (has_invoice x'), (has_rate_con x'), (has_bol x'), (has_pod x').
  - by rewrite Hs.
Qed.
End Report.

(** ** The poll *)

Section PollTurn.
Context {R : Redis} `{JobCodec} {G : Gmail} (s : queue_settings) (invalid : attachment → string).

(** Only [observe] writes the health of a poll. *)
Abbreviation health_kept h := (preserves (λ p : poller, pl_health p = h)).

Lemma health_on_gmail h {A} (m : M mailbox A) : health_kept h (on_gmail m).
Proof. intros p. unfold on_gmail. by destruct (m (pl_mail p)). Qed.
Lemma health_on_redis h {A} (m : M rdb A) : health_kept h (on_redis m).
Proof. intros p. unfold on_redis. by destruct (m (pl_queue p)). Qed.

Lemma health_poll_message h account id : health_kept h (poll_message s invalid account id).
Proof.
  unfold poll_message. apply preserves_bind; [apply health_on_gmail|]. intros atts.
  destruct (is_nil atts); [apply preserves_ret|]. apply preserves_bind.
  - induction atts as [|a atts IH]; cbn [for_each]; [apply preserves_ret|].
    apply preserves_bind; [|done]. unfold enqueue_attachment. apply preserves_bind; [by intros p|].
    intros now. apply preserves_bind; [apply preserves_of_res|]. intros job.
    apply preserves_bind; [apply health_on_redis|]. intros _. apply preserves_ret.
  - intros _. apply preserves_bind; [apply health_on_gmail|]. intros _. apply preserves_ret.
Qed.

Lemma health_poll_messages h account ids : ∀ n, health_kept h (poll_messages s invalid account n ids).
Proof.
  induction ids as [|id ids IH]; intros n; cbn [poll_messages]; [apply preserves_ret|].
  apply preserves_bind; [apply health_poll_message|]. intros b. apply IH.
Qed.

Lemma observe_some f p h :
  pl_health p = Some h →
  ∃ now p', observe f p = (Ok tt, p') ∧ pl_health p' = Some (on_gmail_outcome (f now) h).
Proof. intros E. unfold observe. rewrite E. by eexists _, _. Qed.

(** A turn of the poll scheduler survives everything but a cancellation, and leaves no
    poll reported as being in progress. *)
Lemma poll_turn_survives (p : poller) h :
  pl_health p = Some h →
  let '(o, p') := gmail_poll_turn s invalid p in
  match o with
  | Raise e => is_Exception e = false
  | Ok _ => ∃ h', pl_health p' = Some h' ∧ in_progress (rt_gmail h') = false
  end.
Proof.
  intros Hh. unfold gmail_poll_turn, ignore, poll_inbox, try_except at 1. rewrite !bind_unfold.
  destruct (observe_some started p h Hh) as (t0 & p0 & -> & H0).
  set (h0 := on_gmail_outcome (started t0) h) in *. clearbody h0. clear Hh h.
  set (work := _ ← on_gmail gm_service; _). unfold try_except.
  assert (Hw : match work p0 with
               | (Ok _, p') => ∃ h', pl_health p' = Some h' ∧ in_progress (rt_gmail h') = false
               | (Raise _, p') => pl_health p' = Some h0
               end).
  { unfold work. rewrite bind_unfold. pose proof (health_on_gmail _ gm_service p0 H0) as H1.
    destruct (on_gmail gm_service p0) as [[[]|e] p1]; [|exact H1]. cbn [snd] in H1.
    rewrite bind_unfold. pose proof (health_on_gmail _ gmail_account_of p1 H1) as H2.
    destruct (on_gmail gmail_account_of p1) as [[account|e] p2]; [|exact H2]. cbn [snd] in H2.
    rewrite bind_unfold. pose proof (health_on_gmail _ gm_unread p2 H2) as H3.
    destruct (on_gmail gm_unread p2) as [[ids|e] p3]; [|exact H3]. cbn [snd] in H3.
    rewrite bind_unfold. pose proof (health_poll_messages _ account ids 0%Z p3 H3) as H4.
    destruct (poll_messages s invalid account 0 ids p3) as [[n|e] p4]; [|exact H4]. cbn [snd] in H4.
    rewrite bind_unfold.
    destruct (observe_some (λ now, succeeded now (Some n)) p4 h0 H4) as (t5 & p5 & -> & H5).
    eexists. by split; [exact H5|]. }
  destruct (work p0) as [[n|e] p']; [exact Hw|]. destruct (is_Exception e) eqn:Ee; [|by rewrite Ee].
  rewrite bind_unfold.
  destruct (observe_some (λ now, failed now (reason_code_for_exception e)) p' h0 Hw) as (t1 & p1 & -> & H1).
  unfold raise. rewrite Ee. unfold mret, M_ret. eexists. by split; [exact H1|].
Qed.
End PollTurn.

(** ** Witnesses *)

Definition demo_scheduler : @scheduler (list string) :=
  mk_scheduler (mk_notifier demo_world [] new_runtime) initial_health.

Lemma sla_turn_reports_witness :
  ∃ bound, ∀ dispatch_fuel, bound < dispatch_fuel →
    let '(o, c') := sla_turn demo_mailer 2 dispatch_fuel (hours 72) demo_scheduler in
    match o with Raise e => is_Exception e = false | Ok r => r = Some true end.
Proof.
  destruct (sla_turn_reports demo_mailer 2 (hours 72) demo_scheduler) as [bound H].
  - exact demo_shipments_wf.
  - intros sh ->%list_elem_of_singleton. vm_compute. reflexivity.
  - split; [apply NoDup_nil_2|apply Forall_nil_2].
  - vm_compute. lia.
  - exists bound. intros f Hf. specialize (H f Hf).
    destruct (sla_turn demo_mailer 2 f (hours 72) demo_scheduler) as [[r|e] c']; [|exact H].
    exact (proj1 H).
Defined.
