(* ===== verification/GmailAuth.v ===== *)
(** * Authenticating with Gmail

    [app/services/gmail_auth.py]: the service object, from the token file or by the flow in
    the browser.  The Google libraries are the class [OAuth], as they are at one moment:
    whether credentials are valid, the refresh of a token and the flow, with what is
    documented of them, that both give valid credentials and that credentials are read back
    as they were written.  The background tasks ask without interaction; what they get is
    compared with what the readiness probe of Health says of the same file. *)

From S2P Require Import Prelude PyText DateTime PyFloat Json Database Health Notifier.
From Stdlib Require Import Ascii.
Local Open Scope string_scope.
Local Open Scope list_scope.
Local Open Scope nat_scope.

Class OAuth := {
  Credentials : Type;
  service : Type;
  oauth : Type;
  (** [Credentials.from_authorized_user_file], of the text of the file, and [to_json] *)
  from_authorized_user : string → res Credentials;
  to_json : Credentials → string;
  cred_valid : Credentials → bool;
  cred_expired : Credentials → bool;
  refresh_token : Credentials → option string;
  (** [creds.refresh(Request())], the flow of a client secrets file, and [build] *)
  cred_refresh : Credentials → M oauth Credentials;
  run_local_server : string → M oauth Credentials;
  build : Credentials → M oauth service;
  (** what is documented of them *)
  refresh_gives_valid c x c' x' : cred_refresh c x = (Ok c', x') → cred_valid c' = true;
  flow_gives_valid secrets x c x' : run_local_server secrets x = (Ok c, x') → cred_valid c = true;
  json_not_empty c : to_json c ≠ "";
  json_read_back c : from_authorized_user (to_json c) = Ok c
}.

Section Auth.
Context {O : OAuth}.

(** The two files, by their text where they exist, and the libraries. *)
Record gmail_files := mk_files {
  token_file : option string; credentials_file : option string; remote : oauth
}.

Definition on_oauth {A} (m : M oauth A) : M gmail_files A := λ f,
  let '(r, x) := m (remote f) in (r, mk_files (token_file f) (credentials_file f) x).

Definition write_token (text : string) : M gmail_files unit :=
  modify (λ f, mk_files (Some text) (credentials_file f) (remote f)).

Definition file_not_found {S A} : M S A :=
  raise (Exn (OtherError "FileNotFoundError") "Gmail OAuth credentials file not found").

(** [if token_path.exists() and token_path.stat().st_size > 0: creds = ...] *)
Definition stored_credentials : M gmail_files (option Credentials) :=
  token ← gets token_file;
  match token with
  | Some text => if str_truthy text then c ← of_res (from_authorized_user text); mret (Some c) else mret None
  | None => mret None
  end.

(** The credentials of the flow. *)
Definition interactive_credentials (allow_interactive : bool) : M gmail_files Credentials :=
  if negb allow_interactive then raise (Exn RuntimeError no_token)
  else
    secrets ← gets credentials_file;
    match secrets with
    | None => file_not_found
    | Some text => on_oauth (run_local_server text)
    end.

Definition get_gmail_service (allow_interactive : bool) : M gmail_files service :=
  creds ← stored_credentials;
  creds ← match creds with
          | Some c =>
              if cred_valid c then mret c
              else
                c ← (if cred_expired c && opt_truthy str_truthy (refresh_token c)
                     then on_oauth (cred_refresh c)
                     else interactive_credentials allow_interactive);
                _ ← write_token (to_json c);
                mret c
          | None =>
              c ← interactive_credentials allow_interactive;
              _ ← write_token (to_json c);
              mret c
          end;
  on_oauth (build creds).

(** ** What the probe sees of the same file *)

Definition token_size (f : gmail_files) : option Z := (λ s, Z.of_nat (String.length s)) <$> token_file f.

Definition token_credentials (f : gmail_files) : res (bool * option string) :=
  match from_authorized_user (default "" (token_file f)) with
  | Ok c => Ok (cred_valid c, refresh_token c)
  | Raise e => Raise e
  end.

Definition probed (f : gmail_files) : res (option string) :=
  inspect_gmail_token (token_size f) (token_credentials f).

(** The token file holds credentials that are valid now. *)
Definition authenticated (f : gmail_files) : Prop :=
  ∃ text c, token_file f = Some text ∧ text ≠ "" ∧ from_authorized_user text = Ok c ∧ cred_valid c = true.

(** Credentials that are not valid have expired: what the libraries say of credentials
    that have a token or were saved without its expiry. *)
Definition expiry_known (f : gmail_files) : Prop :=
  ∀ text c, token_file f = Some text → from_authorized_user text = Ok c →
            cred_valid c = true ∨ cred_expired c = true.

Lemma empty_text (s : string) : str_truthy s = false ↔ s = "".
Proof. unfold str_truthy. rewrite Bool.negb_false_iff, String.eqb_eq. done. Qed.

Lemma probed_cases f text :
  token_file f = Some text → text ≠ "" →
  probed f = match from_authorized_user text with
             | Ok c => Ok (if negb (cred_valid c) && negb (opt_truthy str_truthy (refresh_token c))
                           then Some "gmail_token_invalid" else None)
             | Raise e => inspect_gmail_token (Some 1%Z) (Raise e)
             end.
Proof.
  intros Hf Hne. unfold probed, token_size, token_credentials. rewrite Hf. cbn [fmap option_fmap option_map default id].
  destruct text as [|a s]; [done|]. cbn [String.length].
  destruct (Z.of_nat _) eqn:E; [lia|..]; by destruct (from_authorized_user _).
Qed.

Lemma stored_present f text :
  token_file f = Some text → text ≠ "" →
  stored_credentials f = (match from_authorized_user text with Ok c => Ok (Some c) | Raise e => Raise e end, f).
Proof.
  intros Hf Hne. unfold stored_credentials. rewrite bind_unfold. unfold gets. rewrite Hf.
  destruct (str_truthy text) eqn:Et; [|by apply empty_text in Et].
  rewrite bind_unfold. unfold of_res. by destruct (from_authorized_user text).
Qed.

Lemma stored_absent f :
  token_file f = None ∨ token_file f = Some "" → stored_credentials f = (Ok None, f).
Proof. unfold stored_credentials. rewrite bind_unfold. unfold gets. by intros [-> | ->]. Qed.

(** Authenticated, the service is built from the file alone. *)
Lemma service_authenticated f allow :
  authenticated f → ∃ c, cred_valid c = true
    ∧ get_gmail_service allow f = on_oauth (build c) f.
Proof.
  intros (text & c & Hf & Hne & Hc & Hv). exists c. split; [done|]. unfold get_gmail_service.
  rewrite bind_unfold, (stored_present f text Hf Hne), Hc, bind_unfold, Hv. done.
Qed.

(** What is written is read back as valid. *)
Lemma written_authenticated f c : cred_valid c = true → authenticated (write_token (to_json c) f).2.
Proof.
  intros Hv. exists (to_json c), c. split; [done|]. split; [apply json_not_empty|].
  split; [apply json_read_back|done].
Qed.

Lemma on_oauth_files {A} (m : M oauth A) f :
  token_file (on_oauth m f).2 = token_file f ∧ credentials_file (on_oauth m f).2 = credentials_file f.
Proof. unfold on_oauth. by destruct (m (remote f)). Qed.

Lemma authenticated_file f f' : token_file f' = token_file f → authenticated f → authenticated f'.
Proof. intros E (text & c & H & H'). exists text, c. by rewrite E. Qed.

(** A call that returns leaves the next one authenticated. *)
Lemma service_authenticates allow f x f' :
  get_gmail_service allow f = (Ok x, f') → authenticated f'.
Proof.
  unfold get_gmail_service. intros H. apply bind_ok_inv in H as (o & f1 & H1 & H).
  apply bind_ok_inv in H as (c & f2 & H2 & H).
  assert (Hauth : authenticated f2).
  { assert (Hw : ∀ m : M gmail_files Credentials, (∀ g c' g', m g = (Ok c', g') → cred_valid c' = true) →
      (c' ← m; _ ← write_token (to_json c'); mret c') f1 = (Ok c, f2) → authenticated f2).
    { intros m Hm E. apply bind_ok_inv in E as (c' & f3 & E1 & E). apply bind_ok_inv in E as ([] & f4 & E2 & E).
      injection E as <- <-. unfold write_token, modify in E2. injection E2 as <-.
      apply (written_authenticated f3). by apply (Hm f1 c' f3). }
    assert (Hi : ∀ g c' g', interactive_credentials allow g = (Ok c', g') → cred_valid c' = true).
    { intros g c' g'. unfold interactive_credentials. destruct allow; [|done]. cbn [negb].
      rewrite bind_unfold. unfold gets. destruct (credentials_file g) as [text|]; [|done].
      unfold on_oauth. destruct (run_local_server text (remote g)) as [[c1|e] x1] eqn:E; [|done].
      intros [= <- _]. by apply flow_gives_valid in E. }
    assert (Hr : ∀ c0 g c' g', on_oauth (cred_refresh c0) g = (Ok c', g') → cred_valid c' = true).
    { intros c0 g c' g'. unfold on_oauth. destruct (cred_refresh c0 (remote g)) as [[c1|e] x1] eqn:E; [|done].
      intros [= <- _]. by apply refresh_gives_valid in E. }
    destruct o as [c0|]; [|by apply (Hw _ Hi)]. destruct (cred_valid c0) eqn:Hv.
    - injection H2 as <- <-. unfold stored_credentials in H1. apply bind_ok_inv in H1 as (t & f3 & Ht & H1).
      unfold gets in Ht. injection Ht as <- <-. destruct (token_file f) as [text|] eqn:Et; [|done].
      destruct (str_truthy text) eqn:Es; [|done]. apply bind_ok_inv in H1 as (c1 & f4 & Hc & H1).
      injection H1 as -> <-. unfold of_res in Hc. injection Hc as Hc <-. exists text, c0.
      split; [done|]. split; [|done]. intros ->. discriminate Es.
    - destruct (cred_expired c0 && _); [by apply (Hw _ (Hr c0))|by apply (Hw _ Hi)]. }
  apply (authenticated_file f2); [|done]. pose proof (on_oauth_files (build c) f2) as [Hf _]. by rewrite H in Hf.
Qed.

End Auth.
Arguments gmail_files : clear implicits.
Arguments gmail_files O.

(** ** Libraries with these properties *)

Record user_credentials := mk_user_credentials {
  uc_valid : bool; uc_expired : bool; uc_refresh_token : option string
}.

Definition flag (b : bool) : string := if b then "1" else "0".

Definition user_json (c : user_credentials) : string :=
  flag (uc_valid c) +:+ flag (uc_expired c)
  +:+ match uc_refresh_token c with None => "n" | Some t => "r" +:+ t end.

Definition user_of_json (s : string) : res user_credentials :=
  match s with
  | String v (String x (String k t)) =>
      Ok (mk_user_credentials (Ascii.eqb v "1") (Ascii.eqb x "1") (if Ascii.eqb k "r" then Some t else None))
  | _ => Raise (Exn ValueError "Authorized user info was not in the expected format")
  end.

(** A refresh fails without a refresh token; the flow and the service always succeed. *)
#[export] #[refine] Instance reference_oauth : OAuth := {
  Credentials := user_credentials;
  service := user_credentials;
  oauth := nat;
  from_authorized_user := user_of_json;
  to_json := user_json;
  cred_valid := uc_valid;
  cred_expired := uc_expired;
  refresh_token := uc_refresh_token;
  cred_refresh c n := match uc_refresh_token c with
                      | Some t => (Ok (mk_user_credentials true false (Some t)), S n)
                      | None => (Raise (Exn (OtherError "RefreshError") "no refresh token"), S n)
                      end;
  run_local_server _ n := (Ok (mk_user_credentials true false (Some "1//new")), S n);
  build c n := (Ok c, n)
}.
Proof.
  - intros c x c' x'. destruct (uc_refresh_token c); by intros [= <- _].
  - by intros secrets x c x' [= <- _].
  - intros [[] [] [t|]]; done.
  - intros [[] [] [t|]]; done.
Defined.

(** An expired token with its refresh token: the poll refreshes it, the next one does not. *)
Definition demo_files : gmail_files reference_oauth :=
  mk_files (Some (user_json (mk_user_credentials false true (Some "1//old")))) None 0.


(** A saved token that is not valid and has not expired either: the probe finds nothing
    wrong, and the poll says that there is no token. *)
Lemma unexpired_token_refused :
  let f : gmail_files reference_oauth :=
    mk_files (Some (user_json (mk_user_credentials false false (Some "1//old")))) None 0 in
  probed f = Ok None ∧ get_gmail_service false f = (Raise (Exn RuntimeError no_token), f).
Proof. done. Qed.
