(* ===== verification/Process.v ===== *)
(** * The life of the process

    [lifespan] of [app/main.py] with the routes of its state: the start of the three
    background tasks, their ends, and the shutdown.  The tasks share the [RuntimeHealth] of
    the process; [writes] is what each of them can write there, which their loops are shown
    to respect.  An application is a transition system: turns of the tasks and requests in
    any order, a task that ends by itself or by its cancellation, the shutdown and, when
    every task has ended, the disposal of the engine. *)

From S2P Require Import Prelude PyText DateTime PyFloat Json Database MissingDocs Shipments.
From S2P Require Import Reconciliation SlaScanner Workflow Frame BusinessState InvoiceJob Redis InvoiceQueue.
From S2P Require Import QueueRoutes InvoiceWorker Health Notifier WorkerLoop GmailPoller Schedulers.
From stdpp Require Import relations.
From Stdlib Require Import Ascii.
Local Open Scope string_scope.
Local Open Scope list_scope.
Local Open Scope nat_scope.

#[export] Instance component_eq_dec : EqDecision component.
Proof. solve_decision. Defined.

(** ** What a task writes *)

Inductive writes : component → RuntimeHealth → RuntimeHealth → Prop :=
  | w_gmail f h : writes gmail_component h (on_gmail_outcome f h)
  | w_worker_started h : writes invoice_worker_component h (worker_started h)
  | w_worker_failed r h : writes invoice_worker_component h (worker_failed r h)
  | w_worker_notifications f h : writes invoice_worker_component h (on_notification_outcome f h)
  | w_sla f h : writes sla_scanner_component h (on_sla_outcome f h)
  | w_sla_notifications f h : writes sla_scanner_component h (on_notification_outcome f h).

(** What no other task can touch. *)
Definition own_outcome (c : component) (h : RuntimeHealth) : CheckStatus * option string * BackgroundOutcome :=
  match c with
  | gmail_component => (STARTING, None, rt_gmail h)
  | invoice_worker_component => (invoice_worker_status h, invoice_worker_reason h, no_outcome)
  | sla_scanner_component => (STARTING, None, rt_sla_scanner h)
  end.

Lemma writes_phase c h h' : writes c h h' → phase h' = phase h.
Proof. by destruct 1. Qed.

Lemma writes_own c c' h h' : writes c h h' → c ≠ c' → own_outcome c' h' = own_outcome c' h.
Proof. by destruct 1, c'. Qed.

Abbreviation wrote c := (rtc (writes c)).

Lemma wrote_phase c h h' : wrote c h h' → phase h' = phase h.
Proof. induction 1 as [|h1 h2 h3 H _ IH]; [done|]. by rewrite IH, (writes_phase c h1 h2). Qed.

Lemma wrote_own c c' h h' : wrote c h h' → c ≠ c' → own_outcome c' h' = own_outcome c' h.
Proof.
  intros H Hne. induction H as [|h1 h2 h3 H _ IH]; [done|]. by rewrite IH, (writes_own c c' h1 h2).
Qed.

(** *** The poll *)

Section Poll.
Context {R : Redis} `{JobCodec} {G : Gmail} (s : queue_settings) (invalid : attachment → string)
        (h0 : RuntimeHealth).

Definition poller_wrote (p : poller) : Prop := ∃ h, pl_health p = Some h ∧ wrote gmail_component h0 h.

Lemma poller_wrote_kept {A} (m : M poller A) :
  (∀ h, preserves (λ p, pl_health p = Some h) m) → preserves poller_wrote m.
Proof. intros Hm p (h & Hp & Hw). exists h. split; [by apply Hm|done]. Qed.

Lemma poller_wrote_observe f : preserves poller_wrote (observe f).
Proof.
  intros p (h & Hp & Hw). destruct (observe_some f p h Hp) as (now & p' & -> & Hp').
  exists (on_gmail_outcome (f now) h). split; [done|]. eapply rtc_r; [exact Hw|apply w_gmail].
Qed.

(** A turn of [gmail_poll_scheduler], or a request to poll. *)
Lemma poll_inbox_writes : preserves poller_wrote (poll_inbox s invalid).
Proof.
  unfold poll_inbox. apply preserves_bind; [apply poller_wrote_observe|]. intros _. apply preserves_try.
  - apply preserves_bind; [apply poller_wrote_kept; intros h; apply health_on_gmail|]. intros _.
    apply preserves_bind; [apply poller_wrote_kept; intros h; apply health_on_gmail|]. intros account.
    apply preserves_bind; [apply poller_wrote_kept; intros h; apply health_on_gmail|]. intros ids.
    apply preserves_bind; [apply poller_wrote_kept; intros h; apply health_poll_messages|]. intros n.
    apply preserves_bind; [apply poller_wrote_observe|]. intros _. apply preserves_ret.
  - intros e k. destruct (is_Exception e); [|done]. intros [= <-].
    apply preserves_bind; [apply poller_wrote_observe|]. intros _. apply preserves_raise.
Qed.
End Poll.

(** *** The notifier, for the two tasks that use it *)

Section Notifying.
Context {X : Type} (mail : mailer X) (c : component) (h0 : RuntimeHealth).
Hypothesis may_notify : c = invoice_worker_component ∨ c = sla_scanner_component.

Definition notifier_wrote (n : @notifier X) : Prop := wrote c h0 (nt_health n).

Lemma notifier_wrote_world {A} (m : M world A) : preserves notifier_wrote (on_world m).
Proof using Type. intros n Hn. unfold notifier_wrote. by rewrite (proj1 (on_world_health m n)). Qed.

Lemma notifier_wrote_mail {A} (m : M X A) : preserves notifier_wrote (on_mail m).
Proof using Type. intros n Hn. unfold on_mail. by destruct (m (nt_mail n)). Qed.

Lemma notifier_wrote_notifications f : preserves notifier_wrote (on_health (λ now, on_notification_outcome (f now))).
Proof using may_notify.
  intros n Hn. unfold notifier_wrote in *. cbn. eapply rtc_r; [exact Hn|].
  destruct may_notify as [-> | ->]; [apply w_worker_notifications|apply w_sla_notifications].
Qed.

Lemma notifier_wrote_deliver p : preserves notifier_wrote (deliver mail p).
Proof using Type. intros n Hn. unfold notifier_wrote. by rewrite (deliver_health mail p n). Qed.

Lemma dispatch_writes fuel : ∀ count, preserves notifier_wrote (dispatch_pending_sla_notifications mail fuel count).
Proof using may_notify.
  induction fuel as [|fuel IH]; intros count; cbn [dispatch_pending_sla_notifications]; [apply preserves_ret|].
  apply preserves_bind; [apply notifier_wrote_world|]. intros [[i p]|]; [|apply preserves_ret].
  apply preserves_bind; [apply notifier_wrote_deliver|]. intros [e|].
  - apply preserves_bind; [apply notifier_wrote_notifications|]. intros _.
    apply preserves_bind; [apply notifier_wrote_world|]. intros _. apply preserves_ret.
  - apply preserves_bind; [apply notifier_wrote_world|]. intros _. apply IH.
Qed.

Lemma send_batch_summary_writes results : preserves notifier_wrote (send_batch_summary mail results).
Proof using Type.
  unfold send_batch_summary. destruct (is_nil results); [apply preserves_ret|].
  apply preserves_bind; [apply notifier_wrote_mail|]. intros [|]; [apply notifier_wrote_world|apply preserves_ret].
Qed.
End Notifying.

(** *** The scanner *)

Section Scanner.
Context {X : Type} (mail : mailer X) (h0 : RuntimeHealth).

Definition scheduler_wrote (c : @scheduler X) : Prop := notifier_wrote sla_scanner_component h0 (sc_notifier c).

Lemma scheduler_wrote_notifier {A} (m : M notifier A) :
  preserves (notifier_wrote sla_scanner_component h0) m → preserves scheduler_wrote (on_notifier m).
Proof using Type.
  intros Hm c Hc. unfold on_notifier. specialize (Hm (sc_notifier c) Hc).
  by destruct (m (sc_notifier c)) as [r n].
Qed.

Lemma scheduler_wrote_sla f : preserves scheduler_wrote (report (λ now, on_sla_outcome (f now))).
Proof using Type.
  unfold report. apply scheduler_wrote_notifier. intros n Hn. unfold notifier_wrote in *. cbn.
  eapply rtc_r; [exact Hn|apply w_sla].
Qed.

Lemma scheduler_wrote_attempted {A} (m : M scheduler A) :
  preserves scheduler_wrote m → preserves scheduler_wrote (attempted m).
Proof using Type. intros Hm c Hc. unfold attempted. specialize (Hm c Hc). by destruct (m c). Qed.

Lemma scheduler_wrote_gets {A} (f : @scheduler X → A) : preserves scheduler_wrote (gets f).
Proof using Type. by intros c. Qed.

Lemma dispatch_turn_writes fuel : preserves scheduler_wrote (dispatch_turn mail fuel).
Proof using Type.
  assert (Hn : ∀ f, preserves scheduler_wrote (report (λ now, on_notification_outcome (f now)))).
  { intros f. apply scheduler_wrote_notifier, notifier_wrote_notifications. by right. }
  unfold dispatch_turn. apply preserves_bind; [apply Hn|]. intros _. apply preserves_bind.
  { apply scheduler_wrote_attempted, scheduler_wrote_notifier, dispatch_writes. by right. }
  intros [[n|]|e]; [|apply preserves_ret|].
  - apply preserves_bind; [apply scheduler_wrote_gets|]. intros busy. apply preserves_bind.
    + destruct busy; [apply Hn|apply preserves_ret].
    + intros _. apply preserves_ret.
  - destruct (is_Exception e); [|apply preserves_raise]. apply preserves_bind; [apply Hn|].
    intros _. apply preserves_ret.
Qed.

(** A turn of [missing_document_sla_scheduler]. *)
Lemma sla_turn_writes scan_fuel dispatch_fuel sla :
  preserves scheduler_wrote (sla_turn mail scan_fuel dispatch_fuel sla).
Proof using Type.
  unfold sla_turn. apply preserves_bind; [apply scheduler_wrote_gets|]. intros now.
  apply preserves_bind; [apply (scheduler_wrote_sla (λ _, started now))|]. intros _. apply preserves_bind.
  { apply scheduler_wrote_attempted, scheduler_wrote_notifier, notifier_wrote_world. }
  assert (Hrest : ∀ scan, preserves scheduler_wrote
    (succeeded_ ← iteration now scan;
     if (succeeded_ : bool) then
       count ← gets (λ c, SlaScanner.last_result_count (sc_scanner c));
       _ ← report (λ now, on_sla_outcome (succeeded now count));
       done ← dispatch_turn mail dispatch_fuel;
       mret ((λ _, true) <$> done)
     else
       error ← gets (λ c, last_error (sc_scanner c));
       _ ← report (λ now, on_sla_outcome (failed now (default "scan_failed" (str_or error None))));
       mret (Some false))).
  { intros scan. apply preserves_bind.
    { intros c Hc. unfold iteration. by destruct (run_scanner_iteration _ _ _). }
    intros [|]; (apply preserves_bind; [apply scheduler_wrote_gets|]); intros x.
    - apply preserves_bind; [apply (scheduler_wrote_sla (λ now, succeeded now x))|]. intros _.
      apply preserves_bind; [apply dispatch_turn_writes|]. intros d. apply preserves_ret.
    - apply preserves_bind; [|intros _; apply preserves_ret].
      apply (scheduler_wrote_sla (λ now, failed now (default "scan_failed" (str_or x None)))). }
  intros [[n|]|e]; [apply Hrest|apply preserves_ret|apply Hrest].
Qed.
End Scanner.

(** *** The worker *)

Section Worker.
Context {R : Redis} `{JC : JobCodec} `{GE : GraphEngine} (graph : state_graph).
Context {X : Type} (mail : mailer X) (s : queue_settings) (h0 : RuntimeHealth).

Definition process_wrote (p : @process R GE X) : Prop := wrote invoice_worker_component h0 (pr_health p).

Lemma process_wrote_worker {A} (m : M worker A) : preserves process_wrote (on_worker m).
Proof using Type. intros p Hp. unfold on_worker. by destruct (m (pr_worker p)). Qed.

Lemma process_wrote_notifying {A} (m : M notifier A) :
  preserves (notifier_wrote invoice_worker_component h0) m → preserves process_wrote (notifying m).
Proof using Type.
  intros Hm p Hp. unfold notifying. specialize (Hm (as_notifier p) Hp). by destruct (m (as_notifier p)).
Qed.

Lemma flush_writes results : preserves process_wrote (flush_batch_summary mail results).
Proof using Type.
  assert (Hn : ∀ f, preserves process_wrote (report_notifications f)).
  { intros f. apply process_wrote_notifying, notifier_wrote_notifications. by left. }
  unfold flush_batch_summary. destruct (is_nil results); [apply preserves_ret|].
  apply preserves_bind; [apply Hn|]. intros _. apply preserves_bind.
  { intros p Hp. unfold attempted.
    pose proof (process_wrote_notifying _ (send_batch_summary_writes mail invoice_worker_component h0 results) p Hp) as H.
    by destruct (notifying _ p). }
  intros [x|e]; [|destruct (is_Exception e); [|apply preserves_raise]];
    (apply preserves_bind; [apply Hn|intros _; apply preserves_ret]).
Qed.

Lemma worker_turn_writes consumer t results : preserves process_wrote (worker_turn graph mail s consumer t results).
Proof using Type.
  unfold worker_turn. apply preserves_try.
  - apply preserves_bind; [apply process_wrote_worker|]. intros ds. destruct (is_nil ds); [apply flush_writes|].
    apply preserves_bind; [apply process_wrote_worker|]. intros xs. apply preserves_ret.
  - intros e k. destruct (isinstance_exn e RedisTimeoutError); [intros [= <-]; apply flush_writes|].
    destruct (is_Exception e); [intros [= <-]; apply preserves_ret|done].
Qed.

(** The loop of [process_invoice_queue], for any turns. *)
Lemma process_invoice_queue_writes consumer ts :
  preserves process_wrote (process_invoice_queue graph mail s consumer ts).
Proof using Type.
  assert (Hs : ∀ f, (∀ h, writes invoice_worker_component h (f h)) → preserves process_wrote (set_health f)).
  { intros f Hf p Hp. unfold process_wrote. cbn. eapply rtc_r; [exact Hp|apply Hf]. }
  unfold process_invoice_queue. apply preserves_try.
  - apply preserves_bind; [apply process_wrote_worker|]. intros _.
    apply preserves_bind; [apply Hs, w_worker_started|]. intros _. generalize (@nil summary).
    induction ts as [|t ts IH]; intros results; cbn [worker_turns]; [apply preserves_ret|].
    apply preserves_bind; [apply process_wrote_worker|]. intros _.
    apply preserves_bind; [apply worker_turn_writes|]. intros xs. apply IH.
  - intros e k. destruct (is_Exception e); [|done]. intros [= <-].
    apply preserves_bind; [apply Hs, w_worker_failed|]. intros _. apply preserves_raise.
Qed.
End Worker.

(** ** The application *)

(** [app.state], the tasks that have not ended, and whether the engine is open. *)
Record application := mk_application {
  ap_health : RuntimeHealth;
  ap_scanner : ScannerHealth;
  ap_running : list component;
  ap_engine : bool
}.

(** [lifespan] up to its [yield]; no task runs before. *)
Definition lifespan_startup : application :=
  mk_application (set_phase RUNNING new_runtime) initial_health
    [gmail_component; invoice_worker_component; sla_scanner_component] true.

(** The [finally], up to the cancellation of the tasks. *)
Definition lifespan_shutdown (a : application) : application :=
  mk_application (set_phase STOPPING (ap_health a)) (ap_scanner a) (ap_running a) (ap_engine a).

(** Its end, after the [gather] of the tasks: [dispose_engine]. *)
Definition lifespan_dispose (a : application) : application :=
  mk_application (ap_health a) (ap_scanner a) (ap_running a) false.

(** A task ends, and its callback runs. *)
Definition task_exit (c : component) (cancelled : bool) (now : datetime) (a : application) : application :=
  mk_application (record_unexpected_task_exit cancelled c now (ap_health a)) (ap_scanner a)
    (where_ (λ x, negb (bool_decide (x = c))) (ap_running a)) (ap_engine a).

(** [GET /health] and [GET /health/live]; the state may not be there yet. *)
Definition health_check (scanner : option ScannerHealth) : string * string * ScannerHealth :=
  let health := default initial_health scanner in ("ok", health_status health, health).
Definition health_live (runtime : option RuntimeHealth) (now : datetime) : LivenessResponse :=
  liveness (default new_runtime runtime) now.

Inductive app_step : application → application → Prop :=
  | app_turn c h sc a :
      c ∈ ap_running a → wrote c (ap_health a) h → (c ≠ sla_scanner_component → sc = ap_scanner a) →
      app_step a (mk_application h sc (ap_running a) (ap_engine a))
  | app_poll h a :
      phase (ap_health a) = RUNNING → wrote gmail_component (ap_health a) h →
      app_step a (mk_application h (ap_scanner a) (ap_running a) (ap_engine a))
  | app_exit c cancelled now a :
      c ∈ ap_running a → (cancelled = true → phase (ap_health a) = STOPPING) →
      app_step a (task_exit c cancelled now a)
  | app_shutdown a : phase (ap_health a) = RUNNING → app_step a (lifespan_shutdown a)
  | app_dispose a :
      phase (ap_health a) = STOPPING → ap_running a = [] → app_step a (lifespan_dispose a).

(** ** Its invariant *)

Definition exit_reported (c : component) (h : RuntimeHealth) : Prop :=
  match c with
  | invoice_worker_component =>
      invoice_worker_status h = UNAVAILABLE ∧ invoice_worker_reason h = Some "background_task_exited"
  | sla_scanner_component => reason_code (rt_sla_scanner h) = Some "background_task_exited"
  | gmail_component => True
  end.

Record app_inv (a : application) : Prop := {
  ai_phase : phase (ap_health a) = RUNNING ∨ phase (ap_health a) = STOPPING;
  ai_exits : ∀ c, phase (ap_health a) = RUNNING → c ∉ ap_running a → exit_reported c (ap_health a);
  ai_engine : ap_engine a = false → phase (ap_health a) = STOPPING ∧ ap_running a = []
}.

Lemma exit_own c h h' : own_outcome c h' = own_outcome c h → exit_reported c h → exit_reported c h'.
Proof. destruct c; cbn; [done|intros [= -> ->]; done|intros [= ->]; done]. Qed.

Lemma exit_phase cancelled c now h : phase (record_unexpected_task_exit cancelled c now h) = phase h.
Proof. unfold record_unexpected_task_exit. destruct (_ || _); [done|]. by destruct c. Qed.

Lemma exit_of_other cancelled c c' now h :
  c ≠ c' → own_outcome c' (record_unexpected_task_exit cancelled c now h) = own_outcome c' h.
Proof. intros Hne. unfold record_unexpected_task_exit. destruct (_ || _); [done|]. by destruct c, c'. Qed.

Lemma exit_of_own c now h : phase h = RUNNING → exit_reported c (record_unexpected_task_exit false c now h).
Proof. intros Hp. unfold record_unexpected_task_exit. rewrite Hp. by destruct c. Qed.

(** Nothing is written of a task by another one. *)
Lemma app_wrote a c h sc :
  app_inv a → c ∈ ap_running a ∨ c = gmail_component → wrote c (ap_health a) h →
  (ap_engine a = false → c ∈ ap_running a) →
  app_inv (mk_application h sc (ap_running a) (ap_engine a)).
Proof.
  intros [I1 I2 I3] Hc Hw He. pose proof (wrote_phase _ _ _ Hw) as Hp. split; cbn [ap_health ap_running ap_engine].
  - by rewrite Hp.
  - intros c' Hr Hn. destruct (decide (c = c')) as [<-|Hne].
    + destruct Hc as [Hc| ->]; [by destruct Hn|exact I].
    + apply (exit_own c' (ap_health a)); [by apply (wrote_own c)|]. apply I2; [by rewrite <- Hp|done].
  - intros E. destruct (I3 E) as [_ Hr]. specialize (He E). rewrite Hr in He. by apply not_elem_of_nil in He.
Qed.

Lemma app_step_inv a a' : app_step a a' → app_inv a → app_inv a'.
Proof.
  intros H I. destruct H as [c h sc a Hc Hw _|h a Hp Hw|c cancelled now a Hc Hs|a Hp|a Hp Hr].
  - apply (app_wrote a c); auto.
  - apply (app_wrote a gmail_component); auto. intros E. destruct (ai_engine _ I E) as [? _]. congruence.
  - destruct I as [I1 I2 I3]. split; cbn [task_exit ap_health ap_running ap_engine]; rewrite ?exit_phase; [done|..].
    + intros c' Hp Hn. destruct (decide (c = c')) as [<-|Hne].
      * destruct cancelled; [by rewrite Hs in Hp|]. by apply exit_of_own.
      * apply (exit_own c' (ap_health a)); [by apply exit_of_other|]. apply I2; [done|]. intros Hin. apply Hn.
        apply elem_of_where. split; [done|]. apply Bool.negb_true_iff, bool_decide_eq_false. congruence.
    + intros E. destruct (I3 E) as [_ Hr]. rewrite Hr in Hc. by apply not_elem_of_nil in Hc.
  - destruct I as [I1 I2 I3]. split; cbn; [by right|done|]. intros E. destruct (I3 E) as [? _]. congruence.
  - destruct I as [I1 I2 I3]. split; cbn; [done|exact I2|by split].
Qed.

Lemma startup_inv : app_inv lifespan_startup.
Proof.
  split; cbn; [by left| |done]. intros [] _ H; destruct H; [apply list_elem_of_here|..];
    [apply list_elem_of_further, list_elem_of_here|by do 2 apply list_elem_of_further; apply list_elem_of_here].
Qed.

Lemma app_reachable a : rtc app_step lifespan_startup a → app_inv a.
Proof.
  intros H. pose proof startup_inv as I. revert I. generalize lifespan_startup, H. clear H. intros a0 H.
  induction H as [|a1 a2 a3 H1 _ IH]; [done|]. intros I. by apply IH, (app_step_inv a1).
Qed.

(** A scanner that reported a reason is not available. *)
Lemma sla_not_available s h p now reason :
  reason_code (rt_sla_scanner h) = Some reason →
  cap_status (scheduled_sla_scanning (capabilities_of s h p now)) ≠ CAP_AVAILABLE.
Proof.
  intros Hr. unfold capabilities_of. cbn [scheduled_sla_scanning]. unfold runtime_capability. rewrite Hr.
  destruct (is_status UNAVAILABLE (pr_postgresql p)); cbn; by destruct (last_success_at (rt_sla_scanner h)).
Qed.

(** The shutdown goes through: the tasks end by their cancellation, then the engine. *)
Lemma shutdown_completes l : ∀ a,
  phase (ap_health a) = STOPPING → ap_running a ⊆ l → ∃ a',
    rtc app_step a a' ∧ ap_engine a' = false ∧ ap_health a' = ap_health a.
Proof.
  induction l as [|c l IH]; intros a Hp Hl.
  - assert (Hr : ap_running a = []) by (destruct (ap_running a) as [|c r]; [done|];
      by destruct (not_elem_of_nil c); apply Hl; left).
    exists (lifespan_dispose a). split; [|done]. by apply rtc_once, app_dispose.
  - destruct (decide (c ∈ ap_running a)) as [Hc|Hc].
    + assert (Hh : ap_health (task_exit c true 0%Z a) = ap_health a).
      { cbn. unfold record_unexpected_task_exit. by rewrite Bool.orb_true_r. }
      destruct (IH (task_exit c true 0%Z a)) as (a' & H & He & Ha); [by rewrite Hh| |].
      * intros x Hx. cbn in Hx. apply elem_of_where in Hx as [Hx Hne].
        apply Bool.negb_true_iff, bool_decide_eq_false in Hne. by destruct (proj1 (elem_of_cons _ _ _) (Hl x Hx)).
      * exists a'. split; [|split; [done|congruence]]. eapply rtc_l; [|exact H]. by apply app_exit.
    + apply IH; [done|]. intros x Hx. destruct (proj1 (elem_of_cons _ _ _) (Hl x Hx)) as [->|]; done.
Qed.


(** ** Witness *)

(** The worker ends by itself, then the process is stopped. *)
Definition demo_dead : application := task_exit invoice_worker_component false 7%Z lifespan_startup.


(** The end of the poll task is forgotten when a request polls: the next success of the
    route replaces the report of the task that no longer runs. *)
Lemma dead_poll_forgotten (now : datetime) :
  ∃ a, rtc app_step lifespan_startup a ∧ phase (ap_health a) = RUNNING
    ∧ gmail_component ∉ ap_running a ∧ reason_code (rt_gmail (ap_health a)) = None.
Proof.
  set (a1 := task_exit gmail_component false now lifespan_startup).
  exists (mk_application (on_gmail_outcome (succeeded now (Some 0%Z)) (ap_health a1)) (ap_scanner a1)
    (ap_running a1) true).
  split; [|split; [done|split; [|done]]].
  - eapply rtc_l; [apply (app_exit gmail_component false now); [apply list_elem_of_here|done]|]. fold a1.
    apply rtc_once, (app_poll _ a1); [done|]. apply rtc_once, w_gmail.
  - cbn. intros H. repeat (apply elem_of_cons in H as [?|H]; [done|]). by apply not_elem_of_nil in H.
Qed.
