(* ===== verification/RateConfirmationRoutes.v ===== *)
(** * The routes that create documents

    [app/api/routes/extraction.py]: the extraction of an upload.
    [app/api/routes/rate_confirmations.py]: the validation of a manual rate
    confirmation, its creation in one transaction with a document, the shipment and its
    reconciliation, and the list. *)

From S2P Require Import Prelude PyText LoadNumbers DateTime PyFloat Json Database MissingDocs.
From S2P Require Import Shipments Reconciliation SlaScanner Extraction BusinessState WorkflowRoutes.
From Stdlib Require Import Ascii.
Local Open Scope string_scope.
Local Open Scope list_scope.
Local Open Scope nat_scope.

(** ** Extraction *)

(** [POST /extract] *)
Definition extract (model_fields : schema → json → option coerced) (replies : claude_replies)
    (file_bytes : chars) (filename : string) : M session (http extraction) :=
  try_except (x ← extract_document model_fields replies file_bytes filename None; mret (Response x))
    (λ e, if isinstance_exn e UnsupportedFileTypeError
          then Some (mret (HttpError 415 (JStr (exn_msg e))))
          else if isinstance_exn e ExtractionError
          then Some (mret (HttpError 422 (JStr (exn_msg e))))
          else None).

(** ** The body of a rate confirmation *)

(** [RateConfirmationCreate] *)
Record RateConfirmationCreate := mk_create {
  c_load_number : string;
  c_carrier_name : string;
  c_origin : string;
  c_destination : string;
  c_agreed_rate : float;
  c_currency : string;
  c_shipment_date : date
}.

(** [Field(ge=0)] and [normalize_load_number_value]; a failed [assert] and a
    [ValueError] are validation errors. *)
Definition validate_create (c : RateConfirmationCreate) : option RateConfirmationCreate :=
  if fleb fzero (c_agreed_rate c) then
    match normalize_load_number (Some (c_load_number c)) with
    | Ok (Some n) => Some (mk_create n (c_carrier_name c) (c_origin c) (c_destination c)
                             (c_agreed_rate c) (c_currency c) (c_shipment_date c))
    | Ok None | Raise _ => None
    end
  else None.

Definition new_rate_confirmation (c : RateConfirmationCreate) (i : uuid) (now : datetime)
  : RateConfirmation :=
  mkRateConfirmation i (c_load_number c) (c_carrier_name c) (c_origin c) (c_destination c)
    (c_agreed_rate c) (c_currency c) (c_shipment_date c) now.

(** ** Creating *)

Definition manual_key (rc : RateConfirmation) : string :=
  "manual-rate-confirmation:" +:+ uuid_str (rc_id rc).

(** The [try] block: the row, its document, the shipment, the reconciliation. *)
Definition assemble_rate_confirmation (sla : timedelta) (c : RateConfirmationCreate)
  : M session RateConfirmation :=
  rate_confirmation ← insert_rate_confirmation (new_rate_confirmation c);
  let extraction := rate_confirmation_extraction rate_confirmation in
  document ← insert_document (new_companion rate_confirmation);
  shipment ← upsert_shipment (Some (rc_load_number rate_confirmation)) document extraction;
  match shipment with
  | None => raise (Exn (OtherError "AssertionError") "")
  | Some shipment =>
      now ← db_clock;
      _ ← reconcile_shipment shipment None now sla (Some "manual_rate_confirmation")
            (Some (manual_key rate_confirmation));
      mret rate_confirmation
  end.

Definition already_exists {A} : http A :=
  HttpError 409 (JStr "Rate confirmation already exists for load_number").

(** [POST /rate-confirmations], with a valid body. *)
Definition create_rate_confirmation (sla : timedelta) (c : RateConfirmationCreate)
  : M session (http RateConfirmation) :=
  try_except (rc ← assemble_rate_confirmation sla c; mret (Response rc))
    (λ e, if isinstance_exn e IntegrityError then Some (_ ← rollback; mret already_exists) else None).

(** [GET /rate-confirmations], the latest first. *)
Definition list_rate_confirmations : M session (list RateConfirmation) :=
  select (λ d, sort_by (λ a b, (rc_created_at b <=? rc_created_at a)%Z) (rate_confirmations d)).

(** ** The tables while a rate confirmation is created *)

(** The invariant of a reconciliation needs of the other tables only what the assembly
    leaves alone. *)
Lemma recon_wf_elsewhere s s' :
  recon_wf s → assembly_wf s' → same_elsewhere (working s) (working s') → recon_wf s'.
Proof.
  intros [W1 W2 W3 W4 W5 W6] W' E. unfold same_elsewhere in E.
  split; [done|..]; rewrite E; [by destruct W2|done..].
Qed.

Definition with_rate_confirmation_row (rc : RateConfirmation) (s : session) : session :=
  drawn (on_rate_confirmations (λ t, t ++ [rc])) s.

Lemma insert_rate_confirmation_runs c s :
  recon_wf s → ck_load_number_normalized (c_load_number c) = true →
  existsb (λ x, String.eqb (rc_load_number x) (c_load_number c)) (rate_confirmations (working s)) = false →
  let rc := new_rate_confirmation c (fresh_uuid s) (clock (senv s)) in
  insert_rate_confirmation (new_rate_confirmation c) s = (Ok rc, with_rate_confirmation_row rc s)
  ∧ recon_wf (with_rate_confirmation_row rc s).
Proof.
  intros W Hck Hex rc. pose proof (aw_rng _ (rw_assembly _ W)) as Hf. split.
  - unfold insert_rate_confirmation. session_unfold. fold (fresh_uuid s).
    unfold ck_rate_confirmation. cbn [new_rate_confirmation rc_load_number rc_id]. rewrite Hck.
    assert (E : existsb (λ x, N.eqb (rc_id x) (fresh_uuid s)) (rate_confirmations (working s)) = false)
      by fresh_key s.
    by rewrite E, Hex.
  - destruct W as [[W1 W2 W3 W4 W5 W6 W7 W8] X1 X2 X3 X4 X5]. split; [|by destruct X1|done..].
    split; try done.
    + apply rng_fresh_drawn; [done|]. intros u. unfold uuids_of. cbn.
      rewrite fmap_app, !elem_of_app, list_elem_of_fmap. cbn. set_solver.
    + cbn. rewrite fmap_app, NoDup_app. split; [done|]. split; [|apply NoDup_singleton].
      intros u Hu Hu'%list_elem_of_singleton. simpl in Hu'. subst u.
      apply list_elem_of_fmap in Hu as (x & E & Hx).
      rewrite existsb_false_Forall, Forall_forall in Hex. specialize (Hex x Hx).
      rewrite <- E, String.eqb_refl in Hex. done.
Qed.

Lemma insert_rate_confirmation_conflict c s :
  recon_wf s → ck_load_number_normalized (c_load_number c) = true →
  existsb (λ x, String.eqb (rc_load_number x) (c_load_number c)) (rate_confirmations (working s)) = true →
  ∃ e s', insert_rate_confirmation (new_rate_confirmation c) s = (Raise e, s')
    ∧ isinstance_exn e IntegrityError = true ∧ committed s' = committed s.
Proof.
  intros W Hck Hex. pose proof (aw_rng _ (rw_assembly _ W)) as Hf.
  unfold insert_rate_confirmation. session_unfold. fold (fresh_uuid s).
  unfold ck_rate_confirmation. cbn [new_rate_confirmation rc_load_number rc_id]. rewrite Hck.
  assert (E : existsb (λ x, N.eqb (rc_id x) (fresh_uuid s)) (rate_confirmations (working s)) = false)
    by fresh_key s.
  rewrite E, Hex. cbn. by eexists _, _.
Qed.

Lemma normalize_again ln n :
  normalize_load_number ln = Ok (Some n) → normalize_load_number (Some n) = Ok (Some n).
Proof.
  destruct ln as [v|]; [|done]. cbn [normalize_load_number]. intros H.
  destruct (str_truthy (py_upper (py_strip v))) eqn:Ht; [|done]. injection H as <-.
  assert (E : py_upper (py_strip (py_upper (py_strip v))) = py_upper (py_strip v)).
  { unfold py_strip at 1, strip_by. rewrite trimmed_strip by apply normalized_trimmed.
    by rewrite of_to_chars, py_upper_idemp. }
  by rewrite E, Ht.
Qed.

(** The body of a validated creation has a normal load number. *)
Lemma validate_create_number raw c :
  validate_create raw = Some c →
  normalize_load_number (Some (c_load_number c)) = Ok (Some (c_load_number c))
  ∧ ck_load_number_normalized (c_load_number c) = true.
Proof.
  unfold validate_create. destruct (fleb _ _); [|done].
  destruct (normalize_load_number (Some (c_load_number raw))) as [[n|]|] eqn:E; try done.
  intros [= <-]. cbn [c_load_number]. split; [by eapply normalize_again|by eapply normalize_ck].
Qed.

(** The shipment of load number [n] in tables where it is assembled. *)
Definition assembled (n : string) (d : database) (sh : Shipment) : Prop :=
  where_ (λ x, String.eqb (load_number x) n) (shipments d) = [sh] ∧ has_rate_con sh = true.

(** The reconciliation keeps it assembled. *)
Lemma assembled_update n d sh sh2 l :
  NoDup (shipment_id <$> shipments d) → assembled n d sh →
  shipment_id sh2 = shipment_id sh → load_number sh2 = load_number sh → has_rate_con sh2 = true →
  l = update_where (λ x, N.eqb (shipment_id x) (shipment_id sh)) (λ _, sh2) (shipments d) →
  where_ (λ x, String.eqb (load_number x) n) l = [sh2]
  ∧ where_ (λ x, negb (String.eqb (load_number x) n)) l
    = where_ (λ x, negb (String.eqb (load_number x) n)) (shipments d).
Proof.
  intros Hnd [Hw Hr] Hid Hln Hr2 ->.
  assert (Hin : sh ∈ shipments d ∧ String.eqb (load_number sh) n = true)
    by (apply (elem_of_where (λ x, String.eqb (load_number x) n)); rewrite Hw; apply list_elem_of_here).
  destruct Hin as [Hin E].
  assert (Hq : ∀ x, x ∈ shipments d → N.eqb (shipment_id x) (shipment_id sh) = true → x = sh).
  { intros x Hx Ex%N.eqb_eq. by apply (NoDup_fmap_inj shipment_id _ _ _ Hnd). }
  split.
  - rewrite where_update by (intros x Hx Ex; rewrite (Hq x Hx Ex); by rewrite Hln).
    rewrite Hw. unfold update_where. cbn. by rewrite N.eqb_refl.
  - rewrite where_update by (intros x Hx Ex; rewrite (Hq x Hx Ex); by rewrite Hln).
    unfold update_where. rewrite <- (list_fmap_id (where_ _ (shipments d))) at 2.
    apply list_fmap_ext. intros i x Hx%list_elem_of_lookup_2. apply elem_of_where in Hx as [Hx Ex].
    simpl. destruct (N.eqb (shipment_id x) (shipment_id sh)) eqn:Eq; [|done].
    by rewrite (Hq x Hx Eq), E in Ex.
Qed.

(** The document of a new confirmation assembles the shipment of its load number. *)
Lemma document_assembled rc s :
  let n := rc_load_number rc in
  normalize_load_number (Some n) = Ok (Some n) → recon_wf s →
  where_ (is_companion rc) (documents (working s)) = [] →
  ∃ doc s2 sh s3, insert_document (new_companion rc) s = (Ok doc, s2)
    ∧ upsert_shipment (Some n) doc (rate_confirmation_extraction rc) s2 = (Ok (Some sh), s3)
    ∧ recon_wf s3 ∧ sh ∈ shipments (working s3) ∧ assembled n (working s3) sh
    ∧ committed s3 = committed s ∧ rate_confirmations (working s3) = rate_confirmations (working s)
    ∧ where_ (λ x, negb (String.eqb (load_number x) n)) (shipments (working s3))
      = where_ (λ x, negb (String.eqb (load_number x) n)) (shipments (working s)).
Proof.
  intros n Hn W Hcomp.
  destruct (insert_companion_runs rc s (rw_assembly _ W) Hcomp) as (s2 & E2 & W2 & Hw2 & Hc2).
  set (doc := new_companion rc (doc_seq (senv s)) (clock (senv s))) in *.
  assert (Hdoc : doc ∈ documents (working s2))
    by (rewrite Hw2; apply elem_of_app; right; apply list_elem_of_here).
  destruct (upsert_effect (Some n) n doc (rate_confirmation_extraction rc) s2 Hn W2 Hdoc eq_refl)
    as (sh & s3 & E3 & W3 & Hc3 & Ha & Hsh & Hoth & Hrc3 & _ & He3 & _).
  exists doc, s2, sh, s3. split; [done|]. split; [exact E3|]. split.
  { apply (recon_wf_elsewhere s2); [|done..]. apply (recon_wf_elsewhere s); [done..|].
    rewrite Hw2. apply same_elsewhere_documents. }
  split.
  { apply (elem_of_where (λ x, String.eqb (load_number x) n)). rewrite Hsh. apply list_elem_of_here. }
  split.
  { split; [done|]. rewrite (af_rate_con _ _ _ _ Ha).
    change (of_type "rate_confirmation" doc) with true. by rewrite Bool.orb_true_r. }
  split; [by rewrite Hc3, Hc2|]. split; [by rewrite Hrc3, Hw2|]. by rewrite Hoth, Hw2.
Qed.

(** The reconciliation of an assembled shipment, for an evaluation of its own. *)
Lemma assembled_reconciled n sh now sla source key s :
  recon_wf s → sh ∈ shipments (working s) → assembled n (working s) sh →
  let '(o, s') := reconcile_shipment sh None now sla source (Some key) s in
  match o with
  | Ok r =>
      recon_wf s' ∧ committed s' = working s'
      ∧ (∃ sh2, assembled n (working s') sh2 ∧ r ∈ reconciliation_results (working s')
           ∧ result_shipment_id r = shipment_id sh2 ∧ evaluation_key r = Some key)
      ∧ rate_confirmations (working s') = rate_confirmations (working s)
      ∧ where_ (λ x, negb (String.eqb (load_number x) n)) (shipments (working s'))
        = where_ (λ x, negb (String.eqb (load_number x) n)) (shipments (working s))
  | Raise e => exn_cls e = OtherError "OverflowError" ∧ committed s' = committed s
  end.
Proof.
  intros W Hin [Hw Hflag].
  pose proof (reconcile_effect sh None now sla source (Some key) s) as Hrec.
  pose proof (reconcile_unfold sh None now sla source (Some key) s
    (aw_rc_numbers _ (rw_assembly _ W))) as Hu.
  pose proof (gather_row sh (working s)) as Hg.
  destruct (gather sh (working s)) as [sh1 e]. cbn [fst] in Hg. cbv zeta in Hu.
  destruct (evaluate_checks sh1 e (evaluate_missing_document_policy sh1 now sla)) as [v|ex] eqn:Ev.
  2:{ rewrite Hu. by rewrite (evaluate_checks_raises _ _ _ _ Ev). }
  destruct (Hrec v W Hin I Ev) as (r & s' & E & W' & Hc' & Hr & Hrin & Hs' & _ & Hrc' & _).
  rewrite E. set (sh2 := verdict_row v _ sh1) in *.
  assert (Hsh2 : shipment_id sh2 = shipment_id sh ∧ load_number sh2 = load_number sh
                 ∧ has_rate_con sh2 = true) by (destruct Hg as [-> | ->]; by split_and!).
  destruct Hsh2 as (H1 & H2 & H3).
  destruct (assembled_update n (working s) sh sh2 _ (aw_ids _ (rw_assembly _ W)) (conj Hw Hflag)
    H1 H2 H3 Hs') as [A1 A2].
  split; [done|]. split; [done|]. split; [|by split].
  exists sh2. split; [by split|]. split; [done|].
  split; [by rewrite H1, (ri_shipment _ _ _ _ _ _ _ Hr)|apply (ri_key _ _ _ _ _ _ _ Hr)].
Qed.

(** ** Properties *)

(** C22 A rate confirmation is created as a whole or not at all.  A new load number gives
    the confirmation, committed together with its shipment, which has its rate
    confirmation and a result of this evaluation, while every other shipment is as
    before; a known one gives 409 and the tables are as they were; when an amount of
    the documents of the shipment cannot be compared the request fails and nothing is
    committed. *)
Theorem rate_confirmation_created sla raw c s :
  let rc := new_rate_confirmation c (fresh_uuid s) (clock (senv s)) in
  let n := c_load_number c in
  validate_create raw = Some c → recon_wf s → committed s = working s →
  where_ (is_companion rc) (documents (working s)) = [] →
  let taken := existsb (λ x, String.eqb (rc_load_number x) n) (rate_confirmations (working s)) in
  let '(o, s') := create_rate_confirmation sla c s in
  match o with
  | Ok (Response rc') =>
      taken = false ∧ rc' = rc ∧ recon_wf s' ∧ committed s' = working s'
      ∧ rate_confirmations (working s') = rate_confirmations (working s) ++ [rc]
      ∧ (∃ sh r, assembled n (working s') sh ∧ r ∈ reconciliation_results (working s')
           ∧ result_shipment_id r = shipment_id sh ∧ evaluation_key r = Some (manual_key rc))
      ∧ where_ (λ x, negb (String.eqb (load_number x) n)) (shipments (working s'))
        = where_ (λ x, negb (String.eqb (load_number x) n)) (shipments (working s))
  | Ok (HttpError code _) => taken = true ∧ code = 409%Z ∧ committed s' = committed s
                             ∧ working s' = committed s
  | Raise e => taken = false ∧ exn_cls e = OtherError "OverflowError" ∧ committed s' = committed s
  end.
Proof.
  intros rc n Hv W Hc Hcomp taken. destruct (validate_create_number raw c Hv) as [Hn Hck].
  unfold create_rate_confirmation, try_except, assemble_rate_confirmation. rewrite !bind_unfold.
  destruct taken eqn:Et.
  { destruct (insert_rate_confirmation_conflict c s W Hck Et) as (e & s' & -> & -> & Hc').
    cbn. by split_and!. }
  destruct (insert_rate_confirmation_runs c s W Hck Et) as [-> W1]. fold rc in W1 |- *.
  set (s1 := with_rate_confirmation_row rc s) in *. change (rc_load_number rc) with n.
  destruct (document_assembled rc s1 Hn W1 Hcomp)
    as (doc & s2 & sh & s3 & E2 & E3 & W3 & Hin & Ha & Hc3 & Hr3 & Ho3).
  change (rc_load_number rc) with n in E3, Ha, Ho3.
  rewrite bind_unfold, E2, bind_unfold, E3, bind_unfold. unfold db_clock, gets. rewrite bind_unfold.
  pose proof (assembled_reconciled n sh (clock (senv s3)) sla (Some "manual_rate_confirmation")
    (manual_key rc) s3 W3 Hin Ha) as H.
  destruct (reconcile_shipment sh None _ _ _ _ s3) as [[r|ex] s']; cbn [mret M_ret].
  - destruct H as (W' & Hc' & (sh2 & H2 & Hrin & Hid & Hk) & Hrc & Ho).
    split_and!; [done..|by rewrite Hrc, Hr3| |by rewrite Ho, Ho3]. by exists sh2, r.
  - destruct H as [Hx Hcs]. unfold isinstance_exn. rewrite Hx. split_and!; [done..|by rewrite Hcs, Hc3].
Qed.

(** ** Witness *)

Definition demo_create : RateConfirmationCreate :=
  mk_create " ld-1 " "Acme" "Here" "There" fzero "USD" 0.

Definition demo_created : RateConfirmationCreate := mk_create "LD-1" "Acme" "Here" "There" fzero "USD" 0.

Lemma rate_confirmation_created_witness :
  let '(o, s') := create_rate_confirmation (hours 72) demo_created demo_shipments in
  match o with
  | Ok (Response rc') => rate_confirmations (working s') = [rc']
  | _ => False
  end.
Proof.
  pose proof (rate_confirmation_created (hours 72) demo_create demo_created demo_shipments) as H.
  assert (E : match (create_rate_confirmation (hours 72) demo_created demo_shipments).1 with
              | Ok (Response _) => true | _ => false end = true) by (vm_compute; reflexivity).
  assert (Ev : validate_create demo_create = Some demo_created) by (vm_compute; reflexivity).
  specialize (H Ev demo_shipments_wf eq_refl eq_refl). cbv zeta in H.
  destruct (create_rate_confirmation (hours 72) demo_created demo_shipments) as [[[rc'|code d]|e] s'];
    [|discriminate E|discriminate E].
  destruct H as (_ & -> & _ & _ & H & _). exact H.
Defined.
