(* ===== verification/ShipmentRoutes.v ===== *)
(** * The shipment and notification routes

    [app/api/routes/shipments.py] and [app/api/routes/notifications.py]: the views that
    read the tables.  The column [updated_at], which the model of the tables leaves out,
    is a function here. *)

From S2P Require Import Prelude PyText DateTime PyFloat Json Database MissingDocs Shipments.
From S2P Require Import Reconciliation BusinessState WorkflowRoutes.
From Stdlib Require Import Ascii.
Local Open Scope string_scope.
Local Open Scope list_scope.
Local Open Scope nat_scope.

(** Descending order on a time. *)
Definition later {A} (key : A → datetime) (a b : A) : bool := (key b <=? key a)%Z.

(** ** The summary of a shipment *)

Record shipment_summary := mk_shipment_summary {
  ss_shipment : Shipment;
  ss_updated_at : datetime;
  missing_document_state : string;
  missing_document_deadline_at : datetime;
  missing_required_docs : list string;
  overdue_reason_codes : list string
}.

Section Views.
Context (updated_at : Shipment → datetime) (sla : timedelta).

Definition shipment_summary_of (now : datetime) (sh : Shipment) : shipment_summary :=
  let policy := evaluate_missing_document_policy sh now sla in
  mk_shipment_summary sh (updated_at sh) (p_state policy) (p_deadline_at policy)
    (p_missing_docs policy) (p_reason_codes policy).

(** [GET /shipments] *)
Definition list_shipments (status_filter : option string) (now : datetime) (d : database)
  : list shipment_summary :=
  let rows := sort_by (later updated_at) (shipments d) in
  let rows := match str_or status_filter None with
              | Some v => where_ (λ s, String.eqb (reconciliation_status s) v) rows
              | None => rows
              end in
  shipment_summary_of now <$> rows.

(** ** The detail of a shipment *)

(** The latest first: by time, then by identifier. *)
Definition latest_leb (a b : ReconciliationResult) : bool :=
  if Z.eqb (result_created_at a) (result_created_at b) then (result_id b <=? result_id a)%N
  else later result_created_at a b.

Definition latest_reconciliation_result (sid : uuid) (d : database) : option ReconciliationResult :=
  head (sort_by latest_leb (where_ (λ r, N.eqb (result_shipment_id r) sid) (reconciliation_results d))).

Record document_payload := mk_document_payload {
  dp_id : option Z;
  dp_filename : string;
  dp_doc_type : string;
  dp_status : string;
  dp_extracted_data : option json;
  dp_created_at : datetime
}.

Definition document_payload_of (doc : Document) : document_payload :=
  mk_document_payload (Some (doc_id doc)) (filename doc) (doc_type doc) (doc_status doc)
    (extracted_data doc) (doc_created_at doc).

(** What stands for the document of a rate confirmation without one. *)
Definition manual_entry (rc : RateConfirmation) : document_payload :=
  mk_document_payload None "Manual Entry" "rate_confirmation" "extracted"
    (Some (JObj [("carrier_name", JStr (rc_carrier_name rc)); ("load_number", JStr (rc_load_number rc));
                 ("agreed_rate", JFloat (agreed_rate rc)); ("origin", JStr (origin rc));
                 ("destination", JStr (destination rc));
                 ("shipment_date", JStr (date_isoformat (shipment_date rc)))]))
    (rc_created_at rc).

(** [_document_payloads], in the order of [DOC_ID_FIELDS]: invoice, rate confirmation,
    bill of lading, proof of delivery.  The load number is unique. *)
Record document_payloads := mk_payloads {
  pl_invoice : option document_payload;
  pl_rate_con : option document_payload;
  pl_bol : option document_payload;
  pl_pod : option document_payload
}.

Definition document_payloads_of (sh : Shipment) (d : database) : document_payloads :=
  let payload i := document_payload_of <$> linked i d in
  let rate_con := payload (rate_con_id sh) in
  mk_payloads (payload (invoice_id sh))
    (match rate_con with
     | None => if has_rate_con sh
               then manual_entry <$> find_first (λ rc, String.eqb (rc_load_number rc) (load_number sh))
                                       (rate_confirmations d)
               else None
     | Some p => Some p
     end)
    (payload (bol_id sh)) (payload (pod_id sh)).

Record shipment_view := mk_shipment_view {
  sv_summary : shipment_summary;
  sv_documents : document_payloads;
  sv_reconciliation : option ReconciliationResult;
  sv_exception : option (ShipmentException * list ShipmentExceptionEvent)
}.

(** [GET /shipments/{shipment_id}] *)
Definition shipment_detail (sid : uuid) (now : datetime) (d : database) : http shipment_view :=
  match find_first (λ s, N.eqb (shipment_id s) sid) (shipments d) with
  | None => HttpError 404 (JStr "Shipment not found")
  | Some sh =>
      let current := find_exception (shipment_id sh) d in
      Response (mk_shipment_view (shipment_summary_of now sh) (document_payloads_of sh d)
        (latest_reconciliation_result (shipment_id sh) d)
        ((λ x, (x, sort_by (λ a b, (event_version a <=? event_version b)%Z)
                     (where_ (λ ev, N.eqb (event_exception_id ev) (exc_id x)) (exception_events d))))
           <$> current))
  end.

(** ** The analytics of the carriers *)

(** [latest_by_shipment], a dict filled by [setdefault] in the order of the results. *)
Definition latest_by_shipment (d : database) (sid : uuid) : option ReconciliationResult :=
  find_first (λ r, N.eqb (result_shipment_id r) sid) (sort_by latest_leb (reconciliation_results d)).

(** [run_state_by_id] *)
Definition run_state (rid : string) (d : database) : option (WorkflowRun * option ReviewDecision) :=
  (λ run, (run, find_first (λ x, String.eqb (decision_run_id x) (run_id run)) (review_decisions d)))
    <$> find_first (λ r, String.eqb (run_id r) rid) (workflow_runs d).

(** The run and the decision behind the latest result of a shipment. *)
Definition latest_run (d : database) (sh : Shipment) : option (WorkflowRun * option ReviewDecision) :=
  latest ← latest_by_shipment d (shipment_id sh);
  rid ← result_run_id latest;
  run_state rid d.

Definition carrier_of (sh : Shipment) : string :=
  default "Unknown carrier" (str_or (carrier_name sh) None).

(** [grouped], a [defaultdict(list)]. *)
Definition group_shipments (l : list Shipment) : list (string * list Shipment) :=
  fold_left (λ g sh, dict_set (carrier_of sh) (default [] (dict_get (carrier_of sh) g) ++ [sh]) g) l [].

(** [Counter.update] and [most_common(1)]: the first of the most frequent. *)
Definition counter_update (c : list (string * Z)) (l : list string) : list (string * Z) :=
  fold_left (λ c x, dict_set x (default 0%Z (dict_get x c) + 1)%Z c) l c.
Fixpoint most_common (c : list (string * Z)) : option (string * Z) :=
  match c with
  | [] => None
  | (x, n) :: c' =>
      match most_common c' with
      | Some (y, m) => if (n <? m)%Z then Some (y, m) else Some (x, n)
      | None => Some (x, n)
      end
  end.

Record carrier_row := mk_carrier_row {
  cr_carrier : string;
  total_shipments : nat;
  exception_count : nat;
  exception_rate : float;
  most_common_exception_type : option string;
  pending_review_count : nat;
  cr_approved_count : nat;
  cr_rejected_count : nat;
  cr_ready_for_posting_count : nat;
  partial_within_grace_count : nat;
  overdue_missing_documents_count : nat
}.

Definition is_exception (sh : Shipment) : bool := String.eqb (reconciliation_status sh) "exception".
Definition has_state (now : datetime) (state : string) (sh : Shipment) : bool :=
  String.eqb (p_state (evaluate_missing_document_policy sh now sla)) state.

Definition on_latest_run (d : database) (p : WorkflowRun → option ReviewDecision → bool) (sh : Shipment)
  : bool :=
  match latest_run d sh with Some (run, decision) => p run decision | None => false end.

Definition pending_review (run : WorkflowRun) (decision : option ReviewDecision) : bool :=
  String.eqb (processing_status run) "awaiting_review"
  && match decision with None => true | Some _ => false end.
Definition decided_as (v : string) (run : WorkflowRun) (decision : option ReviewDecision) : bool :=
  match decision with Some x => String.eqb (disposition x) v | None => false end.
Definition ready_for_posting (run : WorkflowRun) (decision : option ReviewDecision) : bool :=
  String.eqb (posting_status run) "ready_for_posting".

(** The reasons of the latest results of the exceptions. *)
Definition carrier_reasons (d : database) (l : list Shipment) : list (string * Z) :=
  fold_left (λ c sh, match latest_by_shipment d (shipment_id sh) with
                     | Some latest => counter_update c (exception_reasons latest)
                     | None => c
                     end) (where_ is_exception l) [].

Definition carrier_row_of (now : datetime) (d : database) (g : string * list Shipment) : carrier_row :=
  let l := g.2 in
  let exceptions := count_by is_exception l in
  mk_carrier_row g.1 (length l) exceptions
    (true_div (Z.of_nat exceptions) (Z.of_nat (length l)))
    (fst <$> most_common (carrier_reasons d l))
    (count_by (on_latest_run d pending_review) l)
    (count_by (on_latest_run d (decided_as "approved")) l)
    (count_by (on_latest_run d (decided_as "rejected")) l)
    (count_by (on_latest_run d ready_for_posting) l)
    (count_by (has_state now "within_grace") l)
    (count_by (has_state now "overdue") l).

(** [GET /analytics/carriers] *)
Definition carrier_analytics (now : datetime) (d : database) : list carrier_row :=
  sort_by (λ a b, fleb (exception_rate b) (exception_rate a))
    (carrier_row_of now d <$> group_shipments (shipments d)).
End Views.

(** ** The latest notifications *)

Inductive notification_record :=
  | batch_summary (n : Notification)
  | shipment_exception (ev : ShipmentExceptionEvent) (s : Shipment).

Definition record_time (r : notification_record) : datetime :=
  match r with batch_summary n => sent_at n | shipment_exception ev _ => occurred_at ev end.

(** The events with the shipment of their exception. *)
Definition event_rows (d : database) : list (ShipmentExceptionEvent * Shipment) :=
  ev ← exception_events d;
  x ← where_ (λ x, N.eqb (exc_id x) (event_exception_id ev)) (shipment_exceptions d);
  s ← where_ (λ s, N.eqb (shipment_id s) (exc_shipment_id x)) (shipments d);
  [(ev, s)].

(** [GET /notifications] *)
Definition latest_notifications (d : database) : list notification_record :=
  let batches := take 10 (sort_by (later sent_at) (notifications d)) in
  let events := take 10 (sort_by (later (λ r, occurred_at r.1)) (event_rows d)) in
  take 10 (sort_by (later record_time)
             ((batch_summary <$> batches) ++ ((λ r, shipment_exception r.1 r.2) <$> events))).

(** ** Groups *)

Definition carrier_is (c : string) (sh : Shipment) : bool := String.eqb (carrier_of sh) c.

Lemma group_snoc l sh :
  group_shipments (l ++ [sh])
  = dict_set (carrier_of sh) (default [] (dict_get (carrier_of sh) (group_shipments l)) ++ [sh])
      (group_shipments l).
Proof. unfold group_shipments. by rewrite fold_left_app. Qed.

(** A group holds the shipments of its carrier, in order. *)
Lemma group_get c l :
  dict_get c (group_shipments l)
  = match where_ (carrier_is c) l with [] => None | m => Some m end.
Proof.
  induction l as [|sh l IH] using rev_ind; [done|]. rewrite group_snoc, dict_get_set.
  unfold where_ in *. rewrite List.filter_app. cbn [List.filter].
  change (carrier_is c sh) with (String.eqb (carrier_of sh) c). rewrite (String.eqb_sym c).
  destruct (String.eqb_spec (carrier_of sh) c) as [->|].
  - rewrite IH. by destruct (List.filter (carrier_is c) l).
  - by rewrite app_nil_r.
Qed.

Lemma dict_set_keys {V} k (v : V) d : NoDup d.*1 → NoDup (dict_set k v d).*1 ∧ ∀ x, x ∈ (dict_set k v d).*1 ↔ x = k ∨ x ∈ d.*1.
Proof.
  induction d as [|[k' v'] d IH]; cbn [dict_set].
  - intros _. split; [apply NoDup_singleton|]. intros x. cbn. set_solver.
  - intros Hnd. rewrite fmap_cons in Hnd. apply NoDup_cons in Hnd as [Hn Hnd].
    destruct (IH Hnd) as [I1 I2]. destruct (String.eqb_spec k k') as [->|Hk]; rewrite !fmap_cons; cbn [fst].
    + split; [by apply NoDup_cons|]. set_solver.
    + split; [apply NoDup_cons; split; [rewrite I2; intros [E|]; [by apply Hk|done]|done]|].
      intros x. rewrite !elem_of_cons, I2. tauto.
Qed.

Lemma group_keys l : NoDup (group_shipments l).*1.
Proof.
  induction l as [|sh l IH] using rev_ind; [constructor|]. rewrite group_snoc. by apply dict_set_keys.
Qed.

Definition grouped_count (g : list (string * list Shipment)) : nat := sum_list_with (λ x, length x.2) g.

Lemma grouped_count_set k sh g :
  grouped_count (dict_set k (default [] (dict_get k g) ++ [sh]) g) = S (grouped_count g).
Proof.
  unfold grouped_count. induction g as [|[k' m] g IH]; [done|]. cbn [dict_set dict_get].
  rewrite String.eqb_sym. destruct (String.eqb k' k) eqn:E; cbn.
  - rewrite length_app. cbn. lia.
  - cbn in IH. rewrite IH. lia.
Qed.

Lemma group_count l : grouped_count (group_shipments l) = length l.
Proof.
  induction l as [|sh l IH] using rev_ind; [done|].
  rewrite group_snoc, grouped_count_set, IH, length_app. cbn. lia.
Qed.

Lemma group_elem c m l : (c, m) ∈ group_shipments l → m = where_ (carrier_is c) l ∧ m ≠ [].
Proof.
  intros H%(dict_get_In _ _ _ (group_keys l)). rewrite group_get in H.
  destruct (where_ (carrier_is c) l); [done|]. by injection H as <-.
Qed.

Lemma group_has sh l : sh ∈ l → carrier_of sh ∈ (group_shipments l).*1.
Proof.
  intros Hin. assert (Hw : sh ∈ where_ (carrier_is (carrier_of sh)) l)
    by (apply elem_of_where; split; [done|apply String.eqb_refl]).
  pose proof (group_get (carrier_of sh) l) as E.
  destruct (where_ (carrier_is (carrier_of sh)) l) as [|x m]; [by apply elem_of_nil in Hw|].
  apply (dict_get_In _ _ _ (group_keys l)) in E. by apply (list_elem_of_fmap_2 fst) in E.
Qed.

(** Disjoint conditions are counted apart. *)
Lemma count_by_disjoint {A} (p q : A → bool) l :
  (∀ x, p x = true → q x = false) → count_by p l + count_by q l ≤ length l.
Proof.
  intros H. induction l as [|x l IH]; [done|]. rewrite !count_by_cons. cbn [length].
  destruct (p x) eqn:Ep; [rewrite (H x Ep)|destruct (q x)]; lia.
Qed.

Lemma count_by_or {A} (p q : A → bool) l :
  (∀ x, p x = true → q x = false) → count_by (λ x, p x || q x) l = count_by p l + count_by q l.
Proof.
  intros H. induction l as [|x l IH]; [done|]. rewrite !count_by_cons, IH.
  destruct (p x) eqn:Ep; [rewrite (H x Ep)|]; destruct (q x); cbn; lia.
Qed.

(** ** Properties *)

Section Analytics.
Context (sla : timedelta).

(** What a row of the analytics counts. *)
Record row_counts (now : datetime) (d : database) (row : carrier_row) : Prop := {
  rc_total : total_shipments row = count_by (carrier_is (cr_carrier row)) (shipments d);
  rc_some : 0 < total_shipments row;
  rc_exceptions : exception_count row
    = count_by (λ sh, carrier_is (cr_carrier row) sh && is_exception sh) (shipments d);
  rc_rate : exception_rate row
    = true_div (Z.of_nat (exception_count row)) (Z.of_nat (total_shipments row));
  rc_bounded : exception_count row ≤ total_shipments row;
  rc_missing : partial_within_grace_count row + overdue_missing_documents_count row ≤ total_shipments row;
  rc_reviews : pending_review_count row + cr_approved_count row + cr_rejected_count row
               ≤ total_shipments row
}.

Lemma carrier_row_counts now d g :
  g ∈ group_shipments (shipments d) → row_counts now d (carrier_row_of sla now d g).
Proof.
  destruct g as [c m]. intros [-> Hne]%group_elem.
  assert (Hlen : length (where_ (carrier_is c) (shipments d)) = count_by (carrier_is c) (shipments d)) by done.
  split; cbn -[count_by]; rewrite ?Hlen.
  - done.
  - rewrite <- Hlen. by destruct (where_ _ _); [|cbn; lia].
  - unfold count_by, where_. by rewrite filter_and.
  - done.
  - rewrite <- Hlen. unfold count_by. apply List.filter_length_le.
  - apply count_by_disjoint. intros sh E%String.eqb_eq. unfold has_state. by rewrite E.
  - rewrite <- !count_by_or.
    + rewrite <- Hlen. unfold count_by. apply List.filter_length_le.
    + intros sh. unfold on_latest_run, pending_review, decided_as.
      destruct (latest_run d sh) as [[run [x|]]|]; [|by rewrite Bool.andb_true_r|done].
      rewrite Bool.andb_false_r. cbn. intros ->%String.eqb_eq. done.
    + intros sh. unfold on_latest_run, pending_review, decided_as.
      destruct (latest_run d sh) as [[run [x|]]|]; [by rewrite Bool.andb_false_r|done..].
Qed.

(** The analytics of the carriers partition the shipments: one row for each carrier
    of a shipment and for no other, whose counts are those of its shipments, and the
    totals add up to the number of shipments; missing documents are overdue or within
    grace, and a review is pending, approved or rejected, but never two of these; the
    rows come by descending exception rate. *)
Theorem carrier_analytics_correct now d :
  let rows := carrier_analytics sla now d in
  NoDup (cr_carrier <$> rows)
  ∧ (∀ c, c ∈ cr_carrier <$> rows ↔ c ∈ carrier_of <$> shipments d)
  ∧ Forall (row_counts now d) rows
  ∧ sum_list_with total_shipments rows = length (shipments d)
  ∧ Sorted (λ a b, fleb (exception_rate b) (exception_rate a) = true) rows.
Proof using Type.
  intros rows. set (groups := group_shipments (shipments d)).
  set (leb := λ a b, fleb (exception_rate b) (exception_rate a)) in rows.
  assert (Hp : rows ≡ₚ carrier_row_of sla now d <$> groups) by apply sort_by_perm.
  assert (Hk : cr_carrier <$> (carrier_row_of sla now d <$> groups) = groups.*1)
    by (rewrite <- list_fmap_compose; by apply list_fmap_ext).
  assert (Hf : Forall (row_counts now d) rows).
  { rewrite Hp. apply Forall_fmap, Forall_forall. intros g. apply carrier_row_counts. }
  split; [rewrite Hp, Hk; apply group_keys|]. split; [|split; [exact Hf|split]].
  - intros c. rewrite Hp, Hk. split.
    + intros ([c' m] & -> & Hg)%list_elem_of_fmap. apply group_elem in Hg as [-> Hne]. cbn [fst].
      destruct (where_ (carrier_is c') (shipments d)) as [|sh m] eqn:E; [done|].
      assert (Hin : sh ∈ where_ (carrier_is c') (shipments d)) by (rewrite E; apply list_elem_of_here).
      apply elem_of_where in Hin as [Hin <-%String.eqb_eq]. by apply list_elem_of_fmap_2.
    + intros (sh & -> & Hin)%list_elem_of_fmap. by apply group_has.
  - rewrite Hp. rewrite <- (group_count (shipments d)). fold groups. unfold grouped_count.
    clear. induction groups as [|g l IH]; [done|]. rewrite fmap_cons. cbn -[fmap]. f_equal. exact IH.
  - apply (sort_by_sorted_on (row_counts now d)).
    + intros a b Ha Hb. pose proof (rc_some _ _ _ Ha). pose proof (rc_some _ _ _ Hb). unfold leb.
      apply fleb_total; [rewrite (rc_rate _ _ _ Hb)|rewrite (rc_rate _ _ _ Ha)];
        apply true_div_number; lia.
    + by rewrite Hp in Hf.
Qed.
End Analytics.
