(* ===== verification/Migrations.v ===== *)
(** * The data migrations

    What the migrations of [alembic/versions/] do to the rows that exist:
    202607190001 (one audit event of a kind and one result per run) and 202607190002 (the
    processing and posting statuses, the review decisions, the outcomes of the checks).
    The tables before a migration are
    records of their own, with the columns of that time; every migration is one
    transaction, so that an error leaves the tables as they were.

    A [jsonb] value is a [json]; the order of its keys, which [jsonb] does not keep, means
    nothing.  Where SQL leaves an order open (the rows of a [GROUP BY], the latest of
    two results of the same instant) the rows are taken in the order of the table. *)

From S2P Require Import Prelude PyText LoadNumbers DateTime PyFloat Json Database MissingDocs.
From S2P Require Import Shipments Reconciliation SlaScanner Extraction Workflow WorkflowSafety.
From S2P Require Import Frame BusinessState.
From Stdlib Require Import Ascii.
Local Open Scope string_scope.
Local Open Scope list_scope.
Local Open Scope nat_scope.

(** ** The tables before 202607190002 *)

Record old_run := mk_old_run {
  old_pk : Z;
  old_run_id : string;
  old_document_id : Z;
  old_status : string;
  old_interrupt_payload : option json;
  old_created_at : datetime;
  old_updated_at : datetime
}.

Record old_result := mk_old_result {
  res_id : uuid;
  res_shipment_id : uuid;
  res_run_id : option string;
  res_checks : json;
  res_missing_docs : json;
  res_exception_reasons : json;
  res_created_at : datetime
}.

Record old_notification := mk_old_notification {
  old_notif_id : Z;
  old_sent_at : datetime;
  old_total_count : Z;
  old_complete_count : Z;
  old_awaiting_review_count : Z;
  old_failed_count : Z
}.

Record old_database := mk_old_database {
  od_documents : list Document;
  od_runs : list old_run;
  od_audit : list WorkflowAuditLog;
  od_shipments : list Shipment;
  od_results : list old_result;
  od_notifications : list old_notification
}.

(** After it; a run keeps its [updated_at], which raw SQL does not touch. *)
Record new_database := mk_new_database {
  nd_documents : list Document;
  nd_runs : list (WorkflowRun * datetime);
  nd_decisions : list ReviewDecision;
  nd_audit : list WorkflowAuditLog;
  nd_shipments : list Shipment;
  nd_results : list old_result;
  nd_notifications : list Notification
}.

(** ** The columns that are filled *)

(** 202606180001: [UPDATE workflow_runs SET run_id = gen_random_uuid()::text WHERE run_id IS
    NULL]; [gen_random_uuid i] is the value drawn for the [i]-th row. *)
Definition backfill_run_ids (gen_random_uuid : nat → uuid) (run_ids : list (option string))
    : list string :=
  imap (λ i rid, match rid with None => uuid_str (gen_random_uuid i) | Some rid => rid end) run_ids.

(** 202607190004: [CASE WHEN run_id IS NULL THEN 'legacy' ELSE 'document_workflow' END]. *)
Definition backfill_evaluation_source (run_id : option string) : string :=
  match run_id with None => "legacy" | Some _ => "document_workflow" end.

(** ** 202607190001 *)

(** [DELETE ... WHERE a.run_id = b.run_id AND a.ctid < b.ctid]: the last row stays. *)
Fixpoint delete_earlier_results (rows : list old_result) : list old_result :=
  match rows with
  | [] => []
  | a :: rest =>
      let superseded := match res_run_id a with
                        | Some rid => existsb (λ b, sql_eq String.eqb (res_run_id b) rid) rest
                        | None => false
                        end in
      if superseded then delete_earlier_results rest else a :: delete_earlier_results rest
  end.

(** [DELETE ... WHERE a.run_id = b.run_id AND a.event_type = b.event_type AND a.id > b.id] *)
Definition delete_later_events (rows : list WorkflowAuditLog) : list WorkflowAuditLog :=
  List.filter (λ a, negb (existsb (λ b, String.eqb (audit_run_id a) (audit_run_id b)
                                        && String.eqb (event_type a) (event_type b)
                                        && (audit_id b <? audit_id a)%Z) rows)) rows.

Definition upgrade_queue_idempotency (d : old_database) : old_database :=
  mk_old_database (od_documents d) (od_runs d) (delete_later_events (od_audit d)) (od_shipments d)
    (delete_earlier_results (od_results d)) (od_notifications d).

(** ** 202607190002: the review decisions *)

Definition decided_statuses : list string := ["approved"; "rejected"].

(** The [LEFT JOIN] with the events that decide. *)
Definition decision_events (audits : list WorkflowAuditLog) (rid : string) : list WorkflowAuditLog :=
  where_ (λ a, String.eqb (audit_run_id a) rid && in_strs (event_type a) decided_statuses) audits.

Definition count_events (ev : string) (l : list WorkflowAuditLog) : nat :=
  count_by (λ a, String.eqb (event_type a) ev) l.

(** The runs that were both approved and rejected, when their status does not tell. *)
Definition conflicts (d : old_database) : list string :=
  old_run_id <$> where_ (λ r,
    negb (in_strs (old_status r) decided_statuses)
    && (0 <? count_events "approved" (decision_events (od_audit d) (old_run_id r)))
    && (0 <? count_events "rejected" (decision_events (od_audit d) (old_run_id r)))) (od_runs d).

Definition audit_disposition (audits : list WorkflowAuditLog) (r : old_run) : option string :=
  let l := decision_events audits (old_run_id r) in
  if in_strs (old_status r) decided_statuses then Some (old_status r)
  else if 0 <? count_events "approved" l then Some "approved"
  else if 0 <? count_events "rejected" l then Some "rejected"
  else None.

(** [MIN(created_at)], [NULL] of no row. *)
Definition earliest (l : list datetime) : option datetime :=
  foldr (λ t acc, Some (match acc with Some u => Z.min t u | None => t end)) None l.

Definition audit_decided_at (audits : list WorkflowAuditLog) (r : old_run) : datetime :=
  let l := decision_events audits (old_run_id r) in
  let ev := if in_strs (old_status r) decided_statuses then old_status r
            else if existsb (λ a, String.eqb (event_type a) "approved") l then "approved"
            else "rejected" in
  default (old_updated_at r)
    (earliest (audit_created_at <$> where_ (λ a, String.eqb (event_type a) ev) l)).

(** [ON CONFLICT (run_id) DO NOTHING] *)
Definition insert_decision_do_nothing (acc : list ReviewDecision) (v : ReviewDecision)
    : list ReviewDecision :=
  if existsb (λ x, String.eqb (decision_run_id x) (decision_run_id v)) acc then acc else acc ++ [v].

(** The rows of the [INSERT]; [gen_random_uuid i] is the [i]-th value of the function. *)
Definition selected_decisions (gen_random_uuid : nat → uuid) (d : old_database) : list ReviewDecision :=
  imap (λ i rd, mkReviewDecision (gen_random_uuid i) (old_run_id rd.1) rd.2
                  (audit_decided_at (od_audit d) rd.1) None)
    (omap (λ r, (λ disp, (r, disp)) <$> audit_disposition (od_audit d) r) (od_runs d)).

Definition decisions_from_audit (gen_random_uuid : nat → uuid) (d : old_database)
    : list ReviewDecision :=
  fold_left insert_decision_do_nothing (selected_decisions gen_random_uuid d) [].

(** ** 202607190002: the statuses of a run *)

Definition decision_of (decisions : list ReviewDecision) (rid : string) : option ReviewDecision :=
  head (where_ (λ v, String.eqb (decision_run_id v) rid) decisions).

Definition exists_decision (decisions : list ReviewDecision) (rid disp : string) : bool :=
  existsb (λ v, String.eqb (decision_run_id v) rid && String.eqb (disposition v) disp) decisions.

Definition migrated_processing (decisions : list ReviewDecision) (r : old_run) : string :=
  if existsb (λ v, String.eqb (decision_run_id v) (old_run_id r)) decisions then "complete"
  else if in_strs (old_status r) ["complete"; "approved"; "rejected"; "partial"; "reconciled"]
  then "complete"
  else if String.eqb (old_status r) "awaiting_review" then "awaiting_review"
  else if String.eqb (old_status r) "exception" && bool_decide (is_Some (old_interrupt_payload r))
  then "awaiting_review"
  else if in_strs (old_status r) ["failed"; "exception"] then "failed"
  else if in_strs (old_status r) ["pending"; "running"; "retrying"] then old_status r
  else "failed".

(** The run completed on a shipment that is reconciled. *)
Definition exists_reconciled_shipment (d : old_database) (r : old_run) : bool :=
  existsb (λ doc,
    Z.eqb (doc_id doc) (old_document_id r)
    && existsb (λ s, sql_eq N.eqb (doc_shipment_id doc) (shipment_id s)
                     && String.eqb (reconciliation_status s) "reconciled"
                     && in_strs (old_status r) ["complete"; "reconciled"]) (od_shipments d))
    (od_documents d).

Definition migrated_posting (d : old_database) (decisions : list ReviewDecision) (r : old_run)
    : string :=
  if exists_decision decisions (old_run_id r) "approved" then "ready_for_posting"
  else if exists_decision decisions (old_run_id r) "rejected" then "blocked"
  else if String.eqb (old_status r) "reconciled" || exists_reconciled_shipment d r
  then "ready_for_posting"
  else "not_ready".

(** The two [UPDATE workflow_runs]: the new columns, then the status. *)
Definition migrated_run (d : old_database) (decisions : list ReviewDecision) (r : old_run)
    : WorkflowRun * datetime :=
  let processing := migrated_processing decisions r in
  (mkWorkflowRun (old_pk r) (old_run_id r) (old_document_id r)
     (default processing (disposition <$> decision_of decisions (old_run_id r)))
     processing (migrated_posting d decisions r) (old_interrupt_payload r) (old_created_at r),
   old_updated_at r).

(** ** 202607190002: the outcomes of the checks *)

Definition DataError (m : string) : exn := Exn (OtherError "DataError") m.

(** [SELECT] over rows, each of which may raise. *)
Fixpoint map_res {A B} (f : A → res B) (l : list A) : res (list B) :=
  match l with
  | [] => Ok []
  | a :: l' =>
      match f a with
      | Raise e => Raise e
      | Ok b => match map_res f l' with Raise e => Raise e | Ok bs => Ok (b :: bs) end
      end
  end.

(** [item->>key] *)
Definition jsonb_text (key : string) (item : json) : option string :=
  match jget key item with
  | None | Some JNull => None
  | Some (JStr s) => Some s
  | Some j => Some (json_dumps false j)
  end.

(** [item - key] *)
Definition jsonb_delete (key : string) (item : json) : res json :=
  match item with
  | JObj kvs => Ok (JObj (List.filter (λ kv, negb (String.eqb kv.1 key)) kvs))
  | JArr l => Ok (JArr (List.filter (λ j, match j with JStr s => negb (String.eqb s key)
                                          | _ => true end) l))
  | _ => Raise (DataError "cannot delete from scalar")
  end.

(** [item || jsonb_build_object(key, v)], of what [jsonb_delete] returns. *)
Definition jsonb_put (key : string) (v item : json) : json :=
  match item with
  | JObj kvs => JObj (dict_set key v kvs)
  | JArr l => JArr (l ++ [JObj [(key, v)]])
  | j => j
  end.

Definition jsonb_array (j : json) (m : string) : res (list json) :=
  match j with JArr l => Ok l | _ => Raise (DataError m) end.

Definition jsonb_array_elements (j : json) : res (list json) :=
  jsonb_array j "cannot extract elements from a scalar or an object".
Definition jsonb_array_length (j : json) : res nat :=
  match jsonb_array j "cannot get array length of a scalar or an object" with
  | Ok l => Ok (length l)
  | Raise e => Raise e
  end.

Definition like_contains (sub : string) (text : option string) : bool :=
  match String.index 0 sub (default "" text) with Some _ => true | None => false end.

Definition check_outcome (missing : json) (item : json) : res string :=
  let skipped :=
    if py_startswith "skipped:" (default "" (jsonb_text "details" item)) then "not_evaluated"
    else if like_contains "within 3-day grace period" (jsonb_text "details" item)
    then "not_evaluated" else "passed" in
  match jsonb_text "passed" item with
  | None => Ok "not_evaluated"
  | Some p =>
      if String.eqb p "false" then Ok "failed"
      else if sql_eq String.eqb (jsonb_text "check_name" item) "missing_docs" then
        match jsonb_array_length missing with
        | Raise e => Raise e
        | Ok n => Ok (if 0 <? n then "not_evaluated" else skipped)
        end
      else Ok skipped
  end.

Definition migrated_check (missing : json) (item : json) : res json :=
  match jsonb_delete "passed" item, check_outcome missing item with
  | Raise e, _ | _, Raise e => Raise e
  | Ok item', Ok outcome => Ok (jsonb_put "outcome" (JStr outcome) item')
  end.

Definition with_checks (f : json → json → res json) (r : old_result) : res old_result :=
  match jsonb_array_elements (res_checks r) with
  | Raise e => Raise e
  | Ok items =>
      match map_res (f (res_missing_docs r)) items with
      | Raise e => Raise e
      | Ok items' => Ok (mk_old_result (res_id r) (res_shipment_id r) (res_run_id r) (JArr items')
                           (res_missing_docs r) (res_exception_reasons r) (res_created_at r))
      end
  end.

(** ** 202607190002: the statuses of a shipment *)

Definition reconciliation_statuses : list string := ["pending"; "partial"; "exception"; "reconciled"].

Record latest_result := mk_latest_result {
  latest_shipment_id : uuid;
  latest_created_at : datetime;
  exception_count : nat;
  missing_count : nat;
  not_evaluated_count : nat
}.

Definition result_counts (r : old_result) : res latest_result :=
  match jsonb_array_length (res_exception_reasons r), jsonb_array_length (res_missing_docs r),
        jsonb_array_elements (res_checks r) with
  | Ok ne, Ok nm, Ok items =>
      Ok (mk_latest_result (res_shipment_id r) (res_created_at r) ne nm
            (count_by (λ item, sql_eq String.eqb (jsonb_text "outcome" item) "not_evaluated") items))
  | Raise e, _, _ | _, Raise e, _ | _, _, Raise e => Raise e
  end.

(** [DISTINCT ON (shipment_id) ... ORDER BY shipment_id, created_at DESC], the row of one
    shipment. *)
Definition latest_of (rows : list latest_result) (sid : uuid) : option latest_result :=
  head (sort_by (λ a b, (latest_created_at b <=? latest_created_at a)%Z)
          (where_ (λ r, N.eqb (latest_shipment_id r) sid) rows)).

(** The id of a result is not null, so that the branches of the [CASE] after it are dead. *)
Definition latest_status (l : latest_result) : string :=
  if 0 <? exception_count l then "exception"
  else if (0 <? missing_count l) || (0 <? not_evaluated_count l) then "partial"
  else "reconciled".

(** [UPDATE shipments ... FROM latest_results], for one shipment *)
Definition status_from_latest (rows : list latest_result) (s : Shipment) : Shipment :=
  if in_strs (reconciliation_status s) reconciliation_statuses then s
  else match latest_of rows (shipment_id s) with
       | Some l => set_reconciliation_status (latest_status l) s
       | None => s
       end.

(** The last [UPDATE shipments], for one shipment *)
Definition status_without_result (s : Shipment) : Shipment :=
  if in_strs (reconciliation_status s) reconciliation_statuses then s
  else set_reconciliation_status
         (if in_strs (reconciliation_status s) ["awaiting_review"; "approved"; "rejected"; "failed"]
          then "exception" else "pending") s.

(** ** 202607190002: the migration and its reverse *)

Definition with_decision_counts (n : old_notification) : Notification :=
  mkNotification (old_notif_id n) (old_sent_at n) (old_total_count n) (old_complete_count n)
    (old_awaiting_review_count n) (old_failed_count n) 0 0 0.

Definition ck_reconciliation_status (s : Shipment) : bool :=
  in_strs (reconciliation_status s) ["pending"; "partial"; "reconciled"; "exception"].

(** [create_check_constraint] reads the rows that are there. *)
Definition constraints_hold (d : new_database) : bool :=
  forallb (λ r, ck_workflow_run r.1) (nd_runs d) && forallb ck_reconciliation_status (nd_shipments d).

Definition upgrade_business_state (gen_random_uuid : nat → uuid) (d : old_database)
    : res new_database :=
  match conflicts d with
  | [] =>
      let decisions := decisions_from_audit gen_random_uuid d in
      let runs := migrated_run d decisions <$> od_runs d in
      match map_res (with_checks migrated_check) (od_results d) with
      | Raise e => Raise e
      | Ok results =>
          match map_res result_counts results with
          | Raise e => Raise e
          | Ok counts =>
              let d' := mk_new_database (od_documents d) runs decisions (od_audit d)
                          (status_without_result <$> (status_from_latest counts <$> od_shipments d))
                          results (with_decision_counts <$> od_notifications d) in
              if constraints_hold d' then Ok d'
              else Raise (Exn IntegrityError "check constraint is violated by some row")
          end
      end
  | ids => Raise (Exn RuntimeError
             ("Conflicting historical review decisions require resolution: " +:+ py_join ", " ids))
  end.

(** [downgrade], the checks *)
Definition restored_check (item : json) : res json :=
  match jsonb_delete "outcome" item with
  | Raise e => Raise e
  | Ok item' =>
      Ok (jsonb_put "passed"
            (JBool (negb (sql_eq String.eqb (jsonb_text "outcome" item) "failed"))) item')
  end.

Definition restored_run (decisions : list ReviewDecision) (r : WorkflowRun * datetime) : old_run :=
  mk_old_run (run_pk r.1) (run_id r.1) (document_id r.1)
    (default (processing_status r.1) (disposition <$> decision_of decisions (run_id r.1)))
    (interrupt_payload r.1) (run_created_at r.1) r.2.

Definition without_decision_counts (n : Notification) : old_notification :=
  mk_old_notification (notif_id n) (sent_at n) (total_count n) (complete_count n)
    (awaiting_review_count n) (failed_count n).

Definition downgrade_business_state (d : new_database) : res old_database :=
  match map_res (with_checks (λ _, restored_check)) (nd_results d) with
  | Raise e => Raise e
  | Ok results =>
      Ok (mk_old_database (nd_documents d) (restored_run (nd_decisions d) <$> nd_runs d) (nd_audit d)
            (nd_shipments d) results (without_decision_counts <$> nd_notifications d))
  end.

(** ** Lemmas *)

Lemma map_res_cases {A B} (f : A → res B) (l : list A) :
  match map_res f l with
  | Ok bs => Forall2 (λ a b, f a = Ok b) l bs
  | Raise e => ∃ a, a ∈ l ∧ f a = Raise e
  end.
Proof.
  induction l as [|a l IH]; cbn [map_res]; [done|].
  destruct (f a) as [b|e] eqn:Ea; [|exists a; split; [constructor|done]].
  destruct (map_res f l) as [bs|e]; [by constructor|].
  destruct IH as (x & Hx & Ex). exists x. split; [by constructor|done].
Qed.

(** What the migration keeps of the audit log: one event of a kind for each run, and
    the first of them. *)
Lemma delete_later_events_first (rows : list WorkflowAuditLog) a :
  a ∈ delete_later_events rows ↔
  a ∈ rows ∧ ∀ b, b ∈ rows → audit_run_id b = audit_run_id a → event_type b = event_type a →
             (audit_id a ≤ audit_id b)%Z.
Proof.
  unfold delete_later_events. rewrite !list_elem_of_In, filter_In, <- list_elem_of_In.
  apply and_iff_compat_l. rewrite Bool.negb_true_iff. split.
  - intros H b Hb Hr He. apply Z.ltb_ge, Bool.not_true_iff_false. intros Hlt.
    apply Bool.not_true_iff_false in H. apply H, existsb_exists. exists b.
    split; [by apply list_elem_of_In|]. rewrite Hr, He, !String.eqb_refl. exact Hlt.
  - intros H. apply Bool.not_true_iff_false. intros (b & Hb & Hc)%existsb_exists.
    rewrite <- list_elem_of_In in Hb. rewrite !Bool.andb_true_iff, !String.eqb_eq in Hc.
    destruct Hc as [[Hr He] Hlt%Z.ltb_lt]. specialize (H b Hb (eq_sym Hr) (eq_sym He)). lia.
Qed.

Lemma delete_earlier_results_unique (rows : list old_result) :
  NoDup (omap res_run_id (delete_earlier_results rows)).
Proof.
  induction rows as [|a rest IH]; cbn; [constructor|].
  destruct (res_run_id a) as [rid|] eqn:Ea; [|by cbn; rewrite Ea].
  destruct (existsb _ rest) eqn:Es; [done|]. cbn. rewrite Ea. constructor; [|done].
  intros (b & Hb & Eb)%list_elem_of_omap. apply Bool.not_true_iff_false in Es. apply Es.
  apply existsb_exists. exists b. split; [|unfold sql_eq; rewrite Eb; apply String.eqb_refl].
  rewrite <- list_elem_of_In. clear -Hb. revert Hb.
  induction rest as [|c rest IH]; cbn; [done|].
  destruct (match res_run_id c with Some _ => _ | None => _ end); rewrite ?elem_of_cons; naive_solver.
Qed.

Lemma insert_all (l : list ReviewDecision) : ∀ acc,
  NoDup (decision_run_id <$> acc ++ l) → fold_left insert_decision_do_nothing l acc = acc ++ l.
Proof.
  induction l as [|v l IH]; intros acc H; cbn [fold_left]; [by rewrite app_nil_r|].
  assert (E : insert_decision_do_nothing acc v = acc ++ [v]).
  { unfold insert_decision_do_nothing. destruct (existsb _ acc) eqn:Ex; [|done].
    apply existsb_exists in Ex as (x & Hx & Ev%String.eqb_eq). rewrite <- list_elem_of_In in Hx.
    rewrite fmap_app, NoDup_app in H. destruct H as (_ & Hd & _). exfalso.
    apply (Hd (decision_run_id x)); [by apply list_elem_of_fmap_2|].
    cbn. rewrite Ev. constructor. }
  rewrite E, IH; rewrite <- app_assoc; done.
Qed.

Section Decisions.
Context (gen_random_uuid : nat → uuid) (d : old_database).
Context (Hids : NoDup (old_run_id <$> od_runs d)).

Lemma selected_elem v :
  v ∈ selected_decisions gen_random_uuid d →
  ∃ r, r ∈ od_runs d ∧ audit_disposition (od_audit d) r = Some (disposition v)
       ∧ decision_run_id v = old_run_id r ∧ decided_at v = audit_decided_at (od_audit d) r
       ∧ reviewer_id v = None.
Proof.
  unfold selected_decisions. intros (i & [r disp] & -> & Hi)%elem_of_lookup_imap.
  apply list_elem_of_lookup_2, list_elem_of_omap in Hi as (r' & Hr & E).
  destruct (audit_disposition (od_audit d) r') as [disp'|] eqn:Ed; [|done]. cbn in E. simplify_eq.
  by exists r.
Qed.

Lemma selected_run_ids :
  decision_run_id <$> selected_decisions gen_random_uuid d
  = old_run_id <$> List.filter (λ r, bool_decide (is_Some (audit_disposition (od_audit d) r))) (od_runs d).
Proof.
  unfold selected_decisions. rewrite fmap_imap.
  rewrite (imap_ext _ (const (old_run_id ∘ fst))) by done. rewrite imap_const.
  clear Hids. induction (od_runs d) as [|r rs IH]; [done|]. cbn in IH |- *.
  destruct (audit_disposition (od_audit d) r) as [disp|]; cbn.
  all: by rewrite IH.
Qed.

Lemma selected_NoDup : NoDup (decision_run_id <$> selected_decisions gen_random_uuid d).
Proof using Hids.
  rewrite selected_run_ids. eapply sublist_NoDup; [exact Hids|].
  apply fmap_sublist. clear Hids. induction (od_runs d) as [|r rs IH]; cbn; [constructor|].
  destruct (bool_decide _); by constructor.
Qed.

Lemma decisions_selected : decisions_from_audit gen_random_uuid d = selected_decisions gen_random_uuid d.
Proof using Hids. apply (insert_all _ []), selected_NoDup. Qed.

Lemma decisions_NoDup : NoDup (decision_run_id <$> decisions_from_audit gen_random_uuid d).
Proof using Hids. rewrite decisions_selected. apply selected_NoDup. Qed.

(** The decision of a run in the new table is the one its status or its audit log tells. *)
Lemma disposition_of_run r :
  r ∈ od_runs d →
  disposition <$> decision_of (decisions_from_audit gen_random_uuid d) (old_run_id r)
  = audit_disposition (od_audit d) r.
Proof using Hids.
  intros Hr. rewrite decisions_selected. unfold decision_of.
  destruct (where_ _ _) as [|v l] eqn:E; cbn.
  - destruct (audit_disposition (od_audit d) r) as [disp|] eqn:Ed; [|done]. exfalso.
    assert (H : old_run_id r ∈ decision_run_id <$> selected_decisions gen_random_uuid d).
    { rewrite selected_run_ids. apply list_elem_of_fmap_2, list_elem_of_In, filter_In.
      rewrite <- list_elem_of_In, Ed. split; [done|]. by apply bool_decide_eq_true_2. }
    apply list_elem_of_fmap in H as (v & Ev & Hv).
    assert (Hw : v ∈ where_ (λ v, String.eqb (decision_run_id v) (old_run_id r))
                       (selected_decisions gen_random_uuid d)).
    { apply elem_of_where. by rewrite Ev, String.eqb_refl. }
    rewrite E in Hw. by apply not_elem_of_nil in Hw.
  - assert (Hv : v ∈ where_ (λ v, String.eqb (decision_run_id v) (old_run_id r))
                       (selected_decisions gen_random_uuid d)) by (rewrite E; constructor).
    apply elem_of_where in Hv as [Hv Ev%String.eqb_eq].
    apply selected_elem in Hv as (r' & Hr' & Ed & Er' & _ & _).
    rewrite Ev in Er'. by rewrite (NoDup_fmap_inj old_run_id (od_runs d) r r').
Qed.

Lemma exists_decision_of_run r disp :
  r ∈ od_runs d →
  exists_decision (decisions_from_audit gen_random_uuid d) (old_run_id r) disp
  = sql_eq String.eqb (audit_disposition (od_audit d) r) disp.
Proof using Hids.
  intros Hr. rewrite <- disposition_of_run by done. unfold exists_decision, decision_of.
  destruct (where_key decision_run_id (old_run_id r) _ decisions_NoDup) as [E|(v & E & Hv & Ev)];
    rewrite E; cbn.
  - apply existsb_false_Forall, Forall_forall. intros v Hv.
    destruct (String.eqb_spec (decision_run_id v) (old_run_id r)) as [Ev|]; [|done]. exfalso.
    assert (Hw : v ∈ @nil ReviewDecision); [|by apply not_elem_of_nil in Hw].
    rewrite <- E. apply elem_of_where. by rewrite Ev, String.eqb_refl.
  - apply Bool.eq_iff_eq_true. rewrite existsb_exists. split.
    + intros (x & Hx & [Ex%String.eqb_eq Hd]%andb_prop). rewrite <- list_elem_of_In in Hx.
      by rewrite (NoDup_fmap_inj decision_run_id _ v x decisions_NoDup) by congruence.
    + intros Hd. exists v. rewrite <- list_elem_of_In, Ev, String.eqb_refl. done.
Qed.

Lemma existsb_decision_of_run r :
  r ∈ od_runs d →
  existsb (λ v, String.eqb (decision_run_id v) (old_run_id r)) (decisions_from_audit gen_random_uuid d)
  = bool_decide (is_Some (audit_disposition (od_audit d) r)).
Proof using Hids.
  intros Hr. rewrite <- disposition_of_run by done. unfold decision_of, where_.
  induction (decisions_from_audit gen_random_uuid d) as [|v l IH]; cbn; [done|].
  destruct (String.eqb _ _); cbn; done.
Qed.

End Decisions.

(** ** What 202607190002 must do *)

(** The decision a run had: its status, or an event of its audit log. *)
Definition decided_before (d : old_database) (r : old_run) (disp : string) : Prop :=
  in_strs disp decided_statuses = true
  ∧ (old_status r = disp
     ∨ in_strs (old_status r) decided_statuses = false
       ∧ ∃ a, a ∈ od_audit d ∧ audit_run_id a = old_run_id r ∧ event_type a = disp).

(** The row as the code reads it when the column [processing_status] is empty. *)
Definition unmigrated_row (r : old_run) : WorkflowRun :=
  mkWorkflowRun (old_pk r) (old_run_id r) (old_document_id r) (old_status r) "" ""
    (old_interrupt_payload r) (old_created_at r).

(** The statuses the code wrote before, with a payload that is absent or not empty. *)
Definition written_before (r : old_run) : bool :=
  in_strs (old_status r) ["pending"; "running"; "retrying"; "awaiting_review"; "complete"; "failed";
                          "approved"; "rejected"; "partial"; "reconciled"; "exception"]
  && (is_nil (option_list (old_interrupt_payload r)) || opt_truthy jtruthy (old_interrupt_payload r)).

Record run_migrated (d : old_database) (decisions : list ReviewDecision) (r : old_run)
    (r' : WorkflowRun * datetime) : Prop := {
  rm_same : run_id r'.1 = old_run_id r ∧ document_id r'.1 = old_document_id r
            ∧ interrupt_payload r'.1 = old_interrupt_payload r ∧ r'.2 = old_updated_at r;
  rm_decided disp : disposition <$> decision_of decisions (run_id r'.1) = Some disp
                    ↔ decided_before d r disp;
  rm_status : status r'.1 = legacy_status (processing_status_of r'.1)
                              (decision_of decisions (run_id r'.1));
  rm_processing : decision_of decisions (run_id r'.1) = None → written_before r = true →
                  processing_status r'.1 = processing_status_of (unmigrated_row r);
  rm_ready : posting_status r'.1 = "ready_for_posting" ↔
             decided_before d r "approved"
             ∨ (∀ disp, ¬ decided_before d r disp)
               ∧ (old_status r = "reconciled" ∨ exists_reconciled_shipment d r = true)
}.

(** Every column of [jsonb] holds what the code wrote: arrays, of objects. *)
Definition jsonb_ok (r : old_result) : bool :=
  let array j := match j with JArr _ => true | _ => false end in
  array (res_missing_docs r) && array (res_exception_reasons r)
  && match res_checks r with
     | JArr l => forallb (λ item, match item with JArr _ | JObj _ => true | _ => false end) l
     | _ => false
     end.

Lemma count_events_pos ev audits rid :
  in_strs ev decided_statuses = true →
  (0 <? count_events ev (decision_events audits rid)) = true
  ↔ ∃ a, a ∈ audits ∧ audit_run_id a = rid ∧ event_type a = ev.
Proof.
  intros Hev. unfold count_events, count_by, decision_events. rewrite Nat.ltb_lt. split.
  - destruct (List.filter _ _) as [|a l] eqn:E; cbn; [lia|]. intros _. exists a.
    assert (Ha : a ∈ a :: l) by constructor. rewrite <- E, list_elem_of_In, filter_In in Ha.
    destruct Ha as [Ha He%String.eqb_eq]. rewrite <- list_elem_of_In in Ha.
    apply elem_of_where in Ha as [Ha [Hr%String.eqb_eq _]%andb_prop]. done.
  - intros (a & Ha & Hr & He). assert (Hin : a ∈ List.filter (λ a, String.eqb (event_type a) ev)
      (where_ (λ a, String.eqb (audit_run_id a) rid && in_strs (event_type a) decided_statuses) audits)).
    { rewrite list_elem_of_In, filter_In, <- list_elem_of_In, elem_of_where.
      by rewrite Hr, He, Hev, !String.eqb_refl. }
    destruct (List.filter _ _); [by apply not_elem_of_nil in Hin|cbn; lia].
Qed.

Lemma audit_disposition_spec d r disp :
  old_run_id r ∉ conflicts d → r ∈ od_runs d →
  audit_disposition (od_audit d) r = Some disp ↔ decided_before d r disp.
Proof.
  intros Hc Hr. unfold audit_disposition, decided_before.
  pose proof (count_events_pos "approved" (od_audit d) (old_run_id r) eq_refl) as Ha.
  pose proof (count_events_pos "rejected" (od_audit d) (old_run_id r) eq_refl) as Hj.
  destruct (in_strs (old_status r) decided_statuses) eqn:Es; [naive_solver congruence|].
  assert (Hboth : (0 <? count_events "approved" (decision_events (od_audit d) (old_run_id r)))
                  && (0 <? count_events "rejected" (decision_events (od_audit d) (old_run_id r))) = false).
  { apply Bool.not_true_iff_false. intros Hb. apply Hc, list_elem_of_fmap_2, elem_of_where.
    by rewrite Es, <- Bool.andb_assoc. }
  assert (Hno : in_strs disp decided_statuses = true → disp = "approved" ∨ disp = "rejected")
    by (rewrite in_strs_In; unfold decided_statuses; set_solver).
  destruct (0 <? count_events "approved" _), (0 <? count_events "rejected" _); [done| | |].
  all: split; [intros [= <-] || intros [=]|intros [Hd [<-|(_ & Hex)]]; [congruence|]].
  all: try (split; [done|right; split; [done|]; by (apply Ha || apply Hj)]).
  all: destruct (Hno Hd) as [-> | ->]; (apply Ha in Hex || apply Hj in Hex); done.
Qed.

Section Runs.
Context (gen_random_uuid : nat → uuid) (d : old_database).
Context (Hids : NoDup (old_run_id <$> od_runs d)) (Hc : conflicts d = []).

Let decisions := decisions_from_audit gen_random_uuid d.

Lemma decided_spec r disp :
  r ∈ od_runs d →
  disposition <$> decision_of decisions (old_run_id r) = Some disp ↔ decided_before d r disp.
Proof using Hids Hc.
  intros Hr. unfold decisions. rewrite disposition_of_run by done.
  apply audit_disposition_spec; [|done]. rewrite Hc. apply not_elem_of_nil.
Qed.

Lemma migrated_processing_complete r o :
  decision_of decisions (old_run_id r) = Some o → r ∈ od_runs d →
  migrated_processing decisions r = "complete".
Proof using Hids.
  intros Ho Hr. unfold migrated_processing, decisions. rewrite existsb_decision_of_run by done.
  unfold decisions in Ho. pose proof (disposition_of_run gen_random_uuid d Hids r Hr) as E.
  rewrite Ho in E. rewrite <- E. by rewrite bool_decide_eq_true_2.
Qed.

Lemma migrated_processing_undecided r :
  decision_of decisions (old_run_id r) = None → r ∈ od_runs d →
  written_before r = true →
  migrated_processing decisions r = processing_status_of (unmigrated_row r).
Proof using Hids.
  intros Ho Hr Hw. unfold migrated_processing, decisions. rewrite existsb_decision_of_run by done.
  unfold decisions in Ho. pose proof (disposition_of_run gen_random_uuid d Hids r Hr) as E.
  rewrite Ho in E. rewrite <- E. rewrite bool_decide_eq_false_2 by (intros [? [=]]).
  unfold written_before in Hw. apply andb_prop in Hw as [Hs Hp].
  unfold processing_status_of. destruct r as [pk rid doc st payload ct ut].
  cbn [unmigrated_row old_status old_interrupt_payload processing_status status interrupt_payload] in *.
  assert (Hpay : bool_decide (is_Some payload) = opt_truthy jtruthy payload).
  { destruct payload as [p|]; [|done]. cbn in Hp |- *. by rewrite Hp. }
  rewrite Hpay. apply in_strs_In in Hs. clear -Hs.
  repeat (apply elem_of_cons in Hs as [->|Hs]; [by cbn; destruct (opt_truthy jtruthy payload)|]).
  by apply not_elem_of_nil in Hs.
Qed.

(** A column that the migration fills is not empty, so that it is what the code reads. *)
Lemma migrated_processing_ck r :
  in_strs (migrated_processing decisions r)
    ["pending"; "running"; "retrying"; "awaiting_review"; "complete"; "failed"] = true.
Proof.
  clear Hids Hc. unfold migrated_processing. repeat case_match; try done.
  apply in_strs_In. rewrite in_strs_In in *. set_solver.
Qed.

Lemma migrated_processing_read r :
  processing_status_of (migrated_run d decisions r).1 = migrated_processing decisions r.
Proof.
  unfold processing_status_of. cbn. pose proof (migrated_processing_ck r) as H.
  destruct (migrated_processing decisions r); [by vm_compute in H|done].
Qed.

Lemma run_migrates r : r ∈ od_runs d → run_migrated d decisions r (migrated_run d decisions r).
Proof using Hids Hc.
  intros Hr. pose proof (λ disp, decided_spec r disp Hr) as Hd.
  split; [done|exact Hd| | |].
  - rewrite migrated_processing_read. cbn. unfold legacy_status.
    by destruct (decision_of decisions (old_run_id r)).
  - intros Ho Hw. by apply migrated_processing_undecided.
  - cbn. unfold migrated_posting. rewrite <- !Hd. unfold decisions.
    rewrite !exists_decision_of_run, <- (disposition_of_run gen_random_uuid) by done.
    fold decisions. setoid_rewrite <- Hd.
    destruct (disposition <$> decision_of decisions (old_run_id r)) as [disp|] eqn:Ed; cbn.
    + destruct (Hd disp) as [Hs _]. destruct (Hs eq_refl) as [Hs' _]. apply in_strs_In in Hs'.
      destruct (String.eqb_spec disp "approved") as [->|]; [naive_solver|].
      destruct (String.eqb_spec disp "rejected") as [->|]; [naive_solver|]. set_solver.
    + destruct (String.eqb_spec (old_status r) "reconciled"), (exists_reconciled_shipment d r);
        naive_solver.
Qed.

End Runs.

(** ** The results *)

Definition is_data_error {A} (r : res A) : Prop :=
  match r with Ok _ => True | Raise e => exn_cls e = OtherError "DataError" end.

Lemma map_res_data_error {A B} (f : A → res B) l :
  (∀ a, is_data_error (f a)) → is_data_error (map_res f l).
Proof.
  intros H. pose proof (map_res_cases f l) as C. destruct (map_res f l) as [|e]; [done|].
  destruct C as (a & _ & E). specialize (H a). by rewrite E in H.
Qed.

Lemma map_res_total {A B} (f : A → res B) l :
  (∀ a, a ∈ l → ∃ b, f a = Ok b) → ∃ bs, map_res f l = Ok bs ∧ Forall2 (λ a b, f a = Ok b) l bs.
Proof.
  intros H. pose proof (map_res_cases f l) as C. destruct (map_res f l) as [bs|e]; [by exists bs|].
  destruct C as (a & Ha & E). destruct (H a Ha) as [b Eb]. congruence.
Qed.

Lemma jsonb_array_length_data_error j : is_data_error (jsonb_array_length j).
Proof. by destruct j. Qed.

Lemma check_outcome_data_error missing item : is_data_error (check_outcome missing item).
Proof.
  unfold check_outcome. destruct (jsonb_text "passed" item) as [p|]; [|done].
  destruct (String.eqb p "false"); [done|]. destruct (sql_eq _ _ _); [|done].
  pose proof (jsonb_array_length_data_error missing) as H. by destruct (jsonb_array_length missing).
Qed.

Lemma migrated_check_data_error missing item : is_data_error (migrated_check missing item).
Proof.
  unfold migrated_check. pose proof (check_outcome_data_error missing item) as H.
  destruct item; cbn [jsonb_delete]; try done; by destruct (check_outcome missing _).
Qed.

Lemma with_checks_data_error r : is_data_error (with_checks migrated_check r).
Proof.
  unfold with_checks, jsonb_array_elements, jsonb_array. destruct (res_checks r) as [| | | | |l|]; [done..| |done].
  pose proof (map_res_data_error _ l (migrated_check_data_error (res_missing_docs r))) as H.
  by destruct (map_res _ l).
Qed.

Lemma result_counts_data_error r : is_data_error (result_counts r).
Proof.
  unfold result_counts.
  pose proof (jsonb_array_length_data_error (res_exception_reasons r)) as He.
  pose proof (jsonb_array_length_data_error (res_missing_docs r)) as Hm.
  destruct (jsonb_array_length (res_exception_reasons r)); [|done].
  destruct (jsonb_array_length (res_missing_docs r)); [|done].
  by destruct (res_checks r).
Qed.

Lemma migrated_check_total missing item :
  match item with JArr _ | JObj _ => true | _ => false end = true →
  ∃ item', migrated_check (JArr missing) item = Ok item'.
Proof.
  intros H. unfold migrated_check, check_outcome.
  destruct item; try done; cbn [jsonb_delete]; repeat case_match; simplify_eq; eauto.
Qed.

Lemma jsonb_ok_migrates r :
  jsonb_ok r = true →
  ∃ r', with_checks migrated_check r = Ok r' ∧ ∃ c, result_counts r' = Ok c.
Proof.
  unfold jsonb_ok, with_checks. destruct r as [id sid rid ch mi ex ct]; cbn.
  destruct mi as [| | | | |mi|], ex as [| | | | |ex|], ch as [| | | | |l|]; try done. cbn.
  rewrite forallb_forall. intros Hl.
  destruct (map_res_total (migrated_check (JArr mi)) l) as (bs & E & _); [|rewrite E; cbn; eauto].
  intros item Hi%list_elem_of_In%Hl. by apply migrated_check_total.
Qed.

(** The results of a migration that does not raise. *)
Lemma results_migrate l :
  Forall (λ r, jsonb_ok r = true) l →
  ∃ rs cs, map_res (with_checks migrated_check) l = Ok rs ∧ map_res result_counts rs = Ok cs.
Proof.
  intros H. induction H as [|r l Hr _ (rs & cs & E1 & E2)]; [by exists [], []|].
  destruct (jsonb_ok_migrates r Hr) as (r' & E & c & E').
  exists (r' :: rs), (c :: cs). cbn. by rewrite E, E1; cbn; rewrite E', E2.
Qed.

(** ** The shipments *)

Definition migrated_shipment (counts : list latest_result) (s : Shipment) : Shipment :=
  status_without_result (status_from_latest counts s).

Lemma latest_status_ck l : in_strs (latest_status l) reconciliation_statuses = true.
Proof. unfold latest_status. by repeat case_match. Qed.

(** A status that is legal stays; another one is that of the latest result, or of the old
    status when there is none. *)
Lemma migrated_shipment_status counts s :
  migrated_shipment counts s =
  if in_strs (reconciliation_status s) reconciliation_statuses then s
  else set_reconciliation_status
         (match latest_of counts (shipment_id s) with
          | Some l => latest_status l
          | None => if in_strs (reconciliation_status s) ["awaiting_review"; "approved"; "rejected"; "failed"]
                    then "exception" else "pending"
          end) s.
Proof.
  unfold migrated_shipment, status_from_latest.
  destruct (in_strs (reconciliation_status s) reconciliation_statuses) eqn:E.
  - unfold status_without_result. by rewrite E.
  - destruct (latest_of counts (shipment_id s)) as [l|]; unfold status_without_result;
      cbn [set_reconciliation_status reconciliation_status].
    + by rewrite latest_status_ck.
    + by rewrite E.
Qed.

Lemma migrated_shipment_ck counts s : ck_reconciliation_status (migrated_shipment counts s) = true.
Proof.
  assert (H : in_strs (reconciliation_status (migrated_shipment counts s)) reconciliation_statuses = true).
  { rewrite migrated_shipment_status.
    destruct (in_strs (reconciliation_status s) reconciliation_statuses) eqn:E; [done|].
    cbn [reconciliation_status set_reconciliation_status].
    destruct (latest_of _ _); [apply latest_status_ck|by case_match]. }
  unfold ck_reconciliation_status. rewrite in_strs_In in *. unfold reconciliation_statuses in H.
  set_solver.
Qed.

Lemma migrated_shipment_legal counts s :
  migrated_shipment counts s
  = set_reconciliation_status (reconciliation_status (migrated_shipment counts s)) s
  ∧ (ck_reconciliation_status s = true → migrated_shipment counts s = s).
Proof.
  rewrite migrated_shipment_status.
  destruct (in_strs (reconciliation_status s) reconciliation_statuses) eqn:E; [by destruct s|].
  split; [done|]. unfold ck_reconciliation_status. intros H. exfalso.
  apply Bool.not_true_iff_false in E. apply E. rewrite in_strs_In in *.
  unfold reconciliation_statuses. set_solver.
Qed.

(** ** The migration *)

(** The rows of 202607190002 as the tables of the model. *)
Definition holds_migrated (d' : new_database) (db : database) : Prop :=
  workflow_runs db = (nd_runs d').*1 ∧ review_decisions db = nd_decisions d'
  ∧ shipments db = nd_shipments d'.

Section Migrated.
Context (gen_random_uuid : nat → uuid) (d : old_database).
Context (Hids : NoDup (old_run_id <$> od_runs d)) (Hc : conflicts d = []).

Let decisions := decisions_from_audit gen_random_uuid d.

Lemma migrated_settled v :
  v ∈ decisions →
  in_strs (disposition v) ["approved"; "rejected"] = true
  ∧ ∃ r, r ∈ od_runs d ∧ old_run_id r = decision_run_id v
         ∧ settled_by v (migrated_run d decisions r).1.
Proof using Hids Hc.
  intros Hv. pose proof Hv as Hv'. unfold decisions in Hv'. rewrite decisions_selected in Hv' by done.
  apply selected_elem in Hv' as (r & Hr & Ed & Er & _ & _).
  pose proof (disposition_of_run gen_random_uuid d Hids r Hr) as E. rewrite Ed in E.
  fold decisions in E. pose proof E as Hin. apply decided_spec in Hin as [Hin _]; [|done..].
  split; [exact Hin|]. exists r. split; [done|]. split; [done|].
  destruct (decision_of decisions (old_run_id r)) as [o|] eqn:Eo; [|done].
  split; [|split]; cbn.
  - rewrite Eo. injection E. done.
  - by eapply migrated_processing_complete.
  - unfold migrated_posting, decisions. rewrite !exists_decision_of_run, Ed by done. cbn.
    apply in_strs_In in Hin. unfold posting_of.
    destruct (String.eqb_spec (disposition v) "approved"); [done|].
    destruct (String.eqb_spec (disposition v) "rejected"); [done|]. set_solver.
Qed.

Lemma migrated_coherent d' db :
  nd_runs d' = migrated_run d decisions <$> od_runs d → nd_decisions d' = decisions →
  holds_migrated d' db →
  NoDup (run_id <$> workflow_runs db) ∧ NoDup (decision_run_id <$> review_decisions db)
  ∧ decisions_coherent db.
Proof using Hids Hc.
  intros Hr Hd (Ew & E & _). split; [|split]; rewrite ?E, ?Ew, ?Hr, ?Hd.
  - rewrite <- !list_fmap_compose. exact Hids.
  - by apply decisions_NoDup.
  - intros v Hv. rewrite E, Hd in Hv.
    destruct (migrated_settled v Hv) as (Hin & r & Hr' & Ei & Hs). split; [done|].
    exists (migrated_run d decisions r).1. rewrite Ew, Hr, <- list_fmap_compose. split; [by apply (list_elem_of_fmap_2 (fst ∘ migrated_run d decisions))|done].
Qed.

Lemma migrated_run_ck r : ck_workflow_run (migrated_run d decisions r).1 = true.
Proof.
  apply andb_true_intro. split; [apply migrated_processing_ck|].
  cbn [migrated_run posting_status fst]. unfold migrated_posting. by repeat case_match.
Qed.
End Migrated.

(** C40 The migration of the business state.  Whenever it succeeds, the migrated tables satisfy
    the invariant that the review decisions rest on, and the new CHECK constraints; every
    run has the decision its status or its audit log tells, and no other, reads as it read
    before, and is released only if it was approved, or undecided and reconciled; a
    shipment whose status was legal keeps it.  It refuses, without effect, only audit logs
    that both approve and reject a run, and columns that do not hold arrays of checks. *)
Theorem status_migration_correct gen_random_uuid d :
  NoDup (old_run_id <$> od_runs d) →
  match upgrade_business_state gen_random_uuid d with
  | Ok d' =>
      (∀ db, holds_migrated d' db →
         NoDup (run_id <$> workflow_runs db) ∧ NoDup (decision_run_id <$> review_decisions db)
         ∧ decisions_coherent db)
      ∧ constraints_hold d' = true
      ∧ Forall2 (run_migrated d (nd_decisions d')) (od_runs d) (nd_runs d')
      ∧ Forall2 (λ s s', s' = set_reconciliation_status (reconciliation_status s') s
                         ∧ (ck_reconciliation_status s = true → s' = s)) (od_shipments d) (nd_shipments d')
      ∧ nd_documents d' = od_documents d ∧ nd_audit d' = od_audit d
  | Raise e =>
      (exn_cls e = RuntimeError
       ∧ ∃ r, r ∈ od_runs d ∧ in_strs (old_status r) decided_statuses = false
              ∧ decided_before d r "approved" ∧ decided_before d r "rejected")
      ∨ (exn_cls e = OtherError "DataError" ∧ ∃ r, r ∈ od_results d ∧ jsonb_ok r = false)
  end.
Proof.
  intros Hids. unfold upgrade_business_state.
  destruct (conflicts d) as [|rid rids] eqn:Hc.
  2: { left. split; [done|]. assert (H : rid ∈ conflicts d) by (rewrite Hc; constructor).
       apply list_elem_of_fmap in H as (r & _ & [Hr Hb]%elem_of_where). apply andb_prop in Hb as [Hb Hj].
       apply andb_prop in Hb as [Hs%negb_true_iff Ha]. exists r.
       apply count_events_pos in Ha; [|done]. apply count_events_pos in Hj; [|done].
       unfold decided_before. naive_solver. }
  pose proof (results_migrate (od_results d)) as Hres.
  pose proof (map_res_data_error _ (od_results d) with_checks_data_error) as D1.
  assert (Hbad : ¬ Forall (λ r, jsonb_ok r = true) (od_results d) →
                 ∃ r, r ∈ od_results d ∧ jsonb_ok r = false).
  { intros (r & Hr & Hn)%not_Forall_Exists%Exists_exists; [|solve_decision]. exists r.
    split; [done|]. by apply Bool.not_true_iff_false. }
  destruct (map_res (with_checks migrated_check) (od_results d)) as [results|e].
  2: { right. split; [done|]. apply Hbad. intros H. by destruct (Hres H) as (? & ? & ? & _). }
  pose proof (map_res_data_error _ results result_counts_data_error) as D2.
  destruct (map_res result_counts results) as [counts|e] eqn:Ec.
  2: { right. split; [done|]. apply Hbad. intros H. destruct (Hres H) as (? & ? & [= <-] & E2). congruence. }
  rewrite <- list_fmap_compose.
  set (d' := mk_new_database _ _ _ _ _ _ _).
  assert (Hck : constraints_hold d' = true).
  { apply andb_true_intro. split; apply forallb_forall.
    - intros r' Hr'%list_elem_of_In%list_elem_of_fmap. destruct Hr' as (r & -> & _).
      apply migrated_run_ck.
    - intros s' Hs'%list_elem_of_In%list_elem_of_fmap. destruct Hs' as (s & -> & _).
      apply migrated_shipment_ck. }
  rewrite Hck. split; [|split; [done|split; [|split; [|done]]]].
  - intros db. by apply (migrated_coherent gen_random_uuid d).
  - apply Forall2_fmap_r, Forall_Forall2_diag, Forall_forall. intros r Hr. by apply run_migrates.
  - apply Forall2_fmap_r, Forall_Forall2_diag, Forall_forall. intros s _.
    fold (migrated_shipment counts s). apply migrated_shipment_legal.
Qed.

Lemma dict_get_deleted {V} (key k : string) (kvs : list (string * V)) :
  dict_get k (List.filter (λ kv, negb (String.eqb kv.1 key)) kvs)
  = if String.eqb k key then None else dict_get k kvs.
Proof.
  induction kvs as [|[k' v] kvs IH]; cbn; [by destruct (String.eqb k key)|].
  destruct (String.eqb_spec k' key) as [->|Hn]; cbn; rewrite IH.
  - by destruct (String.eqb k key).
  - destruct (String.eqb_spec k k') as [->|]; [|done]. by destruct (String.eqb_spec k' key).
Qed.

Lemma check_outcome_failed missing kvs b :
  dict_get "passed" kvs = Some (JBool b) →
  ∃ o, check_outcome (JArr missing) (JObj kvs) = Ok o ∧ String.eqb o "failed" = negb b.
Proof.
  intros Hp. unfold check_outcome. unfold jsonb_text at 1. cbn [jget]. rewrite Hp.
  destruct b; cbn; [|by exists "failed"]. repeat case_match; eauto.
Qed.

(** A check that carried a verdict has it again after the migration and its reverse,
    and its other entries, whatever they are. *)
Lemma check_roundtrip missing kvs b :
  dict_get "passed" kvs = Some (JBool b) → dict_get "outcome" kvs = None →
  ∃ item' item'', migrated_check (JArr missing) (JObj kvs) = Ok item' ∧ restored_check item' = Ok item''
    ∧ ∀ k, jget k item'' = dict_get k kvs.
Proof.
  intros Hp Ho. destruct (check_outcome_failed missing kvs b Hp) as (o & Eo & Hb).
  unfold migrated_check. rewrite Eo. cbn [jsonb_delete jsonb_put].
  eexists _, _. split; [done|]. split; [done|]. intros k. unfold jsonb_text. cbn [jget].
  rewrite dict_get_set, String.eqb_refl. cbn [sql_eq]. rewrite Hb, Bool.negb_involutive.
  cbn [jsonb_put jget]. rewrite dict_get_set, dict_get_deleted, dict_get_set, dict_get_deleted.
  destruct (String.eqb_spec k "passed") as [->|]; [done|].
  by destruct (String.eqb_spec k "outcome") as [->|].
Qed.

(** ** A database of before *)

Definition before_day (n : Z) : datetime := (n * 86400000000)%Z.

Definition demo_old : old_database :=
  mk_old_database
    [mkDocument 1 "inv.pdf" "invoice" "extracted" None None None None None None None None (Some 7%N) 0]
    [mk_old_run 1 "r1" 1 "reconciled" None 0 (before_day 5);
     mk_old_run 2 "r2" 1 "complete" None 0 (before_day 5);
     mk_old_run 3 "r3" 1 "exception" (Some (JObj [("reason", JStr "late")])) 0 (before_day 5);
     mk_old_run 4 "r4" 1 "approved" None 0 (before_day 5)]
    [mkWorkflowAuditLog 1 "r2" "rejected" None None (before_day 3);
     mkWorkflowAuditLog 2 "r4" "approved" None None (before_day 2)]
    [mkShipment 7%N "L1" None true true true true (Some 1%Z) None None None "approved" 0]
    [mk_old_result 9%N 7%N (Some "r1")
       (JArr [JObj [("check_name", JStr "amount"); ("passed", JBool true);
                    ("details", JStr "skipped: no invoice")];
              JObj [("check_name", JStr "carrier"); ("passed", JBool true); ("details", JStr "same")]])
       (JArr []) (JArr []) (before_day 1)]
    [mk_old_notification 1 0 4 2 1 1].

Lemma status_migration_correct_witness :
  NoDup (old_run_id <$> od_runs demo_old)
  ∧ ∃ d', upgrade_business_state N.of_nat demo_old = Ok d'
      ∧ constraints_hold d' = true
      ∧ Forall2 (run_migrated demo_old (nd_decisions d')) (od_runs demo_old) (nd_runs d')
      ∧ ((λ r, (status r.1, processing_status r.1, posting_status r.1)) <$> nd_runs d',
         reconciliation_status <$> nd_shipments d', decided_at <$> nd_decisions d')
        = ([("complete", "complete", "ready_for_posting"); ("rejected", "complete", "blocked");
            ("awaiting_review", "awaiting_review", "not_ready");
            ("approved", "complete", "ready_for_posting")],
           ["partial"], [before_day 3; before_day 2]).
Proof.
  assert (Hids : NoDup (old_run_id <$> od_runs demo_old)) by (apply NoDup_ListNoDup; repeat constructor; cbn; intuition congruence).
  split; [exact Hids|].
  pose proof (status_migration_correct N.of_nat demo_old Hids) as T.
  assert (L : match upgrade_business_state N.of_nat demo_old with
              | Ok d' => ((λ r, (status r.1, processing_status r.1, posting_status r.1)) <$> nd_runs d',
                          reconciliation_status <$> nd_shipments d', decided_at <$> nd_decisions d')
              | Raise _ => ([], [], [])
              end
              = ([("complete", "complete", "ready_for_posting"); ("rejected", "complete", "blocked");
                  ("awaiting_review", "awaiting_review", "not_ready");
                  ("approved", "complete", "ready_for_posting")],
                 ["partial"], [before_day 3; before_day 2])) by (vm_compute; reflexivity).
  destruct (upgrade_business_state N.of_nat demo_old) as [d'|e]; [|by vm_compute in L].
  destruct T as (_ & Hck & Hruns & _). by exists d'.
Defined.
