(* ===== verification/ResultFrame.v ===== *)
(** * What an operation leaves to the runs of others

    [kept o] relates the tables before and after an operation on behalf of the run [o]
    (or of no run): the runs and the decisions are the same, every document is still there
    with its idempotency key, and every reconciliation result that belongs to another run
    is untouched.  The sessions of the nodes, of the scanner, of the rate confirmations and
    of the notifier keep these tables, whether they return or raise; and a reconciliation
    that ends with a reconciled shipment leaves a result of its run in which every check
    passed. *)

From S2P Require Import Prelude PyText LoadNumbers DateTime PyFloat Json Database MissingDocs.
From S2P Require Import Shipments Reconciliation SlaScanner Extraction Workflow WorkflowSafety.
From S2P Require Import Frame RateConfirmationRoutes Notifier.
From Stdlib Require Import Ascii.
Local Open Scope string_scope.
Local Open Scope list_scope.
Local Open Scope nat_scope.

(** The id and the idempotency key of a document. *)
Definition doc_key (doc : Document) : Z * option string := (doc_id doc, source_idempotency_key doc).

Definition keyed (d : database) (i : Z) (k : string) : Prop := (i, Some k) ∈ doc_key <$> documents d.

Record kept (o : option string) (d0 d : database) : Prop := {
  kt_runs : workflow_runs d = workflow_runs d0;
  kt_decisions : review_decisions d = review_decisions d0;
  kt_doc_ids : NoDup (doc_id <$> documents d);
  kt_documents : doc_id <$> documents d0 ⊆ doc_id <$> documents d;
  kt_keyed : ∀ i k, keyed d i k ↔ keyed d0 i k;
  kt_result_ids : NoDup (result_id <$> reconciliation_results d);
  kt_sources : ∀ r, r ∈ reconciliation_results d → result_run_id r = None ∨ evaluation_key r = None;
  kt_results : ∀ r rid, r ∈ reconciliation_results d0 → result_run_id r = Some rid → Some rid ≠ o →
               r ∈ reconciliation_results d;
  kt_audits : audit_logs d0 ⊆ audit_logs d
}.

Lemma kept_trans o d0 d1 d2 : kept o d0 d1 → kept o d1 d2 → kept o d0 d2.
Proof.
  intros [A1 A2 A3 A4 A5 A6 A7 A8 A9] [B1 B2 B3 B4 B5 B6 B7 B8 B9]. split; try done; try congruence.
  - by etransitivity.
  - intros i k. by rewrite B5.
  - eauto.
  - by etransitivity.
Qed.

Lemma kept_weaken o d0 d : kept None d0 d → kept o d0 d.
Proof. intros [A1 A2 A3 A4 A5 A6 A7 A8 A9]. split; eauto. Qed.

(** The tables an operation starts from. *)
Record results_wf (d : database) : Prop := {
  rf_doc_ids : NoDup (doc_id <$> documents d);
  rf_result_ids : NoDup (result_id <$> reconciliation_results d);
  rf_sources : ∀ r, r ∈ reconciliation_results d → result_run_id r = None ∨ evaluation_key r = None
}.

Lemma kept_refl o d : results_wf d → kept o d d.
Proof. by intros [W1 W2 W3]; split. Qed.

Lemma kept_wf o d0 d : kept o d0 d → results_wf d.
Proof. by intros [_ _ A3 _ _ A6 A7 _]; split. Qed.

(** ** Sessions *)

Section Sessions.
Context (o : option string) (d0 : database).

(** The two copies of a session are kept; the documents of [ps] are in the working one. *)
Record holds (ps : list (Z * option string)) (s : session) : Prop := {
  ho_working : kept o d0 (working s);
  ho_committed : kept o d0 (committed s);
  ho_present : ps ⊆ doc_key <$> documents (working s)
}.

Lemma holds_less p ps s : holds (p :: ps) s → holds ps s.
Proof. intros [H1 H2 H3]. split; [done..|]. set_solver. Qed.

Lemma holds_more doc ps s : doc ∈ documents (working s) → holds ps s → holds (doc_key doc :: ps) s.
Proof.
  intros Hd [H1 H2 H3]. split; [done..|]. intros p [->|Hp]%elem_of_cons; [|by apply H3].
  by apply list_elem_of_fmap_2.
Qed.

Abbreviation fine ps := (preserves (holds ps)).

Lemma fine_env ps f : fine ps (with_env f).
Proof. by intros s [H1 H2 H3]. Qed.
Lemma fine_uuid4 ps : fine ps uuid4.
Proof. by intros s [H1 H2 H3]. Qed.
Lemma fine_doc_id ps : fine ps next_doc_id.
Proof. by intros s [H1 H2 H3]. Qed.
Lemma fine_audit_id ps : fine ps next_audit_id.
Proof. by intros s [H1 H2 H3]. Qed.
Lemma fine_notif_id ps : fine ps next_notif_id.
Proof. by intros s [H1 H2 H3]. Qed.
Lemma fine_clock ps : fine ps db_clock.
Proof. by intros s. Qed.
Lemma fine_select {A} ps (q : database → A) : fine ps (select q).
Proof. by intros s. Qed.
Lemma fine_insist ps v what : fine ps (insist v what).
Proof. intros s H. by destruct v. Qed.
Lemma fine_commit ps : fine ps commit.
Proof. by intros s [H1 H2 H3]. Qed.
Lemma fine_rollback : fine [] rollback.
Proof. intros s [H1 H2 _]. split; [done..|]. set_solver. Qed.

(** A write of a table that does not matter. *)
Lemma fine_write ps (f : database → database) :
  (∀ d, (workflow_runs (f d), review_decisions (f d), documents (f d), reconciliation_results (f d))
        = (workflow_runs d, review_decisions d, documents d, reconciliation_results d)) →
  (∀ d, audit_logs d ⊆ audit_logs (f d)) →
  fine ps (modify (on_working f)).
Proof.
  intros Hf Ha s [[A1 A2 A3 A4 A5 A6 A7 A8 A9] H2 H3]. specialize (Hf (working s)). specialize (Ha (working s)).
  injection Hf as E1 E2 E3 E4. unfold keyed in *. split; [|done|];
    cbn [on_working modify working committed snd]; rewrite ?E3; [|done].
  split; unfold keyed; rewrite ?E1, ?E2, ?E3, ?E4; try done. by etransitivity.
Qed.

Lemma fine_weaken {A} p ps (m : M session A) s :
  fine (p :: ps) m → holds (p :: ps) s → holds ps (m s).2.
Proof. intros Hm Hs. apply (holds_less p). by apply Hm. Qed.

(** ** Documents *)

(** A new document without an idempotency key. *)
Definition unkeyed (mk : Z → datetime → Document) : Prop :=
  ∀ i now, doc_id (mk i now) = i ∧ source_idempotency_key (mk i now) = None.

Lemma kept_new_document d doc :
  kept o d0 d → doc_id doc ∉ doc_id <$> documents d → source_idempotency_key doc = None →
  kept o d0 (on_documents (λ t, t ++ [doc]) d).
Proof.
  intros [A1 A2 A3 A4 A5 A6 A7 A8 A9] Hi Hk. split; cbn; try done.
  - rewrite fmap_app. apply NoDup_app. split; [done|]. split; [|repeat constructor; set_solver].
    intros x Hx Hx'%list_elem_of_singleton. by subst.
  - rewrite fmap_app. set_solver.
  - intros i k. rewrite <- A5. unfold keyed. cbn. rewrite fmap_app, elem_of_app. split; [|by left].
    intros [H|H]; [done|]. apply list_elem_of_singleton in H. unfold doc_key in H.
    rewrite Hk in H. by injection H.
Qed.

Lemma insert_document_holds mk ps s :
  unkeyed mk → holds ps s →
  match insert_document mk s with
  | (Ok doc, s') => holds (doc_key doc :: ps) s'
  | (Raise _, s') => holds ps s'
  end.
Proof.
  intros Hmk [H1 H2 H3]. destruct (Hmk (doc_seq (senv s)) (clock (senv s))) as [Hi Hk].
  session_unfold. set (doc := mk _ _) in *. rewrite Hk.
  destruct (existsb _ (documents (working s))) eqn:E; cbn; [by split|].
  assert (Hnew : doc_id doc ∉ doc_id <$> documents (working s)).
  { rewrite Hi. intros (x & Ex & Hx)%list_elem_of_fmap. rewrite existsb_false_Forall, Forall_forall in E.
    specialize (E x Hx). cbn in E. by rewrite <- Ex, Z.eqb_refl in E. }
  split; [by apply kept_new_document|done|]. cbn. rewrite fmap_app.
  intros p [->|Hp]%elem_of_cons; rewrite elem_of_app; [right; by left|left; by apply H3].
Qed.

Lemma fine_insert_document ps mk : unkeyed mk → fine ps (insert_document mk).
Proof.
  intros Hmk s Hs. pose proof (insert_document_holds mk ps s Hmk Hs) as H.
  destruct (insert_document mk s) as [[doc|e] s']; [by apply holds_less in H|done].
Qed.

Lemma bind_insert_document {A} ps mk (f : Document → M session A) :
  unkeyed mk → (∀ doc, fine (doc_key doc :: ps) (f doc)) → fine ps (insert_document mk ≫= f).
Proof.
  intros Hmk Hf s Hs. rewrite bind_unfold. pose proof (insert_document_holds mk ps s Hmk Hs) as H.
  destruct (insert_document mk s) as [[doc|e] s']; [|done]. by apply (fine_weaken (doc_key doc)).
Qed.

Lemma bind_get_document {A} ps i (f : option Document → M session A) :
  (∀ doc, fine (doc_key doc :: ps) (f (Some doc))) → fine ps (f None) → fine ps (get_document i ≫= f).
Proof.
  intros Hf Hn s Hs. rewrite bind_unfold. unfold get_document, select, gets.
  destruct (find_first _ (documents (working s))) as [doc|] eqn:E; [|by apply Hn].
  apply (fine_weaken (doc_key doc)); [done|]. apply holds_more; [|done].
  unfold find_first in E. apply find_some in E as [E _]. by apply list_elem_of_In.
Qed.

(** Writing back a document that is in the table under its id and key. *)
Lemma fine_save_document ps doc : doc_key doc ∈ ps → fine ps (save_document doc).
Proof.
  intros Hin s [H1 H2 H3]. specialize (H3 _ Hin) as Hdoc.
  apply list_elem_of_fmap in Hdoc as (old & Eold & Hold). injection Eold as Eid Ekey.
  destruct H1 as [A1 A2 A3 A4 A5 A6 A7 A8 A9].
  assert (Eids : ∀ (l := update_where (λ x, Z.eqb (doc_id x) (doc_id doc)) (λ _, doc) (documents (working s))),
    doc_key <$> l = doc_key <$> documents (working s)).
  { apply update_where_map. intros x Hx E%Z.eqb_eq.
    rewrite (NoDup_fmap_inj doc_id (documents (working s)) x old) by congruence.
    unfold doc_key. congruence. }
  assert (Ei : doc_id <$> update_where (λ x, Z.eqb (doc_id x) (doc_id doc)) (λ _, doc) (documents (working s))
               = doc_id <$> documents (working s)).
  { apply update_where_map. intros x _ E%Z.eqb_eq. congruence. }
  split; [|done|]; cbn [save_document modify on_working working committed snd on_documents documents].
  - split; cbn; rewrite ?Ei; try done. intros i k. rewrite <- A5. unfold keyed. cbn. by rewrite Eids.
  - by rewrite Eids.
Qed.

(** ** Results *)

(** What a reconciliation is for: a run, or an evaluation with a key. *)
Definition for_run (rid key : option string) : Prop :=
  (rid = None ∨ rid = o) ∧ (rid = None ∨ key = None).

Lemma kept_save_result d r r' :
  kept o d0 d → r ∈ reconciliation_results d → result_id r' = result_id r →
  result_run_id r' = result_run_id r → (result_run_id r' = None ∨ evaluation_key r' = None) →
  (result_run_id r = None ∨ result_run_id r = o) →
  kept o d0 (on_reconciliation_results
    (update_where (λ x, N.eqb (result_id x) (result_id r')) (λ _, r')) d).
Proof.
  intros [A1 A2 A3 A4 A5 A6 A7 A8 A9] Hr Hid Hrun Hsrc Ho. split; cbn; try done.
  - rewrite update_where_map; [done|]. by intros x _ ->%N.eqb_eq.
  - intros x (y & Hy & ->)%elem_of_update_where. case_match; [done|by apply A7].
  - intros x rid Hx Hxr Hne. apply elem_of_update_where. exists x.
    specialize (A8 x rid Hx Hxr Hne). split; [done|].
    destruct (N.eqb_spec (result_id x) (result_id r')) as [E|]; [|done]. exfalso.
    rewrite (NoDup_fmap_inj result_id _ x r A6 A8 Hr) in Hxr by congruence.
    destruct Ho as [Ho|Ho]; congruence.
Qed.

Lemma kept_new_result d r :
  kept o d0 d → result_id r ∉ result_id <$> reconciliation_results d →
  (result_run_id r = None ∨ evaluation_key r = None) →
  kept o d0 (on_reconciliation_results (λ t, t ++ [r]) d).
Proof.
  intros [A1 A2 A3 A4 A5 A6 A7 A8 A9] Hid Hsrc. split; cbn; try done.
  - rewrite fmap_app. apply NoDup_app. split; [done|]. split; [|repeat constructor; set_solver].
    intros x Hx Hx'%list_elem_of_singleton. by subst.
  - intros x [Hx|Hx%list_elem_of_singleton]%elem_of_app; [by apply A7|by subst].
  - intros x rid Hx Hxr Hne. apply elem_of_app. left. by apply (A8 x rid).
Qed.

(** The result a lookup finds belongs to the run, or to none. *)
Lemma find_result_holds ps rid key s r s' :
  for_run rid key → holds ps s → find_result rid key s = (Ok (Some r), s') →
  s' = s ∧ r ∈ reconciliation_results (working s) ∧ (result_run_id r = None ∨ result_run_id r = o)
  ∧ result_run_id r = rid.
Proof.
  intros [Ho Hs] H. unfold find_result. destruct rid as [k|].
  - rewrite bind_unfold. unfold select, gets. intros E. unfold scalar_one_or_none in E.
    destruct (where_ _ _) as [|x [|]] eqn:Ew; [done| |done]. injection E as -> <-.
    assert (Hx : r ∈ where_ (λ x, sql_eq String.eqb (result_run_id x) k) (reconciliation_results (working s)))
      by (rewrite Ew; constructor).
    apply elem_of_where in Hx as [Hx Hk]. unfold sql_eq in Hk.
    destruct (result_run_id r) as [k'|] eqn:Er; [|done]. apply String.eqb_eq in Hk as ->.
    split; [done|]. split; [done|]. split; [|done]. by destruct Ho as [|<-]; [|right].
  - destruct key as [k|]; [|done]. rewrite bind_unfold. unfold select, gets. intros E.
    unfold scalar_one_or_none in E.
    destruct (where_ _ _) as [|x [|]] eqn:Ew; [done| |done]. injection E as -> <-.
    assert (Hx : r ∈ where_ (λ x, sql_eq String.eqb (evaluation_key x) k) (reconciliation_results (working s)))
      by (rewrite Ew; constructor).
    apply elem_of_where in Hx as [Hx Hk]. unfold sql_eq in Hk.
    destruct (evaluation_key r) as [k'|] eqn:Ek; [|done].
    assert (Hn : result_run_id r = None).
    { destruct (kt_sources _ _ _ (ho_working _ _ H) r Hx) as [E|E]; congruence. }
    by rewrite Hn; eauto.
Qed.

Lemma fine_insert_result ps mk :
  (∀ i now, result_id (mk i now) = i) →
  (∀ i now, result_run_id (mk i now) = None ∨ evaluation_key (mk i now) = None) →
  fine ps (insert_result mk).
Proof.
  intros Hi Hs s [H1 H2 H3]. specialize (Hs (rng (senv s) (rng_pos (senv s))) (clock (senv s))).
  session_unfold. set (r := mk _ _) in *.
  assert (Ei : result_id r = rng (senv s) (rng_pos (senv s))) by apply Hi.
  repeat (match goal with |- context [if ?b then (λ _, _) else _] => destruct b eqn:? end;
          cbn [fst snd]; [|by split]).
  split; [|done|done]. apply kept_new_result; [done| |done].
  intros (x & Ex & Hx)%list_elem_of_fmap.
  match goal with H : negb (existsb (λ x, N.eqb (result_id x) _) _) = true |- _ =>
    pose proof (existsb_negb_notin _ _ H x Hx) as Hn end.
  cbn in Hn. by rewrite <- Ei, Ex, N.eqb_refl in Hn.
Qed.
End Sessions.

#[export] Hint Resolve fine_env fine_uuid4 fine_doc_id fine_audit_id fine_notif_id fine_clock fine_select
  fine_insist fine_commit fine_rollback : frame.
#[export] Hint Extern 1 (preserves (holds _ _ _) (modify (on_working _))) =>
  (apply fine_write; intros ?; [reflexivity|cbn; first [reflexivity | set_solver]]) : frame.
#[export] Hint Extern 1 (preserves (holds _ _ _) (insert_document _)) =>
  (apply fine_insert_document; by split) : frame.
#[export] Hint Extern 1 (preserves (holds _ _ _) (save_document _)) =>
  (apply fine_save_document; apply list_elem_of_here) : frame.

(** ** The sessions of the program *)

Section Programs.
Context (o : option string) (d0 : database) (ps : list (Z * option string)).

Abbreviation fine := (preserves (holds o d0 ps)).

Lemma fine_scalar {A} (l : list A) : fine (scalar_one_or_none l).
Proof. unfold scalar_one_or_none. frame. Qed.
Lemma fine_scalar_one {A} (l : list A) : fine (scalar_one l).
Proof. unfold scalar_one. frame. Qed.
Lemma fine_get_document i : fine (get_document i).
Proof. unfold get_document. frame. Qed.
Hint Resolve fine_scalar fine_scalar_one fine_get_document : frame.

Lemma fine_log_audit_event rid ev p who : fine (log_audit_event rid ev p who).
Proof. unfold log_audit_event. frame. Qed.

Lemma fine_save_shipment sh : fine (save_shipment sh).
Proof. unfold save_shipment. frame. Qed.
Lemma fine_sync sh policy r now : fine (sync_missing_document_exception sh policy r now).
Proof. unfold sync_missing_document_exception, insert_exception, insert_event, save_exception. frame. Qed.
Hint Resolve fine_save_shipment fine_sync : frame.

Lemma fine_insert_shipment n : fine (insert_shipment_do_nothing n).
Proof. unfold insert_shipment_do_nothing. frame. Qed.
Lemma fine_carrier ex sh : fine (carrier_from_extraction ex sh).
Proof. unfold carrier_from_extraction. frame. Qed.
Hint Resolve fine_insert_shipment fine_carrier : frame.
End Programs.

#[export] Hint Resolve fine_scalar fine_scalar_one fine_get_document fine_log_audit_event
  fine_save_shipment fine_sync fine_insert_shipment fine_carrier : frame.

Section Assembly.
Context (o : option string) (d0 : database).

Lemma preserves_ret_bind {S A B} (P : S → Prop) (a : A) (f : A → M S B) :
  preserves P (f a) → preserves P (mret a ≫= f).
Proof. done. Qed.

(** A row of a select that is at most one. *)
Lemma bind_select_document {A} ps p (f : option Document → M session A) :
  (∀ doc, preserves (holds o d0 (doc_key doc :: ps)) (f (Some doc))) → preserves (holds o d0 ps) (f None) →
  preserves (holds o d0 ps) (found ← select (λ d, where_ p (documents d));
                             x ← scalar_one_or_none found; f x).
Proof.
  intros Hf Hn s Hs. rewrite bind_unfold. unfold select, gets. rewrite bind_unfold.
  destruct (where_ p (documents (working s))) as [|doc [|]] eqn:Ew; cbn [scalar_one_or_none mret M_ret raise].
  - by apply Hn.
  - apply (fine_weaken o d0 (doc_key doc)); [done|]. apply holds_more; [|done].
    apply (elem_of_where p). rewrite Ew. constructor.
  - done.
Qed.

(** The companion document of a rate confirmation is one of the table, or a new one. *)
Lemma fine_rate_confirmation_document ps rc sh :
  preserves (holds o d0 ps) (rate_confirmation_document rc sh).
Proof.
  apply (bind_select_document ps _ (λ document, document ← match document with
    | None => insert_document (new_companion rc) | Some doc => mret doc end; _)).
  - intros doc. apply preserves_ret_bind. frame.
  - apply bind_insert_document; [done|]. intros doc. frame.
Qed.
Hint Resolve fine_rate_confirmation_document : frame.

Lemma fine_attach_existing ps sh : preserves (holds o d0 ps) (attach_existing_rate_confirmation sh).
Proof. unfold attach_existing_rate_confirmation. frame. Qed.
Hint Resolve fine_attach_existing : frame.

Lemma fine_attach ps sh doc ex :
  preserves (holds o d0 (doc_key doc :: ps)) (attach_to_shipment sh doc ex).
Proof. unfold attach_to_shipment. frame. Qed.
Hint Resolve fine_attach : frame.

Lemma fine_upsert_shipment ps ln doc ex :
  preserves (holds o d0 (doc_key doc :: ps)) (upsert_shipment ln doc ex).
Proof. unfold upsert_shipment. frame. Qed.
Hint Resolve fine_upsert_shipment : frame.

Lemma fine_extract_document mf replies bytes name i :
  preserves (holds o d0 []) (extract_document mf replies bytes name i).
Proof.
  unfold extract_document. apply preserves_bind; [frame|]. intros ex.
  assert (Hsave : ∀ doc ps, preserves (holds o d0 (doc_key doc :: ps))
    (_ ← save_document (extracted name ex doc); _ ← commit; mret ex)) by (intros doc ps; frame).
  destruct i as [i|].
  - apply bind_get_document; [intros doc; frame|]. by apply bind_insert_document.
  - apply preserves_ret_bind. by apply bind_insert_document.
Qed.

(** ** The reconciliation *)

Lemma fine_get_linked ps i : preserves (holds o d0 ps) (get_linked i).
Proof. unfold get_linked. frame. Qed.
Hint Resolve fine_get_linked : frame.

Lemma find_result_state rid key s : (find_result rid key s).2 = s.
Proof.
  unfold find_result. destruct rid, key; try done; rewrite bind_unfold; unfold select, gets, scalar_one_or_none;
    by destruct (where_ _ _) as [|x [|]].
Qed.

(** The end of a reconciliation: the result of the lookup is replaced, or a new one
    inserted. *)
Lemma fine_store_result ps rid key sh source v missing (k : ReconciliationResult → M session ReconciliationResult) :
  for_run o rid key → (∀ r, preserves (holds o d0 ps) (k r)) →
  preserves (holds o d0 ps)
    (existing ← find_result rid key;
     _ ← save_shipment sh;
     result ← match existing with
              | None => insert_result (new_result (shipment_id sh) rid source key v missing)
              | Some r =>
                  let r := updated_result (shipment_id sh) source key v missing r in
                  _ ← save_result r; mret r
              end;
     k result).
Proof.
  intros Hfor Hk s Hs. rewrite bind_unfold.
  destruct (find_result rid key s) as [[[r|]|e] s1] eqn:E.
  - destruct (find_result_holds o d0 ps rid key s r s1 Hfor Hs E) as (-> & Hr & Ho & Erun).
    rewrite bind_unfold. unfold save_shipment, insist. rewrite bind_unfold.
    destruct (ck_shipment sh); cbn [mret M_ret]; [|done]. cbn [modify].
    rewrite !bind_unfold. unfold save_result, modify. cbn [mret M_ret]. apply Hk.
    destruct Hs as [H1 H2 H3]. split; [|done|done]. cbn [on_working working].
    assert (H1' : kept o d0 (on_shipments (update_where (λ x, N.eqb (shipment_id x) (shipment_id sh))
                   (λ _, sh)) (working s))) by (destruct H1; by split).
    eapply (kept_save_result o d0 _ r); [exact H1'|done..| |done].
    cbn. destruct Hfor as [_ [->| ->]]; rewrite ?Erun; auto.
  - pose proof (find_result_state rid key s) as Es. rewrite E in Es. cbn in Es. subst s1.
    clear E.
    revert Hs. generalize s. refine (_ : preserves _ _).
    apply preserves_bind; [frame|]. intros _. apply preserves_bind; [|exact Hk].
    apply fine_insert_result; [done|]. intros i now. cbn. by destruct Hfor as [_ [?|?]]; auto.
  - pose proof (find_result_state rid key s) as Es. rewrite E in Es. cbn in Es. by subst s1.
Qed.

Lemma fine_reconcile ps sh rid now sla source key :
  for_run o rid key → preserves (holds o d0 ps) (reconcile_shipment sh rid now sla source key).
Proof.
  intros Hfor. unfold reconcile_shipment.
  do 6 (apply preserves_bind; [frame|intros ?]). case_match.
  apply preserves_bind; [frame|]. intros v. apply fine_store_result; [done|]. intros r. frame.
Qed.
End Assembly.

#[export] Hint Resolve fine_upsert_shipment fine_extract_document fine_attach : frame.

Section Operations.
Context (d0 : database).

Lemma for_no_run key : for_run None None key.
Proof. split; auto. Qed.

Lemma fine_match_session sla st i :
  preserves (holds (as_str (dict_get "run_id" st)) d0 []) (match_session sla st i).
Proof. unfold match_session. apply bind_get_document; [|frame]. intros doc.
  apply preserves_bind; [apply fine_upsert_shipment|]. intros [sh|]; [|frame].
  apply preserves_bind; [frame|]. intros now. apply preserves_bind; [|intros r; frame].
  apply fine_reconcile. split; auto.
Qed.

Lemma fine_assemble sla c : preserves (holds None d0 []) (assemble_rate_confirmation sla c).
Proof.
  unfold assemble_rate_confirmation, insert_rate_confirmation. apply preserves_bind; [frame|]. intros rc.
  apply bind_insert_document; [done|]. intros doc.
  apply preserves_bind; [apply fine_upsert_shipment|]. intros [sh|]; [|frame].
  apply preserves_bind; [frame|]. intros now. apply preserves_bind; [|intros r; frame].
  apply fine_reconcile, for_no_run.
Qed.
End Operations.

(** ** Worlds *)

Section Worlds.
Context (o : option string) (d0 : database).

(** The same of what is committed. *)
Definition kept_world (w : world) : Prop := kept o d0 (w_db w).

Lemma world_run_session {A} (m : M session A) :
  preserves (holds o d0 []) m → preserves kept_world (run_session m).
Proof.
  intros Hm w Hw. rewrite run_session_unfold. unfold kept_world. cbn [snd world_of w_db].
  apply (ho_committed o d0 []). apply Hm. by split; [..|set_solver].
Qed.

Lemma world_log_owned rid ev p who : preserves kept_world (log_audit_event_owned rid ev p who).
Proof. unfold log_audit_event_owned. apply world_run_session. frame. Qed.
Hint Resolve world_log_owned : frame.

Lemma world_log_exception rid st : preserves kept_world (log_exception_raised_once rid st).
Proof.
  unfold log_exception_raised_once. apply preserves_bind; [apply world_run_session; frame|]. intros existing. frame.
Qed.
Hint Resolve world_log_exception : frame.

Context (model_fields : schema → json → option coerced)
        (triage_fields : json → option (string * string * float))
        (replies : claude_replies) (sla_hours : Z).

Abbreviation graph := (build_state_graph model_fields triage_fields replies sla_hours).

(** A node keeps the runs of others; only [match_node] writes a result of its own. *)
Lemma world_node name f resume st :
  dict_get name (g_nodes graph) = Some f →
  (name = "match_node" → as_str (dict_get "run_id" st) = o) →
  preserves kept_world (f resume st).
Proof.
  intros Hf Hm. revert Hf. cbn [g_nodes build_state_graph dict_get].
  repeat (match goal with |- context [String.eqb name ?x] => destruct (String.eqb_spec name x) as [->|] end;
          [intros [= <-]|]); [..|done].
  - unfold extract_node. do 3 (apply preserves_bind; [frame|intros ?]).
    apply preserves_bind; [by apply world_run_session, fine_extract_document|]. intros ex. frame.
  - specialize (Hm eq_refl). unfold match_node. apply preserves_bind; [frame|]. intros i.
    apply preserves_bind; [|intros mr; frame]. apply world_run_session. rewrite <- Hm.
    apply fine_match_session.
  - unfold supervisor_node. frame.
  - unfold exception_node. frame.
  - unfold approve_node. frame.
  - unfold reject_node. frame.
  - unfold complete_node. frame.
Qed.
End Worlds.

(** ** What the reconciliation of a run leaves *)

(** The run has a result of a complete reconciliation: the verdict has every check of the
    program, each of them passed, no document is missing and nothing stands against it. *)
Definition reconciled_for (rid : string) (d : database) : Prop :=
  ∃ r, r ∈ reconciliation_results d ∧ result_run_id r = Some rid
    ∧ check_name_of <$> checks r = Some <$> CHECK_NAMES
    ∧ Forall (λ c, is_outcome "passed" c = true) (checks r)
    ∧ missing_docs r = [] ∧ exception_reasons r = [].

Lemma reconciled_kept o d0 d rid :
  kept o d0 d → Some rid ≠ o → reconciled_for rid d0 → reconciled_for rid d.
Proof. intros K Hne (r & Hr & Hrid & H). exists r. split; [|done]. by apply (kt_results _ _ _ K r rid). Qed.

Lemma reconciled_same rid d d' :
  reconciliation_results d' = reconciliation_results d → reconciled_for rid d → reconciled_for rid d'.
Proof. unfold reconciled_for. by intros ->. Qed.

(** The shipments and the results of the working copy. *)
Definition rows_are (sh : list Shipment) (rs : list ReconciliationResult) (s : session) : Prop :=
  shipments (working s) = sh ∧ reconciliation_results (working s) = rs.

Section Rows.
Context (sh : list Shipment) (rs : list ReconciliationResult).

Abbreviation same_rows := (preserves (rows_are sh rs)).

Lemma rows_env f : same_rows (with_env f).
Proof. by intros s. Qed.
Lemma rows_uuid4 : same_rows uuid4.
Proof. by intros s. Qed.
Lemma rows_doc_id : same_rows next_doc_id.
Proof. by intros s. Qed.
Lemma rows_clock : same_rows db_clock.
Proof. by intros s. Qed.
Lemma rows_select {A} (q : database → A) : same_rows (select q).
Proof. by intros s. Qed.
Lemma rows_insist v what : same_rows (insist v what).
Proof. intros s H. by destruct v. Qed.
Lemma rows_write (f : database → database) :
  (∀ d, (shipments (f d), reconciliation_results (f d)) = (shipments d, reconciliation_results d)) →
  same_rows (modify (on_working f)).
Proof. intros Hf s [<- <-]. specialize (Hf (working s)). by injection Hf. Qed.
Hint Resolve rows_env rows_uuid4 rows_doc_id rows_clock rows_select rows_insist : frame.
Hint Extern 1 (preserves (rows_are _ _) (modify (on_working _))) =>
  (apply rows_write; intros ?; reflexivity) : frame.

Lemma sync_rows x policy r now : same_rows (sync_missing_document_exception x policy r now).
Proof. unfold sync_missing_document_exception, insert_exception, insert_event, save_exception. frame. Qed.

Lemma attach_existing_rows x : same_rows (attach_existing_rate_confirmation x).
Proof.
  unfold attach_existing_rate_confirmation, rate_confirmation_document, insert_document, save_document,
    scalar_one_or_none. frame.
Qed.
End Rows.

(** The rows a verdict is stored in. *)
Lemma store_result_rows rid key sh source v missing s existing s1 s2 r s' u :
  find_result (Some rid) key s = (Ok existing, s1) → save_shipment sh s1 = (Ok u, s2) →
  (match existing with
   | None => insert_result (new_result (shipment_id sh) (Some rid) source key v missing)
   | Some r =>
       let r := updated_result (shipment_id sh) source key v missing r in
       _ ← save_result r; mret r
   end) s2 = (Ok r, s') →
  r ∈ reconciliation_results (working s') ∧ result_run_id r = Some rid
  ∧ checks r = v_checks v ∧ missing_docs r = missing ∧ exception_reasons r = v_reasons v
  ∧ shipments (working s') = update_where (λ x, N.eqb (shipment_id x) (shipment_id sh)) (λ _, sh)
                               (shipments (working s)).
Proof.
  intros Ef Es H.
  pose proof (find_result_state (Some rid) key s) as E1. rewrite Ef in E1. cbn in E1. subst s1.
  unfold save_shipment, insist in Es. rewrite bind_unfold in Es.
  destruct (ck_shipment sh); [|done]. cbn [mret M_ret modify] in Es. injection Es as <- <-.
  destruct existing as [r0|].
  - unfold find_result in Ef. rewrite bind_unfold in Ef. unfold select, gets, scalar_one_or_none in Ef.
    destruct (where_ _ _) as [|x [|]] eqn:Ew; [done| |done]. injection Ef as ->.
    assert (Hx : r0 ∈ where_ (λ x, sql_eq String.eqb (result_run_id x) rid) (reconciliation_results (working s)))
      by (rewrite Ew; constructor).
    apply elem_of_where in Hx as [Hx Hk]. unfold sql_eq in Hk.
    destruct (result_run_id r0) as [k'|] eqn:Er; [|done]. apply String.eqb_eq in Hk as ->.
    rewrite bind_unfold in H. unfold save_result, modify in H. cbn [mret M_ret] in H. injection H as <- <-.
    cbn. split; [|by rewrite Er]. apply elem_of_update_where. exists r0. by rewrite N.eqb_refl.
  - revert H. session_unfold. intros H. repeat (case_match; simplify_eq/=; try done).
    all: split; [apply elem_of_app; right; by left|done].
Qed.

Lemma reconcile_leaves sh rid now sla source key s r s' :
  reconcile_shipment sh (Some rid) now sla source key s = (Ok r, s') →
  committed s' = working s' ∧ r ∈ reconciliation_results (working s') ∧ result_run_id r = Some rid
  ∧ check_name_of <$> checks r = Some <$> CHECK_NAMES
  ∧ ∃ status, shipments (working s')
      = update_where (λ x, N.eqb (shipment_id x) (shipment_id sh)) (λ _, status) (shipments (working s))
    ∧ shipment_id status = shipment_id sh
    ∧ (reconciliation_status status = "reconciled" →
       Forall (λ c, is_outcome "passed" c = true) (checks r) ∧ missing_docs r = [] ∧ exception_reasons r = []).
Proof.
  intros H. unfold reconcile_shipment in H.
  do 4 (apply bind_ok_inv in H as (? & ? & Hg & H); assert (Hs := Hg); clear Hg;
        rewrite get_linked_runs in Hs; injection Hs as <- <-).
  apply bind_ok_inv in H as (found & s1 & Hf & H). injection Hf as <- <-.
  apply bind_ok_inv in H as (rc & s1 & Hrc & H).
  assert (s1 = s) as ->.
  { unfold scalar_one_or_none in Hrc. destruct (where_ _ _) as [|x [|]]; [by injection Hrc..|done]. }
  destruct (with_rate_confirmation _ _ _) as [sh1 rate_con] eqn:Ew.
  apply bind_ok_inv in H as (v & s1 & Hv & H). unfold of_res in Hv. injection Hv as Ev <-.
  assert (Hid : shipment_id sh1 = shipment_id sh).
  { destruct rc; cbn in Ew; by injection Ew as <- _. }
  cbv zeta in H. apply bind_ok_inv in H as (existing & s1 & Ef & H).
  apply bind_ok_inv in H as (u & s2 & Es & H). apply bind_ok_inv in H as (r' & s3 & Er & H).
  apply bind_ok_inv in H as (ev & s4 & Esync & H). apply bind_ok_inv in H as ([] & s5 & Hc & H).
  injection H as <- <-. injection Hc as <-.
  destruct (store_result_rows _ _ _ _ _ _ _ _ _ _ _ _ _ Ef Es Er) as (Hin & Hrid & Hck & Hm & Hrs & Hsh).
  destruct (sync_rows _ _ 
              (set_reconciliation_status (verdict_status v (p_missing_docs
                 (evaluate_missing_document_policy sh1 now sla))) sh1)
              (evaluate_missing_document_policy sh1 now sla) r' now s3
              (conj eq_refl eq_refl)) as [Hsh4 Hrs4].
  rewrite Esync in Hsh4, Hrs4. cbn [snd] in Hsh4, Hrs4. cbn [working committed].
  split; [done|]. split; [by rewrite Hrs4|]. split; [done|].
  split; [rewrite Hck; by apply (co_names _ _ (evaluate_checks_coherent _ _ _ _ _ Ev))|].
  eexists. split; [rewrite Hsh4, Hsh; cbn; by rewrite Hid|]. split; [by rewrite <- Hid|]. cbn. intros Hst.
  rewrite Hck, Hm, Hrs. by apply (reconciled_all_passed sh1 _ now sla v Ev).
Qed.

(** The shipment an upsert returns is in its table. *)
Lemma attach_existing_id x s y s' :
  attach_existing_rate_confirmation x s = (Ok y, s') → shipment_id y = shipment_id x.
Proof.
  unfold attach_existing_rate_confirmation. destruct (rate_con_id x); [by intros [= <- _]|].
  intros H. apply bind_ok_inv in H as (f & s1 & _ & H). apply bind_ok_inv in H as (rc & s2 & _ & H).
  destruct rc as [rc|]; [|by injection H as <- _]. apply bind_ok_inv in H as (doc & s3 & _ & H).
  injection H as <- _. unfold fill_carrier. by case_match.
Qed.

Lemma attach_existing_shipments x s y s' :
  attach_existing_rate_confirmation x s = (Ok y, s') → shipments (working s') = shipments (working s).
Proof. intros H. pose proof (attach_existing_rows _ _ x s (conj eq_refl eq_refl)) as R. rewrite H in R. apply R. Qed.

Lemma carrier_id ex x s y s' :
  carrier_from_extraction ex x s = (Ok y, s') → shipment_id y = shipment_id x ∧ s' = s.
Proof.
  unfold carrier_from_extraction, raise, mret, M_ret. intros H.
  repeat (case_match; simplify_eq/=; try done).
Qed.

Lemma attach_document_id doc x : shipment_id (attach_document doc x) = shipment_id x.
Proof.
  unfold attach_document, DOC_FIELDS, dict_get.
  repeat case_match; simplify_eq/=; done.
Qed.

Lemma attached_in_table sh0 doc ex s sh s' :
  attach_to_shipment sh0 doc ex s = (Ok sh, s') → sh0 ∈ shipments (working s) →
  sh ∈ shipments (working s').
Proof.
  intros H Hin. unfold attach_to_shipment in H. apply bind_ok_inv in H as (v & s1 & Hd & H). injection Hd as _ <-.
  cbv zeta in H. apply bind_ok_inv in H as (sh2 & s2 & Hc & H). apply carrier_id in Hc as [E2 ->].
  apply bind_ok_inv in H as (sh3 & s3 & He & H). pose proof (attach_existing_id _ _ _ _ He) as E3.
  apply attach_existing_shipments in He as Hs. cbn in Hs.
  unfold save_shipment, insist in H. rewrite !bind_unfold in H.
  destruct (ck_shipment _); [|done]. cbn [mret M_ret modify] in H. injection H as <- <-.
  cbn. apply elem_of_update_where. exists sh0. split; [by rewrite Hs|].
  rewrite attach_document_id in E2. by rewrite E3, E2, N.eqb_refl.
Qed.

Lemma upsert_in_table ln doc ex s sh s' :
  upsert_shipment ln doc ex s = (Ok (Some sh), s') → sh ∈ shipments (working s').
Proof.
  intros H. unfold upsert_shipment in H. apply bind_ok_inv in H as (n & s1 & _ & H).
  destruct n as [n|]; [|done]. apply bind_ok_inv in H as (u & s2 & _ & H).
  apply bind_ok_inv in H as (found & s3 & Hf & H). injection Hf as <- <-.
  apply bind_ok_inv in H as (sh0 & s4 & Hs & H).
  assert (sh0 ∈ shipments (working s2) ∧ s4 = s2) as [Hin ->].
  { unfold scalar_one in Hs. destruct (where_ _ _) as [|x [|]] eqn:Ew; [done| |done]. injection Hs as <- <-.
    split; [|done]. apply (elem_of_where (λ s, String.eqb (load_number s) n)). rewrite Ew. constructor. }
  apply bind_ok_inv in H as (sh1 & s5 & Ha & H). injection H as <- <-.
  by apply attached_in_table in Ha.
Qed.

(** A match that finds its shipment reconciled leaves the result that says so. *)
Lemma match_leaves sla st i rid s mr s' :
  as_str (dict_get "run_id" st) = Some rid → match_session sla st i s = (Ok mr, s') →
  as_str (dict_get "reconciliation_status" (mr_dict mr)) = Some "reconciled" →
  reconciled_for rid (committed s').
Proof.
  intros Hrid H. unfold match_session in H. apply bind_ok_inv in H as (doc & s1 & _ & H).
  destruct doc as [doc|]; [|by injection H as <- _].
  apply bind_ok_inv in H as (o & s2 & Hu & H). destruct o as [sh|]; [|by injection H as <- _].
  apply upsert_in_table in Hu. apply bind_ok_inv in H as (now & s3 & Hn & H). injection Hn as _ <-.
  apply bind_ok_inv in H as (r & s4 & Hr & H). rewrite Hrid in Hr.
  apply bind_ok_inv in H as (row & s5 & Hrow & H). injection Hrow as <- <-. injection H as <- <-.
  apply reconcile_leaves in Hr as (Hc & Hin & Hrun & Hnames & status & Hsh & Hid & Hok).
  assert (default sh (find_first (λ x, N.eqb (shipment_id x) (shipment_id sh)) (shipments (working s4)))
          = status) as Es.
  { destruct (find_first _ _) as [x|] eqn:E; cbn [default].
    - unfold find_first in E. apply find_some in E as [Hx Hk].
      apply list_elem_of_In in Hx. rewrite Hsh in Hx. apply elem_of_update_where in Hx as (y & Hy & ->).
      by destruct (N.eqb (shipment_id y) (shipment_id sh)) eqn:Ey; [|congruence].
    - exfalso. assert (Hx : status ∈ update_where (λ x, N.eqb (shipment_id x) (shipment_id sh))
        (λ _, status) (shipments (working s2))) by (apply elem_of_update_where; exists sh; by rewrite N.eqb_refl).
      unfold find_first in E. rewrite <- Hsh in Hx. apply list_elem_of_In in Hx. pose proof (find_none _ _ E _ Hx) as Hk.
      cbn in Hk. by rewrite Hid, N.eqb_refl in Hk. }
  rewrite Es. cbn. intros Hst. injection Hst as Hst. destruct (Hok Hst) as (H1 & H2 & H3).
  exists r. by rewrite Hc.
Qed.

(** ** The sessions that belong to no run *)

Section Background.
Context (d0 : database).

Abbreviation fine := (preserves (holds None d0 [])).

Lemma fine_claim_and_evaluate now sla w :
  kept_world None d0 w → kept_world None d0 (claim_and_evaluate_one now sla w).2.
Proof.
  apply world_run_session. apply preserves_bind; [frame|]. intros [sh|]; [|frame].
  cbv zeta. apply preserves_bind; [apply fine_reconcile, for_no_run|]. intros r. frame.
Qed.

Lemma fine_claim_event : fine claim_event.
Proof. unfold claim_event, save_event. frame. Qed.

Lemma fine_update_event i f : fine (update_event i f).
Proof. unfold update_event, save_event. frame. Qed.

Lemma fine_notification counts : fine (_ ← insert_notification counts; commit).
Proof. unfold insert_notification. frame. Qed.

Lemma fine_create_rate_confirmation sla c : fine (create_rate_confirmation sla c).
Proof.
  unfold create_rate_confirmation. intros s Hs. unfold try_except. rewrite bind_unfold.
  pose proof (fine_assemble d0 sla c s Hs) as H.
  destruct (assemble_rate_confirmation sla c s) as [[rc|e] s1]; [done|]. cbn [snd] in H.
  destruct (isinstance_exn e IntegrityError); [|done].
  by apply (preserves_bind _ _ _ (fine_rollback None d0) (λ _, preserves_ret _ _)).
Qed.
End Background.
