(* ===== verification/ThreadStages.v ===== *)
(** * The stages of a thread

    What the checkpoint of a run holds between two nodes of the invoice graph, together
    with the tables: a thread waits for one node or has ended, a decision in it is one of
    the two, and a run that goes to its end without a decision, with a reconciled shipment,
    has the result of a complete reconciliation in the tables.  [interrupted_run] is a run of
    the graph that may be cut off after any of its checkpoints, or between a node and its
    checkpoint; every snapshot it can leave is at such a stage. *)

From S2P Require Import Prelude PyText LoadNumbers DateTime PyFloat Json Database MissingDocs.
From S2P Require Import Shipments Reconciliation SlaScanner Extraction Workflow WorkflowSafety.
From S2P Require Import Frame BusinessState WorkflowRoutes RateConfirmationRoutes Notifier ResultFrame.
From Stdlib Require Import Ascii.
Local Open Scope string_scope.
Local Open Scope list_scope.
Local Open Scope nat_scope.

(** ** A run that may be cut off *)

(** The snapshot and the world that are left when a run of the graph stops somewhere: before
    a node, after a node whose checkpoint was not written (it paused, raised, or the process
    died), after the checkpoint of a later node, or at the end. *)
Inductive interrupted_run (g : state_graph) (name : string) (resume : option json) (st : dict) (w : world)
  : snapshot → world → Prop :=
  | ir_before : interrupted_run g name resume st w (mk_snapshot st [name]) w
  | ir_node f :
      dict_get name (g_nodes g) = Some f →
      interrupted_run g name resume st w (mk_snapshot st [name]) (f resume st w).2
  | ir_next f u w1 t sn w' :
      dict_get name (g_nodes g) = Some f → f resume st w = (Ok (Update u), w1) →
      next_node g name (merge_state st u) = Some t → t ≠ END →
      interrupted_run g t None (merge_state st u) w1 sn w' →
      interrupted_run g name resume st w sn w'
  | ir_end f u w1 :
      dict_get name (g_nodes g) = Some f → f resume st w = (Ok (Update u), w1) →
      next_node g name (merge_state st u) = Some END →
      interrupted_run g name resume st w (mk_snapshot (merge_state st u) []) w1.

(** A run that is not cut off is one of them. *)
Lemma run_graph_interrupted g n : ∀ name resume st w r w',
  run_graph g n name resume st w = (Some r, w') →
  interrupted_run g name resume st w (call_snapshot r) w'.
Proof.
  induction n as [|n IH]; [done|]. intros name resume st w r w'. cbn [run_graph].
  destruct (dict_get name (g_nodes g)) as [f|] eqn:Ef; [|done].
  destruct (f resume st w) as [[[u|p]|e] w1] eqn:E.
  - destruct (next_node g name (merge_state st u)) as [t|] eqn:En; [|done].
    destruct (String.eqb_spec t END) as [->|Hne].
    + intros [= <- <-]. by eapply ir_end.
    + intros H%IH. by eapply ir_next.
  - intros [= <- <-]. pose proof (ir_node g name resume st w f Ef) as H. by rewrite E in H.
  - intros [= <- <-]. pose proof (ir_node g name resume st w f Ef) as H. by rewrite E in H.
Qed.

(** ** Stages *)

Definition node_names : list string :=
  ["extract_node"; "match_node"; "supervisor_node"; "exception_node"; "approve_node"; "reject_node";
   "complete_node"].

(** A reconciled shipment in the state has its result in the tables. *)
Definition verdict_kept (rid : string) (d : database) (st : dict) : Prop :=
  as_str (dict_get "reconciliation_status" (sdict "match_result" st)) = Some "reconciled" →
  reconciled_for rid d.

Definition decided (st : dict) : Prop := is_Some (final_decision st).

(** Nobody was asked yet. *)
Definition unasked (st : dict) : Prop := sget "human_decision" st = None.

(** The state in which a node runs next. *)
Definition stage (rid : string) (d : database) (name : string) (st : dict) : Prop :=
  dict_get "run_id" st = Some (JStr rid) ∧ name ∈ node_names
  ∧ (decided st
     ∨ unasked st ∧ name ∉ ["approve_node"; "reject_node"]
       ∧ (name = "complete_node" → verdict_kept rid d st)).

Definition result_posting (st : dict) : string := result_str "posting_status" "not_ready" st.
Definition result_processing (st : dict) : string := result_str "processing_status" "complete" st.

(** The state at the end: what releases the document, or blocks it. *)
Definition ended (rid : string) (d : database) (st : dict) : Prop :=
  dict_get "run_id" st = Some (JStr rid) ∧ (decided st ∨ unasked st)
  ∧ (result_processing st = "complete" ∨ result_processing st = "failed")
  ∧ (result_posting st = "not_ready"
     ∨ result_processing st = "complete"
       ∧ ((∃ dd, final_decision st = Some dd ∧ result_posting st = posting_of dd)
          ∨ (result_posting st = "ready_for_posting" ∧ reconciled_for rid d))).

Definition snapshot_ok (rid : string) (d : database) (sn : snapshot) : Prop :=
  sn = mk_snapshot [] []
  ∨ (∃ name, next sn = [name] ∧ stage rid d name (values sn))
  ∨ (next sn = [] ∧ ended rid d (values sn)).

Section Stability.
Context (rid : string) (d d' : database) (o : option string).

(** Another run's thread stays at its stage. *)
Lemma stage_mono name st :
  (name = "complete_node" → reconciled_for rid d → reconciled_for rid d') →
  stage rid d name st → stage rid d' name st.
Proof.
  intros Hr (H1 & H2 & H3). split; [done|]. split; [done|].
  destruct H3 as [H3|(H3 & H4 & H5)]; [by left|]. right. split; [done|]. split; [done|].
  intros ->. intros Hv. by apply Hr, H5.
Qed.

Lemma snapshot_mono sn :
  (reconciled_for rid d → reconciled_for rid d') → snapshot_ok rid d sn → snapshot_ok rid d' sn.
Proof.
  intros Hr [H|[(name & Hn & H)|(Hn & H1 & H2 & H3 & H4)]].
  - by left.
  - right; left. exists name. split; [done|]. revert H. by apply stage_mono.
  - right; right. split; [done|]. split; [done|]. split; [done|]. split; [done|]. naive_solver.
Qed.

Lemma snapshot_kept sn :
  kept o d d' → Some rid ≠ o → snapshot_ok rid d sn → snapshot_ok rid d' sn.
Proof. intros K Hne. apply snapshot_mono. by apply (reconciled_kept o). Qed.
End Stability.

Section Steps.
Context (model_fields : schema → json → option coerced)
        (triage_fields : json → option (string * string * float))
        (replies : claude_replies) (sla_hours : Z).

Abbreviation graph := (build_state_graph model_fields triage_fields replies sla_hours).

(** A decision of the reviewer, or none. *)
Definition resume_ok (resume : option json) : Prop :=
  resume = None ∨ ∃ dd, in_strs dd ["approved"; "rejected"] = true ∧ resume = Some (JStr dd).

(** ** One node *)

Lemma merge_keeps name f (resume : option json) st w u w' k :
  dict_get name (g_nodes graph) = Some f → f resume st w = (Ok (Update u), w') →
  k = "run_id" ∨ k = "human_decision" ∧ resume = None →
  dict_get k (merge_state st u) = dict_get k st.
Proof.
  intros Hf E Hc. pose proof (node_keys _ _ _ _ _ _ _ _ _ _ _ Hf E) as Hu.
  apply merge_other; [by destruct Hc as [->|[-> _]]|].
  eapply known_keys_other; [exact Hu|]. destruct Hc as [->|[-> ->]]; [by destruct resume|done].
Qed.

(** The tables after a node that is not the reconciliation. *)
Lemma node_kept name f resume st w rid :
  dict_get name (g_nodes graph) = Some f → dict_get "run_id" st = Some (JStr rid) →
  results_wf (w_db w) →
  kept (Some rid) (w_db w) (w_db (f resume st w).2)
  ∧ (name ≠ "match_node" → kept None (w_db w) (w_db (f resume st w).2)).
Proof.
  intros Hf Hrid W. split.
  - refine (world_node (Some rid) (w_db w) _ _ _ _ name f resume st Hf _ w (kept_refl _ _ W)).
    intros _. by rewrite Hrid.
  - intros Hne. refine (world_node None (w_db w) _ _ _ _ name f resume st Hf _ w (kept_refl _ _ W)).
    by intros ->.
Qed.

(** A node that does not end leaves its own stage. *)
Lemma node_stays name f resume st w rid :
  dict_get name (g_nodes graph) = Some f → results_wf (w_db w) → stage rid (w_db w) name st →
  stage rid (w_db (f resume st w).2) name st.
Proof.
  intros Hf W Hst. destruct (node_kept name f resume st w rid Hf (proj1 Hst) W) as [_ K].
  revert Hst. apply stage_mono. intros -> . by apply (reconciled_kept None); [apply K|].
Qed.
(** What follows a node that ends: the final checkpoint, or the stage of the next one. *)
Definition follows (rid : string) (d : database) (name : string) (st : dict) : Prop :=
  ∃ t, next_node graph name st = Some t
    ∧ (t = END ∧ ended rid d st ∨ t ≠ END ∧ stage rid d t st).

Lemma follows_next rid d name t st :
  next_node graph name st = Some t → t ≠ END → stage rid d t st → follows rid d name st.
Proof. intros H1 H2 H3. exists t. auto. Qed.

(** The decision is what it was, or the reviewer's. *)
Lemma unasked_or_decided_kept st st' :
  dict_get "human_decision" st' = dict_get "human_decision" st →
  (unasked st' ↔ unasked st) ∧ (decided st' ↔ decided st) ∧ final_decision st' = final_decision st.
Proof. intros H. unfold unasked, decided, sget, final_decision. by rewrite H. Qed.

Lemma after_extract rid d st u w w' :
  extract_node model_fields replies st w = (Ok (Update u), w') → stage rid d "extract_node" st →
  follows rid (w_db w') "extract_node" (merge_state st u).
Proof.
  intros E (Hrid & _ & Hd). apply (follows_next _ _ _ "match_node"); [done..|].
  assert (Hf : dict_get "extract_node" (g_nodes graph) = Some (λ _, extract_node model_fields replies)) by done.
  pose proof (merge_keeps _ _ None st w u w' "run_id" Hf E (or_introl eq_refl)) as Hk.
  pose proof (merge_keeps _ _ None st w u w' "human_decision" Hf E (or_intror (conj eq_refl eq_refl))) as Hh.
  destruct (unasked_or_decided_kept _ _ Hh) as (Hu & Hdec & _).
  split; [by rewrite Hk|]. split; [cbn; set_solver|]. rewrite Hu, Hdec.
  destruct Hd as [Hd|(Hd & _)]; [by left|right]. split; [done|]. split; [set_solver|done].
Qed.

Lemma after_match rid d st u w w' :
  match_node sla_hours st w = (Ok (Update u), w') → stage rid d "match_node" st →
  follows rid (w_db w') "match_node" (merge_state st u).
Proof.
  intros E (Hrid & _ & Hd).
  assert (Hf : dict_get "match_node" (g_nodes graph) = Some (λ _, match_node sla_hours)) by done.
  pose proof (merge_keeps _ _ None st w u w' "run_id" Hf E (or_introl eq_refl)) as Hk.
  pose proof (merge_keeps _ _ None st w u w' "human_decision" Hf E (or_intror (conj eq_refl eq_refl))) as Hh.
  destruct (unasked_or_decided_kept _ _ Hh) as (Hu & Hdec & _).
  apply match_node_ok in E as (i & mr & _ & E & [= ->]).
  assert (Hv : verdict_kept rid (w_db w') (merge_state st (match_update st mr))).
  { unfold verdict_kept. rewrite (sdict_merge "match_result" st (match_update st mr) (mr_dict mr)).
    2:{ unfold match_update. destruct (negb _); by state_get. }
    rewrite run_session_unfold in E. injection E as E1 E2.
    destruct (match_session sla_hours st i (session_of w)) as [r s'] eqn:Em. cbn in E1, E2. subst r w'.
    apply (match_leaves _ _ _ _ _ _ _ (f_equal as_str Hrid) Em). }
  assert (Hs : stage rid (w_db w') "supervisor_node" (merge_state st (match_update st mr))
             ∧ stage rid (w_db w') "complete_node" (merge_state st (match_update st mr))).
  { unfold stage. rewrite Hk, Hu, Hdec.
    destruct Hd as [Hd|(Hd & _)]; (split; split; [done|split; [cbn; set_solver|]|done|split; [cbn; set_solver|]]);
      [by left..| |]; right; (split; [done|]); (split; [set_solver|done]). }
  destruct Hs as [Hs1 Hs2]. unfold follows, next_node. cbn [g_edges build_state_graph dict_get].
  change (String.eqb "match_node" "extract_node") with false.
  change (String.eqb "match_node" "match_node") with true. cbv iota zeta.
  unfold route_after_match. destruct (5 <? _)%Z; [|destruct (opt_truthy _ _)];
    eexists; (split; [reflexivity|]); right; by split.
Qed.
Lemma after_supervisor rid d st u w w' :
  supervisor_node triage_fields replies st w = (Ok (Update u), w') → stage rid d "supervisor_node" st →
  follows rid (w_db w') "supervisor_node" (merge_state st u).
Proof.
  intros E (Hrid & _ & Hd). apply (follows_next _ _ _ "exception_node"); [done..|].
  assert (Hf : dict_get "supervisor_node" (g_nodes graph) = Some (λ _, supervisor_node triage_fields replies))
    by done.
  pose proof (merge_keeps _ _ None st w u w' "run_id" Hf E (or_introl eq_refl)) as Hk.
  pose proof (merge_keeps _ _ None st w u w' "human_decision" Hf E (or_intror (conj eq_refl eq_refl))) as Hh.
  destruct (unasked_or_decided_kept _ _ Hh) as (Hu & Hdec & _).
  split; [by rewrite Hk|]. split; [cbn; set_solver|]. rewrite Hu, Hdec.
  destruct Hd as [Hd|(Hd & _)]; [by left|right]. split; [done|]. split; [set_solver|done].
Qed.

(** The exception node goes on with a decision only. *)
Lemma after_exception rid d resume st u w w' :
  resume_ok resume → exception_node resume st w = (Ok (Update u), w') → stage rid d "exception_node" st →
  follows rid (w_db w') "exception_node" (merge_state st u)
  ∧ ∃ dd, resume = Some (JStr dd) ∧ final_decision (merge_state st u) = Some dd.
Proof.
  intros Hr E (Hrid & _ & Hd). apply exception_node_ok in E.
  destruct Hr as [->|(dd & Hdd & ->)]; [done|]. injection E as E. subst u.
  set (st' := merge_state st _).
  assert (Hf : final_decision st' = Some dd).
  { unfold final_decision, st'. state_get. cbn [as_str]. by rewrite Hdd. }
  split; [|by exists dd].
  assert (Hs : ∀ t, t ∈ node_names → stage rid (w_db w') t st').
  { intros t Ht. split; [unfold st'; by state_get|]. split; [done|]. left. by exists dd. }
  assert (Hn : next_node graph "exception_node" st' = Some (route_after_exception st')).
  { pose proof (route_after_exception_known st') as Hin. apply list_elem_of_In, in_strs_In in Hin.
    change (next_node graph "exception_node" st') with
      (if in_strs (route_after_exception st') ["approve_node"; "reject_node"; "exception_node"; "complete_node"]
       then Some (route_after_exception st') else None). by rewrite Hin. }
  exists (route_after_exception st'). split; [done|]. right.
  destruct (route_after_exception_known st') as [<-|[<-|[<-|[<-|[]]]]];
    (split; [done|apply Hs; cbn; set_solver]).
Qed.

(** The two nodes of a decision lead to the end. *)
Lemma after_decided rid d name st disposition text w' :
  name ∈ ["approve_node"; "reject_node"] → stage rid d name st →
  follows rid (w_db w') name (merge_state st (decided_update st disposition text)).
Proof.
  intros Hn (Hrid & _ & Hd).
  assert (Hdec : decided st) by (destruct Hd as [Hd|(_ & Hd & _)]; [done|by destruct Hd]).
  apply (follows_next _ _ _ "complete_node");
    [repeat (apply elem_of_cons in Hn as [->|Hn]; [done|]); by apply not_elem_of_nil in Hn|done|].
  split; [unfold decided_update; by state_get|]. split; [cbn; set_solver|]. left.
  unfold decided, final_decision, decided_update. by state_get.
Qed.

Lemma after_complete rid st u w w' :
  complete_node st w = (Ok (Update u), w') → results_wf (w_db w) → stage rid (w_db w) "complete_node" st →
  follows rid (w_db w') "complete_node" (merge_state st u).
Proof.
  intros E W Hs. exists END. split; [done|]. left. split; [done|].
  destruct (node_kept "complete_node" (λ _, complete_node) None st w rid eq_refl (proj1 Hs) W) as [_ K].
  specialize (K ltac:(done)). cbv beta in K. rewrite E in K. cbn [snd] in K.
  destruct Hs as (Hrid & _ & Hd). apply complete_node_ok in E as [= ->].
  split; [by rewrite complete_keeps|]. unfold decided, unasked, sget, result_posting, result_processing,
    result_str. rewrite complete_final_decision, complete_keeps, complete_posting_value, complete_processing
    by done.
  split; [destruct Hd as [Hd|[Hd _]]; [by left|by right]|]. cbn [as_str default].
  split; [destruct (unresolved_exception st); [by right|by left]|].
  destruct (unresolved_exception st); [by left|]. unfold complete_posting.
  destruct Hd as [[dd Hd]|(Hu & _ & Hv)].
  - rewrite Hd. apply final_decision_get in Hd as Hg. destruct Hg as [Hg Hdd].
    unfold sget. rewrite Hg. right. split; [done|]. left. exists dd. split; [done|].
    unfold in_strs in Hdd. cbn in Hdd. rewrite Bool.orb_false_r in Hdd.
    by apply Bool.orb_prop in Hdd as [->%String.eqb_eq| ->%String.eqb_eq].
  - unfold final_decision, unasked in *. rewrite Hu. unfold sget in Hu.
    assert (as_str (dict_get "human_decision" st) = None) as ->
      by (by destruct (dict_get "human_decision" st) as [[]|]). cbn [sql_eq orb andb].
    destruct (sql_eq String.eqb (as_str _) "reconciled") eqn:Er; [|by left].
    right. split; [done|]. right. split; [done|]. apply (reconciled_kept None _ _ rid K); [done|].
    apply Hv; [done|]. unfold sql_eq in Er. destruct (as_str _) as [x|]; [|done].
    by apply String.eqb_eq in Er as ->.
Qed.

(** Every node leads from its stage to what follows. *)
Lemma node_follows name f resume st w u w' rid :
  dict_get name (g_nodes graph) = Some f → resume_ok resume → f resume st w = (Ok (Update u), w') →
  results_wf (w_db w) → stage rid (w_db w) name st →
  follows rid (w_db w') name (merge_state st u).
Proof.
  intros Hf Hr E W Hs. assert (Hn : name ∈ node_names) by apply Hs.
  repeat (apply elem_of_cons in Hn as [->|Hn]; [injection Hf as <-|]); [..|by apply not_elem_of_nil in Hn].
  - by eapply after_extract.
  - by eapply after_match.
  - by eapply after_supervisor.
  - by apply (after_exception rid (w_db w) resume st u w w').
  - injection E as <- <-. by apply (after_decided rid (w_db w)); [set_solver|].
  - injection E as <- <-. by apply (after_decided rid (w_db w)); [set_solver|].
  - by eapply after_complete.
Qed.

(** A node does not take a decision back. *)
Lemma node_decision name f resume st w u w' rid :
  dict_get name (g_nodes graph) = Some f → resume_ok resume → f resume st w = (Ok (Update u), w') →
  stage rid (w_db w) name st →
  final_decision (merge_state st u) = final_decision st
  ∨ ∃ dd, resume = Some (JStr dd) ∧ final_decision (merge_state st u) = Some dd.
Proof.
  intros Hf Hr E Hs. destruct (decide (name = "exception_node")) as [->|Hne].
  - injection Hf as <-. right. by apply (after_exception rid (w_db w) resume st u w w').
  - left. unfold final_decision. rewrite merge_other; [done|done|].
    eapply (known_keys_other _ []); [|done].
    pose proof (node_keys _ _ _ _ name f None st w u w' Hf) as Hk. cbv iota in Hk. apply Hk.
    rewrite <- E. assert (Hn : name ∈ node_names) by apply Hs.
    repeat (apply elem_of_cons in Hn as [->|Hn]; [injection Hf as <-|]); try done.
    by apply not_elem_of_nil in Hn.
Qed.

(** ** A run that may be cut off *)

(** No node writes the channel of interrupts. *)
Lemma channel_kept name f (resume : option json) st w u w' :
  dict_get name (g_nodes graph) = Some f → f resume st w = (Ok (Update u), w') →
  dict_get interrupt_key (merge_state st u) = dict_get interrupt_key st.
Proof.
  intros Hf E0. apply merge_other; [done|]. eapply known_keys_other; [by eapply node_keys|]. by destruct resume.
Qed.

Lemma interrupted_ok name resume st w sn w' rid :
  interrupted_run graph name resume st w sn w' → resume_ok resume → results_wf (w_db w) →
  stage rid (w_db w) name st →
  snapshot_ok rid (w_db w') sn ∧ kept (Some rid) (w_db w) (w_db w') ∧ values sn ≠ []
  ∧ dict_get interrupt_key (values sn) = dict_get interrupt_key st
  ∧ (final_decision (values sn) = final_decision st
     ∨ ∃ dd, resume = Some (JStr dd) ∧ final_decision (values sn) = Some dd).
Proof.
  intros H. induction H as [name resume st w|name resume st w f Hf
    |name resume st w f u w1 t sn w' Hf E Hn Hne H IH|name resume st w f u w1 Hf E Hn]; intros Hr W Hs.
  - split; [right; left; by exists name|]. split; [by apply kept_refl|]. split; [|split; [done|by left]].
    cbn [values]. intros Ev. rewrite Ev in Hs. by destruct Hs.
  - destruct (node_kept name f resume st w rid Hf (proj1 Hs) W) as [K _].
    split; [right; left; exists name; split; [done|by apply node_stays]|]. split; [done|].
    split; [|split; [done|by left]]. cbn [values]. intros Ev. rewrite Ev in Hs. by destruct Hs.
  - destruct (node_kept name f resume st w rid Hf (proj1 Hs) W) as [K _]. rewrite E in K. cbn [snd] in K.
    destruct (node_follows name f resume st w u w1 rid Hf Hr E W Hs) as (t' & Hn' & Ht).
    rewrite Hn in Hn'. injection Hn' as <-. destruct Ht as [[? _]|[_ Ht]]; [done|].
    destruct (IH (or_introl eq_refl) (kept_wf _ _ _ K) Ht) as (S & K' & Hv & Hi & Hf').
    split; [done|]. split; [by eapply kept_trans|]. split; [done|].
    split; [rewrite Hi; by apply (channel_kept name f resume st w u w1)|].
    destruct Hf' as [->|(dd & ? & _)]; [|done].
    by apply (node_decision name f resume st w u w1 rid).
  - destruct (node_kept name f resume st w rid Hf (proj1 Hs) W) as [K _]. rewrite E in K. cbn [snd] in K.
    destruct (node_follows name f resume st w u w1 rid Hf Hr E W Hs) as (t' & Hn' & Ht).
    rewrite Hn in Hn'. injection Hn' as <-. destruct Ht as [[_ Ht]|[? _]]; [|done].
    split; [right; right; by split|]. split; [done|]. split; [|split;
      [by apply (channel_kept name f resume st w u w1)|by apply (node_decision name f resume st w u w1 rid)]].
    intros Ev. cbn [values] in Ev. destruct Ht as [Hrid _]. by rewrite Ev in Hrid.
Qed.

(** A run from the paused node, with a decision, waits there or has taken it. *)
Lemma interrupted_exception dd st w sn w' rid :
  in_strs dd ["approved"; "rejected"] = true → results_wf (w_db w) →
  interrupted_run graph "exception_node" (Some (JStr dd)) st w sn w' → stage rid (w_db w) "exception_node" st →
  next sn = ["exception_node"] ∨ decided (values sn).
Proof.
  intros Hdd W H Hs. assert (Hr : resume_ok (Some (JStr dd))) by (right; eauto).
  assert (Hnext : ∀ f u w1, dict_get "exception_node" (g_nodes graph) = Some f →
    f (Some (JStr dd)) st w = (Ok (Update u), w1) →
    follows rid (w_db w1) "exception_node" (merge_state st u) ∧ decided (merge_state st u)
    ∧ kept (Some rid) (w_db w) (w_db w1)).
  { intros f u w1 Hf E0. destruct (node_kept "exception_node" f (Some (JStr dd)) st w rid Hf (proj1 Hs) W) as [K _].
    rewrite E0 in K. injection Hf as <-.
    destruct (after_exception rid (w_db w) _ st u w w1 Hr E0 Hs) as [Ht (d' & _ & Hd')].
    split; [done|]. split; [unfold decided; eauto|done]. }
  inversion H as [|f Hf|f u w1 t sn' w2 Hf E0 Hn Hne H'|f u w1 Hf E0 Hn]; [by left..| |];
    destruct (Hnext _ _ _ Hf E0) as ((t' & Hn' & Ht) & Hd & K); right; [|done].
  rewrite Hn in Hn'. injection Hn' as <-. destruct Ht as [[? _]|[_ Ht]]; [done|].
  destruct (interrupted_ok _ _ _ _ _ _ _ H' (or_introl eq_refl) (kept_wf _ _ _ K) Ht)
    as (_ & _ & _ & _ & [Hdec|(? & ? & _)]); [|done]. unfold decided. by rewrite Hdec.
Qed.

(** From a stage every run of the graph returns. *)
Lemma stage_ends rid d name resume st w :
  stage rid d name st → ends (run_graph graph recursion_limit name resume st w).
Proof.
  intros (_ & Hn & _).
  repeat (apply elem_of_cons in Hn as [->|Hn]); [..|by apply not_elem_of_nil in Hn].
  - apply extract_ends.
  - apply match_ends.
  - apply supervisor_ends.
  - apply exception_ends.
  - apply (decided_ends _ _ _ _ 23). by left.
  - apply (decided_ends _ _ _ _ 23). by right.
  - apply complete_ends.
Qed.
End Steps.
