(* ===== verification/SystemInvariant.v ===== *)
(** * The invariant of the system

    [sys_inv] relates the committed tables and the checkpoint store between two commits of
    the program: rows, decisions and threads agree on what was decided, a row is ready for
    posting only on a decision or on a complete reconciliation, and the thread of a run that
    awaits review waits in the node that asks, its exception logged, or has the decision; a document with a key is the only one with it, and has a run with
    the id that the key determines.  One lemma for each way
    the program changes them: an operation that belongs to no run, a new run, a new row of a
    run, a decision, and a call of the graph that may be cut off. *)

From S2P Require Import Prelude PyText LoadNumbers DateTime PyFloat Json Database MissingDocs.
From S2P Require Import Shipments Reconciliation SlaScanner Extraction Workflow WorkflowSafety.
From S2P Require Import Frame BusinessState WorkflowRoutes InvoiceJob Redis InvoiceQueue QueueRoutes.
From S2P Require Import InvoiceWorker Notifier RateConfirmationRoutes ResultFrame ThreadStages.
From stdpp Require Import relations.
From Stdlib Require Import Ascii.
Local Open Scope string_scope.
Local Open Scope list_scope.
Local Open Scope nat_scope.

(** ** The invariant *)

Definition has_decision (rid dd : string) (d : database) : Prop :=
  ∃ dec, dec ∈ review_decisions d ∧ decision_run_id dec = rid ∧ disposition dec = dd.

Definition awaits (rid : string) (d : database) : Prop :=
  ∃ run, run ∈ workflow_runs d ∧ run_id run = rid ∧ processing_status run = "awaiting_review".

(** A row says more than [not_ready] only for a complete run that was decided or reconciled. *)
Definition row_ok (d : database) (run : WorkflowRun) : Prop :=
  ck_workflow_run run = true
  ∧ (posting_status run = "not_ready"
     ∨ processing_status run = "complete"
       ∧ ((∃ dd, has_decision (run_id run) dd d ∧ posting_status run = posting_of dd)
          ∨ posting_status run = "ready_for_posting" ∧ reconciled_for (run_id run) d)).

(** A thread that can take a decision, or has taken it: it waits in the node that asks, whose
    exception is logged. *)
Definition ready (rid : string) (d : database) (sn : snapshot) : Prop :=
  decided (values sn) ∨ next sn = ["exception_node"] ∧ exception_logged rid d = true.

Lemma logged_mono rid d d' :
  audit_logs d ⊆ audit_logs d' → exception_logged rid d = true → exception_logged rid d' = true.
Proof.
  intros Ha. unfold exception_logged. rewrite !existsb_exists. intros (a & Hin & H). exists a.
  split; [|done]. apply list_elem_of_In, Ha. by apply list_elem_of_In.
Qed.

Lemma ready_mono rid d d' sn : audit_logs d ⊆ audit_logs d' → ready rid d sn → ready rid d' sn.
Proof. intros Ha [H|[Hn H]]; [by left|right]. split; [done|]. by apply (logged_mono rid d). Qed.

(** A document with a key has a run, and is the only one with the key. *)
Definition keyed_rows (d : database) : Prop :=
  ∀ i key, keyed d i key →
    i ∈ document_id <$> workflow_runs d ∧ ∀ j, keyed d j key → j = i.

Lemma keyed_rows_same d d' :
  (∀ i key, keyed d' i key ↔ keyed d i key) →
  (∀ i, i ∈ document_id <$> workflow_runs d → i ∈ document_id <$> workflow_runs d') →
  keyed_rows d → keyed_rows d'.
Proof.
  intros Hk Hr H i key [Hi Hj]%Hk%H. split; [by apply Hr|]. intros j Hkj%Hk. by apply Hj.
Qed.

(** A row that counts as awaiting says so. *)
Lemma awaiting_status d run :
  row_ok d run → processing_status_of run = "awaiting_review" → processing_status run = "awaiting_review".
Proof.
  intros [Hck _]. unfold processing_status_of, str_truthy.
  destruct (String.eqb_spec (processing_status run) "") as [E0|]; [|done].
  unfold ck_workflow_run in Hck. by rewrite E0 in Hck.
Qed.

Section Invariant.
Context `{E : GraphEngine}.

Definition thread_decision (rid : string) (t : threads) : option string :=
  final_decision (values (aget_state rid t)).

Record sys_inv (d : database) (t : threads) : Prop := {
  si_runs : NoDup (run_id <$> workflow_runs d);
  si_results : results_wf d;
  si_documents : ∀ run, run ∈ workflow_runs d → document_id run ∈ doc_id <$> documents d;
  si_decisions : ∀ dec, dec ∈ review_decisions d →
                 thread_decision (decision_run_id dec) t = Some (disposition dec);
  si_threads : ∀ rid, snapshot_ok rid d (aget_state rid t);
  si_known : ∀ rid, aget_state rid t ≠ mk_snapshot [] [] → has_run rid d = true;
  si_reviewed : ∀ rid dd, thread_decision rid t = Some dd → has_decision rid dd d ∨ awaits rid d;
  si_rows : ∀ run, run ∈ workflow_runs d → row_ok d run;
  si_channel : ∀ rid, dict_get interrupt_key (values (aget_state rid t)) = None;
  si_ready : ∀ run, run ∈ workflow_runs d → processing_status run = "awaiting_review" →
             ready (run_id run) d (aget_state (run_id run) t);
  si_named : ∀ run key, run ∈ workflow_runs d → keyed d (document_id run) key →
             run_id run = deterministic_run_id key;
  si_keys : keyed_rows d
}.

Lemma row_mono d d' run :
  (∀ dd, has_decision (run_id run) dd d → has_decision (run_id run) dd d') →
  (reconciled_for (run_id run) d → reconciled_for (run_id run) d') → row_ok d run → row_ok d' run.
Proof.
  intros Hd Hr [H1 [H2|(H2 & [(dd & H3 & H4)|[H3 H4]])]]; (split; [done|]); [by left|right..];
    (split; [done|]); [left; exists dd|right]; auto.
Qed.

(** Another run of the same id is the same run. *)
Lemma run_unique d t run run' :
  sys_inv d t → run ∈ workflow_runs d → run' ∈ workflow_runs d → run_id run = run_id run' → run = run'.
Proof. intros I. apply (NoDup_fmap_inj run_id), I. Qed.

(** An operation that belongs to no run. *)
Lemma sys_kept d d' t : sys_inv d t → kept None d d' → sys_inv d' t.
Proof.
  intros [I1 I2 I3 I4 I5 I6 I7 I8 I9 I10 I11 I12] K.
  assert (Hr : ∀ rid, reconciled_for rid d → reconciled_for rid d')
    by (intros rid; by apply (reconciled_kept None)).
  assert (Er := kt_runs _ _ _ K). assert (Ed := kt_decisions _ _ _ K).
  split; rewrite ?Er, ?Ed; try done.
  - by apply (kept_wf None d).
  - intros run Hrun. by apply (kt_documents _ _ _ K), I3.
  - intros rid. apply (snapshot_mono rid d); [apply Hr|apply I5].
  - intros rid H. unfold has_run. rewrite Er. by apply I6.
  - intros rid dd H. unfold has_decision, awaits. rewrite Er, Ed. by apply I7.
  - intros run Hrun. apply (row_mono d); [|apply Hr|by apply I8]. intros dd. unfold has_decision. by rewrite Ed.
  - intros run Hrun Haw. apply (ready_mono _ d); [apply (kt_audits _ _ _ K)|by apply I10].
  - intros run key Hrun Hk. by apply I11, (kt_keyed _ _ _ K).
  - apply (keyed_rows_same d); [apply (kt_keyed _ _ _ K)|by rewrite Er|done].
Qed.

(** The tables it is about. *)
Definition system_tables (d : database) :=
  (workflow_runs d, review_decisions d, documents d, reconciliation_results d).

Lemma sys_same d d' t :
  sys_inv d t → system_tables d' = system_tables d → audit_logs d ⊆ audit_logs d' → sys_inv d' t.
Proof.
  intros I [= Er Ed Edoc Eres] Ha. apply (sys_kept d); [done|]. destruct (si_results _ _ I).
  split; unfold keyed; rewrite ?Er, ?Ed, ?Edoc, ?Eres; done.
Qed.

(** A new row for a run, with the row of the same id. *)
Lemma sys_with_row d t run run' :
  sys_inv d t → run ∈ workflow_runs d → run_id run' = run_id run → document_id run' = document_id run →
  row_ok d run' →
  (processing_status run = "awaiting_review" →
   processing_status run' = "awaiting_review" ∨ ∃ dd, has_decision (run_id run) dd d) →
  (processing_status run' = "awaiting_review" → ready (run_id run) d (aget_state (run_id run) t)) →
  sys_inv (with_row run' d) t.
Proof.
  intros I Hin Hid Hdoc Hok Haw Hready. pose proof I as [I1 I2 I3 I4 I5 I6 I7 I8 I9 I10 I11 I12].
  assert (Eids : run_id <$> workflow_runs (with_row run' d) = run_id <$> workflow_runs d).
  { cbn. apply update_where_map. by intros x _ ->%String.eqb_eq. }
  assert (Hold : ∀ x, x ∈ workflow_runs d → String.eqb (run_id x) (run_id run') = true → x = run).
  { intros x Hx Hk%String.eqb_eq. apply (run_unique d t); try done. congruence. }
  split; try done.
  - by rewrite Eids.
  - destruct I2. by split.
  - intros x (y & Hy & ->)%elem_of_update_where. case_match; [|by apply I3]. rewrite Hdoc. by apply I3.
  - intros rid Hne. specialize (I6 rid Hne). unfold has_run in *. cbn.
    apply existsb_exists in I6 as (x & Hx & Hk). apply list_elem_of_In in Hx.
    apply existsb_exists. exists (if String.eqb (run_id x) (run_id run') then run' else x). split.
    + apply list_elem_of_In, elem_of_update_where. by exists x.
    + destruct (String.eqb_spec (run_id x) (run_id run')) as [<-|]; done.
  - intros rid dd H. destruct (I7 rid dd H) as [Hdec|(x & Hx & Hxid & Hxp)]; [by left|].
    destruct (String.eqb (run_id x) (run_id run')) eqn:Ex.
    + rewrite (Hold x Hx Ex) in Hxid, Hxp. destruct (Haw Hxp) as [Hp|(dd' & dec & Hdec & Hdr & Hdd)].
      * right. exists run'. split; [|by rewrite Hid]. cbn. apply elem_of_update_where. exists run.
        split; [done|]. by rewrite Hid, String.eqb_refl.
      * left. exists dec. split; [done|]. split; [congruence|].
        pose proof (I4 dec Hdec) as H4. rewrite Hdr, Hxid, H in H4. congruence.
    + right. exists x. split; [|done]. cbn. apply elem_of_update_where. exists x. by rewrite Ex.
  - intros x (y & Hy & ->)%elem_of_update_where. case_match; [|by apply I8]. exact Hok.
  - intros x (y & Hy & ->)%elem_of_update_where. case_match; [|by apply I10]. rewrite Hid. exact Hready.
  - intros x key (y & Hy & ->)%elem_of_update_where. case_match; [|by apply I11]. rewrite Hid, Hdoc.
    by apply I11.
  - apply (keyed_rows_same d); [done| |done]. intros i (x & -> & Hx)%list_elem_of_fmap.
    apply list_elem_of_fmap. exists (if String.eqb (run_id x) (run_id run') then run' else x).
    split; [|apply elem_of_update_where; by exists x].
    destruct (String.eqb (run_id x) (run_id run')) eqn:Ex; [|done]. by rewrite (Hold x Hx Ex).
Qed.

(** The rows of a new run. *)
Lemma sys_new_run d t doc run :
  sys_inv d t → doc_id doc ∉ doc_id <$> documents d → has_run (run_id run) d = false →
  document_id run = doc_id doc → ck_workflow_run run = true → posting_status run = "not_ready" →
  processing_status run ≠ "awaiting_review" →
  (∀ key, source_idempotency_key doc = Some key →
     run_id run = deterministic_run_id key ∧ ∀ i, ¬ keyed d i key) →
  sys_inv (on_workflow_runs (λ l, l ++ [run]) (on_documents (λ l, l ++ [doc]) d)) t.
Proof.
  intros [I1 I2 I3 I4 I5 I6 I7 I8 I9 I10 I11 I12] Hdoc Hnew Hid Hck Hpost Haw Hname. split; cbn; try done.
  - rewrite fmap_app. apply NoDup_app. split; [done|]. split; [|repeat constructor; set_solver].
    intros x (y & -> & Hy)%list_elem_of_fmap Hx%list_elem_of_singleton. cbn in Hx.
    apply Bool.not_true_iff_false in Hnew. apply Hnew. apply existsb_exists. exists y.
    split; [by apply list_elem_of_In|by rewrite Hx, String.eqb_refl].
  - destruct I2 as [W1 W2 W3]. split; cbn; [|done..]. rewrite fmap_app. apply NoDup_app.
    split; [done|]. split; [|repeat constructor; set_solver].
    intros x Hx Hx'%list_elem_of_singleton. by subst.
  - intros x. rewrite fmap_app, !elem_of_app, list_elem_of_singleton. intros [Hx|Hx]; [left; by apply I3|right].
    rewrite Hx, Hid. apply list_elem_of_here.
  - intros rid Hne. unfold has_run. cbn. rewrite existsb_app. by rewrite (I6 rid Hne : existsb _ _ = true).
  - intros rid dd H. destruct (I7 rid dd H) as [Hd|(x & Hx & Hxr)]; [by left|right]. exists x.
    split; [|done]. cbn. apply elem_of_app. by left.
  - intros x [Hx|Hx%list_elem_of_singleton]%elem_of_app; [by apply I8|]. rewrite Hx. split; [done|by left].
  - intros x [Hx|Hx%list_elem_of_singleton]%elem_of_app; [by apply I10|by subst].
  - intros x key Hx. unfold keyed. cbn. rewrite fmap_app, elem_of_app.
    change (doc_key <$> [doc]) with [doc_key doc]. rewrite list_elem_of_singleton.
    apply elem_of_app in Hx as [Hx|Hx%list_elem_of_singleton]; [|subst x]; intros [Hk|Hk].
    + by apply I11.
    + exfalso. apply Hdoc. injection Hk as <- _. by apply I3.
    + exfalso. apply Hdoc. rewrite <- Hid. apply list_elem_of_fmap in Hk as (y & Ey & Hy).
      injection Ey as -> _. by apply list_elem_of_fmap_2.
    + injection Hk as _ Hk. by apply Hname.
  - assert (Hk : ∀ i key, keyed (on_workflow_runs (λ l, l ++ [run]) (on_documents (λ l, l ++ [doc]) d)) i key →
      keyed d i key ∨ i = doc_id doc ∧ source_idempotency_key doc = Some key).
    { intros i key. unfold keyed. cbn. rewrite fmap_app, elem_of_app.
      change (doc_key <$> [doc]) with [doc_key doc]. rewrite list_elem_of_singleton.
      intros [H|H]; [by left|right]. by injection H. }
    intros i key [Hi|[-> Hs]]%Hk; cbn; rewrite fmap_app, elem_of_app.
    + destruct (I12 i key Hi) as [Hr Hj]. split; [by left|]. intros j [H|[-> Hs]]%Hk; [by apply Hj|].
      exfalso. by apply (proj2 (Hname key Hs) i).
    + split; [right; rewrite <- Hid; apply list_elem_of_here|]. intros j [H|[-> _]]%Hk; [|done].
      exfalso. by apply (proj2 (Hname key Hs) j).
Qed.

(** The thread of a run that is not there is fresh. *)
Lemma sys_fresh d t rid : sys_inv d t → has_run rid d = false → aget_state rid t = mk_snapshot [] [].
Proof.
  intros I Hno. destruct (aget_state rid t) as [[|kv v] [|n l]] eqn:Ea; [done|..]; exfalso;
    apply Bool.not_true_iff_false in Hno; apply Hno; apply (si_known _ _ I); by rewrite Ea.
Qed.

(** A decision that the thread of the run holds. *)
Lemma sys_new_decision d t dec :
  sys_inv d t → thread_decision (decision_run_id dec) t = Some (disposition dec) →
  sys_inv (on_review_decisions (λ l, l ++ [dec]) d) t.
Proof.
  intros [I1 I2 I3 I4 I5 I6 I7 I8 I9 I10 I11 I12] Hdec.
  assert (Hmore : ∀ rid dd, has_decision rid dd d → has_decision rid dd (on_review_decisions (λ l, l ++ [dec]) d)).
  { intros rid dd (x & Hx & H). exists x. split; [|done]. cbn. apply elem_of_app. by left. }
  split; cbn; try done.
  - destruct I2. by split.
  - intros x [Hx|Hx%list_elem_of_singleton]%elem_of_app; [by apply I4|by subst].
  - intros rid dd H. destruct (I7 rid dd H); [left; by apply Hmore|by right].
  - intros run Hrun. apply (row_mono d); [apply Hmore|done|by apply I8].
Qed.
End Invariant.

(** ** A graph call *)

(** A run that neither ended nor waits for a reviewer: what the worker goes on with. *)
Definition unsettled (run : WorkflowRun) : Prop :=
  in_strs (processing_status run) REDELIVERY_SHORT_CIRCUIT_PROCESSING_STATUSES = false.

Lemma unsettled_cases run :
  unsettled run ↔ processing_status run ≠ "complete" ∧ processing_status run ≠ "awaiting_review".
Proof.
  unfold unsettled, in_strs, REDELIVERY_SHORT_CIRCUIT_PROCESSING_STATUSES. cbn.
  rewrite Bool.orb_false_r, Bool.orb_false_iff, !String.eqb_neq. done.
Qed.

(** A run that is not complete is not ready. *)
Lemma not_ready d run : row_ok d run → processing_status run ≠ "complete" → posting_status run = "not_ready".
Proof. intros [_ [H|[H _]]]; [done|by intros ?]. Qed.

Section Calls.
Context `{E : GraphEngine} (model_fields : schema → json → option coerced)
        (triage_fields : json → option (string * string * float))
        (replies : claude_replies) (sla_hours : Z).

Abbreviation graph := (build_state_graph model_fields triage_fields replies sla_hours).

(** The calls the program makes, and when: a start of a new thread or a continued one for a
    run that is not settled; a decision for a run that awaits it and has none. *)
Inductive requested (run : WorkflowRun) (d : database) (sn : snapshot) : graph_input → Prop :=
  | rq_start st :
      unsettled run → values sn = [] → next sn = [] →
      dict_get "run_id" (merge_state [] st) = Some (JStr (run_id run)) → unasked (merge_state [] st) →
      dict_get interrupt_key (merge_state [] st) = None →
      requested run d sn (Start st)
  | rq_continue : unsettled run → next sn ≠ [] → requested run d sn Continue
  | rq_resume dd :
      processing_status run = "awaiting_review" → (∀ dec, dec ∈ review_decisions d → decision_run_id dec ≠ run_id run) →
      in_strs dd ["approved"; "rejected"] = true → final_decision (values sn) = None → next sn ≠ [] →
      requested run d sn (Resume dd).

(** Such a call can be made. *)
Lemma requested_call run d sn input :
  requested run d sn input → snapshot_ok (run_id run) d sn →
  ∃ name resume st, graph_call graph input sn = Some (name, resume, st)
    ∧ resume_ok resume ∧ stage (run_id run) d name st
    ∧ (final_decision st = final_decision (values sn))
    ∧ (∀ dd, resume = Some (JStr dd) → processing_status run = "awaiting_review").
Proof.
  intros Hq Hsn. destruct Hq as [st Hu Hv Hn Hrid Hun _|Hu Hn|dd Haw Hno Hdd Hf Hn].
  - exists "extract_node", None, (merge_state [] st). cbn [graph_call]. rewrite Hv.
    split; [done|]. split; [by left|]. split; [|split; [|done]].
    + split; [done|]. split; [apply list_elem_of_here|]. right. split; [done|]. split; [set_solver|done].
    + unfold unasked, sget in Hun. unfold final_decision.
      by destruct (dict_get "human_decision" (merge_state [] st)) as [[]|].
  - destruct Hsn as [->|[(name & En & Hs)|[En _]]]; [done| |congruence]. cbn [graph_call]. rewrite En.
    exists name, None, (values sn). split; [done|]. split; [by left|]. by split.
  - destruct Hsn as [->|[(name & En & Hs)|[En _]]]; [done| |congruence]. cbn [graph_call]. rewrite En.
    exists name, (Some (JStr dd)), (values sn). split; [done|]. split; [right; by exists dd|]. by split.
Qed.

Lemma requested_channel run d sn input name resume st :
  requested run d sn input → graph_call graph input sn = Some (name, resume, st) →
  dict_get interrupt_key (values sn) = None → dict_get interrupt_key st = None.
Proof.
  intros Hq Hc Hk. destruct Hq as [st' Hu Hv Hn Hrid Hun Hi|Hu Hn|dd Haw Hno Hdd Hf Hn]; cbn [graph_call] in Hc.
  - injection Hc as _ _ <-. by rewrite Hv.
  - destruct (next sn) as [|n [|]]; try done. by injection Hc as _ _ <-.
  - destruct (next sn) as [|n [|]]; try done. by injection Hc as _ _ <-.
Qed.

(** A run that waits for a reviewer still does, or its thread has the decision. *)
Lemma requested_ready run input name resume st w t sn w' :
  sys_inv (w_db w) t → run ∈ workflow_runs (w_db w) → processing_status run = "awaiting_review" →
  requested run (w_db w) (aget_state (run_id run) t) input →
  graph_call graph input (aget_state (run_id run) t) = Some (name, resume, st) →
  interrupted_run graph name resume st w sn w' → ready (run_id run) (w_db w') sn.
Proof.
  intros I Hin Haw Hq Hc Hi.
  destruct (requested_call run (w_db w) _ input Hq (si_threads _ _ I _)) as (n' & r' & st' & Hc' & Hr & Hs & _).
  rewrite Hc in Hc'. injection Hc' as <- <- <-.
  destruct (interrupted_ok _ _ _ _ _ _ _ _ _ _ _ Hi Hr (si_results _ _ I) Hs) as (_ & K & _).
  destruct Hq as [? Hu|Hu|dd _ _ Hdd Hf Hn]; [by apply unsettled_cases in Hu as [_ ?]..|].
  destruct (si_ready _ _ I run Hin Haw) as [[x Hx]|[Hnext Hlog]]; [congruence|].
  cbn [graph_call] in Hc. rewrite Hnext in Hc. injection Hc as <- <- <-.
  destruct (interrupted_exception _ _ _ _ _ _ _ _ _ _ Hdd (si_results _ _ I) Hi Hs); [right|by left].
  split; [done|]. by apply (logged_mono _ (w_db w)); [apply (kt_audits _ _ _ K)|].
Qed.

Lemma graph_step run input name resume st w t sn w' t' :
  sys_inv (w_db w) t → run ∈ workflow_runs (w_db w) →
  requested run (w_db w) (aget_state (run_id run) t) input →
  graph_call graph input (aget_state (run_id run) t) = Some (name, resume, st) →
  interrupted_run graph name resume st w sn w' →
  aget_state (run_id run) t' = sn → (∀ rid, rid ≠ run_id run → aget_state rid t' = aget_state rid t) →
  sys_inv (w_db w') t' ∧ kept (Some (run_id run)) (w_db w) (w_db w') ∧ values sn ≠ [].
Proof.
  intros I Hin Hq Hc Hi Hsn Hoth. pose proof I as [I1 I2 I3 I4 I5 I6 I7 I8 I9 I10 I11 I12].
  destruct (requested_call run (w_db w) _ input Hq (I5 _)) as (n' & r' & st' & Hc' & Hr & Hs & Hf & Haw).
  rewrite Hc in Hc'. injection Hc' as <- <- <-.
  destruct (interrupted_ok _ _ _ _ _ _ _ _ _ _ _ Hi Hr I2 Hs) as (S & K & Hv & Hchan & Hdec).
  split; [|by split]. assert (Er := kt_runs _ _ _ K). assert (Ed := kt_decisions _ _ _ K).
  assert (Hrec : ∀ rid, rid ≠ run_id run → reconciled_for rid (w_db w) → reconciled_for rid (w_db w')).
  { intros rid Hne. apply (reconciled_kept (Some (run_id run))); [done|congruence]. }
  split; rewrite ?Er, ?Ed; try done.
  - by eapply kept_wf.
  - intros x Hx. by apply (kt_documents _ _ _ K), I3.
  - intros dec Hd. specialize (I4 dec Hd). unfold thread_decision in *.
    destruct (decide (decision_run_id dec = run_id run)) as [Erid|Hne]; [|by rewrite Hoth].
    rewrite Erid in I4 |- *. rewrite Hsn. destruct Hdec as [->|(dd & -> & _)]; [by rewrite Hf|].
    exfalso. inversion Hq as [? ? ? ? ? ? ? |? ?|? ? Hno ? Hn' ?]; subst; cbn [graph_call] in Hc; try congruence.
    all: repeat case_match; congruence.
  - intros rid. destruct (decide (rid = run_id run)) as [->|Hne]; [by rewrite Hsn|].
    rewrite Hoth by done. apply (snapshot_mono rid (w_db w)); [by apply Hrec|apply I5].
  - intros rid Hne. unfold has_run. rewrite Er.
    destruct (decide (rid = run_id run)) as [->|Hner]; [|apply I6; by rewrite <- Hoth].
    apply existsb_exists. exists run. split; [by apply list_elem_of_In|apply String.eqb_refl].
  - intros rid dd H. unfold has_decision, awaits. rewrite Er, Ed. unfold thread_decision in *.
    destruct (decide (rid = run_id run)) as [->|Hne]; [|apply I7; by rewrite <- Hoth].
    rewrite Hsn in H. destruct Hdec as [Hdec|(dd' & Hres & Hdec)].
    + apply I7. congruence.
    + right. exists run. split; [done|]. split; [done|]. by apply (Haw dd').
  - intros x Hx. destruct (decide (run_id x = run_id run)) as [Ex|Hne].
    + assert (x = run) as -> by (by apply (run_unique (w_db w) t)). destruct (I8 run Hin) as [Hck Hrow].
      split; [done|]. left. apply (not_ready (w_db w)); [by apply I8|].
      destruct Hq as [? Hu|Hu|? Haw']; [by apply unsettled_cases..|congruence].
    + apply (row_mono (w_db w)); [|by apply Hrec|by apply I8]. intros dd. unfold has_decision. by rewrite Ed.
  - intros rid. destruct (decide (rid = run_id run)) as [->|Hne]; [|by rewrite Hoth].
    rewrite Hsn, Hchan. by eapply (requested_channel run).
  - intros x Hx Hxp. destruct (decide (run_id x = run_id run)) as [Ex|Hne].
    + assert (x = run) as -> by (by apply (run_unique (w_db w) t)). rewrite Hsn.
      by apply (requested_ready run input name resume st w t sn w').
    + rewrite Hoth by done. apply (ready_mono _ (w_db w)); [apply (kt_audits _ _ _ K)|by apply I10].
  - intros x key Hx Hk. by apply I11, (kt_keyed _ _ _ K).
  - apply (keyed_rows_same (w_db w)); [apply (kt_keyed _ _ _ K)|by rewrite Er|done].
Qed.
End Calls.
