(* ===== verification/SystemHandlers.v ===== *)
(** * The handlers keep the invariant

    The upload, the decision and the delivery, from the states of [sys_inv] to the states of
    [sys_inv], on every branch: a handler that raises leaves what it has committed. *)

From S2P Require Import Prelude PyText LoadNumbers DateTime PyFloat Json Database MissingDocs.
From S2P Require Import Shipments Reconciliation SlaScanner Extraction Workflow WorkflowSafety.
From S2P Require Import Frame BusinessState WorkflowRoutes InvoiceJob Redis InvoiceQueue QueueRoutes.
From S2P Require Import InvoiceWorker Notifier RateConfirmationRoutes ResultFrame ThreadStages.
From S2P Require Import SystemInvariant.
From Stdlib Require Import Ascii.
Local Open Scope string_scope.
Local Open Scope list_scope.
Local Open Scope nat_scope.

(** ** Computations with two outcomes *)

(** From [P], what returns [a] is in [Q a] and what raises is in [X]. *)
Definition triple {S A} (P : S → Prop) (m : M S A) (Q : A → S → Prop) (X : S → Prop) : Prop :=
  ∀ s, P s → match m s with (Ok a, s') => Q a s' | (Raise _, s') => X s' end.

Section Rules.
Context {S A : Type}.
Implicit Types (P X : S → Prop) (m : M S A).

Lemma triple_bind {B} P m (f : A → M S B) R Q X :
  triple P m R X → (∀ a, triple (R a) (f a) Q X) → triple P (m ≫= f) Q X.
Proof.
  intros Hm Hf s Hs. rewrite bind_unfold. specialize (Hm s Hs).
  destruct (m s) as [[a|e] s']; [exact (Hf a s' Hm)|exact Hm].
Qed.

Lemma triple_ret P (a : A) (Q : A → S → Prop) X : (∀ s, P s → Q a s) → triple P (mret a) Q X.
Proof. intros H s Hs. exact (H s Hs). Qed.

Lemma triple_raise P e (Q : A → S → Prop) X : (∀ s, P s → X s) → triple P (raise e) Q X.
Proof. intros H s Hs. exact (H s Hs). Qed.

Lemma triple_of_res P (r : res A) (X : S → Prop) :
  (∀ s, P s → X s) → triple P (of_res r) (λ a s, r = Ok a ∧ P s) X.
Proof. intros H s Hs. unfold of_res. destruct r; auto. Qed.

Lemma triple_conseq P P' m (Q Q' : A → S → Prop) X X' :
  triple P' m Q' X' → (∀ s, P s → P' s) → (∀ a s, Q' a s → Q a s) → (∀ s, X' s → X s) → triple P m Q X.
Proof.
  intros Hm HP HQ HX s Hs. specialize (Hm s (HP s Hs)). destruct (m s) as [[a|e] s']; auto.
Qed.

(** A handler runs where the body raised. *)
Lemma triple_try P m h (Q : A → S → Prop) X X' :
  triple P m Q X → (∀ s, X s → X' s) → (∀ e k, h e = Some k → triple X k Q X') →
  triple P (try_except m h) Q X'.
Proof.
  intros Hm HX Hh s Hs. unfold try_except. specialize (Hm s Hs).
  destruct (m s) as [[a|e] s']; [done|]. destruct (h e) as [k|] eqn:Ek; [exact (Hh e k Ek s' Hm)|auto].
Qed.

(** Facts about the values. *)
Lemma triple_fact (φ : Prop) P m (Q : A → S → Prop) X :
  (φ → triple P m Q X) → triple (λ s, φ ∧ P s) m Q X.
Proof. intros H s [Hφ Hs]. exact (H Hφ s Hs). Qed.
End Rules.

Lemma preserves_triple {S A} (P : S → Prop) (m : M S A) : preserves P m → triple P m (λ _, P) P.
Proof. intros H s Hs. specialize (H s Hs). by destruct (m s) as [[a|e] s']. Qed.

(** ** What is committed *)

(** A computation that raises before its commit leaves the committed tables. *)
Definition uncommitted (d : database) (s : session) : Prop := committed s = d.

Ltac keep_committed :=
  unfold insert_document, insert_run, insert_decision, save_run, log_audit_event, insist, select,
    next_doc_id, next_run_pk, next_audit_id, db_clock, uuid4, with_env, integrity_error;
  repeat first
    [ apply preserves_bind; [|intros ?] | case_match | apply preserves_ret | apply preserves_raise
    | apply preserves_gets | apply preserves_modify; by intros ? <- ].

Lemma uuid4_uncommitted d : preserves (uncommitted d) uuid4.
Proof. keep_committed. Qed.
Lemma insert_document_uncommitted d mk : preserves (uncommitted d) (insert_document mk).
Proof. keep_committed. Qed.
Lemma insert_run_uncommitted d mk : preserves (uncommitted d) (insert_run mk).
Proof. keep_committed. Qed.
Lemma insert_decision_uncommitted d mk : preserves (uncommitted d) (insert_decision mk).
Proof. keep_committed. Qed.
Lemma save_run_uncommitted d run : preserves (uncommitted d) (save_run run).
Proof. keep_committed. Qed.
Lemma log_audit_uncommitted d rid ev p who : preserves (uncommitted d) (log_audit_event rid ev p who).
Proof. keep_committed. Qed.

(** The last call is the commit. *)
Lemma commit_triple {A} (a : A) P X : triple P (_ ← commit; mret a) (λ _ _, True) X.
Proof. done. Qed.

Ltac until_commit :=
  repeat (eapply triple_bind; [apply preserves_triple; first
    [ apply uuid4_uncommitted | apply insert_document_uncommitted | apply insert_run_uncommitted
    | apply insert_decision_uncommitted | apply save_run_uncommitted | apply log_audit_uncommitted ]|
    intros ?]); apply commit_triple.

(** The document an insert returns is a new row. *)
Lemma insert_document_new mk s doc s' :
  (∀ i now, doc_id (mk i now) = i) → insert_document mk s = (Ok doc, s') →
  doc_id doc ∉ doc_id <$> documents (working s)
  ∧ doc = mk (doc_seq (senv s)) (clock (senv s))
  ∧ committed s' = committed s ∧ working s' = on_documents (λ t, t ++ [doc]) (working s).
Proof.
  intros Hmk H. pose proof (insert_document_ok _ _ _ _ H) as (Ed & Hc & Hw & _).
  split; [|by split]. revert H. session_unfold.
  destruct (existsb _ (documents (working s))) eqn:Ex; cbn [negb]; [done|]. intros _.
  rewrite Ed, Hmk. intros (x & Exi & Hx)%list_elem_of_fmap.
  rewrite existsb_false_Forall, Forall_forall in Ex. specialize (Ex x Hx). cbn in Ex.
  by rewrite <- Exi, Z.eqb_refl in Ex.
Qed.

(** ** The states between two calls *)

Section States.
Context `{E : GraphEngine}.

Abbreviation sthreads := (session * threads)%type.

Definition safe (st : sthreads) : Prop := sys_inv (committed st.1) st.2.
Definition calm (st : sthreads) : Prop := committed st.1 = working st.1 ∧ safe st.

Lemma calm_safe st : calm st → safe st.
Proof. by intros [_ ?]. Qed.

(** A run in its table. *)
Definition at_run (run : WorkflowRun) (st : sthreads) : Prop :=
  calm st ∧ run ∈ workflow_runs (committed st.1).

Lemma in_session_triple {A} (P : sthreads → Prop) (m : M session A) (Q : A → sthreads → Prop) X :
  (∀ t, triple (λ s, P (s, t)) m (λ a s, Q a (s, t)) (λ s, X (s, t))) → triple P (in_session m) Q X.
Proof.
  intros H [s t] Hs. unfold in_session. cbn [fst snd]. specialize (H t s Hs).
  by destruct (m s) as [[a|e] s'].
Qed.

(** What [persist_run_state] writes. *)
Lemma persist_triple sv ps po pl keep run (run' := persisted_run sv ps po pl keep run) (P : sthreads → Prop) :
  (∀ st, P st → at_run run st) →
  (∀ st, P st → ck_workflow_run run' = true → row_ok (committed st.1) run') →
  (∀ st, P st → processing_status run = "awaiting_review" →
     processing_status run' = "awaiting_review" ∨ ∃ dd, has_decision (run_id run) dd (committed st.1)) →
  (∀ st, P st → processing_status run' = "awaiting_review" →
     ready (run_id run) (committed st.1) (aget_state (run_id run) st.2)) →
  triple P (in_session (persist_run_state sv ps po pl keep run))
    (λ x st', x = run' ∧ at_run run' st'
       ∧ ∃ s t, P (s, t) ∧ committed st'.1 = with_row run' (committed s) ∧ st'.2 = t)
    P.
Proof.
  intros HP Hrow Haw Hready [s t] Hs. pose proof (HP _ Hs) as [[Hc I] Hin]. cbn [fst snd] in *.
  unfold safe in I. cbn [fst snd] in I. unfold in_session. cbn [fst snd].
  destruct (ck_workflow_run run') eqn:Hck.
  - rewrite persist_runs by done. split; [done|]. split; [split; [split; [done|]|]|].
    + unfold safe. cbn [fst snd committed]. rewrite <- Hc.
      apply (sys_with_row _ t run); [done|done|apply persisted_run_id| |by apply (Hrow _ Hs)|by apply (Haw _ Hs)|].
      2:{ apply (Hready _ Hs). }
      unfold run', persisted_run. by destruct po, keep.
    + cbn. rewrite <- Hc. apply elem_of_update_where. exists run.
      split; [done|]. by rewrite persisted_run_id, String.eqb_refl.
    + exists s, t. split; [done|]. split; [cbn; by rewrite Hc|done].
  - unfold persist_run_state, save_run. rewrite bind_unfold, bind_unfold. unfold insist.
    fold run'. by rewrite Hck.
Qed.
End States.

Section Handlers.
Context `{E : GraphEngine} (model_fields : schema → json → option coerced)
        (triage_fields : json → option (string * string * float))
        (replies : claude_replies) (sla_hours : Z).

Abbreviation graph := (build_state_graph model_fields triage_fields replies sla_hours).
Abbreviation sthreads := (session * threads)%type.

(** ** A graph call *)

(** A result of the graph that can be stored: paused, in a thread that can take a decision, or
    at the end of the thread. *)
Definition storable (run : WorkflowRun) (result : dict) (st : sthreads) : Prop :=
  is_Some (interrupt_of result) ∧ ready (run_id run) (committed st.1) (aget_state (run_id run) st.2)
  ∨ (ended (run_id run) (committed st.1) result ∧ interrupt_of result = None)
    ∧ thread_decision (run_id run) st.2 = final_decision result.

Lemma invoke_step run input s t :
  at_run run (s, t) → requested run (committed s) (aget_state (run_id run) t) input →
  ∃ r s' t', invoke graph (run_id run) input (s, t) = (call_result r, (s', t'))
    ∧ at_run run (s', t') ∧ kept (Some (run_id run)) (committed s) (committed s')
    ∧ (∀ result, call_result r = Ok result → storable run result (s', t')).
Proof.
  intros [[Hc I] Hin] Hq. unfold safe in I. cbn [fst snd] in *.
  destruct (requested_call model_fields triage_fields replies sla_hours run _ _ input Hq
    (si_threads _ _ I _)) as (name & resume & st & Hcall & _ & Hs & _).
  destruct (stage_ends model_fields triage_fields replies sla_hours _ _ _ resume st (world_of s) Hs)
    as (r & w' & Hr).
  destruct (ainvoke_documented graph (run_id run) input t (world_of s) name resume st r w' Hcall Hr)
    as (t' & Ei & Et).
  destruct (graph_step model_fields triage_fields replies sla_hours run input name resume st (world_of s) t
    (call_snapshot r) w' t' I Hin Hq Hcall (run_graph_interrupted _ _ _ _ _ _ _ _ Hr) Et) as (I' & K & Hv).
  { intros rid Hne. rewrite <- (ainvoke_own_thread graph (run_id run) input t (world_of s)) by done.
    by rewrite Ei. }
  exists r, (session_of w'), t'. unfold invoke. cbn [fst snd]. rewrite Ei. split; [done|].
  split; [split; [by split|]; cbn [fst snd session_of committed]; by rewrite (kt_runs _ _ _ K)|].
  split; [done|]. intros result Hres. unfold storable. cbn [fst snd session_of committed].
  destruct r as [st'|st' m p|st' m e]; [| |done]; injection Hres as <-.
  - right. unfold thread_decision. rewrite Et. split; [|done]. split.
    + destruct (si_threads _ _ I' (run_id run)) as [H|[(n & Hn & _)|[_ H]]]; rewrite Et in *; [|done|done].
      by injection H as ->.
    + apply interrupt_of_none. pose proof (si_channel _ _ I' (run_id run)) as H. by rewrite Et in H.
  - left. split; [unfold interrupt_of; by rewrite dict_get_set, String.eqb_refl|].
    right. rewrite Et. apply paused_inv in Hr as (-> & _ & rid & Hrid & Hlog). split; [done|].
    destruct (si_threads _ _ I' (run_id run)) as [H|[(n & Hn & Hst' & _)|[H _]]]; rewrite Et in *; [done| |done].
    cbn [call_snapshot values] in Hst'. unfold state_str in Hrid. rewrite Hst' in Hrid. by injection Hrid as ->.
Qed.

(** What is stored for it keeps the invariant. *)
Lemma storable_row run result st sv :
  at_run run st → unsettled run → storable run result st → interrupt_of result = None →
  ∀ run', run' = persisted_run sv (Some (result_processing result)) (Some (result_posting result)) None true run →
  ck_workflow_run run' = true → row_ok (committed st.1) run'.
Proof.
  intros [[_ I] Hin] Hu [[[p Hp] _]|[[(_ & _ & _ & He) _] Hd]] Hnone run' -> Hck; [congruence|].
  split; [exact Hck|]. cbn [persisted_run set_posting_status posting_status set_processing_status
    processing_status run_id set_status str_or].
  destruct He as [He|(Hp & He)]; [by left|]. right. split; [by rewrite Hp|].
  destruct He as [(dd & Hf & Hpost)|[Hpost Hrec]]; [left|right; by split]. exists dd. split; [|done].
  destruct (si_reviewed _ _ I (run_id run) dd) as [H|(x & Hx & Hxid & Hxp)]; [congruence|done|].
  rewrite (run_unique _ _ _ _ I Hx Hin Hxid) in Hxp. by apply unsettled_cases in Hu as [_ ?].
Qed.

Lemma unsettled_not_awaiting run (φ : Prop) : unsettled run → processing_status run = "awaiting_review" → φ.
Proof. by intros [_ H]%unsettled_cases ?. Qed.

(** A status without a new posting status, or with [not_ready]. *)
Lemma plain_row run st sv ps po pl keep :
  at_run run st → unsettled run → po = None ∨ po = Some "not_ready" →
  ck_workflow_run (persisted_run sv ps po pl keep run) = true →
  row_ok (committed st.1) (persisted_run sv ps po pl keep run).
Proof.
  intros [[_ I] Hin] Hu Hpo Hck. split; [exact Hck|]. left.
  assert (Hn : posting_status run = "not_ready").
  { apply (not_ready (committed st.1)); [by apply (si_rows _ _ I)|]. by apply unsettled_cases in Hu as [? _]. }
  destruct Hpo as [->| ->]; by destruct keep.
Qed.

Lemma plain_triple sv ps po pl keep run :
  unsettled run → po = None ∨ po = Some "not_ready" →
  processing_status (persisted_run sv ps po pl keep run) ≠ "awaiting_review" →
  triple (at_run run) (in_session (persist_run_state sv ps po pl keep run))
    (λ x st', x = persisted_run sv ps po pl keep run ∧ at_run x st') calm.
Proof.
  intros Hu Hpo Hnot. eapply triple_conseq; [apply (persist_triple _ _ _ _ _ _ (at_run run))|..]; [done| | | |..].
  - intros st Hs. by apply plain_row.
  - intros st _ Ha. by eapply unsettled_not_awaiting.
  - done.
  - done.
  - intros x st (-> & H & _). by split.
  - by intros st [? _].
Qed.

(** ** The upload *)

Lemma create_run_triple name t :
  triple (λ s, calm (s, t)) (create_run name)
    (λ run s, at_run run (s, t) ∧ unsettled run ∧ aget_state (run_id run) t = mk_snapshot [] [])
    (λ s, safe (s, t)).
Proof.
  intros s [Hc I]. unfold safe in *. cbn [fst snd] in *.
  destruct (create_run name s) as [[run|e] s'] eqn:Ec; unfold create_run in Ec.
  - apply bind_ok_inv in Ec as (u & s1 & Hu & Ec). apply bind_ok_inv in Ec as (doc & s2 & Hd & Ec).
    apply bind_ok_inv in Ec as (run' & s3 & Hr & Ec). apply bind_ok_inv in Ec as (tt' & s4 & Hcm & Ec).
    injection Ec as -> <-. injection Hcm as _ <-. rewrite uuid4_runs in Hu. injection Hu as <- <-.
    apply insert_document_new in Hd as (Hnew & Ed & _ & Hdw); [|done]. cbn [working] in Hnew, Hdw.
    apply insert_run_ok in Hr as (-> & Hno & _ & Hrw & _). rewrite Hdw in Hrw, Hno.
    set (run := new_run _ _ _ _) in *.
    assert (Hno' : has_run (run_id run) (committed s) = false) by (rewrite Hc; exact Hno).
    split; [|split; [done|by apply (sys_fresh (committed s))]].
    split; [split; [done|]|]; cbn [fst snd committed]; rewrite Hrw, <- Hc.
    + apply sys_new_run; [done|by rewrite Hc|exact Hno'|done..|]. intros key. by rewrite Ed.
    + cbn. apply elem_of_app. right. apply list_elem_of_here.
  - assert (H : triple (uncommitted (committed s)) (create_run name) (λ _ _, True) (uncommitted (committed s)))
      by (unfold create_run; until_commit).
    specialize (H s eq_refl). unfold create_run in H. rewrite Ec in H. by rewrite H.
Qed.
Lemma invoke_triple run input :
  triple (λ st, at_run run st ∧ requested run (committed st.1) (aget_state (run_id run) st.2) input)
    (invoke graph (run_id run) input) (λ result st, at_run run st ∧ storable run result st) (at_run run).
Proof.
  intros [s t] [Ha Hq]. destruct (invoke_step run input s t Ha Hq) as (r & s' & t' & -> & Ha' & _ & Hst).
  destruct (call_result r) as [result|e]; [|done]. split; [done|by apply Hst].
Qed.

(** Storing a result, from an unsettled row; [F] is what else is known. *)
Lemma persist_stored (F : sthreads → Prop) run result keep pl :
  unsettled run →
  triple (λ st, (at_run run st ∧ storable run result st) ∧ F st)
    (in_session
      (match interrupt_of result with
       | Some p => persist_run_state "awaiting_review" (Some "awaiting_review") (Some "not_ready") (pl p) keep run
       | None => persist_run_state (result_str "status" "complete" result)
                   (Some (result_processing result)) (Some (result_posting result)) None true run
       end))
    (λ _ st, calm st) (λ st, at_run run st ∧ F st).
Proof.
  intros Hu. destruct (interrupt_of result) as [p|] eqn:Hi.
  - eapply triple_conseq; [apply (persist_triple _ _ _ _ _ run (λ st, (at_run run st ∧ storable run result st) ∧ F st))|..].
    + by intros st [[? _] _].
    + intros st [[Ha _] _]. apply plain_row; auto.
    + intros st _ Ha. by eapply unsettled_not_awaiting.
    + intros st [[_ [[_ Hr]|[[_ Hn] _]]] _] _; [exact Hr|congruence].
    + done.
    + by intros x st (_ & [? _] & _).
    + by intros st [[? _] ?].
  - eapply triple_conseq; [apply (persist_triple _ _ _ _ _ run
      (λ st, (at_run run st ∧ storable run result st) ∧ F st))|..].
    + by intros st [[? _] _].
    + intros st [[Ha Hst] _] Hck. by eapply storable_row.
    + intros st _ Ha. by eapply unsettled_not_awaiting.
    + intros st [[_ [[[p Hp] _]|[[(_ & _ & Hpr & _) _] _]]] _] Haw; [congruence|].
      by destruct Hpr as [Hpr|Hpr]; rewrite Hpr in Haw.
    + done.
    + by intros x st (_ & [? _] & _).
    + by intros st [[? _] ?].
Qed.

Lemma run_workflow_safe bytes name : triple calm (run_workflow graph bytes name) (λ _, safe) safe.
Proof.
  unfold run_workflow. destruct (detect_file_type name) as [ft|e]; [|by apply triple_ret, calm_safe].
  eapply triple_bind.
  { apply (in_session_triple _ _ (λ run st, at_run run st ∧ unsettled run
      ∧ aget_state (run_id run) st.2 = mk_snapshot [] [])). intros t. exact (create_run_triple name t). }
  intros run. cbv zeta. set (start := initial_state _ _ _ _).
  eapply triple_bind; [apply (triple_try _ _ _ (λ r st, match r with inl _ => safe st
    | inr result => unsettled run ∧ at_run run st ∧ storable run result st end)
    (λ st, unsettled run ∧ at_run run st))|].
  - eapply triple_bind; [|intros result; apply triple_ret; intros st Hs; exact Hs].
    intros [s t] (Ha & Hu & Hfresh). pose proof (invoke_triple run (Start start) (s, t)) as H.
    cbn [fst snd] in H, Hfresh. destruct (invoke _ _ _ (s, t)) as [[result|e] st'].
    all: split; [done|]; apply H; split; [done|]; rewrite Hfresh; by apply rq_start.
  - by intros st [_ [[_ ?] _]].
  - intros e k. destruct (isinstance_exn e ExtractionError); [|destruct (is_Exception e); [|done]];
      intros [= <-]; apply triple_fact; intros Hu;
      (eapply triple_bind; [unfold persist_failure; eapply triple_conseq;
         [apply plain_triple; [exact Hu|by left|done]|done|intros ? ? H; exact H|apply calm_safe]|]);
      intros x.
    + apply triple_ret. by intros st [_ [[_ ?] _]].
    + apply triple_raise. by intros st [_ [[_ ?] _]].
  - intros [error|result]; [by apply triple_ret|]. apply triple_fact. intros Hu.
    eapply triple_bind; [eapply triple_conseq; [apply (persist_stored (λ _, True) run result false Some Hu)|..]; [done| |]|].
    + intros x st Hst. exact Hst.
    + by intros st [[[_ ?] _] _].
    + intros x st Hst. unfold view, in_session, select, gets. destruct st as [s t]. by destruct Hst.
Qed.
(** ** The decision *)

Definition looked_up (rid : string) (found : option WorkflowRun * option ReviewDecision) (st : sthreads)
  : Prop :=
  calm st ∧ match found with
            | (Some run, dec) => run ∈ workflow_runs (committed st.1) ∧ run_id run = rid
                ∧ (dec = None → ∀ x, x ∈ review_decisions (committed st.1) → decision_run_id x ≠ rid)
            | (None, _) => True
            end.

Lemma locked_run_triple rid t :
  triple (λ s, calm (s, t)) (locked_run rid) (λ found s, looked_up rid found (s, t)) (λ s, safe (s, t)).
Proof.
  intros s [Hc I]. unfold safe in *. cbn [fst snd] in *. unfold locked_run. rewrite bind_unfold.
  unfold select, gets. rewrite bind_unfold.
  assert (Hin : ∀ run, runs_with rid (working s) = [run] → run ∈ workflow_runs (working s) ∧ run_id run = rid).
  { intros run Er. assert (H : run ∈ runs_with rid (working s)) by (rewrite Er; left).
    unfold runs_with in H. apply elem_of_where in H as [? ?%String.eqb_eq]. done. }
  destruct (runs_with rid (working s)) as [|run [|]]; cbn [scalar_one_or_none mret M_ret raise]; [done| |done].
  destruct (Hin run eq_refl) as [Hr Hid]. rewrite bind_unfold. cbn [gets]. rewrite bind_unfold.
  destruct (decisions_of rid (working s)) as [|dec [|]] eqn:Ed; cbn [scalar_one_or_none mret M_ret raise];
    [| |done]; (split; [by split|]); cbn [fst]; rewrite Hc; (split; [done|]); (split; [done|]); [|done].
  intros _ x Hx Hk. assert (Hx' : x ∈ decisions_of rid (working s)).
  { unfold decisions_of. apply elem_of_where. split; [done|]. by apply String.eqb_eq. }
  rewrite Ed in Hx'. by apply not_elem_of_nil in Hx'.
Qed.

(** The tables with a recorded decision. *)
Lemma decided_tables d t run dec f :
  sys_inv d t → (∀ l, l ⊆ f l) → run ∈ workflow_runs d → decision_run_id dec = run_id run →
  thread_decision (run_id run) t = Some (disposition dec) → in_strs (disposition dec) ["approved"; "rejected"] = true →
  sys_inv (on_audit_logs f (with_row (decided_run (disposition dec) run)
             (on_review_decisions (λ l, l ++ [dec]) d))) t.
Proof.
  intros I Hf Hin Hid Ht Hd.
  assert (I1 : sys_inv (on_review_decisions (λ l, l ++ [dec]) d) t)
    by (apply sys_new_decision; [done|by rewrite Hid]).
  assert (Hdec : has_decision (run_id run) (disposition dec) (on_review_decisions (λ l, l ++ [dec]) d)).
  { exists dec. split; [|done]. cbn. apply elem_of_app. right. apply list_elem_of_here. }
  apply (sys_same (with_row (decided_run (disposition dec) run) (on_review_decisions (λ l, l ++ [dec]) d)));
    [|done|apply Hf].
  apply (sys_with_row _ t run); [done|done|done|done| | |done].
  - split; [by apply ck_decided|]. right. split; [done|]. left. by exists (disposition dec).
  - intros _. right. by exists (disposition dec).
Qed.

(** What [record_decision] commits: all of it, or nothing. *)
Lemma record_decision_commits run dd s :
  let '(r, s') := record_decision run (run_id run) dd s in
  match r with
  | Ok o => ∃ dec f, o = Decided (decided_run dd run) dec false
      ∧ disposition dec = dd ∧ decision_run_id dec = run_id run ∧ (∀ l, l ⊆ f l)
      ∧ committed s' = on_audit_logs f (with_row (decided_run dd run)
                         (on_review_decisions (λ l, l ++ [dec]) (working s)))
  | Raise _ => committed s' = committed s
  end.
Proof.
  destruct (record_decision run (run_id run) dd s) as [[x|e] s'] eqn:Er; unfold record_decision in Er.
  - apply bind_ok_inv in Er as (dec & s1 & Hd & Er). apply bind_ok_inv in Er as ([] & s2 & Hs & Er).
    apply bind_ok_inv in Er as ([] & s3 & Hl & Er). apply bind_ok_inv in Er as ([] & s4 & Hcm & Er).
    injection Er as <- <-. injection Hcm as <-. cbn [committed].
    assert (Edec : disposition dec = dd ∧ decision_run_id dec = run_id run
                   ∧ working s1 = on_review_decisions (λ l, l ++ [dec]) (working s)).
    { revert Hd. session_unfold. intros Hd. by repeat (case_match; simplify_eq/=; try done). }
    destruct Edec as (Ed & Eid & E1).
    unfold save_run, insist in Hs. rewrite bind_unfold in Hs. destruct (ck_workflow_run _); [|done].
    injection Hs as Hs. assert (E2 : working s2 = with_row (decided_run dd run) (working s1)) by (by rewrite <- Hs).
    assert (E3 : ∃ f, (∀ l, l ⊆ f l) ∧ working s3 = on_audit_logs f (working s2)).
    { revert Hl. unfold log_audit_event. rewrite bind_unfold. unfold select, gets.
      destruct (existsb _ _); [intros [= <-]; exists (λ l, l); by destruct (working s2)|].
      session_unfold. intros Hl. repeat (case_match; simplify_eq/=; try done). eexists. split; [|done].
      set_solver. }
    destruct E3 as (f & Hf & ->). exists dec, f. by rewrite E2, E1.
  - assert (H : triple (uncommitted (committed s)) (record_decision run (run_id run) dd) (λ _ _, True)
                  (uncommitted (committed s))) by (unfold record_decision; until_commit).
    specialize (H s eq_refl). unfold record_decision in H. rewrite Er in H. exact H.
Qed.

Lemma record_decision_triple run dd t :
  in_strs dd ["approved"; "rejected"] = true → thread_decision (run_id run) t = Some dd →
  triple (λ s, at_run run (s, t)) (record_decision run (run_id run) dd) (λ _ s, safe (s, t)) (λ s, safe (s, t)).
Proof.
  intros Hdd Ht s [[Hc I] Hin]. unfold safe in *. cbn [fst snd] in *.
  pose proof (record_decision_commits run dd s) as H.
  destruct (record_decision run (run_id run) dd s) as [[x|e] s']; [|by rewrite H].
  destruct H as (dec & f & _ & Ed & Eid & Hf & ->). rewrite <- Hc, <- Ed.
  apply decided_tables; [done|done|done|done|by rewrite Ed|by rewrite Ed].
Qed.

Lemma finish_review_triple run dd result :
  in_strs dd ["approved"; "rejected"] = true →
  triple (λ st, at_run run st ∧ (interrupt_of result = None → final_decision result = Some dd →
                                 thread_decision (run_id run) st.2 = Some dd))
    (finish_review run (run_id run) dd result) (λ _, safe) safe.
Proof.
  intros Hdd. unfold finish_review. destruct (interrupt_of result); [by apply triple_ret; intros st [[[_ ?] _] _]|].
  destruct (sql_eq _ _ dd) eqn:Eh; cbn [negb]; [|by apply triple_ret; intros st [[[_ ?] _] _]].
  apply in_session_triple. intros t s [Ha Ht]. cbn [snd] in Ht.
  apply (record_decision_triple run dd t Hdd); [|done]. apply Ht; [done|].
  unfold final_decision, sql_eq in *. destruct (as_str _) as [x|]; [|done].
  apply String.eqb_eq in Eh as ->. by rewrite Hdd.
Qed.

Lemma decide_review_safe rid dd :
  in_strs dd ["approved"; "rejected"] = true → triple calm (decide_review graph rid dd) (λ _, safe) safe.
Proof.
  intros Hdd. unfold decide_review.
  apply (triple_bind _ _ _ (looked_up rid)); [apply in_session_triple; exact (locked_run_triple rid)|].
  intros [[run|] [dec|]]; [| |by apply triple_ret; intros st [[_ ?] _]..].
  - destruct (negb _); [by apply triple_ret; intros st [[_ ?] _]|].
    eapply (triple_bind _ _ _ (λ _, safe)); [|intros ?; by apply triple_ret].
    intros [s t] [[Hc I] _]. unfold in_session. cbn. unfold safe in *. cbn in *. by rewrite <- Hc.
  - destruct (String.eqb_spec (processing_status_of run) "awaiting_review") as [Haw|]; cbn [negb];
      [|by apply triple_ret; intros st [[_ ?] _]].
    intros [s t] [[Hc I] (Hin & <- & Hno)]. specialize (Hno eq_refl). cbn [fst snd] in *.
    assert (Ha : at_run run (s, t)) by (split; [by split|done]).
    assert (Hp : processing_status run = "awaiting_review") by (by eapply awaiting_status; [apply I|]).
    rewrite bind_unfold. unfold get_state at 1, gets. cbn [snd].
    destruct (final_decision (values (aget_state (run_id run) t))) as [d0|] eqn:Ef.
    + destruct (String.eqb_spec d0 dd) as [->|]; cbn [negb]; [|exact I].
      by apply (finish_review_triple run dd (values (aget_state (run_id run) t)) Hdd).
    + destruct (is_nil _ || is_nil (next _)) eqn:En; [exact I|]. apply Bool.orb_false_iff in En as [_ En].
      assert (Hq : requested run (committed s) (aget_state (run_id run) t) (Resume dd)).
      { apply rq_resume; try done. by destruct (next _). }
      rewrite bind_unfold. pose proof (invoke_triple run (Resume dd) (s, t) (conj Ha Hq)) as H.
      destruct (invoke _ _ _ (s, t)) as [[result|e] st']; [|by destruct H as [[_ ?] _]].
      destruct H as [Ha' Hst]. apply (finish_review_triple run dd result Hdd). split; [done|].
      intros Hi Hf. destruct Hst as [[[p Hpi] _]|[_ Ht]]; [congruence|]. by rewrite Ht.
Qed.

Lemma resume_workflow_safe rid dd :
  in_strs dd ["approved"; "rejected"] = true → triple calm (resume_workflow graph rid dd) (λ _, safe) safe.
Proof.
  intros Hdd. unfold resume_workflow. eapply triple_bind; [by apply decide_review_safe|]. intros [c| |run dec b].
  - eapply (triple_bind _ _ _ (λ _, safe)); [|intros ?; by apply triple_ret]. by intros [s t].
  - by apply triple_ret.
  - by intros [s t].
Qed.
End Handlers.

(** The rows of a new job are committed together. *)
Lemma insert_rows_uncommitted job d :
  triple (uncommitted d)
    (doc ← insert_document (new_job_document job);
     run ← insert_run (new_job_run job (doc_id doc));
     _ ← commit;
     mret (doc, run)) (λ _ _, True) (uncommitted d).
Proof. until_commit. Qed.
