(* ===== verification/SystemDelivery.v ===== *)
(** * The worker keeps the invariant

    A delivery, from the rows of its job to its end, keeps the states of [sys_inv] on every
    branch.  What makes the clause that gives a job up safe: a run that was settled or waits
    for a reviewer is answered from its row, so that an exception only ever leaves the row of
    a run that is still open, and [mark_job_failed] finds no other run. *)

From S2P Require Import Prelude PyText LoadNumbers DateTime PyFloat Json Database MissingDocs.
From S2P Require Import Shipments Reconciliation SlaScanner Extraction Workflow WorkflowSafety.
From S2P Require Import Frame BusinessState WorkflowRoutes InvoiceJob Redis InvoiceQueue QueueRoutes.
From S2P Require Import InvoiceWorker Notifier RateConfirmationRoutes ResultFrame ThreadStages.
From S2P Require Import SystemInvariant SystemHandlers.
From Stdlib Require Import Ascii.
Local Open Scope string_scope.
Local Open Scope list_scope.
Local Open Scope nat_scope.

(** ** The run of a job *)

(** The run that is found for every document with the key. *)
Definition owns (key : string) (run : WorkflowRun) (d : database) : Prop :=
  run ∈ workflow_runs d
  ∧ ∀ i, keyed d i key → head (where_ (λ r, Z.eqb (document_id r) i) (workflow_runs d)) = Some run.

(** The run that [mark_job_failed] would find does not wait for a reviewer. *)
Definition open_job (key : string) (d : database) : Prop :=
  ∀ doc run, documents_with_key key d = [doc] →
    head (where_ (λ r, Z.eqb (document_id r) (doc_id doc)) (workflow_runs d)) = Some run →
    processing_status run ≠ "awaiting_review".

Lemma keyed_with_key key d doc : doc ∈ documents_with_key key d → keyed d (doc_id doc) key.
Proof.
  unfold documents_with_key. intros [Hd Hk]%elem_of_where. unfold keyed, sql_eq in *.
  apply list_elem_of_fmap. exists doc. split; [|done]. unfold doc_key.
  destruct (source_idempotency_key doc) as [k|]; [|done]. by apply String.eqb_eq in Hk as ->.
Qed.

Lemma with_key_keyed key d i : keyed d i key → ∃ doc, doc ∈ documents_with_key key d ∧ doc_id doc = i.
Proof.
  intros (doc & Ek & Hd)%list_elem_of_fmap. injection Ek as Ei Ek. exists doc. split; [|done].
  unfold documents_with_key. apply elem_of_where. split; [done|]. rewrite <- Ek. cbn. apply String.eqb_refl.
Qed.

Lemma owns_open key run d : owns key run d → unsettled run → open_job key d.
Proof.
  intros [_ Ho] Hu doc run' Hdoc Hrun. assert (Hd : doc ∈ documents_with_key key d) by (rewrite Hdoc; left).
  apply keyed_with_key, Ho in Hd. rewrite Hd in Hrun. injection Hrun as <-. by apply unsettled_cases.
Qed.

Lemma owns_kept key run o d d' : kept o d d' → owns key run d → owns key run d'.
Proof.
  intros K [Hin Ho]. unfold owns. rewrite (kt_runs _ _ _ K). split; [done|].
  intros i Hi. by apply Ho, (kt_keyed _ _ _ K).
Qed.

Lemma head_update {A} (p q : A → bool) (x x' : A) (l : list A) :
  head (where_ p l) = Some x → (∀ y, y ∈ l → q y = true → y = x) → q x = true → p x' = true → p x = true →
  head (where_ p (update_where q (λ _, x') l)) = Some x'.
Proof.
  intros Hh Hq Hx Hp' Hp. unfold update_where. revert Hh. induction l as [|y l IH]; [done|]. cbn.
  destruct (q y) eqn:Eq.
  - rewrite Hp'. done.
  - destruct (p y) eqn:Ey; cbn.
    + intros [= ->]. congruence.
    + intros Hh. apply IH; [|done]. intros z Hz. apply Hq. by right.
Qed.

Lemma owns_row key run run' d :
  NoDup (run_id <$> workflow_runs d) → run_id run' = run_id run → document_id run' = document_id run →
  owns key run d → owns key run' (with_row run' d).
Proof.
  intros Hnd Hid Hdoc [Hin Ho]. unfold owns, with_row. cbn. split.
  - apply elem_of_update_where. exists run. by rewrite Hid, String.eqb_refl.
  - intros i Hi. specialize (Ho i Hi).
    assert (Hi' : document_id run = i) by (apply head_Some_elem_of, elem_of_where in Ho as [_ ?%Z.eqb_eq]; done).
    apply (head_update _ _ run); [done| | | |].
    + intros y Hy Ey%String.eqb_eq. apply (NoDup_fmap_inj run_id (workflow_runs d)); try done. congruence.
    + by rewrite Hid, String.eqb_refl.
    + rewrite Hdoc. by apply Z.eqb_eq.
    + by apply Z.eqb_eq.
Qed.

Section Delivery.
Context {R : Redis} `{JC : JobCodec} `{E : GraphEngine} (model_fields : schema → json → option coerced)
        (triage_fields : json → option (string * string * float))
        (replies : claude_replies) (sla_hours : Z).

Abbreviation graph := (build_state_graph model_fields triage_fields replies sla_hours).
Abbreviation sthreads := (session * threads)%type.

(** A run of the job, in its table. *)
Definition job_run (key : string) (run : WorkflowRun) (st : sthreads) : Prop :=
  at_run run st ∧ owns key run (committed st.1).

(** What an exception leaves: the job can still be given up. *)
Definition abandoned (key : string) (st : sthreads) : Prop := safe st ∧ open_job key (committed st.1).

Lemma job_run_abandoned key run st : job_run key run st → unsettled run → abandoned key st.
Proof. intros [[[_ ?] _] Ho] Hu. split; [done|by apply (owns_open key run)]. Qed.

Lemma no_document_open key d : documents_with_key key d = [] → open_job key d.
Proof. by intros Hn doc run; rewrite Hn. Qed.

(** *** The rows *)

(** The rows that are inserted for a new job. *)
Lemma insert_job_rows job s t :
  calm (s, t) → documents_with_key (idempotency_key job) (committed s) = [] →
  match (doc ← insert_document (new_job_document job);
         run ← insert_run (new_job_run job (doc_id doc));
         _ ← commit;
         mret (doc, run)) s with
  | (Ok (_, run), s') => job_run (idempotency_key job) run (s', t)
  | (Raise _, s') => committed s' = committed s
  end.
Proof.
  intros [Hc I] Hno. unfold safe in I. cbn [fst snd] in *.
  destruct ((doc ← insert_document _; _) s) as [[[doc run]|e] s'] eqn:Ec.
  - apply bind_ok_inv in Ec as (doc' & s1 & Hd & Ec). apply bind_ok_inv in Ec as (run' & s2 & Hr & Ec).
    apply bind_ok_inv in Ec as (tt' & s3 & Hcm & Ec). injection Ec as -> -> <-. injection Hcm as _ <-.
    apply insert_document_new in Hd as (Hnew & Ed & _ & Hdw); [|done].
    apply insert_run_ok in Hr as (Er & Hrno & _ & Hrw & _). rewrite Hdw in Hrw, Hrno. rewrite <- Hc in *.
    assert (Hdoc : ∀ r, r ∈ workflow_runs (committed s) → document_id r ≠ doc_id doc).
    { intros r Hr E0. apply Hnew. rewrite <- E0. by apply (si_documents _ _ I). }
    split; [split; [split; [done|]|]|split]; unfold safe; cbn [fst snd committed]; rewrite Hrw.
    + apply sys_new_run; try done; rewrite ?Er; try done. intros key. rewrite Ed. intros [= <-].
      split; [done|]. intros i (x & Hx & _)%with_key_keyed. rewrite Hno in Hx. by apply elem_of_nil in Hx.
    + cbn. apply elem_of_app. right. apply list_elem_of_here.
    + cbn. apply elem_of_app. right. apply list_elem_of_here.
    + intros i (x & Hx & <-)%with_key_keyed. unfold documents_with_key in Hx. cbn in Hx.
      apply elem_of_where in Hx as [Hx Hk]. apply elem_of_app in Hx as [Hx|Hx%list_elem_of_singleton].
      * assert (Hx' : x ∈ documents_with_key (idempotency_key job) (committed s)) by (by apply elem_of_where).
        rewrite Hno in Hx'. by apply not_elem_of_nil in Hx'.
      * cbn. unfold where_. rewrite List.filter_app. fold (where_ (λ r, Z.eqb (document_id r) (doc_id x)) (workflow_runs (committed s))).
        rewrite filter_none; [cbn; by rewrite Hx, Er, Z.eqb_refl|].
        intros r Hr. apply Z.eqb_neq. rewrite Hx. by apply Hdoc.
  - pose proof (insert_rows_uncommitted job (committed s) s eq_refl) as H. by rewrite Ec in H.
Qed.
(** The document of the job and the run that is found for it. *)
Lemma found_job_run key doc run st :
  calm st → documents_with_key key (committed st.1) = [doc] →
  head (where_ (λ r, Z.eqb (document_id r) (doc_id doc)) (workflow_runs (committed st.1))) = Some run →
  job_run key run st.
Proof.
  intros Hc Hd Hr. assert (Hin : run ∈ workflow_runs (committed st.1)).
  { apply head_Some_elem_of, elem_of_where in Hr as [? _]. done. }
  split; [by split|]. split; [done|]. intros i (x & Hx & <-)%with_key_keyed. rewrite Hd in Hx.
  by apply list_elem_of_singleton in Hx as ->.
Qed.

Lemma get_or_create_triple job t :
  triple (λ s, calm (s, t)) (get_or_create_job_records job)
    (λ rows s, job_run (idempotency_key job) rows.2 (s, t)) (λ s, abandoned (idempotency_key job) (s, t)).
Proof.
  set (key := idempotency_key job). intros s Hs. pose proof Hs as [Hc I]. unfold safe in I. cbn [fst snd] in *.
  unfold get_or_create_job_records. rewrite bind_unfold. unfold select at 1, gets. fold key. rewrite <- Hc.
  destruct (documents_with_key key (committed s)) as [|doc [|doc2 l]] eqn:Ed; rewrite bind_unfold;
    cbn [scalar_one_or_none mret M_ret raise].
  - unfold try_except. pose proof (insert_job_rows job s t Hs Ed) as Hrows. fold key in Hrows.
    destruct ((doc ← insert_document _; _) s) as [[[doc run]|e] s']; [exact Hrows|].
    assert (Ha : abandoned key (s', t)).
    { split; unfold safe; cbn [fst snd]; rewrite Hrows; [done|by apply no_document_open]. }
    destruct (isinstance_exn e IntegrityError); [|exact Ha].
    rewrite bind_unfold. unfold rollback, modify. rewrite bind_unfold. unfold select, gets. cbn [working].
    rewrite bind_unfold. fold key. rewrite Hrows, Ed. cbn [scalar_one raise].
    split; unfold safe; cbn [fst snd committed]; [done|by apply no_document_open].
  - rewrite bind_unfold. unfold find_run_for_document, select, gets. cbn. rewrite <- Hc.
    destruct (head _) as [run|] eqn:Er; cbn.
    + by apply (found_job_run key doc).
    + split; [done|]. intros doc' run' Hd Hr. cbn [fst] in Hd. rewrite Ed in Hd. injection Hd as <-. cbn in Hr.
      congruence.
  - split; [done|]. intros doc' run' Hd. cbn [fst] in Hd. rewrite Ed in Hd. done.
Qed.

(** ** A job that is given up *)

Lemma mark_job_failed_triple job reason t :
  triple (λ s, calm (s, t) ∧ open_job (idempotency_key job) (committed s)) (mark_job_failed job reason)
    (λ _ s, safe (s, t)) (λ s, safe (s, t)).
Proof.
  intros s [[Hc I] Ho]. unfold safe in *. cbn [fst snd] in *. unfold mark_job_failed.
  rewrite bind_unfold. unfold select at 1, gets. rewrite bind_unfold. rewrite <- Hc.
  destruct (documents_with_key _ _) as [|doc [|]] eqn:Ed; cbn [scalar_one_or_none mret M_ret raise]; try done.
  rewrite bind_unfold. unfold find_run_for_document, select, gets. cbn. rewrite <- Hc.
  destruct (head _) as [run|] eqn:Er; [|done].
  specialize (Ho doc run Ed Er). apply head_Some_elem_of, elem_of_where in Er as [Hin _].
  cbv zeta. unfold save_run, insist. rewrite !bind_unfold.
  set (run' := set_interrupt_payload _ _). destruct (ck_workflow_run run') eqn:Hck; [|done].
  cbn [mret M_ret modify commit committed snd fst on_working working].
  change (sys_inv (with_row run' (working s)) t). rewrite <- Hc.
  apply (sys_with_row _ t run run'); [done|done|done|done| |done|done].
  split; [done|by left].
Qed.
(** ** The workflow of a job *)

(** A start that the thread of the run can take. *)
Definition starts (rid : string) (start : dict) : Prop :=
  dict_get "run_id" (merge_state [] start) = Some (JStr rid) ∧ unasked (merge_state [] start)
  ∧ dict_get interrupt_key (merge_state [] start) = None.

Lemma graph_result_triple key run start :
  unsettled run → starts (run_id run) start →
  triple (job_run key run) (graph_result graph (run_id run) start)
    (λ result st, (at_run run st ∧ storable run result st) ∧ job_run key run st) (job_run key run).
Proof.
  intros Hu (Hrid & Hun & Hch) [s t] [Ha Ho]. cbn [fst] in Ho.
  unfold graph_result. rewrite bind_unfold. unfold get_state, gets. cbn [snd].
  destruct (negb (is_nil (values (aget_state (run_id run) t))) && is_nil (next (aget_state (run_id run) t))) eqn:Ef.
  - apply Bool.andb_true_iff in Ef as [Hv Hn]. split; [|by split]. split; [done|]. right. split; [|done].
    destruct Ha as [[_ I] _]. split; [|apply interrupt_of_none, (si_channel _ _ I)].
    destruct (si_threads _ _ I (run_id run)) as [H|[(n & H & _)|[_ H]]]; [| |exact H].
    + cbn [snd] in H. by rewrite H in Hv.
    + cbn [snd] in H. by rewrite H in Hn.
  - set (input := if is_nil (next _) then Start start else Continue).
    assert (Hq : requested run (committed s) (aget_state (run_id run) t) input).
    { unfold input. destruct (next (aget_state (run_id run) t)) as [|n l] eqn:En; cbn [is_nil] in *.
      - rewrite Bool.andb_true_r in Ef. apply rq_start; try done. by destruct (values _).
      - apply rq_continue; [done|by rewrite En]. }
    destruct (invoke_step model_fields triage_fields replies sla_hours run input s t Ha Hq)
      as (r & s' & t' & -> & Ha' & K & Hst).
    assert (Hj : job_run key run (s', t')) by (split; [done|by apply (owns_kept key run _ _ _ K)]).
    destruct (call_result r) as [result|e]; [|done]. split; [|done]. split; [done|]. by apply Hst.
Qed.

(** A row of the job that stays open. *)
Lemma persist_open key run sv ps po pl keep (run' := persisted_run sv ps po pl keep run) :
  unsettled run → po = None ∨ po = Some "not_ready" → processing_status run' ≠ "awaiting_review" →
  triple (job_run key run) (in_session (persist_run_state sv ps po pl keep run))
    (λ x st, x = run' ∧ job_run key run' st) (abandoned key).
Proof.
  intros Hu Hpo Hnot. eapply triple_conseq; [apply (persist_triple _ _ _ _ _ run (job_run key run))|..]; [by intros st [? _]|..].
  - intros st [Ha _]. by apply plain_row.
  - intros st _ Ha. by eapply unsettled_not_awaiting.
  - done.
  - done.
  - intros x st (-> & Ha & s & t & [[[_ I] _] Ho] & Hd & _). split; [done|]. split; [done|]. rewrite Hd.
    apply (owns_row key run); [apply (si_runs _ _ I)|apply persisted_run_id| |done].
    unfold persisted_run. by destruct po, keep.
  - intros st Hst. by apply (job_run_abandoned key run).
Qed.

Lemma drive_job_triple job replay run start (key := idempotency_key job) :
  unsettled run → starts (run_id run) start →
  triple (job_run key run) (drive_job graph job replay (run_id run) start) (λ _, safe) (abandoned key).
Proof.
  intros Hu Hst. unfold drive_job. intros [s t] Hs. rewrite bind_unfold. unfold in_session at 1, select, gets.
  cbn [fst snd]. rewrite bind_unfold. pose proof Hs as [[[Hc I] Hin] Ho]. unfold safe in I. cbn [fst snd] in *.
  rewrite <- Hc. unfold runs_with. rewrite (where_run run _ (si_runs _ _ I) Hin). cbn [scalar_one mret M_ret].
  revert Hs. generalize (s, t). clear s t Hc I Hin Ho. refine (_ : triple _ _ _ _).
  eapply (triple_bind _ _ _ (λ run1 st, (unsettled run1 ∧ run_id run1 = run_id run) ∧ job_run key run1 st)).
  { destruct (replay && _).
    - eapply triple_conseq; [apply (persist_open key run _ _ _ _ _ Hu); auto|done| |done].
      intros x st [-> H]. split; [|exact H]. split; [done|apply persisted_run_id].
    - intros [s t] Hs. by split. }
  intros run1. apply triple_fact. intros [Hu1 Hid1]. rewrite <- Hid1 in Hst |- *.
  eapply triple_bind; [apply (triple_try _ _ _ _ (job_run key run1) (abandoned key)
    (graph_result_triple key run1 start Hu1 Hst))|].
  - intros st H. by apply (job_run_abandoned key run1).
  - intros e k. destruct (is_Exception e); [|done]. intros [= <-].
    eapply triple_bind; [apply (persist_open key run1 _ _ _ _ _ Hu1); auto|]. intros x.
    apply triple_raise. intros st [_ H]. by apply (job_run_abandoned key _ _ H).
  - intros result. eapply triple_bind; [|intros x; apply triple_ret; intros st H; exact H].
    eapply triple_conseq; [apply (persist_stored (job_run key run1) run1 result false
      (λ p, Some (with_run_payload p run1)) Hu1)|done|by intros ? ? [_ ?]|].
    intros st [_ H]. by apply (job_run_abandoned key run1).
Qed.
Abbreviation wthreads := (world * threads)%type.

(** The same of a world. *)
Definition db_safe (wt : wthreads) : Prop := sys_inv (w_db wt.1) wt.2.
Definition db_abandoned (key : string) (wt : wthreads) : Prop := db_safe wt ∧ open_job key (w_db wt.1).
Definition db_job_run (key : string) (run : WorkflowRun) (wt : wthreads) : Prop :=
  job_run key run (session_of wt.1, wt.2).

Lemma with_session_triple {A} (P : wthreads → Prop) (m : M (session * threads) A) Q X
    (Qs : A → sthreads → Prop) Ps Xs :
  triple Ps m Qs Xs → (∀ w t, P (w, t) → Ps (session_of w, t)) →
  (∀ a s t, Qs a (s, t) → Q a (world_of s, t)) → (∀ s t, Xs (s, t) → X (world_of s, t)) →
  triple P (with_session m) Q X.
Proof.
  intros Hm HP HQ HX [w t] Hw. unfold with_session. cbn [fst snd]. specialize (Hm _ (HP w t Hw)).
  destruct (m (session_of w, t)) as [[a|e] [s' t']]; auto.
Qed.

Lemma db_safe_calm w t : db_safe (w, t) → calm (session_of w, t).
Proof. by split. Qed.

Lemma initial_starts rid did bytes name : starts rid (initial_state rid did bytes name).
Proof. split; [by rewrite initial_get|]. unfold unasked, sget. by rewrite initial_get. Qed.

Lemma job_initial_starts rid did bytes job : starts rid (job_initial_state rid did bytes job).
Proof.
  unfold starts, unasked, sget, job_initial_state, initial_state. cbn [dict_set String.eqb Ascii.eqb Bool.eqb].
  split; by state_get.
Qed.

Lemma run_workflow_for_job_triple job replay (key := idempotency_key job) :
  triple db_safe (run_workflow_for_job graph job replay) (λ _, db_safe) (db_abandoned key).
Proof.
  unfold run_workflow_for_job.
  eapply (triple_bind _ _ _ (λ rows, db_job_run key rows.2)).
  { apply (with_session_triple _ _ _ _ (λ rows, job_run key rows.2) calm (abandoned key));
      [apply in_session_triple; exact (get_or_create_triple job)|exact db_safe_calm|..].
    - intros [doc run] s t [[[Hc I] Hin] Ho]. split; [split|]; [by split|done..].
    - intros s t H. exact H. }
  intros [doc run]. cbn [snd]. cbv zeta.
  assert (Hopen : unsettled run → ∀ wt, db_job_run key run wt → db_abandoned key wt).
  { intros Hu wt H. by apply (job_run_abandoned key run (session_of wt.1, wt.2)). }
  destruct (String.eqb (processing_status run) "failed" && negb replay) eqn:Ef.
  { apply triple_raise, Hopen, unsettled_cases. by apply Bool.andb_true_iff in Ef as [->%String.eqb_eq _]. }
  destruct (in_strs (processing_status run) _) eqn:Eu; [by apply triple_ret; intros wt [[[_ ?] _] _]|].
  eapply triple_bind; [apply triple_of_res, Hopen, Eu|]. intros bytes. apply triple_fact. intros _.
  eapply with_session_triple; [apply (drive_job_triple job replay run _ Eu), job_initial_starts|..]; [done|done|].
  intros s t H. exact H.
Qed.

(** ** A delivery *)

(** A computation of the worker, by what it does to the tables and the threads. *)
Lemma on_queue_triple {A} (m : M rdb A) (P : wthreads → Prop) :
  triple (λ w, P (wk_db w)) (on_queue m) (λ _ w, P (wk_db w)) (λ w, P (wk_db w)).
Proof. intros [q d] H. unfold on_queue. cbn [wk_queue]. by destruct (m q) as [[a|e] q']. Qed.

Lemma on_db_triple {A} (m : M wthreads A) P (Q : A → wthreads → Prop) X :
  triple P m Q X → triple (λ w, P (wk_db w)) (on_db m) (λ a w, Q a (wk_db w)) (λ w, X (wk_db w)).
Proof.
  intros Hm [q d] H. unfold on_db. cbn [wk_db] in *. specialize (Hm d H). by destruct (m d) as [[a|e] d'].
Qed.

Lemma delivery_failed_triple s d job now e :
  triple (λ w, db_abandoned (idempotency_key job) (wk_db w)) (delivery_failed s d job now e)
    (λ _ w, db_safe (wk_db w)) (λ w, db_safe (wk_db w)).
Proof.
  unfold delivery_failed. cbv zeta. destruct (INVOICE_MAX_ATTEMPTS s <=? attempt d)%Z.
  - eapply (triple_bind _ _ _ (λ _ w, db_safe (wk_db w))).
    + apply on_db_triple. eapply (with_session_triple _ _ _ _ (λ _, safe) _ safe);
        [apply (in_session_triple (λ st, calm st ∧ open_job (idempotency_key job) (committed st.1)));
         intros t; exact (mark_job_failed_triple job (reason_of e) t)|..].
      * intros w t [H Ho]. by split.
      * intros a s' t H. exact H.
      * intros s' t H. exact H.
    + intros _. eapply (triple_bind _ _ _ (λ _ w, db_safe (wk_db w))); [apply on_queue_triple|].
      intros _. by apply triple_ret.
  - eapply (triple_bind _ _ _ (λ _ w, db_safe (wk_db w))); [|intros _; by apply triple_ret].
    eapply triple_conseq; [apply (on_queue_triple _ db_safe)|..]; [by intros w [? _]|done..].
Qed.

Lemma process_delivery_safe s beats consumer now d :
  triple (λ w, db_safe (wk_db w)) (process_delivery graph s beats consumer now d)
    (λ _ w, db_safe (wk_db w)) (λ w, db_safe (wk_db w)).
Proof.
  unfold process_delivery. destruct (parse_delivery (d_fields d)) as [job|e].
  2:{ destruct (isinstance_exn e PermanentJobError); [|by apply triple_raise].
      eapply (triple_bind _ _ _ (λ _ w, db_safe (wk_db w))); [apply on_queue_triple|]. intros _. by apply triple_ret. }
  cbv zeta. eapply (triple_bind _ _ _ (λ _ w, db_safe (wk_db w))).
  { destruct (replay_context d); [apply on_queue_triple|by apply triple_ret]. }
  intros _. eapply (triple_bind _ _ _ (λ _ w, db_safe (wk_db w))).
  { intros w Hw. unfold attempted.
    pose proof (on_queue_triple (heartbeat s beats d consumer) db_safe w Hw) as H.
    by destruct (on_queue _ w) as [[a|e] w']. }
  intros beat. eapply (triple_bind _ _ _ (λ _ w, db_safe (wk_db w))).
  - intros w Hw. unfold finally.
    assert (H : triple (λ w, db_safe (wk_db w))
      (try_except (result ← on_db (run_workflow_for_job graph job
           (match replay_context d with Some _ => true | None => false end)); mret (inr result))
        (λ e, if is_Exception e then Some (x ← delivery_failed s d job now e; mret (inl x)) else None))
      (λ (_ : option summary + summary) w, db_safe (wk_db w)) (λ w, db_safe (wk_db w))).
    { eapply (triple_try _ _ _ _ (λ w, db_abandoned (idempotency_key job) (wk_db w))); [|by intros ? [? _]|].
      - eapply triple_bind; [apply on_db_triple, run_workflow_for_job_triple|]. intros x. by apply triple_ret.
      - intros e k. destruct (is_Exception e); [|done]. intros [= <-].
        eapply triple_bind; [apply delivery_failed_triple|]. intros x. by apply triple_ret. }
    specialize (H w Hw). destruct (try_except _ _ w) as [[x|e] w']; by destruct beat.
  - intros [x|result]; [by apply triple_ret|].
    eapply (triple_bind _ _ _ (λ _ w, db_safe (wk_db w))); [apply on_queue_triple|]. intros _. by apply triple_ret.
Qed.
End Delivery.
