(* ===== verification/SystemSafety.v ===== *)
(** * What the system releases

    The program as one transition system: the committed tables and the checkpoint store,
    changed by the requests, the deliveries, the scanner, the notifier and the rate
    confirmations of any number of processes, in any order.  A process may die between any
    two of its commits: after the rows of a run, before, between and after the nodes of the
    graph, and before what the graph returned is stored.  The property of the whole program
    follows from the invariant of its states: a document is ready for posting only when a
    reviewer approved it or its reconciliation passed completely. *)

From S2P Require Import Prelude PyText LoadNumbers DateTime PyFloat Json Database MissingDocs.
From S2P Require Import Shipments Reconciliation SlaScanner Extraction Workflow WorkflowSafety.
From S2P Require Import Frame BusinessState WorkflowRoutes InvoiceJob Redis InvoiceQueue QueueRoutes.
From S2P Require Import InvoiceWorker Notifier RateConfirmationRoutes ResultFrame ThreadStages.
From S2P Require Import SystemInvariant SystemHandlers SystemDelivery.
From stdpp Require Import relations.
From Stdlib Require Import Ascii.
Local Open Scope string_scope.
Local Open Scope list_scope.
Local Open Scope nat_scope.

Section System.
Context {R : Redis} `{JC : JobCodec} `{E : GraphEngine} (model_fields : schema → json → option coerced)
        (triage_fields : json → option (string * string * float)) (sla_hours : Z).

Abbreviation graph replies := (build_state_graph model_fields triage_fields replies sla_hours).
Abbreviation wthreads := (world * threads)%type.

(** A handler in a session of its own, and what it leaves. *)
Definition served {A} (m : M (session * threads) A) (wt : wthreads) : wthreads := (with_session m wt).2.

(** One step: the replies of the language model, the queue and the clock are those of the
    moment.  The last four are what a process leaves that died on the way. *)
Inductive sys_step : wthreads → wthreads → Prop :=
  | step_upload replies bytes name wt :
      sys_step wt (served (run_workflow (graph replies) bytes name) wt)
  | step_decision replies rid dd wt :
      in_strs dd ["approved"; "rejected"] = true →
      sys_step wt (served (resume_workflow (graph replies) rid dd) wt)
  | step_delivery replies qs queue beats consumer now d wt :
      sys_step wt (wk_db (process_delivery (graph replies) qs beats consumer now d (mk_worker queue wt)).2)
  | step_extract replies bytes name i w t :
      sys_step (w, t) ((run_session (extract_document model_fields replies bytes name i) w).2, t)
  | step_rate_confirmation sla c w t :
      sys_step (w, t) ((run_session (create_rate_confirmation sla c) w).2, t)
  | step_scan now sla w t : sys_step (w, t) ((claim_and_evaluate_one now sla w).2, t)
  | step_claim_event w t : sys_step (w, t) ((run_session claim_event w).2, t)
  | step_update_event i f w t : sys_step (w, t) ((run_session (update_event i f) w).2, t)
  | step_notification results w t : sys_step (w, t) ((insert_notification_record results w).2, t)
  | step_environment e w t : sys_step (w, t) (mk_world (w_db w) e, t)
  | step_new_run name wt : sys_step wt (served (in_session (create_run name)) wt)
  | step_job_rows job wt : sys_step wt (served (in_session (get_or_create_job_records job)) wt)
  | step_retrying run w t :
      run ∈ workflow_runs (w_db w) → processing_status run = "failed" →
      sys_step (w, t) (served (in_session (persist_run_state "retrying" (Some "retrying") (Some "not_ready")
                                             None true run)) (w, t))
  | step_cut replies run input name resume st sn w t w' t' :
      run ∈ workflow_runs (w_db w) → requested run (w_db w) (aget_state (run_id run) t) input →
      graph_call (graph replies) input (aget_state (run_id run) t) = Some (name, resume, st) →
      interrupted_run (graph replies) name resume st w sn w' →
      aget_state (run_id run) t' = sn → (∀ rid, rid ≠ run_id run → aget_state rid t' = aget_state rid t) →
      sys_step (w, t) (w', t').

(** ** Every step keeps the invariant *)

Lemma served_safe {A} (m : M (session * threads) A) wt :
  triple calm m (λ _, safe) safe → db_safe wt → db_safe (served m wt).
Proof.
  intros Hm. pose proof (with_session_triple db_safe m (λ _, db_safe) db_safe _ _ _ Hm db_safe_calm
    (λ _ _ _ H, H) (λ _ _ H, H)) as H. intros Hw. specialize (H wt Hw). unfold served.
  by destruct (with_session m wt) as [[a|e] wt'].
Qed.

(** A session that belongs to no run. *)
Lemma session_safe {A} (m : M session A) w t :
  preserves (holds None (w_db w) []) m → db_safe (w, t) → db_safe ((run_session m w).2, t).
Proof.
  intros Hm I. apply (sys_kept (w_db w)); [exact I|].
  apply (world_run_session None (w_db w) m Hm w). apply kept_refl, (si_results _ _ I).
Qed.

Lemma step_safe wt wt' : sys_step wt wt' → db_safe wt → db_safe wt'.
Proof.
  intros H. destruct H; intros I.
  - apply served_safe, I. apply run_workflow_safe.
  - apply served_safe, I. by apply resume_workflow_safe.
  - pose proof (process_delivery_safe model_fields triage_fields replies sla_hours qs beats consumer now d
      (mk_worker queue wt) I) as H. by destruct (process_delivery _ _ _ _ _ _ _) as [[x|e] w'].
  - apply session_safe, I. apply fine_extract_document.
  - apply session_safe, I. apply fine_create_rate_confirmation.
  - apply (sys_kept (w_db w)); [exact I|]. apply fine_claim_and_evaluate, kept_refl, (si_results _ _ I).
  - apply session_safe, I. apply fine_claim_event.
  - apply session_safe, I. apply fine_update_event.
  - apply session_safe, I. apply fine_notification.
  - exact I.
  - apply served_safe, I. eapply triple_conseq; [apply (in_session_triple calm _ (λ run st, at_run run st
      ∧ unsettled run ∧ aget_state (run_id run) st.2 = mk_snapshot [] []) safe); exact (create_run_triple name)|done| |done].
    by intros run st [[[_ ?] _] _].
  - apply served_safe, I. eapply triple_conseq; [apply (in_session_triple calm _ (λ rows,
      job_run (idempotency_key job) rows.2) (abandoned (idempotency_key job)));
      exact (get_or_create_triple job)|done|..].
    + by intros rows st [[[_ ?] _] _].
    + by intros st [? _].
  - assert (Hu : unsettled run) by (apply unsettled_cases; by rewrite H0).
    pose proof (plain_triple "retrying" (Some "retrying") (Some "not_ready") None true run Hu
      (or_intror eq_refl) ltac:(done) (session_of w, t)) as Hp.
    unfold served, with_session. cbn [fst snd].
    destruct (in_session _ (session_of w, t)) as [[x|e] [s' t']]; cbn; [apply Hp|apply Hp]; by split.
  - eapply (graph_step model_fields triage_fields replies sla_hours run input); eauto.
Qed.

(** The empty system. *)
Definition empty_system (wt : wthreads) : Prop :=
  w_db wt.1 = empty_database ∧ ∀ rid, aget_state rid wt.2 = mk_snapshot [] [].

Lemma empty_safe wt : empty_system wt → db_safe wt.
Proof.
  intros [Hd Ht]. unfold db_safe. rewrite Hd. split; cbn [empty_database workflow_runs review_decisions].
  - constructor.
  - split; cbn; [constructor|constructor|by intros r Hr%not_elem_of_nil].
  - by intros run Hr%not_elem_of_nil.
  - by intros dec Hd'%not_elem_of_nil.
  - intros rid. left. apply Ht.
  - intros rid Hne. by destruct Hne.
  - intros rid dd. unfold thread_decision. by rewrite Ht.
  - by intros run Hr%not_elem_of_nil.
  - intros rid. by rewrite Ht.
  - by intros run Hr%not_elem_of_nil.
  - by intros run key Hr%not_elem_of_nil.
  - by intros i key Hk%elem_of_nil.
Qed.

Lemma reachable_safe wt wt' : empty_system wt → rtc sys_step wt wt' → db_safe wt'.
Proof.
  intros H0 H. apply empty_safe in H0. revert H0. induction H as [|wt1 wt2 wt3 H1 _ IH]; [done|].
  intros H0. by apply IH, (step_safe wt1).
Qed.
(** A call of the graph whose result is not stored is a step: the process died after it. *)
Lemma call_step replies run input wt :
  db_safe wt → run ∈ workflow_runs (w_db wt.1) →
  requested run (w_db wt.1) (aget_state (run_id run) wt.2) input →
  sys_step wt (let '(_, t, w) := ainvoke (graph replies) (run_id run) input wt.2 wt.1 in (w, t)).
Proof.
  destruct wt as [w t]. intros I Hin Hq. cbn [fst snd] in *.
  destruct (requested_call model_fields triage_fields replies sla_hours run _ _ input Hq
    (si_threads _ _ I _)) as (name & resume & st & Hcall & _ & Hs & _).
  destruct (stage_ends model_fields triage_fields replies sla_hours _ _ _ resume st w Hs) as (r & w' & Hr).
  destruct (ainvoke_documented (graph replies) (run_id run) input t w name resume st r w' Hcall Hr)
    as (t' & Ei & Et). rewrite Ei.
  apply (step_cut replies run input name resume st (call_snapshot r)); [done|done|done| |done|].
  - by apply run_graph_interrupted in Hr.
  - intros rid Hne. rewrite <- (ainvoke_own_thread (graph replies) (run_id run) input t w) by done. by rewrite Ei.
Qed.
End System.

(** ** The theorem *)

Section Release.
Context {R : Redis} `{JC : JobCodec} `{E : GraphEngine} (model_fields : schema → json → option coerced)
        (triage_fields : json → option (string * string * float)) (sla_hours : Z).

(** C1 Nothing is released that was not approved or reconciled.  From the empty system, through any
    sequence of uploads, decisions, deliveries, extractions, rate confirmations, scans and
    notifications, any of them cut off by the death of its process between two commits: a run
    that is ready for posting is complete, and a reviewer's approval of it or a reconciliation
    result of it in which every check passed, no document is missing and no reason stands
    against it is committed; a run that is blocked was rejected; there is no other posting
    status than these and not ready. *)
Theorem system_releases_safely wt wt' run :
  empty_system wt → rtc (sys_step model_fields triage_fields sla_hours) wt wt' →
  run ∈ workflow_runs (w_db wt'.1) →
  posting_status run ∈ ["not_ready"; "ready_for_posting"; "blocked"]
  ∧ (posting_status run = "ready_for_posting" →
     processing_status run = "complete"
     ∧ (has_decision (run_id run) "approved" (w_db wt'.1) ∨ reconciled_for (run_id run) (w_db wt'.1)))
  ∧ (posting_status run = "blocked" → has_decision (run_id run) "rejected" (w_db wt'.1)).
Proof.
  intros H0 H Hin. pose proof (reachable_safe _ _ _ _ _ H0 H) as I.
  destruct (si_rows _ _ I run Hin) as [_ [Hp|(Hc & [(dd & Hd & Hp)|[Hp Hr]])]].
  - rewrite Hp. split; [set_solver|]. done.
  - assert (Hdd : dd = "approved" ∨ dd = "rejected").
    { destruct Hd as (dec & Hdec & _ & <-). pose proof (si_decisions _ _ I dec Hdec) as Ht.
      apply final_decision_get in Ht as [_ Ht]. apply in_strs_In in Ht. set_solver. }
    destruct Hdd as [-> | ->]; rewrite Hp; cbn.
    + split; [set_solver|]. split; [|done]. intros _. split; [done|by left].
    + split; [set_solver|]. split; [done|]. by intros _.
  - rewrite Hp. split; [set_solver|]. split; [|done]. intros _. split; [done|by right].
Qed.

(** C2 The tables and the checkpoints agree on what was decided.  In every such state a recorded
    decision is the decision in the checkpoint of its run; a decision in a checkpoint is
    recorded, or its run still awaits review, so that asking again records it; and no run has
    two decisions in sight: the checkpoint holds one. *)
Theorem decisions_agree_with_checkpoints wt wt' rid :
  empty_system wt → rtc (sys_step model_fields triage_fields sla_hours) wt wt' →
  (∀ dd, has_decision rid dd (w_db wt'.1) → final_decision (values (aget_state rid wt'.2)) = Some dd)
  ∧ (∀ dd, final_decision (values (aget_state rid wt'.2)) = Some dd →
       has_decision rid dd (w_db wt'.1) ∨ awaits rid (w_db wt'.1)).
Proof.
  intros H0 H. pose proof (reachable_safe _ _ _ _ _ H0 H) as I. split.
  - intros dd (dec & Hdec & <- & <-). apply (si_decisions _ _ I dec Hdec).
  - apply (si_reviewed _ _ I).
Qed.
End Release.

(** ** Witnesses *)

(** A rate confirmation, an upload whose amount differs, a decision whose process dies after
    the graph, and the same decision again. *)
Definition demo_release_graph : state_graph :=
  build_state_graph demo_fields demo_triage (demo_replies 2000) 72.

Definition demo_world : world := mk_world empty_database (counting_env 0).

Definition demo_start : world * @threads reference_engine := (demo_world, no_threads).

Definition demo_confirmed : world * @threads reference_engine :=
  ((run_session (create_rate_confirmation (hours 72)
      (mk_create "LD-1" "Acme" "Here" "There" fone "USD" 0)) demo_world).2, no_threads).

Definition demo_uploaded : world * @threads reference_engine :=
  served (run_workflow demo_release_graph (to_chars "%PDF") "invoice.pdf") demo_confirmed.

Definition the_run (wt : world * @threads reference_engine) : WorkflowRun :=
  default (mkWorkflowRun 0 "" 0 "" "" "" None 0) (head (workflow_runs (w_db wt.1))).

Definition demo_rid : string := run_id (the_run demo_uploaded).

(** The graph took the decision, and the process died. *)
Definition demo_cut : world * @threads reference_engine :=
  let '(_, t, w) := ainvoke demo_release_graph demo_rid (Resume "approved") demo_uploaded.2 demo_uploaded.1 in
  (w, t).

Definition demo_released : world * @threads reference_engine :=
  served (resume_workflow demo_release_graph demo_rid "approved") demo_cut.

Lemma the_run_elem wt : bool_decide (head (workflow_runs (w_db wt.1)) = None) = false → the_run wt ∈ workflow_runs (w_db wt.1).
Proof. unfold the_run. destruct (workflow_runs (w_db wt.1)) as [|r l]; [done|]. intros _. apply list_elem_of_here. Qed.

Lemma demo_start_empty : empty_system demo_start.
Proof. by split. Qed.

Abbreviation demo_steps := (rtc (sys_step demo_fields demo_triage 72)).

Lemma demo_uploaded_reached : demo_steps demo_start demo_uploaded.
Proof.
  apply (rtc_l _ _ demo_confirmed); [exact (step_rate_confirmation demo_fields demo_triage 72 _ _ demo_world no_threads)|].
  apply rtc_once. exact (step_upload demo_fields demo_triage 72 (demo_replies 2000) _ _ demo_confirmed).
Qed.

Lemma demo_cut_step : sys_step demo_fields demo_triage 72 demo_uploaded demo_cut.
Proof.
  apply (call_step demo_fields demo_triage 72 (demo_replies 2000) (the_run demo_uploaded) (Resume "approved")).
  - exact (reachable_safe _ _ _ _ _ demo_start_empty demo_uploaded_reached).
  - apply the_run_elem. vm_compute. reflexivity.
  - apply rq_resume; [vm_compute; reflexivity| |reflexivity|vm_compute; reflexivity|vm_compute; discriminate].
    assert (Hno : review_decisions (w_db demo_uploaded.1) = []) by (vm_compute; reflexivity).
    intros dec Hd. rewrite Hno in Hd. exfalso. exact (not_elem_of_nil dec Hd).
Qed.

Lemma demo_released_reached : demo_steps demo_start demo_released.
Proof.
  etransitivity; [exact demo_uploaded_reached|]. apply (rtc_l _ _ demo_cut); [exact demo_cut_step|].
  apply rtc_once.
  exact (step_decision demo_fields demo_triage 72 (demo_replies 2000) demo_rid "approved" demo_cut eq_refl).
Qed.

Lemma system_releases_safely_witness :
  posting_status (the_run demo_released) = "ready_for_posting"
  ∧ (has_decision (run_id (the_run demo_released)) "approved" (w_db demo_released.1)
     ∨ reconciled_for (run_id (the_run demo_released)) (w_db demo_released.1)).
Proof.
  destruct (system_releases_safely demo_fields demo_triage 72 demo_start demo_released (the_run demo_released)
    demo_start_empty demo_released_reached (the_run_elem demo_released ltac:(vm_compute; reflexivity)))
    as (_ & H & _).
  assert (Hp : posting_status (the_run demo_released) = "ready_for_posting") by (vm_compute; reflexivity).
  split; [exact Hp|]. exact (proj2 (H Hp)).
Defined.

Lemma decisions_agree_with_checkpoints_witness :
  final_decision (values (aget_state demo_rid demo_cut.2)) = Some "approved"
  ∧ (has_decision demo_rid "approved" (w_db demo_cut.1) ∨ awaits demo_rid (w_db demo_cut.1)).
Proof.
  assert (Hr : demo_steps demo_start demo_cut)
    by (etransitivity; [exact demo_uploaded_reached|]; exact (rtc_once _ _ demo_cut_step)).
  destruct (decisions_agree_with_checkpoints demo_fields demo_triage 72 demo_start demo_cut demo_rid
    demo_start_empty Hr) as [_ H].
  assert (Hf : final_decision (values (aget_state demo_rid demo_cut.2)) = Some "approved")
    by (vm_compute; reflexivity).
  split; [exact Hf|]. exact (H "approved" Hf).
Defined.
