(* ===== verification/Reviewers.v ===== *)
(** * Concurrent reviewers

    [decide_review] of [app/services/business_state.py] by any number of clients at once.
    A request is cut at its calls: the row of the run is locked and read, the checkpoint is
    read, the graph is resumed, the decision is committed; between these steps every other
    request and every other part of the program may act, but for the lock: the row of a run,
    its decision and its thread change only for the request that holds the row, and a row
    that references it cannot be inserted by anyone, the nodes of the resumed graph included.
    The concurrent program is shown to refine the atomic one. *)

From S2P Require Import Prelude PyText LoadNumbers DateTime PyFloat Json Database MissingDocs.
From S2P Require Import Shipments Reconciliation SlaScanner Extraction Workflow WorkflowSafety.
From S2P Require Import Frame BusinessState WorkflowRoutes InvoiceJob Redis InvoiceQueue QueueRoutes.
From S2P Require Import InvoiceWorker Notifier RateConfirmationRoutes ResultFrame ThreadStages.
From S2P Require Import SystemInvariant SystemHandlers SystemDelivery SystemSafety.
From stdpp Require Import relations.
From Stdlib Require Import Ascii.
Local Open Scope string_scope.
Local Open Scope list_scope.
Local Open Scope nat_scope.

(** ** One request, by its steps *)

(** What the rows and the checkpoint say: an answer, a decision the checkpoint already
    holds, or the graph has to be resumed. *)
Inductive verdict := Reply (o : review_outcome) | Finish (result : dict) | Call.

Definition check_review (requested_decision : string) (run : WorkflowRun)
    (existing_decision : option ReviewDecision) (snap : snapshot) : verdict :=
  match existing_decision with
  | Some existing =>
      Reply (if negb (String.eqb (disposition existing) requested_decision)
             then Conflict (decision_conflict "A different review decision already exists"
                              (disposition existing) requested_decision)
             else Decided run existing true)
  | None =>
      if negb (String.eqb (processing_status_of run) "awaiting_review") then
        Reply (Conflict (mk_conflict "workflow_not_awaiting_review"
          "Only an awaiting_review workflow can receive its first decision"
          (Some [("processing_status", JStr (processing_status_of run))])))
      else
        match final_decision (values snap) with
        | Some d =>
            if negb (String.eqb d requested_decision) then
              Reply (Conflict (decision_conflict
                "The checkpoint contains a different review decision" d requested_decision))
            else Finish (values snap)
        | None =>
            if is_nil (values snap) || is_nil (next snap) then
              Reply (Conflict (checkpoint_conflict "The workflow checkpoint is not paused for review" None))
            else Call
        end
  end.

(** Before the lock; with the lock and what was read under it; at the call of the graph;
    after it; answered. *)
Inductive phase :=
  | Waiting
  | Holding (run : WorkflowRun) (existing : option ReviewDecision)
  | Calling (run : WorkflowRun)
  | Resumed (run : WorkflowRun) (result : dict)
  | Answered (o : res review_outcome).

Record reviewer := mk_reviewer { rv_run_id : string; rv_decision : string; rv_phase : phase }.

Definition in_phase (r : reviewer) (p : phase) : reviewer := mk_reviewer (rv_run_id r) (rv_decision r) p.

Definition holds_lock (r : reviewer) : bool :=
  match rv_phase r with Holding _ _ | Calling _ | Resumed _ _ => true | _ => false end.

(** [_locked_run]: a row that is there is locked. *)
Definition lock_run (rid : string) (w : world) : phase :=
  match (locked_run rid (session_of w)).1 with
  | Ok (Some run, existing) => Holding run existing
  | Ok (None, _) => Answered (Ok NoSuchRun)
  | Raise e => Answered (Raise e)
  end.

(** The rows that reference a run: their insertion locks the row of the run. *)
Definition references (rid : string) (d : database) : list WorkflowAuditLog * list ReconciliationResult :=
  (where_ (λ a, String.eqb (audit_run_id a) rid) (audit_logs d),
   where_ (λ r, sql_eq String.eqb (result_run_id r) rid) (reconciliation_results d)).

Section Reviewers.
Context {R : Redis} `{JC : JobCodec} `{E : GraphEngine} (model_fields : schema → json → option coerced)
        (triage_fields : json → option (string * string * float)) (sla_hours : Z).

Abbreviation graph replies := (build_state_graph model_fields triage_fields replies sla_hours).
Abbreviation wthreads := (world * threads)%type.
Abbreviation system := (sys_step model_fields triage_fields sla_hours).

Inductive reviewer_step (r : reviewer) : wthreads → wthreads → phase → Prop :=
  | rs_lock w t : rv_phase r = Waiting → reviewer_step r (w, t) (w, t) (lock_run (rv_run_id r) w)
  | rs_check run existing w t :
      rv_phase r = Holding run existing →
      reviewer_step r (w, t) (w, t)
        (match check_review (rv_decision r) run existing (aget_state (rv_run_id r) t) with
         | Reply o => Answered (Ok o)
         | Finish result => Resumed run result
         | Call => Calling run
         end)
  | rs_call replies run w t o t' w' :
      rv_phase r = Calling run →
      ainvoke (graph replies) (rv_run_id r) (Resume (rv_decision r)) t w = (o, t', w') →
      references (rv_run_id r) (w_db w') = references (rv_run_id r) (w_db w) →
      reviewer_step r (w, t) (w', t')
        (match o with Ok result => Resumed run result | Raise e => Answered (Raise e) end)
  | rs_finish run result w t o s' t' :
      rv_phase r = Resumed run result →
      finish_review run (rv_run_id r) (rv_decision r) result (session_of w, t) = (o, (s', t')) →
      reviewer_step r (w, t) (world_of s', t') (Answered o).

(** What the lock of a run protects. *)
Definition run_kept (rid : string) (wt wt' : wthreads) : Prop :=
  runs_with rid (w_db wt'.1) = runs_with rid (w_db wt.1)
  ∧ decisions_of rid (w_db wt'.1) = decisions_of rid (w_db wt.1)
  ∧ aget_state rid wt'.2 = aget_state rid wt.2.

Definition lock_free (rid : string) (rs : list reviewer) : Prop :=
  ∀ r, r ∈ rs → holds_lock r = true → rv_run_id r ≠ rid.

(** A request moves: the lock it takes is free. *)
Inductive own_step : wthreads * list reviewer → wthreads * list reviewer → Prop :=
  | own_intro i r p wt wt' rs :
      rs !! i = Some r → reviewer_step r wt wt' p →
      (holds_lock (in_phase r p) = true → holds_lock r = false → lock_free (rv_run_id r) rs) →
      own_step (wt, rs) (wt', <[i := in_phase r p]> rs).

(** The requests and the rest of the program; a request that is cut off, by its client or by
    the death of its process, releases what it holds. *)
Inductive concurrent_step : wthreads * list reviewer → wthreads * list reviewer → Prop :=
  | cs_own x y : own_step x y → concurrent_step x y
  | cs_cut i r e wt rs :
      rs !! i = Some r → (∀ o, rv_phase r ≠ Answered o) →
      concurrent_step (wt, rs) (wt, <[i := in_phase r (Answered (Raise e))]> rs)
  | cs_other wt wt' rs :
      system wt wt' → (∀ r, r ∈ rs → holds_lock r = true → run_kept (rv_run_id r) wt wt') →
      concurrent_step (wt, rs) (wt', rs).

(** ** The atomic program *)

(** A request and its answer. *)
Abbreviation request := (string * string * option (res review_outcome))%type.

Definition request_of (r : reviewer) : request :=
  (rv_run_id r, rv_decision r, match rv_phase r with Answered o => Some o | _ => None end).

(** A request whose answer changes nothing: it failed, or the resumed graph did not take
    the decision. *)
Definition refused (o : res review_outcome) : Prop :=
  match o with
  | Raise _ => True
  | Ok (Conflict c) => code c = "checkpoint_state_conflict"
  | Ok _ => False
  end.

Inductive atomic_step : wthreads * list request → wthreads * list request → Prop :=
  | as_decide i rid dd replies w t rs o s' t' :
      rs !! i = Some (rid, dd, None) →
      decide_review (graph replies) rid dd (session_of w, t) = (o, (s', t')) →
      atomic_step ((w, t), rs) ((world_of s', t'), <[i := (rid, dd, Some o)]> rs)
  | as_refuse i rid dd o wt rs :
      rs !! i = Some (rid, dd, None) → refused o →
      atomic_step (wt, rs) (wt, <[i := (rid, dd, Some o)]> rs)
  | as_system wt wt' rs : system wt wt' → atomic_step (wt, rs) (wt', rs).

(** ** What a request knows under its lock *)

Definition looked (rid : string) (w : world) (run : WorkflowRun) (existing : option ReviewDecision) : Prop :=
  runs_with rid (w_db w) = [run] ∧ decisions_of rid (w_db w) = option_list existing.

Definition first_decision (rid : string) (w : world) (run : WorkflowRun) : Prop :=
  looked rid w run None ∧ processing_status_of run = "awaiting_review".

Definition phase_ok (r : reviewer) (wt : wthreads) : Prop :=
  in_strs (rv_decision r) ["approved"; "rejected"] = true
  ∧ match rv_phase r with
    | Holding run existing => looked (rv_run_id r) wt.1 run existing
    | Calling run =>
        first_decision (rv_run_id r) wt.1 run
        ∧ check_review (rv_decision r) run None (aget_state (rv_run_id r) wt.2) = Call
    | Resumed run result =>
        first_decision (rv_run_id r) wt.1 run
        ∧ (is_Some (interrupt_of result) ∨ values (aget_state (rv_run_id r) wt.2) = result)
    | _ => True
    end.

Lemma looked_row rid w run existing : looked rid w run existing → run ∈ workflow_runs (w_db w) ∧ run_id run = rid.
Proof.
  intros [Hr _]. assert (H : run ∈ runs_with rid (w_db w)) by (rewrite Hr; apply list_elem_of_here).
  unfold runs_with in H. apply elem_of_where in H as [? ?%String.eqb_eq]. done.
Qed.

Lemma looked_none rid w run :
  looked rid w run None → ∀ dec, dec ∈ review_decisions (w_db w) → decision_run_id dec ≠ rid.
Proof.
  intros [_ Hd] dec Hdec Hk. assert (H : dec ∈ decisions_of rid (w_db w)).
  { unfold decisions_of. apply elem_of_where. split; [done|]. by apply String.eqb_eq. }
  rewrite Hd in H. by apply not_elem_of_nil in H.
Qed.

Lemma looked_locked rid w run existing :
  looked rid w run existing ↔ locked_run rid (session_of w) = (Ok (Some run, existing), session_of w).
Proof.
  unfold locked_run. rewrite bind_unfold. unfold select, gets. rewrite bind_unfold. cbn [working session_of].
  unfold looked. destruct (runs_with rid (w_db w)) as [|x [|]]; cbn [scalar_one_or_none mret M_ret raise].
  - split; [by intros [? _]|done].
  - rewrite bind_unfold. cbn [gets]. rewrite bind_unfold. cbn [working session_of].
    destruct (decisions_of rid (w_db w)) as [|y [|]]; cbn [scalar_one_or_none mret M_ret raise]; split.
    + intros [[= ->] Hd]. by destruct existing.
    + by intros [= -> <-].
    + intros [[= ->] Hd]. destruct existing; [|done]. by injection Hd as ->.
    + by intros [= -> <-].
    + intros [_ Hd]. by destruct existing.
    + done.
  - split; [by intros [? _]|done].
Qed.

Lemma locked_run_same rid s : (locked_run rid s).2 = s.
Proof.
  unfold locked_run. rewrite bind_unfold. unfold select, gets. rewrite bind_unfold.
  destruct (runs_with rid (working s)) as [|x [|]]; cbn [scalar_one_or_none mret M_ret raise]; [done| |done].
  rewrite bind_unfold. cbn [gets]. rewrite bind_unfold.
  by destruct (decisions_of rid (working s)) as [|y [|]].
Qed.

Lemma lock_run_ok rid w run existing : lock_run rid w = Holding run existing → looked rid w run existing.
Proof.
  intros H. apply looked_locked. unfold lock_run in H.
  pose proof (locked_run_same rid (session_of w)) as Hs.
  destruct (locked_run rid (session_of w)) as [[[[x|] y]|e] s]; cbn in *; [|done..].
  injection H as <- <-. by subst.
Qed.

(** ** Every answer is the atomic one *)

Lemma decide_unfold replies rid dd w t run existing :
  looked rid w run existing →
  decide_review (graph replies) rid dd (session_of w, t)
  = match check_review dd run existing (aget_state rid t) with
    | Reply o => (Ok o, (session_of w, t))
    | Finish result => finish_review run rid dd result (session_of w, t)
    | Call => (result ← invoke (graph replies) rid (Resume dd); finish_review run rid dd result)
                (session_of w, t)
    end.
Proof.
  intros Hl%looked_locked. unfold decide_review. rewrite bind_unfold. unfold in_session at 1. cbn [fst snd].
  rewrite Hl. unfold check_review. destruct existing as [x|].
  - by destruct (negb (String.eqb (disposition x) dd)).
  - destruct (negb _); [done|]. rewrite bind_unfold. unfold get_state, gets. cbn [snd].
    destruct (final_decision _); [by destruct (negb _)|]. by destruct (_ || _).
Qed.

Lemma lock_answer replies rid dd w t o :
  lock_run rid w = Answered o → o = (decide_review (graph replies) rid dd (session_of w, t)).1
    ∧ (decide_review (graph replies) rid dd (session_of w, t)).2 = (session_of w, t).
Proof.
  unfold lock_run, decide_review. rewrite bind_unfold. unfold in_session at 1 3. cbn [fst snd].
  pose proof (locked_run_same rid (session_of w)) as Hs.
  destruct (locked_run rid (session_of w)) as [[[[x|] y]|e] s]; cbn in *; intros [= <-]; by subst.
Qed.

Lemma finish_effect replies rid dd run result w t o s' t' :
  in_strs dd ["approved"; "rejected"] = true → first_decision rid w run →
  is_Some (interrupt_of result) ∨ values (aget_state rid t) = result →
  finish_review run rid dd result (session_of w, t) = (o, (s', t')) →
  (refused o ∧ world_of s' = w ∧ t' = t)
  ∨ decide_review (graph replies) rid dd (session_of w, t) = (o, (s', t')).
Proof.
  intros Hdd [Hl Haw] Hv Hf. rewrite (decide_unfold replies rid dd w t run None Hl).
  unfold check_review. rewrite Haw. rewrite String.eqb_refl. cbn [negb].
  assert (Hsame : world_of (session_of w) = w) by (by destruct w).
  unfold finish_review in Hf |- *. destruct (interrupt_of result) eqn:Ei.
  { left. by injection Hf as <- <- <-. }
  destruct Hv as [[p Hp]|Hv]; [congruence|].
  destruct (sql_eq String.eqb (as_str (dict_get "human_decision" result)) dd) eqn:Eh; cbn [negb] in Hf |- *.
  2:{ left. by injection Hf as <- <- <-. }
  right. assert (Hfin : final_decision (values (aget_state rid t)) = Some dd).
  { rewrite Hv. unfold final_decision, sql_eq in *. destruct (as_str _) as [x|]; [|done].
    apply String.eqb_eq in Eh as ->. by rewrite Hdd. }
  rewrite Hfin, String.eqb_refl. cbn [negb].
  rewrite Hv, Ei, Eh. exact Hf.
Qed.

(** An atomic decision is a step of the system. *)
Lemma decide_system replies rid dd w t o s' t' :
  in_strs dd ["approved"; "rejected"] = true →
  decide_review (graph replies) rid dd (session_of w, t) = (o, (s', t')) →
  system (w, t) (world_of s', t').
Proof.
  intros Hdd E0. assert (Hs : served (resume_workflow (graph replies) rid dd) (w, t) = (world_of s', t')).
  { unfold served, with_session, resume_workflow. cbn [fst snd]. rewrite bind_unfold, E0.
    by destruct o as [[c| |run dec b]|e]. }
  rewrite <- Hs. by apply step_decision.
Qed.

(** *** The call of the graph under the lock *)

Lemma call_effect replies rid dd run w t o t' w' :
  db_safe (w, t) → in_strs dd ["approved"; "rejected"] = true → first_decision rid w run →
  check_review dd run None (aget_state rid t) = Call →
  ainvoke (graph replies) rid (Resume dd) t w = (o, t', w') →
  system (w, t) (w', t')
  ∧ workflow_runs (w_db w') = workflow_runs (w_db w) ∧ review_decisions (w_db w') = review_decisions (w_db w)
  ∧ (∀ rid', rid' ≠ rid → aget_state rid' t' = aget_state rid' t)
  ∧ ∀ result, o = Ok result → is_Some (interrupt_of result) ∨ values (aget_state rid t') = result.
Proof.
  intros I Hdd [Hl Haw] Hc E0. destruct (looked_row _ _ _ _ Hl) as [Hin <-].
  assert (Hq : requested run (w_db w) (aget_state (run_id run) t) (Resume dd)).
  { unfold check_review in Hc. rewrite Haw, String.eqb_refl in Hc. cbn [negb] in Hc.
    destruct (final_decision _) eqn:Ef; [by destruct (negb _)|]. destruct (_ || is_nil (next _)) eqn:En; [done|].
    apply Bool.orb_false_iff in En as [_ En]. apply rq_resume; [|exact (looked_none _ w run Hl)|done|done|].
    - exact (awaiting_status _ run (si_rows _ _ I run Hin) Haw).
    - by destruct (next _). }
  pose proof (call_step model_fields triage_fields sla_hours replies run (Resume dd) (w, t) I Hin Hq) as Hsys.
  cbn [fst snd] in Hsys. rewrite E0 in Hsys. split; [exact Hsys|].
  destruct (requested_call model_fields triage_fields replies sla_hours run _ _ _ Hq (si_threads _ _ I _))
    as (name & resume & st & Hcall & _ & Hs & _).
  destruct (stage_ends model_fields triage_fields replies sla_hours _ _ _ resume st w Hs) as (r & w1 & Hr).
  destruct (ainvoke_documented (graph replies) (run_id run) (Resume dd) t w name resume st r w1 Hcall Hr)
    as (t1 & Ei & Et).
  rewrite E0 in Ei. injection Ei as -> <- <-.
  assert (Hoth : ∀ rid', rid' ≠ run_id run → aget_state rid' t' = aget_state rid' t).
  { intros rid' Hne. rewrite <- (ainvoke_own_thread (graph replies) (run_id run) (Resume dd) t w) by done.
    by rewrite E0. }
  destruct (graph_step model_fields triage_fields replies sla_hours run (Resume dd) name resume st w t
    (call_snapshot r) w' t' I Hin Hq Hcall (run_graph_interrupted _ _ _ _ _ _ _ _ Hr) Et Hoth) as (_ & K & _).
  split; [exact (kt_runs _ _ _ K)|]. split; [exact (kt_decisions _ _ _ K)|]. split; [done|].
  intros result Hres. rewrite Et. destruct r as [st'|st' m p|st' m e]; [| |done]; injection Hres as <-.
  - by right.
  - left. unfold interrupt_of. by rewrite dict_get_set, String.eqb_refl.
Qed.

(** *** What a request leaves to the others *)

Lemma decided_elsewhere rid rid' dd run dec f w w' t :
  rid' ≠ rid → run_id run = rid → decision_run_id dec = rid →
  w_db w' = on_audit_logs f (with_row (decided_run dd run) (on_review_decisions (λ l, l ++ [dec]) (w_db w))) →
  run_kept rid' (w, t) (w', t).
Proof.
  intros Hne Hr Hd Ew. split; [|split; [|done]]; cbn [fst]; rewrite Ew.
  - unfold runs_with. cbn. apply where_update_other. intros x Hx%String.eqb_eq. cbn in Hx. rewrite Hr in Hx. cbn.
    rewrite Hx, Hr. split; apply String.eqb_neq; congruence.
  - unfold decisions_of. cbn. unfold where_. rewrite List.filter_app. cbn. rewrite Hd.
    destruct (String.eqb_spec rid rid') as [->|_]; [done|]. by rewrite app_nil_r.
Qed.

Lemma finish_elsewhere rid rid' dd run result w t o s' t' :
  rid' ≠ rid → run_id run = rid →
  finish_review run rid dd result (session_of w, t) = (o, (s', t')) →
  run_kept rid' (w, t) (world_of s', t').
Proof.
  intros Hne Hr. unfold finish_review.
  assert (Hsame : run_kept rid' (w, t) (world_of (session_of w), t)) by (by destruct w).
  destruct (interrupt_of result); [by intros [= <- <- <-]|].
  destruct (negb _); [by intros [= <- <- <-]|].
  unfold in_session. cbn [fst snd]. rewrite <- Hr at 1.
  pose proof (record_decision_commits run dd (session_of w)) as H.
  destruct (record_decision run (run_id run) dd (session_of w)) as [[x|e] s1]; intros [= <- <- <-].
  - destruct H as (dec & f & _ & _ & Hd & _ & Hc).
    by apply (decided_elsewhere rid rid' dd run dec f); [|done|rewrite Hd|].
  - split; [|split; [|done]]; cbn [fst world_of w_db]; by rewrite H.
Qed.

Lemma reviewer_elsewhere r wt wt' p rid :
  db_safe wt → phase_ok r wt → reviewer_step r wt wt' p → rid ≠ rv_run_id r → run_kept rid wt wt'.
Proof using All.
  intros I [Hdd Hp] H Hne. destruct H as [w t _|run ex w t _|replies run w t o t' w' Eph E0 _|run result w t o s' t' Eph Ef];
    try done; rewrite Eph in Hp.
  - destruct Hp as [Hf Hc]. destruct (call_effect replies _ _ run w t o t' w' I Hdd Hf Hc E0)
      as (_ & Er & Ed & Ho & _). split; [|split]; cbn [fst snd]; [|unfold decisions_of; by rewrite Ed|by apply Ho].
    unfold runs_with. by rewrite Er.
  - destruct Hp as [[Hl _] _]. apply looked_row in Hl as [_ Hl].
    by eapply (finish_elsewhere (rv_run_id r)).
Qed.

Lemma phase_kept r wt wt' : run_kept (rv_run_id r) wt wt' → phase_ok r wt → phase_ok r wt'.
Proof.
  intros (K1 & K2 & K3) [Hdd Hp]. split; [done|]. unfold first_decision, looked in *.
  destruct (rv_phase r); rewrite ?K1, ?K2, ?K3; done.
Qed.

(** A step of its own leaves a request in order. *)
Lemma reviewer_ok r wt wt' p :
  db_safe wt → phase_ok r wt → reviewer_step r wt wt' p → phase_ok (in_phase r p) wt'.
Proof using All.
  intros I [Hdd Hp] H. split; [done|]. cbn [in_phase rv_phase rv_run_id rv_decision].
  destruct H as [w t _|run ex w t Eph|replies run w t o t' w' Eph E0 _|run result w t o s' t' Eph Ef];
    try rewrite Eph in Hp; try done.
  - destruct (lock_run _ w) eqn:El; try done; [by apply lock_run_ok| |].
    all: unfold lock_run in El; by destruct (locked_run _ _) as [[[[?|] ?]|?] ?].
  - destruct (check_review _ _ _ _) as [o|result|] eqn:Ec; [done|..].
    all: assert (ex = None ∧ processing_status_of run = "awaiting_review") as [-> Haw]
      by (unfold check_review in Ec; destruct ex; [done|]; by destruct (String.eqb_spec (processing_status_of run) "awaiting_review")).
    + split; [by split|]. right. unfold check_review in Ec. rewrite Haw, String.eqb_refl in Ec. cbn [negb] in Ec.
      destruct (final_decision _); [|by destruct (_ || _)]. destruct (negb _); [done|]. by injection Ec.
    + by split.
  - destruct Hp as [Hf Hc]. destruct (call_effect replies _ _ run w t o t' w' I Hdd Hf Hc E0)
      as (_ & Er & Ed & _ & Hv). destruct o as [result|e]; [|done]. split; [|by apply Hv].
    destruct Hf as [[Hl1 Hl2] Haw]. split; [|done].
    split; unfold runs_with, decisions_of in *; cbn [fst]; by rewrite ?Er, ?Ed.
Qed.

(** ** The simulation *)

(** No two requests hold the row of one run. *)
Definition exclusive (rs : list reviewer) : Prop :=
  ∀ i j r r', rs !! i = Some r → rs !! j = Some r' → holds_lock r = true → holds_lock r' = true →
              rv_run_id r = rv_run_id r' → i = j.

Record reviews_ok (wt : wthreads) (rs : list reviewer) : Prop := {
  ro_safe : db_safe wt;
  ro_phases : ∀ r, r ∈ rs → phase_ok r wt;
  ro_locks : exclusive rs
}.

Lemma exclusive_insert rs i r p :
  exclusive rs → rs !! i = Some r →
  (holds_lock (in_phase r p) = true → holds_lock r = false → lock_free (rv_run_id r) rs) →
  exclusive (<[i := in_phase r p]> rs).
Proof.
  intros He Hi Hl.
  assert (Hnew : ∀ j r', i ≠ j → rs !! j = Some r' → holds_lock (in_phase r p) = true →
                 holds_lock r' = true → rv_run_id r ≠ rv_run_id r').
  { intros j r' Hne Hj Hh Hh' E0. destruct (holds_lock r) eqn:Er.
    - by apply Hne, (He i j r r').
    - apply (Hl Hh eq_refl r'); [by eapply list_elem_of_lookup_2|done|done]. }
  intros j k x y [(<- & <- & _)|[Hj Ej]]%list_lookup_insert_Some [(<- & <- & _)|[Hk Ek]]%list_lookup_insert_Some Hx Hy E0.
  - done.
  - exfalso. by apply (Hnew k y).
  - exfalso. by apply (Hnew j x).
  - by apply (He j k x y).
Qed.

(** A request that is cut off. *)
Lemma cut_ok wt rs i r e :
  reviews_ok wt rs → rs !! i = Some r → reviews_ok wt (<[i := in_phase r (Answered (Raise e))]> rs).
Proof.
  intros [I Hp He] Hi. split; [done| |by apply exclusive_insert].
  intros x [j Hx]%list_elem_of_lookup.
  apply list_lookup_insert_Some in Hx as [(<- & <- & _)|[_ Hx%list_elem_of_lookup_2]]; [|by apply Hp].
  apply list_elem_of_lookup_2, Hp in Hi as [Hdd _]. by split.
Qed.

(** The phases of all requests, when one of them moves. *)
Lemma phases_insert wt wt' rs i r p :
  reviews_ok wt rs → rs !! i = Some r → reviewer_step r wt wt' p →
  ∀ x, x ∈ <[i := in_phase r p]> rs → phase_ok x wt'.
Proof using All.
  intros [I Hp He] Hi Hs x [j Hx]%list_elem_of_lookup.
  assert (Hr : phase_ok r wt) by (apply Hp; by eapply list_elem_of_lookup_2).
  apply list_lookup_insert_Some in Hx as [(<- & <- & _)|[Hj Ej]]; [by apply (reviewer_ok r wt)|].
  assert (Hx : phase_ok x wt) by (apply Hp; by eapply list_elem_of_lookup_2).
  destruct (holds_lock x) eqn:Ex.
  - destruct (String.eqb_spec (rv_run_id x) (rv_run_id r)) as [E0|Hne];
      [|apply (phase_kept x wt); [by apply (reviewer_elsewhere r wt wt' p)|done]].
    destruct (holds_lock r) eqn:Er; [by destruct Hj; apply (He i j r x)|].
    assert (wt' = wt) as ->; [|done].
    destruct Hs as [| |replies run w t o t' w' Eph|run result w t o s' t' Eph]; try done;
      unfold holds_lock in Er; by rewrite Eph in Er.
  - destruct Hx as [Hdd _]. split; [done|]. unfold holds_lock in Ex. by destruct (rv_phase x).
Qed.

Lemma request_in_phase r p :
  request_of (in_phase r p) = (rv_run_id r, rv_decision r, match p with Answered o => Some o | _ => None end).
Proof. done. Qed.

(** Not answered, and not answered by the step: the request stays. *)
Lemma request_silent (rs : list reviewer) i r p :
  rs !! i = Some r → request_of (in_phase r p) = request_of r →
  request_of <$> <[i := in_phase r p]> rs = request_of <$> rs.
Proof.
  intros Hi E0. rewrite list_fmap_insert, E0. apply list_insert_id. by rewrite list_lookup_fmap, Hi.
Qed.

Lemma request_open (rs : list reviewer) i r :
  rs !! i = Some r → (∀ o, rv_phase r ≠ Answered o) →
  (request_of <$> rs) !! i = Some (rv_run_id r, rv_decision r, None).
Proof.
  intros Hi Hn. rewrite list_lookup_fmap, Hi. cbn. unfold request_of.
  destruct (rv_phase r) as [| | | |o] eqn:E0; try done. by destruct (Hn o).
Qed.

(** The answers of a request, by its steps. *)
Lemma reviewer_simulated wt wt' rs i r p :
  reviews_ok wt rs → rs !! i = Some r → reviewer_step r wt wt' p →
  rtc system wt wt'
  ∧ rtc atomic_step (wt, request_of <$> rs) (wt', request_of <$> <[i := in_phase r p]> rs).
Proof using All.
  intros [I Hp He] Hi Hs.
  assert (Hr : phase_ok r wt) by (apply Hp; by eapply list_elem_of_lookup_2). destruct Hr as [Hdd Hr].
  assert (Hans : ∀ o, p = Answered o → (∀ o', rv_phase r ≠ Answered o') →
    (refused o ∧ wt' = wt)
    ∨ (∃ s' t', decide_review (graph (demo_replies 0)) (rv_run_id r) (rv_decision r) (session_of wt.1, wt.2) = (o, (s', t'))
               ∧ wt' = (world_of s', t')) →
    rtc system wt wt'
    ∧ rtc atomic_step (wt, request_of <$> rs) (wt', request_of <$> <[i := in_phase r p]> rs)).
  { intros o -> Hn [[Hf ->]|(s' & t' & Ed & ->)]; rewrite list_fmap_insert, request_in_phase.
    - split; [done|]. apply rtc_once. apply as_refuse; [by apply request_open|done].
    - destruct wt as [w t]. cbn [fst snd] in Ed. split; [apply rtc_once; by eapply decide_system|].
      apply rtc_once. eapply as_decide; [by apply request_open|exact Ed]. }
  destruct Hs as [w t Eph|run ex w t Eph|replies run w t o t' w' Eph E0 Hfk|run result w t o s' t' Eph Ef].
  all: rewrite Eph in Hr.
  - destruct (lock_run (rv_run_id r) w) as [|run ex|run|run result|o] eqn:El.
    5:{ apply (Hans o); [done|congruence|]. right.
        destruct (lock_answer (demo_replies 0) _ (rv_decision r) w t o El) as [-> Es].
        exists (session_of w), t. cbn [fst snd]. destruct (decide_review _ _ _ _) as [? ?]; cbn in *. subst.
        split; [done|]. by destruct w. }
    all: split; [done|]; by rewrite request_silent; [|done|unfold request_of; cbn; rewrite Eph].
  - destruct (check_review (rv_decision r) run ex (aget_state (rv_run_id r) t)) as [o|result|] eqn:Ec.
    { apply (Hans (Ok o)); [done|congruence|]. right. exists (session_of w), t. cbn [fst snd].
      rewrite (decide_unfold _ _ _ _ _ _ _ Hr), Ec. split; [done|]. by destruct w. }
    all: split; [done|]; by rewrite request_silent; [|done|unfold request_of; cbn; rewrite Eph].
  - destruct Hr as [Hf Hc]. destruct (call_effect replies _ _ run w t o t' w' I Hdd Hf Hc E0) as (Hsys & _).
    split; [by apply rtc_once|]. apply (rtc_l _ _ ((w', t'), request_of <$> rs)); [by apply as_system|].
    destruct o as [result|e].
    + by rewrite request_silent; [|done|unfold request_of; cbn; rewrite Eph].
    + apply rtc_once. rewrite list_fmap_insert, request_in_phase.
      apply as_refuse; [apply request_open; [done|congruence]|done].
  - destruct Hr as [Hf Hv].
    destruct (finish_effect (demo_replies 0) _ _ run result w t o s' t' Hdd Hf Hv Ef) as [(Hr & Ew & Et)|Hd].
    + apply (Hans o); [done|congruence|]. left. split; [done|congruence].
    + apply (Hans o); [done|congruence|]. right. by exists s', t'.
Qed.

Lemma step_simulated wt wt' rs rs' :
  reviews_ok wt rs → concurrent_step (wt, rs) (wt', rs') →
  reviews_ok wt' rs' ∧ rtc system wt wt'
  ∧ rtc atomic_step (wt, request_of <$> rs) (wt', request_of <$> rs').
Proof using All.
  intros Hok Hs.
  inversion Hs as [? ? [i r p ? ? ? Hi Hstep Hl]|i r e ? ? Hi Hn|? ? ? Hsys Hk]; subst; simplify_eq.
  - destruct (reviewer_simulated wt wt' rs i r p Hok Hi Hstep) as [Hsys Hat].
    split; [|done]. split.
    + destruct Hok as [I _ _]. revert I. clear -Hsys. induction Hsys as [|wt1 wt2 wt3 H _ IH]; [done|].
      intros I. by apply IH, (step_safe model_fields triage_fields sla_hours wt1).
    + by apply (phases_insert wt wt' rs i r p).
    + apply exclusive_insert; [apply Hok|done|done].
  - split; [by apply cut_ok|]. split; [done|]. apply rtc_once. rewrite list_fmap_insert, request_in_phase.
    apply as_refuse; [by apply request_open|done].
  - split; [|split; [by apply rtc_once|apply rtc_once; by apply as_system]]. destruct Hok as [I Hp He].
    split; [by apply (step_safe model_fields triage_fields sla_hours wt)| |done]. intros r Hr.
    destruct (holds_lock r) eqn:Er; [by apply (phase_kept r wt); [apply Hk|apply Hp]|].
    destruct (Hp r Hr) as [Hdd _]. split; [done|]. unfold holds_lock in Er. by destruct (rv_phase r).
Qed.

Lemma run_simulated wt wt' rs rs' :
  reviews_ok wt rs → rtc concurrent_step (wt, rs) (wt', rs') →
  reviews_ok wt' rs' ∧ rtc system wt wt'
  ∧ rtc atomic_step (wt, request_of <$> rs) (wt', request_of <$> rs').
Proof using All.
  intros Hok H. remember (wt, rs) as x eqn:Ex. remember (wt', rs') as y eqn:Ey.
  revert wt rs Ex Hok. induction H as [|x [wt1 rs1] y Hs _ IH]; intros wt rs Ex Hok; subst.
  - injection Ex as -> ->. done.
  - destruct (step_simulated wt wt1 rs rs1 Hok Hs) as (Hok1 & Hsys & Hat).
    destruct (IH eq_refl wt1 rs1 eq_refl Hok1) as (Hok' & Hsys' & Hat').
    split; [done|]. split; by etransitivity.
Qed.

(** The requests as they arrive, in a state the system can reach. *)
Definition arriving (rs : list reviewer) : Prop :=
  ∀ r, r ∈ rs → rv_phase r = Waiting ∧ in_strs (rv_decision r) ["approved"; "rejected"] = true.

Lemma arriving_ok wt0 wt rs : empty_system wt0 → rtc system wt0 wt → arriving rs → reviews_ok wt rs.
Proof using All.
  intros H0 H Hr. split.
  - by eapply reachable_safe.
  - intros r [Hw Hd]%Hr. split; [done|]. by rewrite Hw.
  - intros i j r r' Hi Hj Hh. apply list_elem_of_lookup_2, Hr in Hi as [Hw _].
    unfold holds_lock in Hh. by rewrite Hw in Hh.
Qed.

(** ** No request waits for itself *)

Lemma awaiting_first rid run w t :
  db_safe (w, t) → first_decision rid w run →
  run ∈ workflow_runs (w_db w) ∧ run_id run = rid ∧ ready rid (w_db w) (aget_state rid t).
Proof.
  intros I [Hl Haw]. destruct (looked_row _ _ _ _ Hl) as [Hin <-]. split; [done|]. split; [done|].
  apply (si_ready _ _ I run Hin). exact (awaiting_status _ run (si_rows _ _ I run Hin) Haw).
Qed.

(** The thread of a run that waits for a reviewer is the paused one of [BusinessState]. *)
Lemma ready_paused rid run w t :
  db_safe (w, t) → first_decision rid w run → final_decision (values (aget_state rid t)) = None →
  next (aget_state rid t) = ["exception_node"] ∧ paused_review rid (values (aget_state rid t)) (w_db w).
Proof.
  intros I Hf Hn. destruct (awaiting_first rid run w t I Hf) as (_ & _ & [[d Hd]|[Hnext Hlog]]); [congruence|].
  split; [done|]. split; [|done|apply (si_channel _ _ I)|done].
  destruct (si_threads _ _ I rid) as [H|[(name & _ & H & _)|[H _]]]; cbn [snd] in H;
    [by rewrite H in Hnext| |by rewrite H in Hnext].
  unfold state_str. by rewrite H.
Qed.

(** The resumed graph needs no lock: its nodes leave the tables as they are. *)
Lemma call_quiet replies rid dd run w t :
  db_safe (w, t) → in_strs dd ["approved"; "rejected"] = true → first_decision rid w run →
  final_decision (values (aget_state rid t)) = None →
  ∃ result t', ainvoke (graph replies) rid (Resume dd) t w = (Ok result, t', w)
    ∧ dict_get "human_decision" result = Some (JStr dd) ∧ interrupt_of result = None.
Proof.
  intros I Hdd Hf Hn. destruct (ready_paused rid run w t I Hf Hn) as [Hnext Hp].
  destruct (invoke_paused model_fields triage_fields replies sla_hours rid dd (session_of w) t Hdd eq_refl Hnext Hp)
    as (st2 & t' & Ei & Hout & Hk & _).
  exists st2, t'. split; [|split; [apply Hout|by apply interrupt_of_none]].
  unfold invoke in Ei. cbn [fst snd] in Ei.
  assert (Hw : world_of (session_of w) = w) by (by destruct w). rewrite Hw in Ei.
  destruct (ainvoke (graph replies) rid (Resume dd) t w) as [[o t1] w1]. injection Ei as -> E1 _ E2 ->.
  destruct w, w1. cbn in *. by subst.
Qed.

(** ** Every run that awaits review can be decided *)

Definition fresh_decision_id (w : world) : Prop :=
  rng (w_env w) (rng_pos (w_env w)) ∉ decision_id <$> review_decisions (w_db w).

Lemma finish_succeeds rid dd run result w t :
  in_strs dd ["approved"; "rejected"] = true → first_decision rid w run → fresh_decision_id w →
  dict_get "human_decision" result = Some (JStr dd) → interrupt_of result = None →
  ∃ dec f s', finish_review run rid dd result (session_of w, t) = (Ok (Decided (decided_run dd run) dec false), (s', t))
    ∧ disposition dec = dd ∧ decision_run_id dec = rid
    ∧ committed s' = on_audit_logs f (on_workflow_runs
        (update_where (λ r, String.eqb (run_id r) rid) (λ _, decided_run dd run))
        (on_review_decisions (λ l, l ++ [dec]) (w_db w))).
Proof.
  intros Hdd [Hl _] Hfresh Hh Hi. destruct (looked_row _ _ _ _ Hl) as [Hin <-]. destruct Hl as [_ Hno].
  destruct (record_decision_fresh (session_of w) run dd eq_refl Hfresh Hin Hno Hdd)
    as (dec & f & s' & Er & -> & Hc & Hw & _).
  eexists _, f, s'. unfold finish_review. rewrite Hi, Hh. cbn [as_str sql_eq]. rewrite String.eqb_refl.
  cbn [negb]. unfold in_session. cbn [fst snd]. rewrite Er. split; [reflexivity|].
  split; [done|]. split; [done|]. by rewrite Hc, Hw.
Qed.

Lemma decide_succeeds replies rid dd run w t :
  db_safe (w, t) → in_strs dd ["approved"; "rejected"] = true → first_decision rid w run → fresh_decision_id w →
  (∀ d, final_decision (values (aget_state rid t)) = Some d → d = dd) →
  ∃ dec f s' t', decide_review (graph replies) rid dd (session_of w, t)
      = (Ok (Decided (decided_run dd run) dec false), (s', t'))
    ∧ disposition dec = dd ∧ decision_run_id dec = rid
    ∧ committed s' = on_audit_logs f (on_workflow_runs
        (update_where (λ r, String.eqb (run_id r) rid) (λ _, decided_run dd run))
        (on_review_decisions (λ l, l ++ [dec]) (w_db w))).
Proof.
  intros I Hdd Hf Hfresh Hagree. rewrite (decide_unfold replies rid dd w t run None (proj1 Hf)).
  unfold check_review. rewrite (proj2 Hf), String.eqb_refl. cbn [negb].
  destruct (final_decision (values (aget_state rid t))) as [d|] eqn:Ed.
  - rewrite (Hagree d eq_refl) in Ed |- *. rewrite String.eqb_refl. cbn [negb]. apply final_decision_get in Ed as [Eh _].
    destruct (finish_succeeds rid dd run (values (aget_state rid t)) w t Hdd Hf Hfresh Eh)
      as (dec & f & s' & -> & H); [apply interrupt_of_none, (si_channel _ _ I)|]. by exists dec, f, s', t.
  - destruct (ready_paused rid run w t I Hf Ed) as [Hnext [Hrid _ _ _]]. rewrite Hnext.
    destruct (call_quiet replies rid dd run w t I Hdd Hf Ed) as (result & t' & Ei & Hh & Hi).
    destruct (values (aget_state rid t)) as [|kv vs]; [done|]. cbn [is_nil orb].
    rewrite bind_unfold. unfold invoke. cbn [fst snd].
    assert (Hw : world_of (session_of w) = w) by (by destruct w). rewrite Hw, Ei.
    destruct (finish_succeeds rid dd run result w t' Hdd Hf Hfresh Hh Hi) as (dec & f & s' & -> & H).
    by exists dec, f, s', t'.
Qed.

(** ** Progress *)

(** The steps a request still needs, at most. *)
Definition rank (r : reviewer) : nat :=
  match rv_phase r with
  | Waiting => 4 | Holding _ _ => 3 | Calling _ => 2 | Resumed _ _ => 1 | Answered _ => 0
  end.

Fixpoint remaining (rs : list reviewer) : nat :=
  match rs with [] => 0 | r :: rs' => rank r + remaining rs' end.

Lemma remaining_insert rs i r r' :
  rs !! i = Some r → remaining (<[i := r']> rs) + rank r = remaining rs + rank r'.
Proof.
  revert i. induction rs as [|x rs IH]; [done|]. intros [|i]; [intros [= ->]; cbn; lia|].
  intros H%IH. change (rank x + remaining (<[i := r']> rs) + rank r = rank x + remaining rs + rank r'). lia.
Qed.

Lemma remaining_bound rs : remaining rs <= 4 * length rs.
Proof.
  induction rs as [|r rs IH]; [done|]. assert (rank r <= 4) by (unfold rank; destruct (rv_phase r); lia).
  cbn [remaining length]. lia.
Qed.

Lemma own_decreases x y : own_step x y → remaining y.2 < remaining x.2.
Proof.
  destruct 1 as [i r p wt wt' rs Hi Hs _]. cbn [snd].
  assert (Hr : rank (in_phase r p) < rank r).
  { unfold rank at 2. unfold rank. cbn [in_phase rv_phase]. destruct Hs as [w t Eph|run ex w t Eph|replies run w t o t' w' Eph _ _|run result w t o s' t' Eph _];
      rewrite Eph.
    - unfold lock_run. destruct (locked_run _ _) as [[[[x|] y]|e] s]; cbn; lia.
    - destruct (check_review _ _ _ _); cbn; lia.
    - destruct o; cbn; lia.
    - cbn. lia. }
  pose proof (remaining_insert rs i r (in_phase r p) Hi). lia.
Qed.

Lemma own_bounded n x y : nsteps own_step n x y → n + remaining y.2 <= remaining x.2.
Proof. induction 1 as [x|n x y z H _ IH]; [lia|]. apply own_decreases in H. lia. Qed.

(** A request that holds its row can go on. *)
Lemma holder_moves r wt :
  db_safe wt → phase_ok r wt → holds_lock r = true → ∃ wt' p, reviewer_step r wt wt' p.
Proof.
  intros I [Hdd Hp] Hh. destruct wt as [w t]. unfold holds_lock in Hh.
  destruct (rv_phase r) as [|run ex|run|run result|o] eqn:Eph; try done.
  - eexists _, _. by apply rs_check.
  - destruct Hp as [Hf Hc]. cbn [fst snd] in *.
    assert (Hn : final_decision (values (aget_state (rv_run_id r) t)) = None).
    { unfold check_review in Hc. destruct (negb _); [done|]. destruct (final_decision _); [|done]. by destruct (negb _). }
    destruct (call_quiet (demo_replies 0) _ _ run w t I Hdd Hf Hn) as (result & t' & Ei & _).
    eexists _, _. by apply (rs_call r (demo_replies 0) run w t (Ok result) t' w).
  - destruct (finish_review run (rv_run_id r) (rv_decision r) result (session_of w, t)) as [o [s' t']] eqn:Ef.
    eexists _, _. by apply (rs_finish r run result w t o s' t').
Qed.

Lemma own_step_possible wt rs r :
  reviews_ok wt rs → r ∈ rs → (∀ o, rv_phase r ≠ Answered o) → ∃ y, own_step (wt, rs) y.
Proof.
  intros [I Hp He] Hr Hn. destruct (decide (Exists (λ x, holds_lock x = true) rs)) as [Hex|Hno].
  - apply Exists_exists in Hex as (x & Hx & Hh). destruct (holder_moves x wt I (Hp x Hx) Hh) as (wt' & p & Hs).
    apply list_elem_of_lookup in Hx as [i Hi]. eexists. apply (own_intro i x p wt wt' rs Hi Hs). congruence.
  - assert (Hw : rv_phase r = Waiting).
    { destruct (rv_phase r) as [| | | |o] eqn:E0; [done| | | |by destruct (Hn o)];
        (destruct Hno; apply Exists_exists; exists r; split; [done|]; unfold holds_lock; by rewrite E0). }
    apply list_elem_of_lookup in Hr as [i Hi]. destruct wt as [w t].
    eexists. apply (own_intro i r _ _ _ rs Hi (rs_lock r w t Hw)). intros _ _ x Hx Hh.
    destruct Hno. apply Exists_exists. by exists x.
Qed.

Definition answered (r : reviewer) : bool := match rv_phase r with Answered _ => true | _ => false end.

Definition all_answered (rs : list reviewer) : Prop := ∀ r, r ∈ rs → answered r = true.

Lemma reviews_complete wt rs :
  reviews_ok wt rs → ∃ wt' rs', rtc own_step (wt, rs) (wt', rs') ∧ all_answered rs'.
Proof using All.
  remember (remaining rs) as n eqn:En. revert wt rs En.
  induction (lt_wf n) as [n _ IH]. intros wt rs -> Hok.
  destruct (decide (Exists (λ r, answered r = false) rs)) as [Hex|Hno].
  - apply Exists_exists in Hex as (r & Hr & Hn).
    destruct (own_step_possible wt rs r Hok Hr) as [[wt1 rs1] Hs]; [intros o E0; unfold answered in Hn; by rewrite E0 in Hn|].
    destruct (IH (remaining rs1) (own_decreases _ _ Hs) wt1 rs1 eq_refl) as (wt' & rs' & H & Ha).
    { by apply (step_simulated wt wt1 rs rs1 Hok), cs_own. }
    exists wt', rs'. split; [by eapply rtc_l|done].
  - exists wt, rs. split; [done|]. intros r Hr. destruct (answered r) eqn:E0; [done|].
    destruct Hno. apply Exists_exists. by exists r.
Qed.

(** ** The theorems *)

(** C4 Concurrent reviewers cannot be told from reviewers one after the other.  From a state the
    system can reach, whatever the interleaving of any number of decision requests with each
    other, with the rest of the program and with requests that are cut off: the tables, the
    checkpoints and the answers are those of a program in which every answered request ran
    [decide_review] at once, at the moment of its answer, or changed nothing; no two requests
    hold one run; and the states are states of the system, so that its invariants hold. *)
Theorem concurrent_reviews_atomic wt0 wt rs wt' rs' :
  empty_system wt0 → rtc system wt0 wt → arriving rs → rtc concurrent_step (wt, rs) (wt', rs') →
  rtc atomic_step (wt, request_of <$> rs) (wt', request_of <$> rs')
  ∧ rtc system wt wt'
  ∧ exclusive rs'.
Proof using All.
  intros H0 H Hr Hs. destruct (run_simulated wt wt' rs rs' (arriving_ok wt0 wt rs H0 H Hr) Hs) as (Hok & Hsys & Hat).
  split; [done|]. split; [done|]. apply Hok.
Qed.

(** C6 No reviewer waits for ever.  In every state of such an interleaving: the requests reach
    their answers by their own steps, each in at most four; and a request that is about to
    resume the graph while it holds the row of its run is not blocked by its own lock: the
    call returns and its nodes write to no table, so that they never need the row. *)
Theorem concurrent_reviews_complete wt0 wt rs wt1 rs1 :
  empty_system wt0 → rtc system wt0 wt → arriving rs → rtc concurrent_step (wt, rs) (wt1, rs1) →
  (∃ wt2 rs2, rtc own_step (wt1, rs1) (wt2, rs2) ∧ all_answered rs2)
  ∧ (∀ n y, nsteps own_step n (wt1, rs1) y → n <= 4 * length rs1)
  ∧ ∀ r run, r ∈ rs1 → rv_phase r = Calling run → ∀ replies,
      ∃ result t', ainvoke (graph replies) (rv_run_id r) (Resume (rv_decision r)) wt1.2 wt1.1
                   = (Ok result, t', wt1.1).
Proof using All.
  intros H0 H Hr Hs. destruct (run_simulated wt wt1 rs rs1 (arriving_ok wt0 wt rs H0 H Hr) Hs) as (Hok & _).
  split; [by apply reviews_complete|]. split.
  - intros n y Hn%own_bounded. cbn [snd] in Hn. pose proof (remaining_bound rs1). lia.
  - intros r run Hin Eph replies. destruct wt1 as [w t]. destruct Hok as [I Hp _].
    destruct (Hp r Hin) as [Hdd Hph]. rewrite Eph in Hph. destruct Hph as [Hf Hc]. cbn [fst snd] in *.
    destruct (call_quiet replies _ _ run w t I Hdd Hf) as (result & t' & Ei & _); [|by exists result, t'].
    unfold check_review in Hc. destruct (negb _); [done|]. destruct (final_decision _); [|done]. by destruct (negb _).
Qed.

(** C7 Every run that awaits review can be decided.  In every state the system can reach, crashes
    included, a run that awaits review and has no decision takes any decision its checkpoint
    does not contradict: the request answers with the new decision and commits it, with the
    statuses it implies, in one transaction; all it needs is a decision id that is new. *)
Theorem awaiting_run_can_be_decided wt0 w t replies dd run :
  empty_system wt0 → rtc system wt0 (w, t) →
  run ∈ workflow_runs (w_db w) → processing_status run = "awaiting_review" →
  decisions_of (run_id run) (w_db w) = [] →
  in_strs dd ["approved"; "rejected"] = true → fresh_decision_id w →
  (∀ d, final_decision (values (aget_state (run_id run) t)) = Some d → d = dd) →
  ∃ dec f s' t', decide_review (graph replies) (run_id run) dd (session_of w, t)
      = (Ok (Decided (decided_run dd run) dec false), (s', t'))
    ∧ disposition dec = dd ∧ decision_run_id dec = run_id run
    ∧ committed s' = on_audit_logs f (on_workflow_runs
        (update_where (λ r, String.eqb (run_id r) (run_id run)) (λ _, decided_run dd run))
        (on_review_decisions (λ l, l ++ [dec]) (w_db w))).
Proof using All.
  intros H0 H Hin Haw Hno Hdd Hfresh Hagree.
  assert (I : db_safe (w, t)) by (by eapply reachable_safe).
  apply decide_succeeds; try done. split; [split; [|done]|].
  - unfold runs_with. apply where_run; [apply (si_runs _ _ I)|done].
  - unfold processing_status_of. by rewrite Haw.
Qed.
End Reviewers.

(** ** Witnesses *)

(** Two reviewers of the run of [SystemSafety] that disagree. *)
Definition demo_reviewers : list reviewer :=
  [mk_reviewer demo_rid "approved" Waiting; mk_reviewer demo_rid "rejected" Waiting].

Lemma demo_arriving : arriving demo_reviewers.
Proof. intros r [->| ->%list_elem_of_singleton]%elem_of_cons; by split. Qed.

Abbreviation demo_concurrent := (concurrent_step demo_fields demo_triage 72).

Lemma demo_reviews_ok : reviews_ok demo_uploaded demo_reviewers.
Proof. exact (arriving_ok demo_fields demo_triage 72 demo_start _ _ demo_start_empty demo_uploaded_reached demo_arriving). Qed.

Lemma own_concurrent x y :
  rtc (own_step demo_fields demo_triage 72) x y → rtc demo_concurrent x y.
Proof. apply rtc_subrel. intros ? ? H. by apply cs_own. Qed.

Lemma concurrent_reviews_atomic_witness :
  ∃ wt' rs', all_answered rs'
    ∧ rtc (atomic_step demo_fields demo_triage 72)
        (demo_uploaded, [(demo_rid, "approved", None); (demo_rid, "rejected", None)]) (wt', request_of <$> rs').
Proof.
  destruct (reviews_complete demo_fields demo_triage 72 _ _ demo_reviews_ok) as (wt' & rs' & H & Ha).
  destruct (concurrent_reviews_atomic demo_fields demo_triage 72 demo_start demo_uploaded demo_reviewers wt' rs'
    demo_start_empty demo_uploaded_reached demo_arriving (own_concurrent _ _ H)) as [Hat _].
  exists wt', rs'. split; [exact Ha|exact Hat].
Defined.

Lemma concurrent_reviews_complete_witness :
  ∃ wt' rs', rtc (own_step demo_fields demo_triage 72) (demo_uploaded, demo_reviewers) (wt', rs')
    ∧ all_answered rs'.
Proof.
  exact (proj1 (concurrent_reviews_complete demo_fields demo_triage 72 demo_start demo_uploaded demo_reviewers
    demo_uploaded demo_reviewers demo_start_empty demo_uploaded_reached demo_arriving (rtc_refl _ _))).
Defined.

Lemma awaiting_run_can_be_decided_witness :
  ∃ dec s' t', decide_review demo_release_graph (run_id (the_run demo_uploaded)) "rejected"
      (session_of demo_uploaded.1, demo_uploaded.2)
    = (Ok (Decided (decided_run "rejected" (the_run demo_uploaded)) dec false), (s', t'))
    ∧ disposition dec = "rejected".
Proof.
  destruct (awaiting_run_can_be_decided demo_fields demo_triage 72 demo_start demo_uploaded.1 demo_uploaded.2
    (demo_replies 2000) "rejected" (the_run demo_uploaded) demo_start_empty)
    as (dec & f & s' & t' & E0 & Hd & _).
  - assert (Ep : (demo_uploaded.1, demo_uploaded.2) = demo_uploaded) by (symmetry; apply surjective_pairing).
    rewrite Ep. exact demo_uploaded_reached.
  - apply the_run_elem. vm_compute. reflexivity.
  - vm_compute. reflexivity.
  - vm_compute. reflexivity.
  - reflexivity.
  - unfold fresh_decision_id.
    assert (Hno : review_decisions (w_db demo_uploaded.1) = []) by (vm_compute; reflexivity).
    rewrite Hno. apply not_elem_of_nil.
  - assert (Hn : final_decision (values (aget_state (run_id (the_run demo_uploaded)) demo_uploaded.2)) = None)
      by (vm_compute; reflexivity).
    rewrite Hn. discriminate.
  - exists dec, s', t'. split; [exact E0|exact Hd].
Defined.
