(* ===== verification/Dispatchers.v ===== *)
(** * Concurrent dispatchers

    [dispatch_pending_sla_notifications] of [app/services/notifier.py] by any number of
    processes at once, beside their scanners.  A turn is cut at its commits: the first event
    whose row no one else has locked is locked and marked ([SKIP LOCKED]), the mark is
    committed, the message is sent, the outcome is recorded; a process may die anywhere.  The
    log [sh_accepted] has the events whose message went out, in order: the sending returned, or
    the task was stopped in the middle of it and the message may be out all the same.  A sending
    that raises is taken to have sent nothing, as the code takes it when it makes the event
    failed. *)

From S2P Require Import Prelude PyText DateTime PyFloat Json Database MissingDocs Shipments.
From S2P Require Import Reconciliation SlaScanner Workflow Frame BusinessState Health Notifier Schedulers.
From stdpp Require Import relations.
From Stdlib Require Import Ascii.
Local Open Scope string_scope.
Local Open Scope list_scope.
Local Open Scope nat_scope.

(** ** A turn, by its commits *)

Inductive turn :=
  | Idle
  | Marked (ev : ShipmentExceptionEvent) (p : exception_notice)
  | Telling (i : uuid) (p : exception_notice)
  | Told (i : uuid) (failure : option exn)
  | Ended.

(** The rows that are locked. *)
Definition held (g : turn) : list uuid := match g with Marked ev _ => [event_id ev] | _ => [] end.

(** The select with [with_for_update(skip_locked=True)] and [limit(1)]. *)
Definition pick_event (locked : list uuid) (d : database)
  : option (ShipmentExceptionEvent * ShipmentException * Shipment) :=
  head (sort_by occurs_leb
    (where_ (λ r, negb (existsb (N.eqb (event_id r.1.1)) locked)) (dispatchable d))).

(** The end of the first session. *)
Definition mark_sending (ev : ShipmentExceptionEvent) : M session unit :=
  _ ← save_event (sending ev); commit.

Definition outcome_event (failure : option exn) : datetime → ShipmentExceptionEvent → ShipmentExceptionEvent :=
  match failure with None => sent_event | Some e => failed_event e end.

(** Alone, that is [claim_event]. *)
Lemma pick_unlocked d : pick_event [] d = next_event d.
Proof.
  unfold pick_event, next_event. do 2 f_equal. unfold where_. induction (dispatchable d) as [|r l IH]; [done|].
  cbn in *. by rewrite IH.
Qed.

Lemma claim_event_marks s :
  claim_event s = (row ← select (pick_event []);
                   match row with
                   | None => mret None
                   | Some (ev, _, sh) => _ ← mark_sending ev; mret (Some (event_id ev, notice_of ev sh))
                   end) s.
Proof.
  unfold claim_event. rewrite !bind_unfold. unfold select, gets. rewrite pick_unlocked.
  destruct (next_event (working s)) as [[[ev x] sh]|]; [|done]. unfold mark_sending. rewrite !bind_unfold.
  by destruct (save_event (sending ev) s) as [[]].
Qed.

Section Dispatchers.
Context {X : Type} (mail : mailer X).

(** The tables and the mailbox, and what the mail server accepted. *)
Record shared := mk_shared { sh_notifier : @notifier X; sh_accepted : list uuid }.

Definition sh_world (sh : shared) : world := nt_world (sh_notifier sh).
Definition events_in (sh : shared) : list ShipmentExceptionEvent := exception_events (w_db (sh_world sh)).

Inductive turn_step (locked : list uuid) : turn → shared → turn → shared → Prop :=
  | ts_pick ev x s sh :
      pick_event locked (w_db (sh_world sh)) = Some (ev, x, s) →
      turn_step locked Idle sh (Marked ev (notice_of ev s)) sh
  | ts_done sh : pick_event locked (w_db (sh_world sh)) = None → turn_step locked Idle sh Ended sh
  | ts_commit ev p n acc r n' :
      on_world (run_session (mark_sending ev)) n = (r, n') →
      turn_step locked (Marked ev p) (mk_shared n acc)
        (match r with Ok _ => Telling (event_id ev) p | Raise _ => Ended end) (mk_shared n' acc)
  | ts_deliver i p n acc failure n' :
      deliver mail p n = (Ok failure, n') →
      turn_step locked (Telling i p) (mk_shared n acc) (Told i failure)
        (mk_shared n' (match failure with None => acc ++ [i] | Some _ => acc end))
  | ts_stopped i p n acc acc' e n' :
      deliver mail p n = (Raise e, n') → acc' = acc ∨ acc' = acc ++ [i] →
      turn_step locked (Telling i p) (mk_shared n acc) Ended (mk_shared n' acc')
  | ts_record i failure n acc r n' :
      (_ ← match failure with
           | None => mret tt
           | Some e => on_health (λ now, on_notification_outcome (failed now (reason_code_for_exception e)))
           end;
       on_world (run_session (update_event i (outcome_event failure)))) n = (r, n') →
      turn_step locked (Told i failure) (mk_shared n acc)
        (match r, failure with Ok _, None => Idle | _, _ => Ended end) (mk_shared n' acc)
  | ts_die g sh : turn_step locked g sh Ended sh.

(** What the rest of the program does to the events: it adds some. *)
Definition extends (d0 d : database) : Prop :=
  NoDup (event_id <$> exception_events d)
  ∧ ∃ new, exception_events d = exception_events d0 ++ new
         ∧ Forall (λ ev, notification_status ev = "pending") new.

Definition with_world (w : world) (sh : shared) : shared :=
  mk_shared (mk_notifier w (nt_mail (sh_notifier sh)) (nt_health (sh_notifier sh))) (sh_accepted sh).

Inductive dispatch_step : list turn * shared → list turn * shared → Prop :=
  | dp_turn k g g' gs sh sh' :
      gs !! k = Some g → turn_step (gs ≫= held) g sh g' sh' → dispatch_step (gs, sh) (<[k := g']> gs, sh')
  | dp_rest gs sh w : extends (w_db (sh_world sh)) (w_db w) → dispatch_step (gs, sh) (gs, with_world w sh)
  | dp_start gs sh : dispatch_step (gs, sh) (gs ++ [Idle], sh).
End Dispatchers.

(** ** The invariant *)

(** The event a turn is about. *)
Definition busy (g : turn) : list uuid :=
  match g with Marked ev _ => [event_id ev] | Telling i _ | Told i _ => [i] | Idle | Ended => [] end.

Definition row_of (i : uuid) (statuses : list string) (evs : list ShipmentExceptionEvent) : Prop :=
  ∃ ev, ev ∈ evs ∧ event_id ev = i ∧ notification_status ev ∈ statuses.

Definition turn_ok (g : turn) (evs : list ShipmentExceptionEvent) (acc : list uuid) : Prop :=
  match g with
  | Marked ev _ => ev ∈ evs ∧ to_notify ev = true
  | Telling i _ | Told i (Some _) => row_of i ["sending"] evs ∧ i ∉ acc
  | Told i None => row_of i ["sending"] evs ∧ i ∈ acc
  | Idle | Ended => True
  end.

Record turns_inv (before : list uuid) (gs : list turn) (evs : list ShipmentExceptionEvent) (acc : list uuid)
  : Prop := {
  ti_ids : NoDup (event_id <$> evs);
  ti_turns : ∀ k g, gs !! k = Some g → turn_ok g evs acc;
  ti_alone : ∀ k k' g g' i, gs !! k = Some g → gs !! k' = Some g' → i ∈ busy g → i ∈ busy g' → k = k';
  ti_once : NoDup acc;
  ti_accepted : ∀ i, i ∈ acc → row_of i ["sending"; "sent"] evs;
  ti_sent : ∀ ev, ev ∈ evs → notification_status ev = "sent" → event_id ev ∈ acc ∨ event_id ev ∈ before
}.

Lemma row_unique i sts ev evs :
  NoDup (event_id <$> evs) → row_of i sts evs → ev ∈ evs → event_id ev = i → notification_status ev ∈ sts.
Proof.
  intros Hnd (x & Hx & Hid & Hs) Hev Hi. assert (ev = x) as ->; [|done].
  apply (NoDup_fmap_inj event_id evs); [done..|congruence].
Qed.

Lemma row_of_kept i sts evs evs' :
  (∀ ev, ev ∈ evs → event_id ev = i → ev ∈ evs') → row_of i sts evs → row_of i sts evs'.
Proof. intros H (ev & Hev & Hi & Hs). exists ev. auto. Qed.

Lemma turn_ok_kept g evs evs' acc acc' :
  (∀ ev, ev ∈ evs → event_id ev ∈ busy g → ev ∈ evs') → (∀ i, i ∈ busy g → i ∈ acc' ↔ i ∈ acc) →
  turn_ok g evs acc → turn_ok g evs' acc'.
Proof.
  intros He Ha. destruct g as [|ev p|i p|i [e|]|]; cbn [turn_ok busy] in *; [done| | | | |done].
  - intros [Hev Ht]. split; [apply He; [done|apply list_elem_of_here]|done].
  - intros [Hr Hi]. rewrite Ha by apply list_elem_of_here. split; [|done].
    revert Hr. apply row_of_kept. intros ev Hev E. apply He; [done|]. rewrite E. apply list_elem_of_here.
  - intros [Hr Hi]. rewrite Ha by apply list_elem_of_here. split; [|done].
    revert Hr. apply row_of_kept. intros ev Hev E. apply He; [done|]. rewrite E. apply list_elem_of_here.
  - intros [Hr Hi]. rewrite Ha by apply list_elem_of_here. split; [|done].
    revert Hr. apply row_of_kept. intros ev Hev E. apply He; [done|]. rewrite E. apply list_elem_of_here.
Qed.

(** A turn that moves on alone: the table and the log stay. *)
Lemma inv_turn before gs evs acc k g' :
  turns_inv before gs evs acc → turn_ok g' evs acc →
  (∀ i j x, i ∈ busy g' → gs !! j = Some x → i ∈ busy x → j = k) →
  turns_inv before (<[k := g']> gs) evs acc.
Proof.
  intros [I1 I2 I3 I4 I5 I6] Hg Hb. split; try done.
  - intros j x [(-> & <- & _)|[_ Hx]]%list_lookup_insert_Some; [done|by apply (I2 j)].
  - intros j j' x x' i [(<- & <- & _)|[Hj Hx]]%list_lookup_insert_Some
      [(<- & <- & _)|[Hj' Hx']]%list_lookup_insert_Some Hi Hi'; [done| | |by eapply I3].
    + symmetry. by eapply Hb.
    + by eapply Hb.
Qed.

(** A turn that changes the row of its event, or the log of it. *)
Lemma inv_focus before gs evs acc evs' acc' k g g' i :
  turns_inv before gs evs acc → gs !! k = Some g → i ∈ busy g → busy g' ⊆ [i] →
  event_id <$> evs' = event_id <$> evs → (∀ x, event_id x ≠ i → x ∈ evs' ↔ x ∈ evs) →
  (∀ j, j ≠ i → j ∈ acc' ↔ j ∈ acc) → turn_ok g' evs' acc' → NoDup acc' →
  (i ∈ acc' → row_of i ["sending"; "sent"] evs') →
  (∀ ev, ev ∈ evs' → event_id ev = i → notification_status ev = "sent" → i ∈ acc' ∨ i ∈ before) →
  turns_inv before (<[k := g']> gs) evs' acc'.
Proof.
  intros [I1 I2 I3 I4 I5 I6] Hk Hi Hb Hids Hrows Hacc Hg Hnd Hacci Hsent.
  assert (Hoth : ∀ j x l, j ≠ k → gs !! j = Some x → l ∈ busy x → l ≠ i).
  { intros j x l Hj Hx Hl ->. by apply Hj, (I3 j k x g i). }
  split; [by rewrite Hids| | |done| |].
  - intros j x [(-> & <- & _)|[Hj Hx]]%list_lookup_insert_Some; [done|].
    apply (turn_ok_kept x evs evs' acc); [| |by apply (I2 j)].
    + intros ev Hev Hbx. apply Hrows; [|done]. by apply (Hoth j x).
    + intros l Hl. apply Hacc. by apply (Hoth j x).
  - intros j j' x x' l [(<- & <- & _)|[Hj Hx]]%list_lookup_insert_Some
      [(<- & <- & _)|[Hj' Hx']]%list_lookup_insert_Some Hl Hl'; [done| | |by eapply I3].
    + apply Hb, list_elem_of_singleton in Hl as ->. exfalso. by apply (Hoth j' x' i).
    + apply Hb, list_elem_of_singleton in Hl' as ->. exfalso. by apply (Hoth j x i).
  - intros j Hj. destruct (decide (j = i)) as [->|Hne]; [by apply Hacci|].
    apply (row_of_kept j _ evs); [|by apply I5, Hacc]. intros ev Hev <-. by apply Hrows.
  - intros ev Hev Hs. destruct (decide (event_id ev = i)) as [E|Hne]; [rewrite E; by apply (Hsent ev)|].
    destruct (I6 ev) as [H|H]; [by apply Hrows|done|left; by apply Hacc|by right].
Qed.

(** The rest of the program adds events, a new process adds a turn. *)
Lemma inv_rest before gs evs new acc :
  turns_inv before gs evs acc → NoDup (event_id <$> evs ++ new) →
  Forall (λ ev, notification_status ev = "pending") new → turns_inv before gs (evs ++ new) acc.
Proof.
  intros [I1 I2 I3 I4 I5 I6] Hnd Hnew. split; try done.
  - intros k g Hk. apply (turn_ok_kept g evs _ acc); [|done|by apply (I2 k)].
    intros ev Hev _. by apply elem_of_app; left.
  - intros i Hi. apply (row_of_kept i _ evs); [|by apply I5]. intros ev Hev _. by apply elem_of_app; left.
  - intros ev [Hev|Hev]%elem_of_app Hs; [by apply I6|].
    rewrite Forall_forall in Hnew. rewrite (Hnew ev Hev) in Hs. discriminate.
Qed.

Lemma inv_start before gs evs acc : turns_inv before gs evs acc → turns_inv before (gs ++ [Idle]) evs acc.
Proof.
  intros [I1 I2 I3 I4 I5 I6].
  assert (H : ∀ k g i, (gs ++ [Idle]) !! k = Some g → i ∈ busy g → gs !! k = Some g).
  { intros k g i [Hk|[_ Hk]]%lookup_app_Some Hi; [done|].
    apply list_lookup_singleton_Some in Hk as [_ <-]. by apply elem_of_nil in Hi. }
  split; try done.
  - intros k g [Hk|[_ Hk]]%lookup_app_Some; [by apply (I2 k)|].
    by apply list_lookup_singleton_Some in Hk as [_ <-].
  - intros k k' g g' i Hk Hk' Hi Hi'. eapply I3; eauto.
Qed.

(** ** What the sessions of a turn do *)

Lemma pick_facts locked d ev x s :
  pick_event locked d = Some (ev, x, s) →
  ev ∈ exception_events d ∧ to_notify ev = true ∧ event_id ev ∉ locked.
Proof.
  unfold pick_event. intros H%head_Some_elem_of. rewrite elem_of_sort_by in H.
  apply elem_of_where in H as [H Hl]. unfold dispatchable in H. apply elem_of_where in H as [H Ht].
  unfold joined in H. apply list_elem_of_bind in H as (ev' & H & Hin).
  apply list_elem_of_bind in H as (x' & H & _). apply list_elem_of_bind in H as (s' & H & _).
  apply list_elem_of_singleton in H as [= -> _ _]. split; [done|]. split; [done|].
  cbn [fst] in Hl. apply Bool.negb_true_iff in Hl. intros Hin'.
  assert (E : existsb (N.eqb (event_id ev')) locked = true); [|congruence].
  apply existsb_exists. exists (event_id ev'). rewrite <- list_elem_of_In. by rewrite N.eqb_refl.
Qed.

(** Saving a row and committing: the row is replaced, or nothing happened. *)
Definition written (ev : ShipmentExceptionEvent) (ok : bool) (w w' : world) : Prop :=
  exception_events (w_db w')
  = if ok then replaced ev (exception_events (w_db w)) else exception_events (w_db w).

Lemma mark_written ev w r w' :
  run_session (mark_sending ev) w = (r, w') → written (sending ev) (res_ok r) w w'.
Proof.
  rewrite run_session_unfold. unfold mark_sending, save_event, insist. rewrite !bind_unfold.
  destruct (ck_event _); intros [= <- <-]; [|done]. done.
Qed.

Lemma update_written i f w r w' ev :
  run_session (update_event i f) w = (r, w') → get_event i (w_db w) = Some ev →
  ∃ now, written (f now ev) (res_ok r) w w'.
Proof.
  rewrite run_session_unfold. unfold update_event, save_event, insist. rewrite bind_unfold.
  cbn [select gets session_of working]. intros H Hg. rewrite Hg in H. rewrite bind_unfold in H.
  cbn [db_clock gets] in H. rewrite !bind_unfold in H. exists (clock (w_env w)).
  destruct (ck_event _) eqn:E; cbn [senv] in H; rewrite E in H || idtac; injection H as <- <-; done.
Qed.

Lemma replaced_other ev' x l : event_id x ≠ event_id ev' → x ∈ replaced ev' l ↔ x ∈ l.
Proof.
  intros Hne. unfold replaced. rewrite elem_of_update_where. split.
  - intros (y & Hy & ->). destruct (N.eqb_spec (event_id y) (event_id ev')) as [E|]; done.
  - intros Hx. exists x. split; [done|]. by rewrite (proj2 (N.eqb_neq _ _) Hne).
Qed.

Lemma replaced_row ev' x l : x ∈ replaced ev' l → event_id x = event_id ev' → x = ev'.
Proof.
  unfold replaced. intros (y & Hy & ->)%elem_of_update_where.
  destruct (N.eqb_spec (event_id y) (event_id ev')); done.
Qed.

Lemma inv_written before gs evs acc k g g' ev ev' :
  turns_inv before gs evs acc → gs !! k = Some g → busy g = [event_id ev] → ev ∈ evs →
  event_id ev' = event_id ev → busy g' ⊆ [event_id ev] → turn_ok g' (replaced ev' evs) acc →
  (event_id ev ∈ acc → notification_status ev' ∈ ["sending"; "sent"]) →
  (notification_status ev' = "sent" → event_id ev ∈ acc) →
  turns_inv before (<[k := g']> gs) (replaced ev' evs) acc.
Proof.
  intros I Hk Hg Hev Hid Hb Hok Ha Hs.
  assert (Hnew : ev' ∈ replaced ev' evs) by (by apply (replaced_in ev)).
  apply (inv_focus before gs evs acc _ _ k g g' (event_id ev) I Hk); [| |apply replaced_ids| | | |apply I| |];
    [rewrite Hg; apply list_elem_of_here|done| |done|done| |].
  - intros x Hx. apply replaced_other. congruence.
  - intros Hin. exists ev'. split; [done|]. split; [done|]. by apply Ha.
  - intros x Hx Hi Hst. left. apply Hs. rewrite <- Hst. f_equal. symmetry.
    apply (replaced_row ev' x evs); [done|congruence].
Qed.

Lemma held_of gs k g i : gs !! k = Some g → i ∈ held g → i ∈ gs ≫= held.
Proof. intros Hk Hi. apply list_elem_of_bind. exists g. split; [done|]. by eapply list_elem_of_lookup_2. Qed.

Lemma not_sending ev : to_notify ev = true → notification_status ev ∉ ["sending"; "sent"].
Proof.
  unfold to_notify. intros H Hin. apply elem_of_cons in Hin as [E|Hin].
  - by rewrite E in H.
  - apply list_elem_of_singleton in Hin as E. by rewrite E in H.
Qed.

(** No turn has the event that is picked. *)
Lemma picked_is_free before gs evs acc ev k g :
  turns_inv before gs evs acc → ev ∈ evs → to_notify ev = true → event_id ev ∉ gs ≫= held →
  gs !! k = Some g → event_id ev ∉ busy g.
Proof.
  intros I Hev Ht Hl Hk Hb. pose proof (ti_turns _ _ _ _ I k g Hk) as Hok.
  assert (Hr : ¬ row_of (event_id ev) ["sending"] evs).
  { intros Hr. apply (not_sending ev Ht).
    pose proof (row_unique _ _ ev evs (ti_ids _ _ _ _ I) Hr Hev eq_refl) as Hs.
    apply list_elem_of_singleton in Hs as ->. apply list_elem_of_here. }
  destruct g as [|ev2 p|i p|i [e|]|]; cbn [busy turn_ok] in *; try by apply elem_of_nil in Hb.
  - apply Hl. by apply (held_of gs k _ _ Hk).
  - apply list_elem_of_singleton in Hb as <-. by destruct Hok.
  - apply list_elem_of_singleton in Hb as <-. by destruct Hok.
  - apply list_elem_of_singleton in Hb as <-. by destruct Hok.
Qed.

Lemma not_accepted before gs evs acc ev :
  turns_inv before gs evs acc → ev ∈ evs → to_notify ev = true → event_id ev ∉ acc.
Proof.
  intros I Hev Ht Ha. apply (not_sending ev Ht).
  exact (row_unique _ _ ev evs (ti_ids _ _ _ _ I) (ti_accepted _ _ _ _ I _ Ha) Hev eq_refl).
Qed.

Lemma inv_ended before gs evs acc k g' :
  turns_inv before gs evs acc → busy g' = [] → turn_ok g' evs acc → turns_inv before (<[k := g']> gs) evs acc.
Proof.
  intros I Hb Hok. apply (inv_turn before gs evs acc k g' I Hok).
  intros i j x Hi. rewrite Hb in Hi. by apply elem_of_nil in Hi.
Qed.

Lemma row_sending i evs : row_of i ["sending"] evs → row_of i ["sending"; "sent"] evs.
Proof.
  intros (ev & Hev & Hi & Hs%list_elem_of_singleton). exists ev. split; [done|]. split; [done|].
  rewrite Hs. apply list_elem_of_here.
Qed.

(** ** The steps keep the invariant *)

Section Kept.
Context {X : Type} (mail : mailer X) (before : list uuid).
Implicit Types (sh : @shared X) (gs : list turn).

Definition table_inv gs sh : Prop := turns_inv before gs (events_in sh) (sh_accepted sh).

Lemma commit_kept gs k ev p (n n' : @notifier X) acc r :
  table_inv gs (mk_shared n acc) → gs !! k = Some (Marked ev p) →
  on_world (run_session (mark_sending ev)) n = (r, n') →
  table_inv (<[k := match r with Ok _ => Telling (event_id ev) p | Raise _ => Ended end]> gs)
    (mk_shared n' acc).
Proof using Type.
  intros I Hk. unfold on_world. destruct (run_session _ _) as [r' w'] eqn:E. intros [= <- <-].
  apply mark_written in E. unfold table_inv, events_in, sh_world in *. cbn in I |- *.
  rewrite E. clear E. destruct (ti_turns _ _ _ _ I k _ Hk) as [Hev Ht].
  pose proof (not_accepted _ _ _ _ ev I Hev Ht) as Hna.
  destruct r' as [u|e]; cbn [res_ok]; [|by apply inv_ended].
  apply (inv_written before gs _ acc k (Marked ev p) _ ev); try done. split; [|done].
  exists (sending ev). split; [by apply (replaced_in ev)|]. split; [done|]. apply list_elem_of_here.
Qed.

(** A message that was accepted, and one that was not. *)
Lemma accepted_kept gs k i p evs acc g' :
  turns_inv before gs evs acc → gs !! k = Some (Telling i p) → busy g' ⊆ [i] →
  turn_ok g' evs (acc ++ [i]) → turns_inv before (<[k := g']> gs) evs (acc ++ [i]).
Proof using Type.
  intros I Hk Hb Hok. destruct (ti_turns _ _ _ _ I k _ Hk) as [Hr Hna].
  assert (Hin : i ∈ acc ++ [i]) by (apply elem_of_app; right; apply list_elem_of_here).
  apply (inv_focus before gs evs acc evs _ k (Telling i p) g' i I Hk);
    [apply list_elem_of_here|done|done|done| |done| | |by left].
  - intros j Hj. rewrite elem_of_app, list_elem_of_singleton. split; [|by left]. by intros [].
  - apply NoDup_app. split; [apply I|]. split; [|apply NoDup_singleton].
    by intros j Hj ->%list_elem_of_singleton.
  - intros _. by apply row_sending.
Qed.

Lemma unaccepted_kept gs k i p evs acc g' :
  turns_inv before gs evs acc → gs !! k = Some (Telling i p) → busy g' ⊆ [i] → turn_ok g' evs acc →
  turns_inv before (<[k := g']> gs) evs acc.
Proof using Type.
  intros I Hk Hb Hok. apply (inv_turn before gs evs acc k g' I Hok). intros j l x Hj Hl Hx.
  apply Hb, list_elem_of_singleton in Hj as ->.
  apply (ti_alone _ _ _ _ I l k x _ i Hl Hk Hx). apply list_elem_of_here.
Qed.

Lemma delivered_events p (n n' : @notifier X) o :
  deliver mail p n = (o, n') → nt_world n' = nt_world n.
Proof using Type. intros E. pose proof (deliver_world mail p n) as H. rewrite E in H. apply H. Qed.

Lemma deliver_kept gs k i p (n n' : @notifier X) acc failure :
  table_inv gs (mk_shared n acc) → gs !! k = Some (Telling i p) →
  deliver mail p n = (Ok failure, n') →
  table_inv (<[k := Told i failure]> gs)
    (mk_shared n' (match failure with None => acc ++ [i] | Some _ => acc end)).
Proof using Type.
  intros I Hk E%delivered_events. unfold table_inv, events_in, sh_world in *. cbn in I |- *. rewrite E.
  destruct (ti_turns _ _ _ _ I k _ Hk) as [Hr Hna].
  destruct failure as [e|]; [by apply (unaccepted_kept _ _ i p)|].
  apply (accepted_kept _ _ i p); try done. split; [done|]. apply elem_of_app. right.
  apply list_elem_of_here.
Qed.

Lemma stopped_kept gs k i p (n n' : @notifier X) acc acc' e :
  table_inv gs (mk_shared n acc) → gs !! k = Some (Telling i p) →
  deliver mail p n = (Raise e, n') → acc' = acc ∨ acc' = acc ++ [i] →
  table_inv (<[k := Ended]> gs) (mk_shared n' acc').
Proof using Type.
  intros I Hk E%delivered_events. unfold table_inv, events_in, sh_world in *. cbn in I |- *. rewrite E.
  intros [-> | ->].
  - by apply inv_ended.
  - apply (accepted_kept _ _ i p); try done. apply list_subseteq_nil.
Qed.

Lemma get_row i sts evs :
  row_of i sts evs → ∃ ev, find_first (λ x, N.eqb (event_id x) i) evs = Some ev ∧ event_id ev = i ∧ ev ∈ evs.
Proof using Type.
  intros (ev & Hev & Hi & _). destruct (find_first _ evs) as [x|] eqn:E.
  - apply find_first_Some in E as [Hx Hp]. exists x. split; [done|]. by apply N.eqb_eq in Hp.
  - rewrite find_first_None in E. specialize (E ev Hev). apply N.eqb_neq in E. done.
Qed.

Lemma outcome_kept gs k i failure (n n' : @notifier X) acc r :
  table_inv gs (mk_shared n acc) → gs !! k = Some (Told i failure) →
  on_world (run_session (update_event i (outcome_event failure))) n = (r, n') →
  table_inv (<[k := match r, failure with Ok _, None => Idle | _, _ => Ended end]> gs) (mk_shared n' acc).
Proof using Type.
  intros I Hk. unfold on_world. destruct (run_session _ _) as [r' w'] eqn:E. intros [= <- <-].
  unfold table_inv, events_in, sh_world in *. cbn in I |- *.
  pose proof (ti_turns _ _ _ _ I k _ Hk) as Hok.
  assert (Hr : row_of i ["sending"] (exception_events (w_db (nt_world n)))) by (destruct failure; apply Hok).
  destruct (get_row _ _ _ Hr) as (ev & Hg & Hi & Hev).
  destruct (update_written _ _ _ _ _ _ E Hg) as [now Hw]. unfold written in Hw. rewrite Hw. subst i.
  clear E Hw. destruct r' as [u|e]; cbn [res_ok]; [|by apply inv_ended].
  destruct failure as [e|]; destruct Hok as [_ Ha].
  - apply (inv_written before gs _ acc k (Told (event_id ev) (Some e)) _ ev); try done.
    apply list_subseteq_nil.
  - apply (inv_written before gs _ acc k (Told (event_id ev) None) _ ev); try done.
    + apply list_subseteq_nil.
    + intros _. apply list_elem_of_further, list_elem_of_here.
Qed.

Lemma turn_kept gs k g g' sh sh' :
  table_inv gs sh → gs !! k = Some g → turn_step mail (gs ≫= held) g sh g' sh' →
  table_inv (<[k := g']> gs) sh'.
Proof using Type.
  intros I Hk H. inversion H as [ev x s ? Hp|? Hp|ev p n acc r n' Hc|i p n acc f n' Hd|
    i p n acc acc' e n' Hd Ha|i f n acc r n' Hr|]; subst; try by apply inv_ended.
  - apply pick_facts in Hp as (Hev & Ht & Hl). apply (inv_turn _ _ _ _ _ _ I); [done|].
    intros i j g Hi%list_elem_of_singleton Hj Hg. subst i. exfalso. revert Hg.
    by apply (picked_is_free before gs _ _ ev j g I).
  - by eapply commit_kept.
  - by eapply deliver_kept.
  - by eapply stopped_kept.
  - destruct f as [e|].
    + rewrite bind_unfold in Hr. cbn [on_health modify] in Hr.
      match type of Hr with on_world _ ?m = _ => exact (outcome_kept gs k i (Some e) m n' acc r I Hk Hr) end.
    + exact (outcome_kept gs k i None n n' acc r I Hk Hr).
Qed.

Lemma step_kept gs sh gs' sh' :
  dispatch_step mail (gs, sh) (gs', sh') → table_inv gs sh → table_inv gs' sh'.
Proof using Type.
  intros H I. inversion H as [k g g' ? ? ? Hk Ht|? ? w (Hnd & new & Hn & Hp)|]; subst.
  - by eapply turn_kept.
  - unfold table_inv, events_in, sh_world in *. cbn in I |- *. rewrite Hn in Hnd |- *. by apply inv_rest.
  - by apply inv_start.
Qed.

Lemma steps_kept st st' :
  rtc (dispatch_step mail) st st' → table_inv st.1 st.2 → table_inv st'.1 st'.2.
Proof using Type.
  induction 1 as [|st [gs1 sh1] st2 H1 _ IH]; [done|]. intros I. apply IH.
  destruct st as [gs sh]. by apply (step_kept gs sh).
Qed.
End Kept.

(** ** The scanners beside them *)

(** A session that only adds events. *)
Definition grows (d0 : database) (s : session) : Prop := extends d0 (working s) ∧ extends d0 (committed s).

Abbreviation grown d0 := (preserves (grows d0)).

Section Grows.
Context (d0 : database).

Lemma grown_uuid4 : grown d0 uuid4.
Proof. intros s H. unfold uuid4, with_env. by session_unfold. Qed.
Lemma grown_clock : grown d0 db_clock.
Proof. by intros s. Qed.
Lemma grown_select {A} (q : database → A) : grown d0 (select q).
Proof. by intros s. Qed.
Lemma grown_insist v what : grown d0 (insist v what).
Proof. intros s H. by destruct v. Qed.
Lemma grown_rollback : grown d0 rollback.
Proof. by intros s [_ H]. Qed.
Lemma grown_commit : grown d0 commit.
Proof. by intros s [H _]. Qed.
Lemma grown_write (f : database → database) :
  (∀ d, exception_events (f d) = exception_events d) → grown d0 (modify (on_working f)).
Proof. intros Hf s [H1 H2]. split; [|done]. unfold extends. cbn. by rewrite Hf. Qed.

Lemma grown_insert_event mk :
  (∀ i, event_id (mk i) = i) → (∀ i, notification_status (mk i) = "pending") → grown d0 (insert_event mk).
Proof.
  intros Hid Hp s Hs. unfold insert_event. rewrite bind_unfold.
  pose proof (grown_uuid4 s Hs) as H1. destruct (uuid4 s) as [[i|e] s1]; [|done].
  cbn [snd] in H1. rewrite bind_unfold. cbn [select gets]. rewrite bind_unfold. unfold insist.
  destruct (ck_event (mk i)); [|done]. unfold mret at 1, M_ret at 1. rewrite bind_unfold.
  destruct (existsb (λ x, N.eqb (event_id x) i) (exception_events (working s1))) eqn:Ei; [done|].
  cbn [negb]. unfold mret at 1, M_ret at 1. rewrite bind_unfold.
  destruct (existsb (λ x, N.eqb (event_exception_id x) _ && _) _); [done|].
  cbn [negb]. unfold mret at 1, M_ret at 1. rewrite bind_unfold.
  destruct (existsb _ (shipment_exceptions _)); [|done]. unfold mret at 1, M_ret at 1. rewrite bind_unfold.
  destruct H1 as [(Hn & new & Hnew & Hall) H2]. split; [|done]. split; cbn.
  - rewrite fmap_app. apply NoDup_app. split_and!; [done| |apply NoDup_singleton].
    intros k (x & -> & Hx)%list_elem_of_fmap Hk. apply list_elem_of_singleton in Hk. rewrite Hid in Hk.
    rewrite existsb_false_Forall, Forall_forall in Ei. specialize (Ei x Hx).
    by apply N.eqb_neq in Ei.
  - exists (new ++ [mk i]). rewrite Hnew, app_assoc. split; [done|]. apply Forall_app. split; [done|].
    by apply Forall_singleton.
Qed.
End Grows.

#[export] Hint Resolve grown_uuid4 grown_clock grown_select grown_insist grown_commit grown_rollback : frame.
#[export] Hint Extern 1 (preserves (grows _) (modify (on_working _))) =>
  (apply grown_write; intros ?; reflexivity) : frame.
#[export] Hint Extern 1 (preserves (grows _) (insert_event _)) =>
  (apply grown_insert_event; intros ?; reflexivity) : frame.

Lemma grown_scalar d0 {A} (l : list A) : grown d0 (scalar_one_or_none l).
Proof. unfold scalar_one_or_none. frame. Qed.
#[local] Hint Resolve grown_scalar : frame.

Lemma grown_reconcile d0 sh rid now sla source key :
  grown d0 (reconcile_shipment sh rid now sla source key).
Proof.
  unfold reconcile_shipment, get_linked, get_document, find_result, save_shipment, insert_result,
    save_result, sync_missing_document_exception, insert_exception, save_exception.
  frame.
Qed.

(** A claim of the scanner is a step of the rest. *)
Lemma scan_extends now sla w :
  NoDup (event_id <$> exception_events (w_db w)) → extends (w_db w) (w_db (claim_and_evaluate_one now sla w).2).
Proof.
  intros Hnd. unfold claim_and_evaluate_one. rewrite run_session_unfold. cbn [snd world_of w_db].
  assert (H0 : grows (w_db w) (session_of w)).
  { split; (split; [done|]); exists []; by rewrite app_nil_r. }
  refine (proj2 (preserves_bind (grows (w_db w)) _ _ (grown_select _ _) _ _ H0)).
  intros [sh|]; [|frame]. apply preserves_bind; [apply grown_reconcile|]. frame.
Qed.

(** ** One dispatcher alone *)

Section Alone.
Context {X : Type} (mail : mailer X).

Lemma alone g sh g' sh' :
  turn_step mail (held g ++ []) g sh g' sh' → dispatch_step mail ([g], sh) ([g'], sh').
Proof using Type. exact (dp_turn mail 0 g g' [g] sh sh' eq_refl). Qed.

Lemma claim_cases w r w' :
  run_session claim_event w = (r, w') →
  (pick_event [] (w_db w) = None ∧ r = Ok None ∧ w' = w)
  ∨ ∃ ev x s r', pick_event [] (w_db w) = Some (ev, x, s) ∧ run_session (mark_sending ev) w = (r', w')
      ∧ r = match r' with Ok _ => Ok (Some (event_id ev, notice_of ev s)) | Raise e => Raise e end.
Proof using Type.
  rewrite !run_session_unfold, claim_event_marks, bind_unfold. cbn [select gets session_of working].
  destruct (pick_event [] (w_db w)) as [[[ev x] s]|].
  - rewrite bind_unfold. intros [= <- <-]. right. exists ev, x, s, (mark_sending ev (session_of w)).1.
    rewrite run_session_unfold. split; [done|].
    by destruct (mark_sending ev (session_of w)) as [[]].
  - intros [= <- <-]. left. split; [done|]. split; [done|]. by destruct w.
Qed.

(** A dispatch, as long as its fuel lasts, is a turn of its own: so the steps have all that
    the function does. *)
Lemma dispatch_is_a_turn fuel : ∀ count (n : @notifier X) o n' acc,
  dispatch_pending_sla_notifications mail fuel count n = (o, n') → o ≠ Ok None →
  ∃ acc', rtc (dispatch_step mail) ([Idle], mk_shared n acc) ([Ended], mk_shared n' acc').
Proof using Type.
  induction fuel as [|fuel IH]; intros count n o n' acc H Ho; cbn [dispatch_pending_sla_notifications] in H.
  { injection H as <- <-. done. }
  rewrite bind_unfold in H. unfold on_world at 1 in H.
  destruct (run_session claim_event (nt_world n)) as [r w] eqn:Ec.
  apply claim_cases in Ec as [(Hp & -> & ->)|(ev & x & s & r' & Hp & Hm & ->)].
  { injection H as <- <-. exists acc. apply rtc_once, alone. destruct n. by apply ts_done. }
  assert (H1 : rtc (dispatch_step mail) ([Idle], mk_shared n acc)
    ([match r' with Ok _ => Telling (event_id ev) (notice_of ev s) | Raise _ => Ended end],
     mk_shared (mk_notifier w (nt_mail n) (nt_health n)) acc)).
  { eapply rtc_l; [apply alone; by apply (ts_pick mail _ ev x s)|]. apply rtc_once, alone, ts_commit.
    unfold on_world. by rewrite Hm. }
  destruct r' as [u|e]; [|injection H as <- <-; by exists acc].
  rewrite bind_unfold in H. destruct (deliver mail _ _) as [[failure|e] n2] eqn:Ed.
  2:{ injection H as <- <-. exists acc. eapply rtc_r; [exact H1|]. apply alone.
      eapply ts_stopped; [exact Ed|by left]. }
  pose proof (rtc_r _ _ _ H1 (alone _ _ _ _ (ts_deliver mail _ _ _ _ acc _ _ Ed))) as H2.
  assert (H3 : ∀ r3 n3,
    (_ ← match failure with
         | None => mret tt
         | Some e => on_health (λ now, on_notification_outcome (failed now (reason_code_for_exception e)))
         end;
     on_world (run_session (update_event (event_id ev) (outcome_event failure)))) n2 = (r3, n3) →
    ∃ acc', rtc (dispatch_step mail) ([Idle], mk_shared n acc)
      ([match r3, failure with Ok _, None => Idle | _, _ => Ended end], mk_shared n3 acc')).
  { intros r3 n3 H3. eexists. eapply rtc_r; [exact H2|]. apply alone, ts_record. exact H3. }
  clear H1 H2. destruct failure as [e|].
  - rewrite bind_unfold in H. cbn [on_health modify] in H. rewrite bind_unfold in H.
    match type of H with context [on_world ?m ?k] => destruct (on_world m k) as [r3 n3] eqn:E3 end.
    destruct (H3 r3 n3 E3) as [acc' Hr]. exists acc'. destruct r3; by injection H as <- <-.
  - rewrite bind_unfold in H.
    match type of H with context [on_world ?m ?k] => destruct (on_world m k) as [r3 n3] eqn:E3 end.
    destruct (H3 r3 n3 E3) as [acc' Hr]. destruct r3 as [u3|e3]; [|injection H as <- <-; by exists acc'].
    destruct (IH _ _ _ _ acc' H Ho) as [acc2 Hr2]. exists acc2. by etrans.
Qed.
End Alone.

(** ** Properties *)


(** Two dispatchers: the second finds the event of the first locked and ends, the message of
    the first is accepted. *)
Lemma demo_two_turns :
  ∃ sh, rtc (dispatch_step demo_mailer) ([], mk_shared demo_notifier []) ([Idle; Ended], sh)
    ∧ length (sh_accepted sh) = 1 ∧ nt_mail (sh_notifier sh) = nt_mail demo_dispatched.2.
Proof.
  eexists. split.
  - eapply rtc_l; [apply dp_start|]. eapply rtc_l; [apply dp_start|].
    eapply rtc_l; [eapply (dp_turn _ 0 Idle); [done|eapply ts_pick; vm_compute; reflexivity]|].
    eapply rtc_l; [eapply (dp_turn _ 1 Idle); [done|eapply ts_done; vm_compute; reflexivity]|].
    eapply rtc_l; [eapply (dp_turn _ 0); [done|eapply ts_commit; vm_compute; reflexivity]|].
    eapply rtc_l; [eapply (dp_turn _ 0); [done|eapply ts_deliver; vm_compute; reflexivity]|].
    eapply rtc_l; [eapply (dp_turn _ 0); [done|eapply ts_record; vm_compute; reflexivity]|].
    apply rtc_refl.
  - split; vm_compute; reflexivity.
Qed.

