(* ===== verification/QueueFrame.v ===== *)
(** * What every command leaves alone

    The frame of the Redis commands, one lemma for all of them: a command changes its own key
    only, and the entries of a stream only get fewer or are followed by one with a new id.  So
    the ids of the live stream stay apart, and a delivery that a worker holds keeps its id for
    itself, whatever any client does to the server. *)

From S2P Require Import Prelude PyText DateTime Json Database InvoiceJob Redis InvoiceQueue Frame.
From S2P Require Import QueueRoutes Workflow InvoiceWorker DeliveryLifecycle.
From Stdlib Require Import Ascii.
Local Open Scope string_scope.
Local Open Scope list_scope.
Local Open Scope nat_scope.

(** ** One command *)

(** The key a command is about. *)
Definition cmd_key {A} (c : cmd A) : string :=
  match c with
  | GET k | SETEX k _ _ | XADD k _ | XDEL k _ | XACK k _ _ | XRANGE k _ _ _ | XREVRANGE k _ _ _
  | XLEN k | XGROUP_CREATE k _ | XREADGROUP _ _ k _ | XAUTOCLAIM k _ _ _ _ | XPENDING_RANGE k _ _
  | XPENDING k _ | XCLAIM k _ _ _ _ | XINFO_GROUPS k | HSET k _ | HGET k _ | HGETALL k
  | HINCRBY k _ _ | DEL k | TYPE_ k => k
  end.

(** The entries of a stream: fewer of them, or one more with a new id. *)
Definition entries_step (k : string) (ks ks' : keyspace) : Prop :=
  id_pos ks <= id_pos ks'
  ∧ (s_entries (stream_at k ks') `sublist_of` s_entries (stream_at k ks)
     ∨ id_pos ks < id_pos ks'
       ∧ ∃ f, s_entries (stream_at k ks') = s_entries (stream_at k ks) ++ [(ids ks (id_pos ks), f)]).

Record command_effect (k : string) (ks ks' : keyspace) : Prop := {
  ce_ids : ids ks' = ids ks;
  ce_others : others_kept [k] ks ks';
  ce_entries : entries_step k ks ks'
}.

Lemma effect_none k ks : command_effect k ks ks.
Proof. split; [done|done|]. split; [done|by left]. Qed.

Lemma effect_put k v ks :
  s_entries (match v with RStream s => s | _ => empty_stream end) `sublist_of` s_entries (stream_at k ks) →
  command_effect k ks (put_key k v ks).
Proof.
  intros H. split; [done| |].
  - intros k' Hk. apply lookup_put_ne. set_solver.
  - split; [done|]. left. unfold stream_at at 1. by rewrite lookup_put_eq.
Qed.

Lemma effect_hash k d ks : command_effect k ks (put_key k (RHash d) ks).
Proof. apply effect_put, sublist_nil_l. Qed.

Lemma effect_del k ks : command_effect k ks (del_key k ks).
Proof.
  assert (H : ∀ k', lookup_key k' (del_key k ks) = if String.eqb k' k then None else lookup_key k' ks).
  { intros k'. unfold lookup_key, del_key. cbn. induction (keys ks) as [|[x v] l IH]; cbn.
    - by destruct (String.eqb k' k).
    - destruct (String.eqb_spec x k) as [->|Hx]; cbn; [rewrite IH; by destruct (String.eqb_spec k' k)|].
      rewrite IH. destruct (String.eqb_spec k' x) as [->|]; [|done].
      by rewrite (proj2 (String.eqb_neq _ _) Hx). }
  split; [done| |].
  - intros k' Hk. rewrite H. rewrite (proj2 (String.eqb_neq _ _)); [done|]. set_solver.
  - split; [done|]. left. unfold stream_at at 1. rewrite H, String.eqb_refl. apply sublist_nil_l.
Qed.

(** A command on a stream, once the stream was found. *)
Lemma effect_stream {A} k ks (f : stream → M keyspace A) :
  (command_effect k ks (f (stream_at k ks) ks).2) → command_effect k ks ((s ← get_stream k; f s) ks).2.
Proof.
  intros Hf. rewrite bind_unfold. unfold get_stream, stream_at in *.
  destruct (lookup_key k ks) as [[]|]; try apply effect_none; exact Hf.
Qed.

Lemma effect_of_hash {A} k ks (f : list (string * string) → M keyspace A) :
  (command_effect k ks (f (hash_at k ks) ks).2) → command_effect k ks ((d ← get_hash k; f d) ks).2.
Proof.
  intros Hf. rewrite bind_unfold. unfold get_hash, hash_at in *.
  destruct (lookup_key k ks) as [[]|]; try apply effect_none; exact Hf.
Qed.

Lemma effect_regroup k g x ks :
  command_effect k ks (put_key k (RStream (set_group g x (stream_at k ks))) ks).
Proof. by apply effect_put. Qed.

Lemma sublist_bool_filter {A} (p : A → bool) (l : list A) : List.filter p l `sublist_of` l.
Proof. induction l as [|x l IH]; cbn; [done|]. destruct (p x); by constructor. Qed.

Lemma effect_xadd k f ks :
  command_effect k ks
    (put_key k (RStream (set_entries (s_entries (stream_at k ks) ++ [(ids ks (id_pos ks), f)])
                           (stream_at k ks))) (next_id ks).2).
Proof.
  split; [done| |].
  - intros k' Hk. by rewrite lookup_put_ne by set_solver.
  - split; [cbn; lia|]. right. split; [cbn; lia|]. exists f. unfold stream_at at 1. by rewrite lookup_put_eq.
Qed.

Lemma effect_get_hash k ks : command_effect k ks (get_hash k ks).2.
Proof. unfold get_hash. destruct (lookup_key k ks) as [[]|]; apply effect_none. Qed.

Lemma effect_group {A} k g s ks (f : group → M keyspace A) :
  (∀ x, command_effect k ks (f x ks).2) → command_effect k ks ((x ← get_group k g s; f x) ks).2.
Proof.
  intros Hf. rewrite bind_unfold. unfold get_group. destruct (dict_get g (s_groups s)); [apply Hf|apply effect_none].
Qed.

Ltac effect :=
  repeat first
    [ apply effect_none | apply effect_regroup | apply effect_hash | apply effect_del | apply effect_xadd
    | apply effect_get_hash | apply effect_stream | apply effect_of_hash
    | apply effect_group; intros ?
    | apply effect_put; cbn [s_entries set_entries]; first [apply sublist_nil_l | apply sublist_bool_filter]
    | progress (rewrite ?bind_unfold;
                cbn [gets modify mret M_ret put_stream raise response_error fst snd])
    | match goal with |- context [next_id] => rewrite bind_unfold; cbn [next_id] end
    | case_match ].

Lemma documented_effect {A} (c : cmd A) ks : command_effect (cmd_key c) ks (documented c ks).2.
Proof.
  destruct c; cbn [documented cmd_key]; effect.
Qed.

(** ** The ids of a stream *)

Section Stamped.
Context (live_key : string).

Definition on_live (ks : keyspace) : list entry := s_entries (stream_at live_key ks).

(** The server gave this id. *)
Definition issued (ks : keyspace) (i : string) : Prop := ∃ n, n < id_pos ks ∧ i = ids ks n.

(** Ids are given once; those of the live stream were given, and are apart; and a delivery in
    the hands of a worker has the fields of the entry of its id, if that is still there. *)
Record stamped (hand : list StreamDelivery) (ks : keyspace) : Prop := {
  st_ids : ∀ m n, ids ks m = ids ks n → m = n;
  st_apart : NoDup (on_live ks).*1;
  st_live : ∀ e, e ∈ on_live ks → issued ks e.1;
  st_hand : ∀ d, d ∈ hand → issued ks (stream_id d)
            ∧ ∀ e, e ∈ on_live ks → e.1 = stream_id d → e.2 = d_fields d
}.

Lemma issued_more ks ks' i : ids ks' = ids ks → id_pos ks <= id_pos ks' → issued ks i → issued ks' i.
Proof. intros Hi Hp (n & Hn & ->). exists n. rewrite Hi. split; [lia|done]. Qed.

Lemma not_issued ks i : (∀ m n, ids ks m = ids ks n → m = n) → issued ks i → i ≠ ids ks (id_pos ks).
Proof. intros Hinj (n & Hn & ->) E%Hinj. lia. Qed.

Lemma stamped_step hand ks ks' :
  ids ks' = ids ks → entries_step live_key ks ks' → stamped hand ks → stamped hand ks'.
Proof.
  intros Hids [Hp Hstep] [S1 S2 S3 S4]. unfold on_live in *.
  destruct Hstep as [Hs|[Hlt [f Hs]]].
  - assert (Hin : ∀ e, e ∈ s_entries (stream_at live_key ks') → e ∈ s_entries (stream_at live_key ks))
      by (intros e; by apply sublist_subseteq).
    split; rewrite ?Hids; [done| | |].
    + eapply sublist_NoDup; [exact S2|]. by apply fmap_sublist.
    + intros e He. apply (issued_more ks); [done|lia|]. by apply S3, Hin.
    + intros d Hd. destruct (S4 d Hd) as [Hi Hf]. split; [apply (issued_more ks); [done|lia|done]|].
      intros e He. by apply Hf, Hin.
  - split; rewrite ?Hids; unfold on_live; rewrite ?Hs; [done| | |].
    + rewrite fmap_app. apply NoDup_app. split; [done|]. split; [|apply NoDup_singleton].
      intros i (e & -> & He)%list_elem_of_fmap Hi%list_elem_of_singleton. cbn in Hi.
      by apply (not_issued ks e.1 S1); [apply S3|].
    + intros e [He|He%list_elem_of_singleton]%elem_of_app.
      * apply (issued_more ks); [done|lia|]. by apply S3.
      * subst e. exists (id_pos ks). rewrite Hids. split; [lia|done].
    + intros d Hd. destruct (S4 d Hd) as [Hi Hf]. split; [apply (issued_more ks); [done|lia|done]|].
      intros e [He|He%list_elem_of_singleton]%elem_of_app; [by apply Hf|]. subst e. cbn. intros E.
      exfalso. apply (not_issued ks (stream_id d) S1 Hi). by rewrite <- E.
Qed.

Lemma stamped_command {A} hand (c : cmd A) : preserves (stamped hand) (documented c).
Proof.
  intros ks Hs. destruct (documented_effect c ks) as [Hi Ho He].
  destruct (decide (cmd_key c = live_key)) as [E|Hne]; [rewrite E in He; by apply (stamped_step hand ks)|].
  apply (stamped_step hand ks); [done| |done].
  assert (E : stream_at live_key (documented c ks).2 = stream_at live_key ks)
    by (apply stream_at_same, Ho; set_solver).
  split; [apply He|]. left. by rewrite E.
Qed.

(** ** Any client *)

Context {R : Redis}.

(** A computation that issues commands, and does nothing else to the server. *)
Definition untouched (key : string) (v : option rvalue) (r : rdb) : Prop := lookup_key key (view r) = v.
Definition stamped_on (hand : list StreamDelivery) (r : rdb) : Prop := stamped hand (view r).

Lemma untouched_command {A} key v (c : cmd A) : cmd_key c ≠ key → preserves (untouched key v) (command c).
Proof.
  intros Hk r Hr. unfold untouched in *. destruct (command_documented c r) as [_ ->].
  rewrite (ce_others _ _ _ (documented_effect c (view r))) by set_solver. done.
Qed.

Lemma stamped_on_command {A} hand (c : cmd A) : preserves (stamped_on hand) (command c).
Proof.
  intros r Hr. unfold stamped_on in *. destruct (command_documented c r) as [_ ->]. by apply stamped_command.
Qed.
End Stamped.

(** ** The clients of the queue *)

Section Clients.
Context {R : Redis} `{JC : JobCodec} (s : queue_settings) (P : rdb → Prop) (K : string → Prop).
Context (HP : ∀ A (c : cmd A), K (cmd_key c) → preserves P (command c)).

Lemma client_command {A} (c : cmd A) : K (cmd_key c) → preserves P (command c).
Proof using HP. apply HP. Qed.

Lemma client_map_m {A B} (f : A → M rdb B) l : (∀ a, preserves P (f a)) → preserves P (map_m f l).
Proof using Type.
  intros Hf. induction l as [|a l IH]; cbn [map_m]; [apply preserves_ret|].
  apply preserves_bind; [done|]. intros y. apply preserves_bind; [done|]. intros ys. apply preserves_ret.
Qed.

Lemma client_enqueue job :
  K (INVOICE_STREAM s) → K (dedupe_key_of (INVOICE_DEDUPE_PREFIX s) (idempotency_key job)) →
  preserves P (enqueue_job (INVOICE_STREAM s) (INVOICE_DEDUPE_PREFIX s) (INVOICE_DEDUPE_TTL_SECONDS s) job).
Proof using HP.
  intros Hs Hk. unfold enqueue_job, ENQUEUE_SCRIPT. apply preserves_bind; [by apply client_command|].
  intros [id|]; [apply preserves_ret|].
  apply preserves_bind; [by apply client_command|]. intros id.
  apply preserves_bind; [by apply client_command|]. intros _. apply preserves_ret.
Qed.

Context (Hlive : K (INVOICE_STREAM s)).

Lemma client_ensure_group : preserves P (ensure_consumer_group (INVOICE_STREAM s) (INVOICE_CONSUMER_GROUP s)).
Proof using HP Hlive.
  intros r Hr. unfold ensure_consumer_group, try_except.
  pose proof (client_command (XGROUP_CREATE (INVOICE_STREAM s) (INVOICE_CONSUMER_GROUP s)) Hlive r Hr) as H.
  destruct (command _ r) as [[[]|e] r']; [done|]. by destruct (_ && _).
Qed.

Lemma client_next_deliveries consumer : preserves P (next_deliveries s consumer).
Proof using HP Hlive.
  unfold next_deliveries, claim_stale_batch, read_new_batch, claimed_delivery.
  apply preserves_bind.
  - apply preserves_bind; [by apply client_command|]. intros l. apply client_map_m. intros e.
    apply preserves_bind; [by apply client_command|]. intros ps. apply preserves_ret.
  - intros ds. destruct (is_nil ds); [|apply preserves_ret].
    apply preserves_bind; [by apply client_command|]. intros l. apply preserves_ret.
Qed.

Lemma client_heartbeat beats d consumer : preserves P (heartbeat s beats d consumer).
Proof using HP Hlive.
  induction beats as [|n IH]; cbn [heartbeat]; [apply preserves_ret|].
  apply preserves_bind; [by apply client_command|]. intros _. exact IH.
Qed.

Context (Hdead : K (INVOICE_DEAD_LETTER_STREAM s))
        (Hmeta : ∀ x, K (metadata_key (INVOICE_METADATA_PREFIX s) x))
        (Hreplay : ∀ x, K (replay_key_of (INVOICE_DLQ_REPLAY_PREFIX s) x)).

Lemma client_replay_key d k :
  replay_metadata_key (INVOICE_DLQ_REPLAY_PREFIX s) d = Some k → K k.
Proof using Hreplay.
  unfold replay_metadata_key. destruct (replay_context d) as [[i q]|]; [|done]. intros [= <-]. apply Hreplay.
Qed.

Lemma client_replay_update d state o now :
  Forall (preserves P) (replay_update (Some (INVOICE_DLQ_REPLAY_PREFIX s)) d state o now).
Proof using HP Hreplay.
  unfold replay_update. cbn [mbind option_bind]. destruct (replay_metadata_key _ d) as [k|] eqn:E; [|constructor].
  apply Forall_singleton, client_command. by apply (client_replay_key d).
Qed.

Lemma client_record_replay d now : preserves P (record_replay_processing (INVOICE_DLQ_REPLAY_PREFIX s) d now).
Proof using HP Hreplay.
  unfold record_replay_processing. destruct (replay_metadata_key _ d) as [k|] eqn:E; [|apply preserves_ret].
  apply client_command. by apply (client_replay_key d).
Qed.

Lemma client_record_failure d reason now :
  preserves P (record_failure (INVOICE_METADATA_PREFIX s) d reason (Some (INVOICE_DLQ_REPLAY_PREFIX s)) now).
Proof using HP Hmeta Hreplay.
  unfold record_failure. cbn [mbind option_bind].
  destruct (replay_metadata_key _ d) as [k|] eqn:E; [|apply client_command, Hmeta].
  apply kept_pipeline. repeat apply Forall_cons_2; [apply client_command, Hmeta| |constructor].
  apply client_command. by apply (client_replay_key d).
Qed.

Lemma client_acknowledge d o now :
  preserves P (acknowledge (INVOICE_STREAM s) (INVOICE_CONSUMER_GROUP s) d
                 (Some (INVOICE_DLQ_REPLAY_PREFIX s)) o now).
Proof using HP Hlive Hreplay.
  unfold acknowledge. apply kept_pipeline.
  repeat apply Forall_cons_2; [by apply client_command..|apply client_replay_update].
Qed.

Lemma client_dead_letter d reason now :
  preserves P (dead_letter (INVOICE_STREAM s) (INVOICE_CONSUMER_GROUP s) (INVOICE_DEAD_LETTER_STREAM s) d
                 reason (Some (INVOICE_DLQ_REPLAY_PREFIX s)) now).
Proof using HP Hlive Hdead Hreplay.
  unfold dead_letter. apply kept_pipeline. repeat apply Forall_cons_2; [|by apply client_command..|].
  - unfold ignore. apply preserves_bind; [by apply client_command|]. intros _. apply preserves_ret.
  - apply client_replay_update.
Qed.

(** A whole delivery. *)
Context `{E : GraphEngine} (graph : state_graph).

Lemma client_on_queue {A} (m : M rdb A) : preserves P m → preserves (λ w : worker, P (wk_queue w)) (on_queue m).
Proof using Type.
  intros Hm [q d] Hq. specialize (Hm q Hq). unfold on_queue. cbn [wk_queue]. by destruct (m q).
Qed.

Lemma client_on_db {A} (m : M (world * threads) A) : preserves (λ w : worker, P (wk_queue w)) (on_db m).
Proof using Type. intros [q d] Hq. unfold on_db. cbn [wk_db]. by destruct (m d). Qed.

Lemma client_process_delivery beats consumer now d :
  preserves (λ w : worker, P (wk_queue w)) (process_delivery graph s beats consumer now d).
Proof using HP Hlive Hdead Hmeta Hreplay.
  unfold process_delivery, to_dead_letters. destruct (parse_delivery (d_fields d)) as [job|e].
  2:{ destruct (isinstance_exn e PermanentJobError); [|apply preserves_raise].
      apply preserves_bind; [apply client_on_queue, client_dead_letter|]. intros _. apply preserves_ret. }
  cbv zeta. apply preserves_bind.
  { destruct (replay_context d); [apply client_on_queue, client_record_replay|apply preserves_ret]. }
  intros _. apply preserves_bind.
  { intros w Hw. unfold attempted. pose proof (client_on_queue _ (client_heartbeat beats d consumer) w Hw) as H.
    by destruct (on_queue _ w). }
  intros beat. apply preserves_bind.
  - intros w Hw. unfold finally, try_except. rewrite bind_unfold.
    pose proof (client_on_db (run_workflow_for_job graph job
      (match replay_context d with Some _ => true | None => false end)) w Hw) as H.
    destruct (on_db _ w) as [[x|e] w1]; [by destruct beat|]. cbn [snd] in H.
    destruct (is_Exception e); [|by destruct beat].
    assert (Hf : preserves (λ w : worker, P (wk_queue w)) (delivery_failed s d job now e)).
    { unfold delivery_failed, to_dead_letters. destruct (Z.leb _ _); (apply preserves_bind; [|intros _]).
      - apply client_on_db.
      - apply preserves_bind; [apply client_on_queue, client_dead_letter|]. intros _. apply preserves_ret.
      - apply client_on_queue, client_record_failure.
      - apply preserves_ret. }
    rewrite bind_unfold. specialize (Hf w1 H). destruct (delivery_failed _ _ _ _ _ w1) as [[y|y] w2]; by destruct beat.
  - intros [x|result]; [apply preserves_ret|].
    apply preserves_bind; [apply client_on_queue, client_acknowledge|]. intros _. apply preserves_ret.
Qed.
End Clients.
