(* ===== verification/RunsKept.v ===== *)
(** * Runs and keys stay

    A run that was committed is there from then on: no session of the program deletes one or
    gives it another id, and no crash does; and so is the document of a job, under its key.  And the worker that returns a summary of a job has
    committed the run of that job, under the id that its idempotency key determines. *)

From S2P Require Import Prelude PyText LoadNumbers DateTime PyFloat Json Database MissingDocs.
From S2P Require Import Shipments Reconciliation SlaScanner Extraction Workflow WorkflowSafety.
From S2P Require Import Frame BusinessState WorkflowRoutes InvoiceJob Redis InvoiceQueue QueueRoutes.
From S2P Require Import InvoiceWorker Notifier RateConfirmationRoutes ResultFrame ThreadStages.
From S2P Require Import SystemInvariant SystemHandlers SystemDelivery SystemSafety.
From stdpp Require Import relations.
From Stdlib Require Import Ascii.
Local Open Scope string_scope.
Local Open Scope list_scope.
Local Open Scope nat_scope.

(** ** Sessions *)

(** The runs and the documents with a key that are there. *)
Record had (rids : list string) (keys : list (Z * string)) (d : database) : Prop := {
  hd_wf : results_wf d;
  hd_runs : rids ⊆ run_id <$> workflow_runs d;
  hd_keys : ∀ i key, (i, key) ∈ keys → keyed d i key
}.

Lemma has_run_ids rid d : has_run rid d = true ↔ rid ∈ run_id <$> workflow_runs d.
Proof.
  unfold has_run. rewrite existsb_exists, list_elem_of_fmap.
  split; intros (r & H1 & H2); exists r; rewrite list_elem_of_In in *; rewrite String.eqb_eq in *;
    (split; [|done] || split); congruence || done.
Qed.

Lemma had_run rid d : results_wf d → has_run rid d = true → had [rid] [] d.
Proof.
  intros W H%has_run_ids. split; [done| |by intros i key ?%elem_of_nil]. intros x Hx%list_elem_of_singleton. by subst.
Qed.

Lemma had_has_run rid d : had [rid] [] d → has_run rid d = true.
Proof. intros [_ H _]. apply has_run_ids, H, list_elem_of_here. Qed.

Lemma had_kept rids keys o d d' : kept o d d' → had rids keys d → had rids keys d'.
Proof.
  intros K [_ H2 H3]. split; [by apply (kept_wf o d)|by rewrite (kt_runs _ _ _ K)|].
  intros i key Hk. by apply (kt_keyed _ _ _ K), H3.
Qed.

(** More runs, the same documents and results. *)
Lemma had_more rids keys d d' :
  run_id <$> workflow_runs d ⊆ run_id <$> workflow_runs d' → documents d' = documents d →
  reconciliation_results d' = reconciliation_results d → had rids keys d → had rids keys d'.
Proof.
  intros Hr Hd Hres [[W1 W2 W3] H2 H3]. split; [|by etransitivity|].
  - by split; rewrite ?Hd, ?Hres.
  - intros i key Hk. unfold keyed. rewrite Hd. by apply H3.
Qed.

Lemma had_document rids keys d doc :
  doc_id doc ∉ doc_id <$> documents d → had rids keys d → had rids keys (on_documents (λ t, t ++ [doc]) d).
Proof.
  intros Hnew [[W1 W2 W3] H2 H3]. split; [split; cbn; [|done..]|done|].
  - rewrite fmap_app. apply NoDup_app. split; [done|]. split; [|repeat constructor; set_solver].
    intros x Hx Hx'%list_elem_of_singleton. by subst.
  - intros i key Hk. unfold keyed. cbn. rewrite fmap_app. apply elem_of_app. left. by apply H3.
Qed.

Definition ran (rids : list string) (keys : list (Z * string)) (s : session) : Prop :=
  had rids keys (working s) ∧ had rids keys (committed s).

Section Sessions.
Context (rids : list string) (keys : list (Z * string)).

Abbreviation keeps := (preserves (ran rids keys)).

Lemma ran_with_env f : keeps (with_env f).
Proof. by intros s [H1 H2]. Qed.
Lemma ran_uuid4 : keeps uuid4.
Proof. by intros s [H1 H2]. Qed.
Lemma ran_doc_id : keeps next_doc_id.
Proof. by intros s [H1 H2]. Qed.
Lemma ran_run_pk : keeps next_run_pk.
Proof. by intros s [H1 H2]. Qed.
Lemma ran_audit_id : keeps next_audit_id.
Proof. by intros s [H1 H2]. Qed.
Lemma ran_clock : keeps db_clock.
Proof. by intros s. Qed.
Lemma ran_select {A} (q : database → A) : keeps (select q).
Proof. by intros s. Qed.
Lemma ran_insist v what : keeps (insist v what).
Proof. intros s H. by destruct v. Qed.
Lemma ran_commit : keeps commit.
Proof. by intros s [H1 H2]. Qed.
Lemma ran_rollback : keeps rollback.
Proof. by intros s [H1 H2]. Qed.

(** A write that leaves the ids of the runs, or adds to them. *)
Lemma ran_write (f : database → database) :
  (∀ d, run_id <$> workflow_runs d ⊆ run_id <$> workflow_runs (f d)) →
  (∀ d, documents (f d) = documents d) → (∀ d, reconciliation_results (f d) = reconciliation_results d) →
  keeps (modify (on_working f)).
Proof. intros H1 H2 H3 s [Hw Hc]. split; [|done]. exact (had_more _ _ _ _ (H1 _) (H2 _) (H3 _) Hw). Qed.

Lemma ran_save_run run : keeps (save_run run).
Proof.
  unfold save_run. apply preserves_bind; [apply ran_insist|]. intros _. apply ran_write; [|done..]. intros d. cbn.
  rewrite update_where_map; [done|]. by intros x _ ->%String.eqb_eq.
Qed.
Hint Resolve ran_with_env ran_uuid4 ran_doc_id ran_run_pk ran_audit_id ran_clock ran_select ran_insist
  ran_commit ran_rollback ran_save_run : frame.
Hint Extern 1 (preserves (ran _ _) (modify (on_working _))) =>
  (apply ran_write; intros ?; cbn; rewrite ?fmap_app; first [reflexivity | set_solver]) : frame.

Lemma ran_insert_run mk : keeps (insert_run mk).
Proof. unfold insert_run. frame. Qed.
Lemma ran_insert_document mk : (∀ i now, doc_id (mk i now) = i) → keeps (insert_document mk).
Proof.
  intros Hmk s [Hw Hc]. destruct (insert_document mk s) as [[doc|e] s'] eqn:E0.
  - apply insert_document_new in E0 as (Hnew & _ & Ec & Ew); [|done]. cbn [snd]. unfold ran.
    rewrite Ec, Ew. split; [by apply had_document|done].
  - revert E0. session_unfold. repeat case_match; intros; simplify_eq/=; try done; by split.
Qed.
Lemma ran_scalar {A} (l : list A) : keeps (scalar_one_or_none l).
Proof. unfold scalar_one_or_none. frame. Qed.
Lemma ran_scalar_one {A} (l : list A) : keeps (scalar_one l).
Proof. unfold scalar_one. frame. Qed.
Lemma ran_log rid' ev p who : keeps (log_audit_event rid' ev p who).
Proof. unfold log_audit_event. frame. Qed.
Hint Extern 1 (preserves (ran _ _) (insert_document _)) => (by apply ran_insert_document) : frame.
Hint Resolve ran_insert_run ran_scalar ran_scalar_one ran_log : frame.

Lemma ran_create_run name : keeps (create_run name).
Proof. unfold create_run. frame. Qed.
Lemma ran_persist sv ps po pl keep run : keeps (persist_run_state sv ps po pl keep run).
Proof. unfold persist_run_state. frame. Qed.
Lemma ran_locked_run rid' : keeps (locked_run rid').
Proof. unfold locked_run. frame. Qed.
Lemma ran_record_decision run rid' dd : keeps (record_decision run rid' dd).
Proof. unfold record_decision, insert_decision. frame. Qed.
Lemma ran_mark_job_failed job reason : keeps (mark_job_failed job reason).
Proof. unfold mark_job_failed, find_run_for_document. frame. Qed.

Lemma ran_job_records job : keeps (get_or_create_job_records job).
Proof.
  unfold get_or_create_job_records, find_run_for_document, runtime_error.
  apply preserves_bind; [frame|]. intros found. apply preserves_bind; [frame|]. intros [doc|]; [frame|].
  apply preserves_try; [frame|]. intros e k. destruct (isinstance_exn e IntegrityError); [|done].
  intros [= <-]. frame.
Qed.
End Sessions.

#[export] Hint Resolve ran_create_run ran_persist ran_locked_run ran_record_decision ran_mark_job_failed
  ran_job_records ran_commit ran_rollback ran_select : frame.

(** ** The handlers *)

Section Handlers.
Context `{E : GraphEngine} (model_fields : schema → json → option coerced)
        (triage_fields : json → option (string * string * float)) (replies : claude_replies) (sla_hours : Z).
Context (rids : list string) (keys : list (Z * string)).

Abbreviation graph := (build_state_graph model_fields triage_fields replies sla_hours).
Abbreviation keeps := (preserves (λ st : session * threads, ran rids keys st.1)).

Lemma ran_in_session {A} (m : M session A) : preserves (ran rids keys) m → keeps (in_session m).
Proof. intros Hm [s t] Hs. specialize (Hm s Hs). unfold in_session. cbn [fst snd]. by destruct (m s). Qed.

Lemma ran_get_state r : keeps (get_state r).
Proof. by intros st. Qed.

(** A node, whatever its state: what it reconciles is for the run of the state, if it has one. *)
Lemma had_node name f resume st w :
  dict_get name (g_nodes graph) = Some f → had rids keys (w_db w) → had rids keys (w_db (f resume st w).2).
Proof.
  intros Hf H. apply (had_kept _ _ (as_str (dict_get "run_id" st)) (w_db w)); [|done].
  apply (world_node _ _ model_fields triage_fields replies sla_hours name f resume st Hf); [done|].
  apply kept_refl, H.
Qed.

Lemma had_ainvoke r input t w :
  had rids keys (w_db w) → had rids keys (w_db (ainvoke graph r input t w).2).
Proof.
  apply (ainvoke_only_nodes (λ w, had rids keys (w_db w))). cbn [g_nodes build_state_graph].
  repeat apply Forall_cons_2; [..|apply Forall_nil_2]; intros resume st w' H.
  - exact (had_node "extract_node" _ resume st w' eq_refl H).
  - exact (had_node "match_node" _ resume st w' eq_refl H).
  - exact (had_node "supervisor_node" _ resume st w' eq_refl H).
  - exact (had_node "exception_node" _ resume st w' eq_refl H).
  - exact (had_node "approve_node" _ resume st w' eq_refl H).
  - exact (had_node "reject_node" _ resume st w' eq_refl H).
  - exact (had_node "complete_node" _ resume st w' eq_refl H).
Qed.

Lemma ran_invoke r input : keeps (invoke graph r input).
Proof.
  intros [s t] [_ Hs]. unfold invoke. cbn [fst snd] in *.
  pose proof (had_ainvoke r input t (world_of s) Hs) as H.
  by destruct (ainvoke graph r input t (world_of s)) as [[x t'] w].
Qed.
Hint Resolve ran_in_session ran_get_state ran_invoke : frame.

Lemma ran_view run dec : keeps (WorkflowRoutes.view run dec).
Proof. unfold WorkflowRoutes.view. apply ran_in_session. frame. Qed.
Hint Resolve ran_view : frame.

Lemma ran_run_workflow bytes name : keeps (run_workflow graph bytes name).
Proof.
  unfold run_workflow, persist_failure, persist_result. case_match; [|frame].
  apply preserves_bind; [frame|]. intros run. cbv zeta. apply preserves_bind.
  - apply preserves_try; [frame|]. intros e k. destruct (isinstance_exn _ _); [intros [= <-]; frame|].
    destruct (is_Exception e); [|done]. intros [= <-]. frame.
  - intros [x|x]; [frame|].
    apply preserves_bind; [apply ran_in_session; destruct (interrupt_of x); frame|]. intros run1. frame.
Qed.

Lemma ran_decide_review r dd : keeps (decide_review graph r dd).
Proof. unfold decide_review, finish_review. frame. Qed.
Hint Resolve ran_decide_review : frame.

Lemma ran_resume_workflow r dd : keeps (resume_workflow graph r dd).
Proof. unfold resume_workflow. frame. Qed.

Lemma ran_drive_job job replay r start : keeps (drive_job graph job replay r start).
Proof.
  unfold drive_job, graph_result, retrying_run, persist_job_result. apply preserves_bind; [frame|]. intros found.
  apply preserves_bind; [unfold scalar_one; frame|]. intros run.
  apply preserves_bind; [apply ran_in_session; frame|]. intros run1. apply preserves_bind.
  - apply preserves_try; [frame|]. intros e k. destruct (is_Exception e); [|done]. intros [= <-]. frame.
  - intros result. apply preserves_bind; [apply ran_in_session; frame|]. frame.
Qed.

(** Committed work. *)
Abbreviation stays := (preserves (λ wt : world * threads, had rids keys (w_db wt.1))).

Lemma ran_with_session {A} (m : M (session * threads) A) : keeps m → stays (with_session m).
Proof.
  intros Hm [w t] Hw. unfold with_session. cbn [fst snd] in *.
  specialize (Hm (session_of w, t) (conj Hw Hw)). destruct (m _) as [r [s t']]. apply Hm.
Qed.

Lemma ran_job job replay : stays (run_workflow_for_job graph job replay).
Proof.
  unfold run_workflow_for_job, runtime_error. apply preserves_bind; [apply ran_with_session; frame|].
  intros [doc run]. cbv zeta. case_match; [frame|]. case_match; [frame|]. apply preserves_bind; [frame|].
  intros bytes. apply ran_with_session, ran_drive_job.
Qed.

(** A delivery, whatever the server answers. *)
Context {R : Redis} `{JC : JobCodec}.

Abbreviation remains := (preserves (λ w : worker, had rids keys (w_db (wk_db w).1))).

Lemma remains_on_queue {A} (m : M rdb A) : remains (on_queue m).
Proof. intros [q d] Hq. unfold on_queue. cbn [wk_queue wk_db]. by destruct (m q). Qed.

Lemma remains_on_db {A} (m : M (world * threads) A) : stays m → remains (on_db m).
Proof. intros Hm [q d] Hq. specialize (Hm d Hq). unfold on_db. cbn [wk_db]. by destruct (m d). Qed.
Hint Resolve remains_on_queue : frame.

Lemma remains_failed s d job now e : remains (delivery_failed s d job now e).
Proof.
  unfold delivery_failed, to_dead_letters. case_match; [|frame].
  apply preserves_bind; [apply remains_on_db, ran_with_session, ran_in_session; frame|]. intros _. frame.
Qed.

Lemma ran_delivery s beats consumer now d : remains (process_delivery graph s beats consumer now d).
Proof.
  unfold process_delivery, to_dead_letters. destruct (parse_delivery (d_fields d)) as [job|e]; [|frame].
  cbv zeta. apply preserves_bind; [destruct (replay_context d); frame|]. intros _. apply preserves_bind.
  { intros w Hw. unfold attempted. pose proof (remains_on_queue (heartbeat s beats d consumer) w Hw) as H.
    by destruct (on_queue _ w). }
  intros beat. apply preserves_bind; [|intros [x|x]; frame].
  intros w Hw. unfold finally. match goal with |- context [try_except ?m ?h w] =>
    assert (H : remains (try_except m h)); [|specialize (H w Hw)] end.
  { apply preserves_try; [apply preserves_bind; [apply remains_on_db, ran_job|]; intros x; frame|].
    intros e k. destruct (is_Exception e); [|done]. intros [= <-].
    apply preserves_bind; [apply remains_failed|]. intros x. frame. }
  destruct (try_except _ _ w) as [r w1]. by destruct beat.
Qed.
End Handlers.

(** ** The program *)

Section Program.
Context {R : Redis} `{JC : JobCodec} `{E : GraphEngine} (model_fields : schema → json → option coerced)
        (triage_fields : json → option (string * string * float)) (sla_hours : Z).

Abbreviation graph replies := (build_state_graph model_fields triage_fields replies sla_hours).

Lemma session_stays {A} rids keys (m : M session A) w :
  preserves (holds None (w_db w) []) m →
  had rids keys (w_db w) → had rids keys (w_db (run_session m w).2).
Proof.
  intros Hm H. apply (had_kept _ _ None (w_db w)); [|done].
  apply (world_run_session None (w_db w) m Hm w), kept_refl, H.
Qed.

Lemma served_stays {A} rids keys (m : M (session * threads) A) wt :
  preserves (λ st : session * threads, ran rids keys st.1) m →
  had rids keys (w_db wt.1) → had rids keys (w_db (served m wt).1).
Proof. intros Hm. by apply (ran_with_session rids keys m Hm wt). Qed.

Lemma step_stays rids keys wt wt' :
  sys_step model_fields triage_fields sla_hours wt wt' → db_safe wt →
  had rids keys (w_db wt.1) → had rids keys (w_db wt'.1).
Proof.
  intros H. destruct H; intros I; cbn [fst].
  - apply served_stays, ran_run_workflow.
  - apply served_stays, ran_resume_workflow.
  - intros Hr. by apply (ran_delivery model_fields triage_fields replies sla_hours rids keys qs beats consumer now d
      (mk_worker queue wt)).
  - apply session_stays, fine_extract_document.
  - apply session_stays, fine_create_rate_confirmation.
  - apply (had_kept _ _ None). apply fine_claim_and_evaluate, kept_refl, (si_results _ _ I).
  - apply session_stays, fine_claim_event.
  - apply session_stays, fine_update_event.
  - apply session_stays, fine_notification.
  - done.
  - apply served_stays, ran_in_session. frame.
  - apply served_stays, ran_in_session. frame.
  - apply (served_stays rids keys _ (w, t)), ran_in_session. frame.
  - apply (had_kept _ _ (Some (run_id run))).
    eapply (graph_step model_fields triage_fields replies sla_hours run input); eauto.
Qed.

(** A run that is committed. *)
Lemma step_runs_stay rid wt wt' :
  sys_step model_fields triage_fields sla_hours wt wt' → db_safe wt →
  has_run rid (w_db wt.1) = true → has_run rid (w_db wt'.1) = true.
Proof.
  intros H I Hr. apply had_has_run. apply (step_stays [rid] [] wt wt' H I), had_run; [apply I|done].
Qed.

Lemma delivery_runs_stay rid replies qs beats consumer now d w :
  db_safe (wk_db w) → has_run rid (w_db (wk_db w).1) = true →
  has_run rid (w_db (wk_db (process_delivery (graph replies) qs beats consumer now d w).2).1) = true.
Proof.
  intros I Hr. apply had_has_run, ran_delivery, had_run; [apply I|done].
Qed.

(** The rows of a job: its run has the id that the key determines. *)
Lemma job_records_run job s t doc run s' :
  calm (s, t) → get_or_create_job_records job s = (Ok (doc, run), s') →
  has_run (deterministic_run_id (idempotency_key job)) (committed s') = true.
Proof.
  intros [Hc I]. unfold safe in I. cbn [fst snd] in *.
  assert (Hrun : ∀ r d, r ∈ workflow_runs d → run_id r = deterministic_run_id (idempotency_key job) →
    has_run (deterministic_run_id (idempotency_key job)) d = true).
  { intros r d Hr Hid. unfold has_run. apply existsb_exists. exists r.
    split; [by apply list_elem_of_In|]. by rewrite Hid, String.eqb_refl. }
  unfold get_or_create_job_records. rewrite bind_unfold. unfold select at 1, gets. rewrite <- Hc.
  destruct (documents_with_key (idempotency_key job) (committed s)) as [|doc0 [|]] eqn:Ed; rewrite bind_unfold;
    cbn [scalar_one_or_none mret M_ret raise]; [| |done].
  - unfold try_except.
    destruct ((doc1 ← insert_document (new_job_document job); _) s) as [[p|e] s3] eqn:E2.
    + intros [= -> ->]. apply bind_ok_inv in E2 as (doc1 & s4 & _ & E2).
      apply bind_ok_inv in E2 as (run1 & s5 & Hr & E2). apply insert_run_ok in Hr as (Er & _ & _ & Hw & _).
      injection E2 as _ -> <-. cbn. apply (Hrun run); [|by rewrite Er]. rewrite Hw. cbn.
      apply elem_of_app. right. apply list_elem_of_here.
    + pose proof (insert_rows_uncommitted job (committed s) s eq_refl) as H. rewrite E2 in H.
      destruct (isinstance_exn e IntegrityError); [|done].
      rewrite bind_unfold. unfold rollback, modify. rewrite bind_unfold. unfold select, gets. cbn [working].
      rewrite bind_unfold. rewrite H, Ed. done.
  - rewrite bind_unfold. unfold find_run_for_document, select, gets. rewrite <- Hc.
    destruct (head _) as [r|] eqn:Er; [|done]. intros [= <- <- <-].
    apply head_Some_elem_of, elem_of_where in Er as [Hin Hi%Z.eqb_eq].
    apply (Hrun r); [done|]. apply (si_named _ _ I); [done|]. rewrite Hi. apply keyed_with_key. rewrite Ed.
    apply list_elem_of_here.
Qed.

(** A summary of a job is returned once its run is committed. *)
Lemma job_has_run replies job replay wt x wt' :
  db_safe wt → run_workflow_for_job (graph replies) job replay wt = (Ok x, wt') →
  has_run (deterministic_run_id (idempotency_key job)) (w_db wt'.1) = true.
Proof.
  destruct wt as [w t]. intros I H. unfold run_workflow_for_job in H.
  apply bind_ok_inv in H as ([doc run] & [w1 t1] & H1 & H).
  apply with_session_ok in H1 as (s1 & H1 & ->). unfold in_session in H1. cbn [fst snd] in H1.
  destruct (get_or_create_job_records job (session_of w)) as [r s2] eqn:Eg. injection H1 as -> -> <-.
  pose proof (job_records_run job (session_of w) t doc run s1 (conj eq_refl I) Eg) as Hr.
  assert (Hk : preserves (λ wt : world * threads,
      had [deterministic_run_id (idempotency_key job)] [] (w_db wt.1))
    (file_bytes ← of_res (decoded_file_bytes job);
     with_session (drive_job (graph replies) job replay (run_id run)
       (job_initial_state (run_id run) (doc_id doc) file_bytes job)))).
  { apply preserves_bind; [frame|]. intros bytes. apply ran_with_session, ran_drive_job. }
  cbv zeta in H. destruct (String.eqb (processing_status run) "failed" && _); [done|].
  destruct (in_strs (processing_status run) _); [by injection H as <- <-|].
  pose proof (get_or_create_triple job t (session_of w) (conj eq_refl I)) as Hs. rewrite Eg in Hs.
  destruct Hs as [[[_ I1] _] _].
  specialize (Hk (world_of s1, t)). rewrite H in Hk. apply had_has_run, Hk, had_run; [apply I1|done].
Qed.
End Program.
