(* ===== verification/Pipeline.v ===== *)
(** * From the mailbox to the workflow

    The poller, the queue and the workers composed, beside everything else that the program does
    to its tables: mail arrives, the mailbox is polled, a poll dies between two attachments, the
    workers read deliveries and process them, each as often and in any order, and die anywhere.
    No supported attachment of a message that was unread is lost on the way. *)

From S2P Require Import Prelude PyText LoadNumbers DateTime PyFloat Json Database MissingDocs.
From S2P Require Import Shipments Reconciliation SlaScanner Extraction Workflow WorkflowSafety.
From S2P Require Import Frame BusinessState WorkflowRoutes Health InvoiceJob Redis InvoiceQueue QueueRoutes.
From S2P Require Import QueueOperations InvoiceWorker DeliveryLifecycle WorkerLoop GmailPoller ResultFrame.
From S2P Require Import SystemInvariant SystemHandlers SystemDelivery SystemSafety QueueFrame RunsKept.
From stdpp Require Import relations.
From Stdlib Require Import Ascii.
Local Open Scope string_scope.
Local Open Scope list_scope.
Local Open Scope nat_scope.

Section Pipeline.
Context {R : Redis} `{JC : JobCodec} `{E : GraphEngine} {G : Gmail}.
Context (model_fields : schema → json → option coerced)
        (triage_fields : json → option (string * string * float)) (sla_hours : Z).
Context (s : queue_settings) (invalid : attachment → string).

Abbreviation graph replies := (build_state_graph model_fields triage_fields replies sla_hours).

(** ** The system *)

(** The server, the mailbox, the tables with the checkpoints, and the deliveries that workers
    have read. *)
Record pipeline := mk_pipeline {
  pp_queue : rdb; pp_mail : mailbox; pp_db : world * threads; pp_hand : list StreamDelivery
}.

Definition with_poller (pl : poller) (p : pipeline) : pipeline :=
  mk_pipeline (pl_queue pl) (pl_mail pl) (pp_db p) (pp_hand p).
Definition with_worker (w : worker) (p : pipeline) : pipeline :=
  mk_pipeline (wk_queue w) (pp_mail p) (wk_db w) (pp_hand p).

(** A poller of this process has the server and the mailbox; its health and its clock are its
    own. *)
Definition polls_for (pl : poller) (p : pipeline) : Prop := pl_queue pl = pp_queue p ∧ pl_mail pl = pp_mail p.

Inductive pipe_step : pipeline → pipeline → Prop :=
  | ps_arrive x p :
      same_content (pp_mail p) x → unread (pp_mail p) ⊆ unread x →
      pipe_step p (mk_pipeline (pp_queue p) x (pp_db p) (pp_hand p))
  | ps_poll pl p : polls_for pl p → pipe_step p (with_poller (poll_inbox s invalid pl).2 p)
  | ps_poll_cut account a pl p :
      polls_for pl p → pipe_step p (with_poller (enqueue_attachment s invalid account a pl).2 p)
  | ps_group p :
      pipe_step p (mk_pipeline (ensure_consumer_group (INVOICE_STREAM s) (INVOICE_CONSUMER_GROUP s) (pp_queue p)).2
                     (pp_mail p) (pp_db p) (pp_hand p))
  | ps_read consumer r q p :
      next_deliveries s consumer (pp_queue p) = (r, q) →
      pipe_step p (mk_pipeline q (pp_mail p) (pp_db p)
                     (match r with Ok ds => ds ++ pp_hand p | Raise _ => pp_hand p end))
  | ps_work replies beats consumer now d p :
      d ∈ pp_hand p →
      pipe_step p (with_worker (process_delivery (graph replies) s beats consumer now d
                                  (mk_worker (pp_queue p) (pp_db p))).2 p)
  | ps_system wt p :
      sys_step model_fields triage_fields sla_hours (pp_db p) wt →
      pipe_step p (mk_pipeline (pp_queue p) (pp_mail p) wt (pp_hand p)).

(** ** What becomes of a job *)

Definition payload_of (j : InvoiceJobEnvelope) : list (string * string) := [("payload", model_dump_json j)].

Definition waiting (a : aqueue) (j : InvoiceJobEnvelope) : Prop := ∃ i, (i, payload_of j) ∈ live a.
Definition buried (a : aqueue) (j : InvoiceJobEnvelope) : Prop :=
  ∃ d reason now, d_fields d = payload_of j ∧ dead_letter_fields d reason now ∈ dead a.
Definition worked_off (d : database) (j : InvoiceJobEnvelope) : Prop :=
  ∃ read run, parse_delivery (payload_of j) = Ok read ∧ (job_text j → read = j)
    ∧ run ∈ workflow_runs d ∧ run_id run = deterministic_run_id (idempotency_key read).

Definition tracked (a : aqueue) (d : database) (j : InvoiceJobEnvelope) : Prop :=
  waiting a j ∨ buried a j ∨ worked_off d j.

Definition queue_in (p : pipeline) : aqueue := queue_of s (view (pp_queue p)).
Definition tables (p : pipeline) : database := w_db (pp_db p).1.
Definition dedupe (k : string) : string := dedupe_key_of (INVOICE_DEDUPE_PREFIX s) k.

Record pipe_inv (p : pipeline) : Prop := {
  pi_poll : poll_ok s (view (pp_queue p));
  pi_queue : queue_ok s (view (pp_queue p));
  pi_stamped : stamped (INVOICE_STREAM s) (pp_hand p) (view (pp_queue p));
  pi_db : db_safe (pp_db p);
  pi_tracked : ∀ k, is_Some (lookup_key (dedupe k) (view (pp_queue p))) →
    ∃ j, idempotency_key j = k ∧ job_valid j = true ∧ tracked (queue_in p) (tables p) j
}.

Lemma dedupe_inj k k' : dedupe k = dedupe k' → k = k'.
Proof.
  unfold dedupe, dedupe_key_of. intros H.
  assert (Happ : ∀ a b c : string, a +:+ b = a +:+ c → b = c).
  { intros a. induction a as [|x a IH]; intros b c; cbn; [done|]. intros [= H1]. by apply IH. }
  by do 2 apply Happ in H.
Qed.

Lemma has_run_elem rid d : has_run rid d = true ↔ ∃ run, run ∈ workflow_runs d ∧ run_id run = rid.
Proof.
  unfold has_run. rewrite existsb_exists.
  split; intros (r & Hr & Hk); exists r; rewrite list_elem_of_In in *; by rewrite String.eqb_eq in *.
Qed.

(** What was tracked stays tracked. *)
Lemma tracked_mono a d a' d' j :
  (waiting a j → tracked a' d' j) → dead a `prefix_of` dead a' →
  (∀ rid, has_run rid d = true → has_run rid d' = true) → tracked a d j → tracked a' d' j.
Proof.
  intros Hw [l Hl] Hr [H|[(e & reason & now & Hf & He)|(read & run & Hp & Ht & Hin & Hid)]].
  - by apply Hw.
  - right; left. exists e, reason, now. split; [done|]. rewrite Hl. apply elem_of_app. by left.
  - right; right. destruct (proj1 (has_run_elem _ _) (Hr (run_id run) (proj2 (has_run_elem _ _)
      (ex_intro _ run (conj Hin eq_refl))))) as (run' & Hin' & Hid').
    exists read, run'. split_and!; [done..|congruence].
Qed.

(** ** The parts *)

(** A poll does to the server what enqueueing does. *)
Lemma poll_client (P : rdb → Prop) :
  (∀ job, preserves P (enqueue_job (INVOICE_STREAM s) (INVOICE_DEDUPE_PREFIX s)
                         (INVOICE_DEDUPE_TTL_SECONDS s) job)) →
  (∀ account a, preserves (λ pl, P (pl_queue pl)) (enqueue_attachment s invalid account a))
  ∧ preserves (λ pl, P (pl_queue pl)) (poll_inbox s invalid).
Proof using Type.
  intros HP. set (Q := λ pl : poller, P (pl_queue pl)).
  assert (Hg : ∀ A (m : M mailbox A), preserves Q (on_gmail m)).
  { intros A m pl Hq. unfold on_gmail. by destruct (m (pl_mail pl)). }
  assert (Ho : ∀ f, preserves Q (observe f)) by (intros f pl Hq; unfold observe; by destruct (pl_health pl)).
  assert (He : ∀ account a, preserves Q (enqueue_attachment s invalid account a)).
  { intros account a. unfold enqueue_attachment. apply preserves_bind; [by intros pl|]. intros now.
    apply preserves_bind; [apply preserves_of_res|]. intros job. apply preserves_bind; [|frame].
    intros pl Hq. specialize (HP job (pl_queue pl) Hq). unfold on_redis. by destruct (enqueue_job _ _ _ _ _). }
  split; [exact He|]. unfold poll_inbox. apply preserves_bind; [done|]. intros _. apply preserves_try.
  - do 3 (apply preserves_bind; [done|intros ?]). apply preserves_bind.
    + generalize 0%Z. match goal with |- ∀ _, preserves _ (poll_messages _ _ _ _ ?ids) =>
        induction ids as [|id ids IH]; intros n; cbn [poll_messages]; [apply preserves_ret|] end.
      apply preserves_bind; [|intros b; apply IH]. unfold poll_message. apply preserves_bind; [done|].
      intros l. destruct (is_nil l); [apply preserves_ret|]. apply preserves_bind.
      * induction l as [|x l IHl]; cbn [for_each]; [apply preserves_ret|].
        apply preserves_bind; [apply He|]. intros _. exact IHl.
      * intros _. apply preserves_bind; [done|]. intros _. apply preserves_ret.
    + intros n. apply preserves_bind; [done|]. intros _. apply preserves_ret.
  - intros e k. destruct (is_Exception e); [|done]. intros [= <-].
    apply preserves_bind; [done|]. intros _. apply preserves_raise.
Qed.

(** ** The steps keep the invariant *)

Context (So : settings_ok s) (Sd : dedupe_ok s).

(** The keys of the worker are no dedupe keys. *)
Lemma worker_keys k :
  INVOICE_STREAM s ≠ dedupe k ∧ INVOICE_DEAD_LETTER_STREAM s ≠ dedupe k
  ∧ (∀ x, metadata_key (INVOICE_METADATA_PREFIX s) x ≠ dedupe k)
  ∧ (∀ x, replay_key_of (INVOICE_DLQ_REPLAY_PREFIX s) x ≠ dedupe k).
Proof using So Sd.
  destruct (Sd k) as (Hs & Hm & Hr). unfold streams in Hs. unfold dedupe.
  split_and!; [set_solver|set_solver|intros x E'; by apply (Hm x)|intros x E'; by apply (Hr x)].
Qed.

Definition same_keys (q q' : rdb) : Prop := ∀ k, lookup_key (dedupe k) (view q') = lookup_key (dedupe k) (view q).

Lemma same_keys_of {A} (m : M rdb A) q :
  (∀ k, preserves (untouched (dedupe k) (lookup_key (dedupe k) (view q))) m) → same_keys q (m q).2.
Proof using Type. intros H k. by apply H. Qed.

(** A step of a worker: the dedupe keys stay, and what waited is tracked. *)
Lemma inv_worker p q x wt hand a :
  pipe_inv p → holds_on s a q → same_keys (pp_queue p) q → stamped (INVOICE_STREAM s) hand (view q) →
  db_safe wt → (∀ rid, has_run rid (tables p) = true → has_run rid (w_db wt.1) = true) →
  dead (queue_in p) `prefix_of` dead a →
  (∀ j, job_valid j = true → waiting (queue_in p) j → tracked a (w_db wt.1) j) →
  pipe_inv (mk_pipeline q x wt hand).
Proof using Type.
  intros [[I0 I1] I2 I3 I4 I5] [Hq Ha] Hk Hs Hd Hr Hp Hw. split; cbn [pp_queue pp_db pp_hand]; try done.
  - split; [apply Hq|]. intros k. destruct (I1 k) as [Hne Hl]. split; [done|].
    change (lookup_key (dedupe_key_of (INVOICE_DEDUPE_PREFIX s) k) (view q))
      with (lookup_key (dedupe k) (view q)). by rewrite Hk.
  - intros k Hsome. rewrite Hk in Hsome. destruct (I5 k Hsome) as (j & Hj & Hv & Ht). exists j.
    split; [done|]. split; [done|]. unfold queue_in, tables. cbn [pp_queue pp_db]. rewrite Ha.
    apply (tracked_mono (queue_in p) (tables p)); [by apply Hw|done|done|done].
Qed.

(** The consumer group is made. *)
Lemma group_inv p (m := ensure_consumer_group (INVOICE_STREAM s) (INVOICE_CONSUMER_GROUP s)) :
  pipe_inv p →
  pipe_inv (mk_pipeline (m (pp_queue p)).2 (pp_mail p) (pp_db p) (pp_hand p))
  ∧ same_keys (pp_queue p) (m (pp_queue p)).2.
Proof using So Sd.
  intros I. assert (Hk : same_keys (pp_queue p) (m (pp_queue p)).2).
  { apply same_keys_of. intros k. apply (client_ensure_group s _ (λ x, x ≠ dedupe k)); [|apply worker_keys].
    intros B c Hc. by apply untouched_command. }
  split; [|done]. apply (inv_worker p _ _ _ _ (queue_in p) I); [|done| |apply I|done|done|by left].
  - apply (kept_ensure_group s So). by split; [apply I|].
  - apply (client_ensure_group s (stamped_on (INVOICE_STREAM s) (pp_hand p)) (λ _, True)); [|done|apply I].
    intros B c _. apply stamped_on_command.
Qed.

(** The entry of a delivery goes where the delivery ends. *)
Lemma delivery_tracked replies d p o a' wt j :
  pipe_inv p → d ∈ pp_hand p → job_valid j = true →
  delivery_end (graph replies) s d (pp_db p) (queue_in p) o a' wt →
  waiting (queue_in p) j → tracked a' (w_db wt.1) j.
Proof using Type.
  intros I Hd Hv Hend [i Hi].
  assert (Hf : i = stream_id d → payload_of j = d_fields d).
  { intros ->. destruct (st_hand _ _ _ (pi_stamped _ I) d Hd) as [_ H].
    by apply (H (stream_id d, payload_of j)). }
  destruct (decide (i = stream_id d)) as [Ei|Hne].
  - specialize (Hf Ei). destruct Hend as [job x w' Hp Hrun|e reason now o Hp|job e reason now o w1 w' Hp|].
    + right; right. apply (job_has_run _ _ _ _ _ _ _ _ _ (pi_db _ I)), has_run_elem in Hrun as (run & Hr & Hid).
      exists job, run. rewrite Hf. split_and!; [done| |done..]. intros Ht. rewrite <- Hf in Hp.
      unfold payload_of in Hp. rewrite parse_dumped in Hp by done. by injection Hp.
    + right; left. exists d, reason, now. split; [done|]. cbn. apply elem_of_app. right. apply list_elem_of_here.
    + right; left. exists d, reason, now. split; [done|]. cbn. apply elem_of_app. right. apply list_elem_of_here.
    + left. by exists i.
  - assert (Hw : (i, payload_of j) ∈ without (stream_id d) (live (queue_in p)))
      by (by apply elem_of_without).
    destruct Hend; left; exists i; done.
Qed.

Lemma delivery_dead replies d a o a' w w' :
  delivery_end (graph replies) s d w a o a' w' → dead a `prefix_of` dead a'.
Proof using Type. intros H. destruct H; cbn; try done; by apply prefix_app_r. Qed.

(** A poll, whole or cut off. *)
Lemma inv_poll p pl pl' :
  pipe_inv p → polls_for pl p → polled s pl pl' →
  (∃ es, holds_on s (mk_aqueue (live (queue_in p) ++ es) (dead (queue_in p))) (pl_queue pl')) →
  stamped (INVOICE_STREAM s) (pp_hand p) (view (pl_queue pl')) → pipe_inv (with_poller pl' p).
Proof using Type.
  intros [I1 I2 I3 I4 I5] [Eq _] Hp (es & [Hok Ha]) Hs.
  destruct (pd_grown _ _ _ Hp) as [(new & Hnew & _ & Hv & Hann) Hkeep]. rewrite Eq in *.
  rewrite Forall_forall in Hv. assert (Hq : queue_in (with_poller pl' p) = mk_aqueue _ _) by exact Ha.
  split; cbn [with_poller pp_queue pp_db pp_hand]; [apply Hp|exact Hok|done|done|].
  intros k Hsome. destruct (lookup_key (dedupe k) (view (pp_queue p))) as [v|] eqn:El.
  - destruct (I5 k) as (j & Hj & Hjv & Ht); [by rewrite El|]. exists j. split; [done|]. split; [done|].
    apply (tracked_mono (queue_in p) (tables p)); [|by rewrite Hq|done|done].
    intros [i Hi]. left. exists i. rewrite Hq. apply elem_of_app. by left.
  - destruct (Hann k El Hsome) as ([i j] & Hin & Hk). exists j.
    split; [by apply dedupe_inj|]. split; [by apply (Hv (i, j))|]. left. exists i. unfold queue_in. cbn.
    rewrite Hnew. apply elem_of_app. right. apply (list_elem_of_fmap_2 (job_entry (JC:=JC)) new (i, j) Hin).
Qed.

Lemma step_poll p pl :
  pipe_inv p → polls_for pl p →
  (pipe_inv (with_poller (poll_inbox s invalid pl).2 p) ∧ polled s pl (poll_inbox s invalid pl).2)
  ∧ ∀ account a, pipe_inv (with_poller (enqueue_attachment s invalid account a pl).2 p)
                 ∧ polled s pl (enqueue_attachment s invalid account a pl).2.
Proof using So Sd.
  intros I Hpl. pose proof Hpl as [Eq _].
  assert (Hok : poll_ok s (view (pl_queue pl))) by (rewrite Eq; apply I).
  set (P1 := λ q, ∃ es, holds_on s (mk_aqueue (live (queue_in p) ++ es) (dead (queue_in p))) q).
  destruct (poll_client P1) as [He1 Hp1].
  { intros job q (es & Hq). destruct (enqueue_arrives s job So Sd _ q Hq) as (es' & Hq'). cbn in Hq'.
    rewrite <- app_assoc in Hq'. by exists (es ++ es'). }
  destruct (poll_client (stamped_on (INVOICE_STREAM s) (pp_hand p))) as [He2 Hp2].
  { intros job. by apply (client_enqueue s _ (λ _, True)); [intros B c _; apply stamped_on_command|..]. }
  assert (H1 : P1 (pl_queue pl)).
  { exists []. rewrite app_nil_r, Eq. split; [apply I|]. unfold queue_in. by destruct (queue_of _ _). }
  assert (H2 : stamped_on (INVOICE_STREAM s) (pp_hand p) (pl_queue pl)) by (unfold stamped_on; rewrite Eq; apply I).
  split.
  - assert (Hp : polled s pl (poll_inbox s invalid pl).2) by (by apply poll_inbox_polls). split; [|done].
    apply (inv_poll p pl); [done|done|done|by apply Hp1|by apply Hp2].
  - intros account a. pose proof (enqueue_attachment_polls s invalid account a pl Hok) as Hp.
    pose proof (He1 account a pl H1) as H1'. pose proof (He2 account a pl H2) as H2'.
    destruct (enqueue_attachment s invalid account a pl) as [o pl']. destruct Hp as [Hp _]. split; [|done].
    by apply (inv_poll p pl).
Qed.

(** ** Mail on its way *)

(** Nothing is forgotten: the content of the mailbox, the dedupe keys, and a message that was
    unread, until it is queued. *)
Record progress (p p' : pipeline) : Prop := {
  pg_content : same_content (pp_mail p) (pp_mail p');
  pg_keys k v : lookup_key (dedupe k) (view (pp_queue p)) = Some v →
    lookup_key (dedupe k) (view (pp_queue p')) = Some v;
  pg_unread id : id ∈ unread (pp_mail p) →
    id ∈ unread (pp_mail p') ∨ message_queued s (pp_mail p) (view (pp_queue p')) id
}.

Lemma queued_kept x ks ks' id :
  (∀ k v, lookup_key (dedupe k) ks = Some v → lookup_key (dedupe k) ks' = Some v) →
  message_queued s x ks id → message_queued s x ks' id.
Proof using Type.
  intros Hk [Hn Hf]. split; [done|]. eapply Forall_impl; [exact Hf|].
  intros q (b & j & sid & Hc & Hd & Hm & Hl). exists b, j, sid. split_and!; [done..|]. by apply Hk.
Qed.

Lemma progress_refl p : progress p p.
Proof using Type. split; [done|done|by left]. Qed.

Lemma progress_trans p1 p2 p3 : progress p1 p2 → progress p2 p3 → progress p1 p3.
Proof using Type.
  intros [C1 K1 U1] [C2 K2 U2]. split; [|auto|].
  - destruct C1, C2. split; by etrans.
  - intros id Hid. destruct (U1 id Hid) as [H|H].
    + destruct (U2 id H) as [H'|H']; [by left|right]. by apply (message_queued_same s _ (pp_mail p2)).
    + right. by eapply queued_kept.
Qed.

(** The queue moves on, the mailbox stays. *)
Lemma progress_worker p q wt hand :
  same_keys (pp_queue p) q → progress p (mk_pipeline q (pp_mail p) wt hand).
Proof using Type. intros Hk. split; cbn; [done| |by left]. intros k v. by rewrite Hk. Qed.

Lemma progress_poll p pl pl' : polls_for pl p → polled s pl pl' → poll_ok s (view (pp_queue p)) →
  progress p (with_poller pl' p).
Proof using Type.
  intros [Eq Em] Hp [_ Hok]. rewrite <- Eq in Hok.
  split; cbn [with_poller pp_mail pp_queue]; rewrite <- ?Em, <- ?Eq.
  - apply Hp.
  - intros k v. apply (pd_grown _ _ _ Hp). apply Hok.
  - apply (pd_read _ _ _ Hp).
Qed.

(** What a worker does to the server. *)
Lemma work_inv replies beats consumer now d p :
  pipe_inv p → d ∈ pp_hand p →
  let w := (process_delivery (graph replies) s beats consumer now d (mk_worker (pp_queue p) (pp_db p))).2 in
  pipe_inv (with_worker w p) ∧ same_keys (pp_queue p) (wk_queue w).
Proof using So Sd.
  intros I Hd. set (w0 := mk_worker (pp_queue p) (pp_db p)).
  assert (Hk : same_keys (pp_queue p) (wk_queue (process_delivery (graph replies) s beats consumer now d w0).2)).
  { intros k. destruct (worker_keys k) as (K1 & K2 & K3 & K4).
    apply (client_process_delivery s (untouched (dedupe k) (lookup_key (dedupe k) (view (pp_queue p))))
      (λ x, x ≠ dedupe k)); try done. intros B c Hc. by apply untouched_command. }
  assert (Hs : stamped (INVOICE_STREAM s) (pp_hand p)
    (view (wk_queue (process_delivery (graph replies) s beats consumer now d w0).2))).
  { apply (client_process_delivery s (stamped_on (INVOICE_STREAM s) (pp_hand p)) (λ _, True)); try done.
    - intros B c _. apply stamped_on_command.
    - apply I. }
  pose proof (λ rid, delivery_runs_stay model_fields triage_fields sla_hours rid replies s beats consumer now d w0 (pi_db _ I)) as Hr.
  pose proof (process_delivery_safe model_fields triage_fields replies sla_hours s beats consumer now d w0
    (pi_db _ I)) as Hsafe.
  destruct (process_delivery (graph replies) s beats consumer now d w0) as [o [q' wt]] eqn:Ew.
  cbn [snd wk_queue wk_db] in *. cbv zeta. split; [|done].
  assert (Ha : holds_on s (queue_in p) (pp_queue p)) by (by split; [apply I|]).
  destruct (process_delivery_end (graph replies) s So _ _ _ _ _ _ _ _ _ _ Ha Ew) as (a' & Ha' & Hend).
  apply (inv_worker p q' _ wt _ a' I Ha' Hk Hs); [by destruct o|exact Hr|by eapply delivery_dead|].
  intros j Hv. by eapply delivery_tracked.
Qed.

(** The deliveries that are read are those of the stream. *)
Lemma read_inv consumer r q p :
  pipe_inv p → next_deliveries s consumer (pp_queue p) = (r, q) →
  pipe_inv (mk_pipeline q (pp_mail p) (pp_db p)
              (match r with Ok ds => ds ++ pp_hand p | Raise _ => pp_hand p end))
  ∧ same_keys (pp_queue p) q.
Proof using So Sd.
  intros I En. assert (Ha : holds_on s (queue_in p) (pp_queue p)) by (by split; [apply I|]).
  destruct (next_deliveries_spec s So _ _ _ _ _ Ha En) as [Ha' Hds].
  assert (Hs : stamped (INVOICE_STREAM s) (pp_hand p) (view q)).
  { assert (H : stamped_on (INVOICE_STREAM s) (pp_hand p) (next_deliveries s consumer (pp_queue p)).2);
      [|by rewrite En in H].
    apply (client_next_deliveries s _ (λ _, True)); [|done|apply I]. intros B c _. apply stamped_on_command. }
  assert (Hk : same_keys (pp_queue p) q).
  { assert (H : same_keys (pp_queue p) (next_deliveries s consumer (pp_queue p)).2); [|by rewrite En in H].
    apply same_keys_of. intros k. apply (client_next_deliveries s _ (λ x, x ≠ dedupe k)); [|apply worker_keys].
    intros B c Hc. by apply untouched_command. }
  split; [|done]. apply (inv_worker p q _ _ _ (queue_in p) I Ha' Hk); [|apply I|done|done|by left].
  destruct r as [ds|e]; [|done]. specialize (Hds ds eq_refl). rewrite Forall_forall in Hds.
  destruct Hs as [S1 S2 S3 S4]. split; [done..|]. intros d [Hd|Hd]%elem_of_app; [|by apply S4].
  specialize (Hds d Hd). unfold on_stream in Hds. destruct Ha' as [_ Ha']. rewrite <- Ha' in Hds.
  split; [by apply (S3 (stream_id d, d_fields d))|]. intros e He Eid.
  assert (e = (stream_id d, d_fields d)) as ->; [|done].
  by apply (NoDup_fmap_inj fst (on_live (INVOICE_STREAM s) (view q))).
Qed.

Lemma pipe_step_inv p p' : pipe_step p p' → pipe_inv p → pipe_inv p' ∧ progress p p'.
Proof using So Sd.
  intros H I. destruct H as [x p Hc Hu|pl p Hpl|account a pl p Hpl|p|consumer r q p Hr
    |replies beats consumer now d p Hd|wt p Hs].
  - split; [destruct I; by split|]. split; [done|done|]. intros id Hid. left. by apply Hu.
  - destruct (step_poll p pl I Hpl) as [[I' Hp] _]. split; [done|]. by eapply progress_poll, pi_poll.
  - destruct (step_poll p pl I Hpl) as [_ H]. destruct (H account a) as [I' Hp]. split; [done|].
    by eapply progress_poll, pi_poll.
  - destruct (group_inv p I) as [I' Hk]. split; [done|]. by apply progress_worker.
  - destruct (read_inv consumer r q p I Hr) as [I' Hk]. split; [done|]. by apply progress_worker.
  - destruct (work_inv replies beats consumer now d p I Hd) as [I' Hk]. split; [done|]. by apply progress_worker.
  - split; [|by apply progress_worker]. pose proof I as [I1 I2 I3 I4 I5]. split; try done; cbn [pp_db].
    + by apply (step_safe _ _ _ _ _ Hs).
    + intros k Hk. destruct (I5 k Hk) as (j & Hj & Hv & Ht). exists j. split; [done|]. split; [done|].
      apply (tracked_mono (queue_in p) (tables p)); [by left|done| |done].
      intros rid. by apply (step_runs_stay _ _ _ _ _ _ Hs).
Qed.

Lemma pipe_steps_inv p p' : rtc pipe_step p p' → pipe_inv p → pipe_inv p' ∧ progress p p'.
Proof using So Sd.
  induction 1 as [p|p1 p2 p3 H1 _ IH]; intros I; [by split; [|apply progress_refl]|].
  destruct (pipe_step_inv _ _ H1 I) as [I2 P12]. destruct (IH I2) as [I3 P23].
  split; [done|by eapply progress_trans].
Qed.

(** Before anything has happened: the ids of the server differ, nothing is on the live stream or
    was enqueued, the tables are empty. *)
Record pipe_start (p : pipeline) : Prop := {
  pt_queue : queue_ok s (view (pp_queue p));
  pt_live : live (queue_in p) = [];
  pt_dedupe : ∀ k, lookup_key (dedupe k) (view (pp_queue p)) = None;
  pt_ids : ∀ m n, ids (view (pp_queue p)) m = ids (view (pp_queue p)) n → m = n;
  pt_hand : pp_hand p = [];
  pt_db : empty_system (pp_db p)
}.

Lemma start_inv p : pipe_start p → pipe_inv p.
Proof using So Sd.
  intros [Hq Hl Hd Hi Hh Hs]. assert (Hl' : on_live (INVOICE_STREAM s) (view (pp_queue p)) = []) by exact Hl.
  split; [|done| |by apply empty_safe|].
  - split; [apply Hq|]. intros k. split; [|by left; apply Hd]. intros Ek. by destruct (worker_keys k) as [[] _].
  - rewrite Hh. split; rewrite ?Hl'; [done|constructor|by intros e ?%elem_of_nil|by intros d ?%elem_of_nil].
  - intros k. rewrite Hd. by intros [].
Qed.

(** An attachment that was taken: its bytes are those of a job, and the job of that idempotency
    key is where [tracked] says. *)
Definition part_followed (x : mailbox) (p : pipeline) (id : string) (q : part) : Prop :=
  ∃ bytes job first, content x id q = Ok bytes ∧ decoded_file_bytes job = Ok bytes ∧ message_id job = id
    ∧ idempotency_key first = idempotency_key job ∧ job_valid first = true
    ∧ tracked (queue_in p) (tables p) first.

End Pipeline.

(** ** Example *)

(** A poll of three messages, and a worker that processes the first delivery. *)
Abbreviation demo_step := (pipe_step (R:=reference_redis) (G:=reference_gmail) demo_fields demo_triage 72
                             default_settings (λ _, "invalid")).

Definition demo_pipeline : pipeline (R:=reference_redis) (G:=reference_gmail) :=
  mk_pipeline (R:=reference_redis) (G:=reference_gmail)
    (mk_keyspace [] (λ n, str_of_Z (Z.of_nat n + 1) +:+ "-0") 0 100) demo_mailbox demo_start [].

Definition demo_polled : pipeline (R:=reference_redis) (G:=reference_gmail) :=
  with_poller (demo_poll demo_mailbox).2 demo_pipeline.

Definition demo_grouped : pipeline (R:=reference_redis) (G:=reference_gmail) :=
  mk_pipeline (R:=reference_redis) (G:=reference_gmail)
    (ensure_consumer_group (R:=reference_redis) (INVOICE_STREAM default_settings)
       (INVOICE_CONSUMER_GROUP default_settings) (pp_queue demo_polled)).2
    (pp_mail demo_polled) (pp_db demo_polled) (pp_hand demo_polled).

Definition demo_reading : res (list StreamDelivery) * keyspace :=
  next_deliveries (R:=reference_redis) default_settings "c" (pp_queue demo_grouped).

Definition demo_read : pipeline (R:=reference_redis) (G:=reference_gmail) :=
  mk_pipeline (R:=reference_redis) (G:=reference_gmail) demo_reading.2 (pp_mail demo_grouped) (pp_db demo_grouped)
    (match demo_reading.1 with Ok ds => ds ++ pp_hand demo_grouped | Raise _ => pp_hand demo_grouped end).

Definition the_delivery : StreamDelivery := default (mk_delivery "" [] 0) (head (pp_hand demo_read)).

Definition demo_worked : pipeline (R:=reference_redis) (G:=reference_gmail) :=
  with_worker (process_delivery (R:=reference_redis) demo_release_graph default_settings 1 "c" 0 the_delivery
                 (mk_worker (R:=reference_redis) (pp_queue demo_read) (pp_db demo_read))).2 demo_read.

Example demo_worked_ends :
  length (pp_hand demo_read) = 3
  ∧ length (s_entries (stream_at (INVOICE_STREAM default_settings) (pp_queue demo_worked))) = 2
  ∧ run_id <$> workflow_runs (w_db (pp_db demo_worked).1)
    = [deterministic_run_id (attachment_idempotency_key "ap@example.com" "m1" "0.1")].
Proof. vm_compute. by split_and!. Qed.

Lemma demo_pipe_start : pipe_start (R:=reference_redis) (G:=reference_gmail) default_settings demo_pipeline.
Proof.
  split; [by split|done|done| |done|exact demo_start_empty].
  intros m n H. cbn in H. apply (f_equal to_chars) in H. rewrite !to_chars_app in H.
  apply app_inv_tail, to_chars_inj in H. apply (f_equal py_int) in H. rewrite !py_int_str_of_Z in H.
  injection H. lia.
Qed.

Lemma demo_reads :
  next_deliveries (R:=reference_redis) default_settings "c" (pp_queue demo_grouped) = (demo_reading.1, demo_reading.2).
Proof. unfold demo_reading. by destruct (next_deliveries default_settings "c" (pp_queue demo_grouped)). Qed.

Lemma the_delivery_elem : the_delivery ∈ pp_hand demo_read.
Proof.
  assert (Hh : length (pp_hand demo_read) = 3) by (vm_compute; reflexivity).
  unfold the_delivery. destruct (pp_hand demo_read) as [|d l]; [discriminate Hh|apply list_elem_of_here].
Qed.

Lemma demo_pipe_runs : rtc demo_step demo_pipeline demo_worked.
Proof.
  assert (H1 : demo_step demo_pipeline demo_polled)
    by exact (ps_poll demo_fields demo_triage 72 default_settings (λ _, "invalid")
      (demo_poller demo_mailbox) demo_pipeline (conj eq_refl eq_refl)).
  assert (H2 : demo_step demo_polled demo_grouped)
    by exact (ps_group demo_fields demo_triage 72 default_settings (λ _, "invalid") demo_polled).
  assert (H3 : demo_step demo_grouped demo_read)
    by exact (ps_read demo_fields demo_triage 72 default_settings (λ _, "invalid")
      "c" _ _ demo_grouped demo_reads).
  assert (H4 : demo_step demo_read demo_worked)
    by exact (ps_work demo_fields demo_triage 72 default_settings (λ _, "invalid")
      (demo_replies 2000) 1 "c" 0 the_delivery demo_read the_delivery_elem).
  exact (rtc_l _ _ _ _ H1 (rtc_l _ _ _ _ H2 (rtc_l _ _ _ _ H3 (rtc_l _ _ _ _ H4 (rtc_refl _ _))))).
Qed.

