(* ===== verification/JobRace.v ===== *)
(** * Workers that meet on a job

    [_get_or_create_job_records] of [app/services/invoice_worker.py] by any number of workers at
    once: a delivery that is claimed from a slow worker, or a second entry of the same key, has
    two of them create the rows of one job.  The function is cut where others can act: after the
    select of the document, after the select of its run, at the commit of the new rows, and twice
    again in the [except IntegrityError] clause.  PostgreSQL lets an insert wait for the open one
    of the same key, so that the two new rows and their commit are one step. *)

From S2P Require Import Prelude PyText LoadNumbers DateTime PyFloat Json Database MissingDocs.
From S2P Require Import Shipments Reconciliation SlaScanner Extraction Workflow WorkflowSafety.
From S2P Require Import Frame BusinessState WorkflowRoutes InvoiceJob Redis InvoiceQueue QueueRoutes.
From S2P Require Import InvoiceWorker DeliveryLifecycle Notifier RateConfirmationRoutes ResultFrame ThreadStages.
From S2P Require Import SystemInvariant SystemHandlers SystemDelivery SystemSafety RunsKept.
From stdpp Require Import relations.
From Stdlib Require Import Ascii.
Local Open Scope string_scope.
Local Open Scope list_scope.
Local Open Scope nat_scope.

(** ** The function, by its statements *)

Inductive phase :=
  | Look | Found (doc : Document) | Create | Again | FoundAgain (doc : Document)
  | Finished (r : res (Document * WorkflowRun)).

Definition find_rows (msg : string) (doc : Document) : M session phase :=
  run ← find_run_for_document (doc_id doc);
  match run with
  | None => runtime_error msg
  | Some run => mret (Finished (Ok (doc, run)))
  end.

Definition insert_rows (job : InvoiceJobEnvelope) : M session (Document * WorkflowRun) :=
  doc ← insert_document (new_job_document job);
  run ← insert_run (new_job_run job (doc_id doc));
  _ ← commit;
  mret (doc, run).

Definition phase_session (job : InvoiceJobEnvelope) (g : phase) : M session phase :=
  match g with
  | Look =>
      found ← select (documents_with_key (idempotency_key job));
      document ← scalar_one_or_none found;
      mret (match document with Some doc => Found doc | None => Create end)
  | Found doc => find_rows "idempotent document is missing its workflow run" doc
  | Create =>
      try_except (rows ← insert_rows job; mret (Finished (Ok rows)))
        (λ e, if isinstance_exn e IntegrityError then Some (_ ← rollback; mret Again) else None)
  | Again =>
      found ← select (documents_with_key (idempotency_key job));
      doc ← scalar_one found;
      mret (FoundAgain doc)
  | FoundAgain doc => find_rows "concurrent document creation did not create a workflow run" doc
  | Finished r => mret (Finished r)
  end.

(** A phase in the session of a worker; an exception ends the function. *)
Definition advance (job : InvoiceJobEnvelope) (g : phase) (w : world) : phase * world :=
  match run_session (phase_session job g) w with
  | (Ok g', w') => (g', w')
  | (Raise e, w') => (Finished (Raise e), w')
  end.

Definition turns_left (g : phase) : nat :=
  match g with Look => 4 | Create => 3 | Again => 2 | Found _ | FoundAgain _ => 1 | Finished _ => 0 end.

(** What a phase does. *)
Definition no_row : exn := Exn (OtherError "NoResultFound") "No row was found when one was required".
Definition many_rows : exn := Exn (OtherError "MultipleResultsFound") "Multiple rows were found".

Lemma select_document {A} (k : list Document → M session A) job w :
  run_session (found ← select (documents_with_key (idempotency_key job)); k found) w
  = run_session (k (documents_with_key (idempotency_key job) (w_db w))) w.
Proof. done. Qed.

Lemma look_eq job w :
  advance job Look w = (match documents_with_key (idempotency_key job) (w_db w) with
                        | [] => Create
                        | [doc] => Found doc
                        | _ => Finished (Raise many_rows)
                        end, w).
Proof.
  destruct w as [d e]. unfold advance, phase_session. rewrite select_document, run_session_unfold, bind_unfold.
  by destruct (documents_with_key _ _) as [|doc [|]].
Qed.

Lemma again_eq job w :
  advance job Again w = (match documents_with_key (idempotency_key job) (w_db w) with
                         | [] => Finished (Raise no_row)
                         | [doc] => FoundAgain doc
                         | _ => Finished (Raise many_rows)
                         end, w).
Proof.
  destruct w as [d e]. unfold advance, phase_session. rewrite select_document, run_session_unfold, bind_unfold.
  by destruct (documents_with_key _ _) as [|doc [|]].
Qed.

Definition rows_of (msg : string) (doc : Document) (d : database) : phase :=
  Finished (match head (where_ (λ r, Z.eqb (document_id r) (doc_id doc)) (workflow_runs d)) with
            | None => Raise (Exn RuntimeError msg)
            | Some run => Ok (doc, run)
            end).

Lemma found_eq job doc w :
  advance job (Found doc) w = (rows_of "idempotent document is missing its workflow run" doc (w_db w), w).
Proof.
  destruct w as [d e]. unfold advance, phase_session, rows_of. rewrite run_session_unfold.
  unfold find_rows, find_run_for_document. rewrite bind_unfold.
  cbn [select gets session_of working w_db]. by destruct (head _).
Qed.

Lemma found_again_eq job doc w :
  advance job (FoundAgain doc) w
  = (rows_of "concurrent document creation did not create a workflow run" doc (w_db w), w).
Proof.
  destruct w as [d e]. unfold advance, phase_session, rows_of. rewrite run_session_unfold.
  unfold find_rows, find_run_for_document. rewrite bind_unfold.
  cbn [select gets session_of working w_db]. by destruct (head _).
Qed.

Lemma create_eq job w :
  advance job Create w =
  match insert_rows job (session_of w) with
  | (Ok rows, s) => (Finished (Ok rows), world_of s)
  | (Raise e, s) => if isinstance_exn e IntegrityError then (Again, mk_world (committed s) (senv s))
                    else (Finished (Raise e), world_of s)
  end.
Proof.
  unfold advance, phase_session. rewrite run_session_unfold. unfold try_except. rewrite bind_unfold.
  destruct (insert_rows job (session_of w)) as [[rows|e] s]; [done|]. by destruct (isinstance_exn e IntegrityError).
Qed.

Lemma insert_rows_raise job w e s : insert_rows job (session_of w) = (Raise e, s) → committed s = w_db w.
Proof.
  intros H. pose proof (insert_rows_uncommitted job (w_db w) (session_of w) eq_refl) as Hu.
  unfold insert_rows in H. by rewrite H in Hu.
Qed.

(** Alone, the phases are the function. *)
Lemma phases_are_the_function job w r w' :
  run_session (get_or_create_job_records job) w = (r, w') →
  Nat.iter 4 (λ gw, advance job gw.1 gw.2) (Look, w) = (Finished r, w').
Proof.
  destruct w as [d0 e0]. unfold get_or_create_job_records. rewrite select_document. rewrite run_session_unfold, bind_unfold.
  cbn [Nat.iter nat_rect]. cbn [fst snd]. rewrite look_eq.
  destruct (documents_with_key (idempotency_key job) (w_db (mk_world d0 e0))) as [|doc [|]] eqn:Ed;
    cbn [scalar_one_or_none mret M_ret raise fst snd].
  - rewrite create_eq. unfold try_except. change (doc ← insert_document _; _) with (insert_rows job).
    destruct (insert_rows job _) as [[rows|e] s] eqn:Ei; [by intros [= <- <-]|].
    destruct (isinstance_exn e IntegrityError); [|by intros [= <- <-]]. cbn [fst snd]. rewrite again_eq.
    cbn [w_db]. rewrite bind_unfold. unfold rollback, modify. cbn [fst snd]. rewrite bind_unfold.
    unfold select, gets. cbn [working]. rewrite (insert_rows_raise job _ e s Ei). cbn [w_db] in *. rewrite !Ed.
    by intros [= <- <-].
  - rewrite found_eq. unfold rows_of. rewrite bind_unfold.
    unfold find_run_for_document, select, gets. cbn [working session_of].
    by destruct (head _) as [run|]; intros [= <- <-].
  - by intros [= <- <-].
Qed.

(** ** The workers and the rest of the program *)

Record racer := mk_racer { rc_job : InvoiceJobEnvelope; rc_phase : phase }.

(** The sequences of the server hand out numbers that no row has, and an id that [uuid5] makes of
    a key is none that [uuid4] made. *)
Record numbered (key : string) (w : world) : Prop := {
  nb_document : doc_seq (w_env w) ∉ doc_id <$> documents (w_db w);
  nb_run : run_seq (w_env w) ∉ run_pk <$> workflow_runs (w_db w);
  nb_named : has_run (deterministic_run_id key) (w_db w) = true → ∃ i, keyed (w_db w) i key
}.

Section Race.
Context {R : Redis} `{JC : JobCodec} `{E : GraphEngine} (model_fields : schema → json → option coerced)
        (triage_fields : json → option (string * string * float)) (sla_hours : Z).

Inductive race_step : (world * threads) * list racer → (world * threads) * list racer → Prop :=
  | jr_turn k x w t rs :
      rs !! k = Some x → numbered (idempotency_key (rc_job x)) w →
      race_step ((w, t), rs)
        (((advance (rc_job x) (rc_phase x) w).2, t),
         <[k := mk_racer (rc_job x) (advance (rc_job x) (rc_phase x) w).1]> rs)
  | jr_rest wt wt' rs : sys_step model_fields triage_fields sla_hours wt wt' → race_step (wt, rs) (wt', rs)
  | jr_start job wt rs : race_step (wt, rs) (wt, rs ++ [mk_racer job Look])
  | jr_die k wt rs : race_step (wt, rs) (wt, delete k rs).

(** ** The rows of a key *)

Lemma singleton_where {A B} `{EqDecision B} (f : A → B) (p : A → bool) (l : list A) (x : A) :
  NoDup (f <$> l) → x ∈ l → p x = true → (∀ y, y ∈ l → p y = true → f y = f x) → where_ p l = [x].
Proof.
  intros Hnd Hx Hp Hall. assert (Hx' : x ∈ where_ p l) by (by apply elem_of_where).
  assert (Hnd' : NoDup (where_ p l)).
  { unfold where_. apply NoDup_ListNoDup, List.NoDup_filter, NoDup_ListNoDup. by eapply NoDup_fmap_1. }
  assert (Heq : ∀ y, y ∈ where_ p l → y = x).
  { intros y [Hy Hpy]%elem_of_where. apply (NoDup_fmap_inj f l); auto. }
  destruct (where_ p l) as [|a [|b l']]; [by apply elem_of_nil in Hx'| |].
  - by rewrite (Heq a) by apply list_elem_of_here.
  - exfalso. rewrite (Heq a), (Heq b) in Hnd' by (repeat constructor). apply NoDup_cons in Hnd' as [H _].
    apply H, list_elem_of_here.
Qed.

(** What every worker finds. *)
Record found_at (key : string) (i : Z) (d : database) : Prop := {
  fa_document : ∃ doc, documents_with_key key d = [doc] ∧ doc_id doc = i;
  fa_run : ∃ run, where_ (λ r, Z.eqb (document_id r) i) (workflow_runs d) = [run]
             ∧ run_id run = deterministic_run_id key
}.

Lemma keyed_found_at d t i key : sys_inv d t → keyed d i key → found_at key i d.
Proof.
  intros I Hk. destruct (si_keys _ _ I i key Hk) as [Hr Hone]. split.
  - apply with_key_keyed in Hk as (doc & Hdoc & Hi). exists doc. split; [|done].
    pose proof Hdoc as [Hd Hp]%elem_of_where. unfold documents_with_key.
    apply (singleton_where doc_id); [apply (rf_doc_ids _ (si_results _ _ I))|done|done|].
    intros y Hy Hpy. rewrite Hi. apply Hone, keyed_with_key. by apply elem_of_where.
  - apply list_elem_of_fmap in Hr as (run & Hdi & Hrun). exists run.
    assert (Hn : ∀ r, r ∈ workflow_runs d → document_id r = i → run_id r = deterministic_run_id key).
    { intros r Hr Ei. apply (si_named _ _ I); [done|by rewrite Ei]. }
    split; [|by apply Hn]. apply (singleton_where run_id); [apply (si_runs _ _ I)|done|by apply Z.eqb_eq|].
    intros y Hy Hy'%Z.eqb_eq. by rewrite !Hn.
Qed.

Lemma found_rows key i d doc msg :
  found_at key i d → doc_id doc = i →
  ∃ run, rows_of msg doc d = Finished (Ok (doc, run)) ∧ document_id run = i ∧ run_id run = deterministic_run_id key.
Proof.
  intros [_ (run & Hr & Hn)] Hi. exists run. unfold rows_of. rewrite Hi, Hr. split; [done|]. split; [|done].
  assert (H : run ∈ where_ (λ r, Z.eqb (document_id r) i) (workflow_runs d)) by (rewrite Hr; apply list_elem_of_here).
  by apply elem_of_where in H as [_ ?%Z.eqb_eq].
Qed.

(** ** A turn *)

Definition phase_ok (key : string) (g : phase) (d : database) : Prop :=
  match g with
  | Look | Create => True
  | Again => ∃ i, keyed d i key
  | Found doc | FoundAgain doc => keyed d (doc_id doc) key
  | Finished r => ∃ doc run, r = Ok (doc, run) ∧ keyed d (doc_id doc) key
      ∧ document_id run = doc_id doc ∧ run_id run = deterministic_run_id key
  end.

Lemma phase_ok_kept key g d d' :
  (∀ i, keyed d i key → keyed d' i key) → phase_ok key g d → phase_ok key g d'.
Proof.
  intros H. destruct g as [|doc| | |doc|r]; cbn; [done|apply H|done|intros [i Hi]; exists i; by apply H|apply H|].
  intros (doc & run & -> & Hk & Hr). exists doc, run. split; [done|]. split; [by apply H|done].
Qed.

(** The insert of a new key succeeds. *)
Lemma insert_rows_fresh job w :
  numbered (idempotency_key job) w → documents_with_key (idempotency_key job) (w_db w) = [] →
  ∃ rows s, insert_rows job (session_of w) = (Ok rows, s).
Proof.
  intros [Hd Hr Hn] Hno. destruct (insert_rows job (session_of w)) as [[rows|e] s] eqn:Ei; [by eauto|exfalso].
  assert (Hkey : existsb (λ d, sql_eq String.eqb (source_idempotency_key d) (idempotency_key job))
                   (documents (w_db w)) = false).
  { apply existsb_false_Forall, Forall_forall. intros x Hx. apply Bool.not_true_iff_false. intros Hk.
    assert (H : x ∈ documents_with_key (idempotency_key job) (w_db w)) by (by apply elem_of_where).
    rewrite Hno in H. by apply elem_of_nil in H. }
  assert (Hid : existsb (λ x, Z.eqb (doc_id x) (doc_seq (w_env w))) (documents (w_db w)) = false).
  { apply existsb_false_Forall, Forall_forall. intros x Hx. apply Z.eqb_neq. intros Hk. apply Hd.
    rewrite <- Hk. by apply list_elem_of_fmap_2. }
  assert (Hpk : existsb (λ x, Z.eqb (run_pk x) (run_seq (w_env w))) (workflow_runs (w_db w)) = false).
  { apply existsb_false_Forall, Forall_forall. intros x Hx. apply Z.eqb_neq. intros Hk. apply Hr.
    rewrite <- Hk. by apply list_elem_of_fmap_2. }
  assert (Hrun : has_run (deterministic_run_id (idempotency_key job)) (w_db w) = false).
  { apply Bool.not_true_iff_false. intros H. destruct (Hn H) as [i Hi].
    apply with_key_keyed in Hi as (x & Hx & _). rewrite Hno in Hx. by apply elem_of_nil in Hx. }
  unfold insert_rows, insert_document, insert_run in Ei. session_unfold. rewrite Hid, Hkey in Ei. cbn in Ei.
  unfold has_run in Hrun. rewrite Hpk, Hrun, existsb_app in Ei. cbn in Ei.
  by rewrite Z.eqb_refl, Bool.orb_true_r in Ei.
Qed.

(** The insert of a key that is there is refused. *)
Lemma insert_rows_taken job w doc :
  doc ∈ documents_with_key (idempotency_key job) (w_db w) →
  ∃ what s, insert_rows job (session_of w) = (Raise (Exn IntegrityError what), s).
Proof.
  intros [Hd Hk]%elem_of_where.
  assert (Hkey : existsb (λ d, sql_eq String.eqb (source_idempotency_key d) (idempotency_key job))
                   (documents (w_db w)) = true).
  { apply existsb_exists. exists doc. split; [by apply list_elem_of_In|done]. }
  unfold insert_rows, insert_document. session_unfold.
  rewrite Hkey. destruct (existsb (λ x, Z.eqb (doc_id x) _) (documents (w_db w))); cbn; eexists _, _; reflexivity.
Qed.

Lemma insert_rows_ok job w doc run s :
  insert_rows job (session_of w) = (Ok (doc, run), s) →
  doc_id doc ∉ doc_id <$> documents (w_db w) ∧ source_idempotency_key doc = Some (idempotency_key job)
  ∧ document_id run = doc_id doc ∧ run_id run = deterministic_run_id (idempotency_key job)
  ∧ committed s = on_workflow_runs (λ l, l ++ [run]) (on_documents (λ l, l ++ [doc]) (w_db w)).
Proof.
  intros Ei. apply bind_ok_inv in Ei as (doc' & s1 & Hd & Ei). apply bind_ok_inv in Ei as (run' & s2 & Hr & Ei).
  apply bind_ok_inv in Ei as (tt' & s3 & Hcm & Ei). injection Ei as -> -> <-. injection Hcm as _ <-.
  apply insert_document_new in Hd as (Hnew & Ed & _ & Hdw); [|done].
  apply insert_run_ok in Hr as (Er & _ & _ & Hrw & _). cbn [committed]. rewrite Hrw, Hdw.
  by rewrite Er, Ed in *.
Qed.

(** The insert is the whole function, in the state it finds. *)
Lemma create_is_the_function job w t rows s :
  documents_with_key (idempotency_key job) (w_db w) = [] → insert_rows job (session_of w) = (Ok rows, s) →
  served (in_session (get_or_create_job_records job)) (w, t) = (world_of s, t).
Proof.
  intros Hno Ei. unfold served, with_session, in_session, get_or_create_job_records. cbn [fst snd].
  rewrite bind_unfold. unfold select at 1, gets. cbn [session_of working]. rewrite Hno.
  unfold try_except. change (doc ← insert_document _; _) with (insert_rows job).
  cbn [scalar_one_or_none mret M_ret]. change (mk_session _ _ _) with (session_of w). rewrite bind_unfold.
  cbn [mret M_ret]. rewrite Ei. done.
Qed.

Lemma unchanged_step w t : sys_step model_fields triage_fields sla_hours (w, t) (w, t).
Proof. destruct w as [d e]. exact (step_environment model_fields triage_fields sla_hours e (mk_world d e) t). Qed.

(** A turn is a step of the program, and leaves its worker where it can go on. *)
Lemma advance_ok job g w t (w' := (advance job g w).2) :
  sys_inv (w_db w) t → numbered (idempotency_key job) w → phase_ok (idempotency_key job) g (w_db w) →
  sys_step model_fields triage_fields sla_hours (w, t) (w', t)
  ∧ phase_ok (idempotency_key job) (advance job g w).1 (w_db w').
Proof.
  unfold w'. clear w'. set (key := idempotency_key job). intros I Hnum Hg.
  destruct g as [|doc| | |doc|r].
  - rewrite look_eq. fold key. split; [apply unchanged_step|]. cbn [fst snd].
    destruct (documents_with_key key (w_db w)) as [|doc l] eqn:Ed; [done|].
    assert (Hk : keyed (w_db w) (doc_id doc) key) by (apply keyed_with_key; rewrite Ed; apply list_elem_of_here).
    destruct (fa_document _ _ _ (keyed_found_at _ _ _ _ I Hk)) as (doc' & Ed' & _). rewrite Ed in Ed'.
    by injection Ed' as _ ->.
  - rewrite found_eq. split; [apply unchanged_step|]. cbn [fst snd].
    destruct (found_rows key (doc_id doc) (w_db w) doc "idempotent document is missing its workflow run"
      (keyed_found_at _ _ _ _ I Hg) eq_refl) as (run & -> & Hdoc & Hrun). by exists doc, run.
  - rewrite create_eq. destruct (documents_with_key key (w_db w)) as [|doc l] eqn:Ed.
    + destruct (insert_rows_fresh job w Hnum Ed) as ([doc run] & s & Ei). rewrite Ei. cbn [fst snd]. split.
      * rewrite <- (create_is_the_function job w t _ s Ed Ei). apply step_job_rows.
      * apply insert_rows_ok in Ei as (Hnew & Hkey & Hdoc & Hrun & Hs). cbn [world_of w_db]. rewrite Hs.
        exists doc, run. split; [done|]. split; [|done]. unfold keyed. cbn. rewrite fmap_app. apply elem_of_app.
        right. unfold doc_key. cbn. rewrite Hkey. apply list_elem_of_here.
    + assert (Hdoc : doc ∈ documents_with_key key (w_db w)) by (rewrite Ed; apply list_elem_of_here).
      destruct (insert_rows_taken job w doc Hdoc) as (what & s & Ei). rewrite Ei.
      cbn [isinstance_exn exn_cls fst snd]. rewrite (insert_rows_raise job w _ s Ei). split.
      * apply step_environment.
      * exists (doc_id doc). by apply keyed_with_key.
  - rewrite again_eq. fold key. split; [apply unchanged_step|]. destruct Hg as [i Hi].
    by destruct (fa_document _ _ _ (keyed_found_at _ _ _ _ I Hi)) as (doc & -> & <-).
  - rewrite found_again_eq. split; [apply unchanged_step|]. cbn [fst snd].
    destruct (found_rows key (doc_id doc) (w_db w) doc "concurrent document creation did not create a workflow run"
      (keyed_found_at _ _ _ _ I Hg) eq_refl) as (run & -> & Hdoc & Hrun). by exists doc, run.
  - destruct w as [d e]. split; [apply unchanged_step|done].
Qed.

Lemma advance_shortens job g w : turns_left (advance job g w).1 ≤ pred (turns_left g).
Proof.
  destruct g as [|doc| | |doc|r].
  - rewrite look_eq. destruct (documents_with_key _ _) as [|doc [|]]; cbn; lia.
  - by rewrite found_eq.
  - rewrite create_eq. destruct (insert_rows _ _) as [[rows|e] s]; [cbn; lia|].
    destruct (isinstance_exn e IntegrityError); cbn; lia.
  - rewrite again_eq. destruct (documents_with_key _ _) as [|doc [|]]; cbn; lia.
  - by rewrite found_again_eq.
  - by destruct w.
Qed.

(** ** The race *)

Abbreviation steps := (rtc (sys_step model_fields triage_fields sla_hours)).

Definition racers_ok (wt : world * threads) (rs : list racer) : Prop :=
  db_safe wt ∧ Forall (λ x, phase_ok (idempotency_key (rc_job x)) (rc_phase x) (w_db wt.1)) rs.

Lemma racers_kept wt wt' rs :
  sys_step model_fields triage_fields sla_hours wt wt' → racers_ok wt rs → racers_ok wt' rs.
Proof.
  intros H [I Hrs]. split; [by apply (step_safe _ _ _ _ _ H)|]. eapply Forall_impl; [exact Hrs|].
  intros x. apply phase_ok_kept. intros i Hi.
  assert (Hd : had [] [(i, idempotency_key (rc_job x))] (w_db wt.1)).
  { split; [apply I|apply list_subseteq_nil|]. by intros j key ?%list_elem_of_singleton; simplify_eq. }
  apply (step_stays _ _ _ _ _ _ _ H I) in Hd. apply Hd, list_elem_of_here.
Qed.

Lemma race_ok st st' : race_step st st' → racers_ok st.1 st.2 → steps st.1 st'.1 ∧ racers_ok st'.1 st'.2.
Proof.
  intros H Hok. destruct H as [k x w t rs Hk Hnum|wt wt' rs H|job wt rs|k wt rs]; cbn [fst snd] in *.
  - pose proof Hok as [I Hrs]. pose proof (proj1 (Forall_lookup _ _) Hrs k x Hk) as Hx.
    destruct (advance_ok (rc_job x) (rc_phase x) w t I Hnum Hx) as [Hs Hp]. split; [by apply rtc_once|].
    destruct (racers_kept _ _ _ Hs Hok) as [I' Hrs']. split; [done|]. by apply Forall_insert.
  - split; [by apply rtc_once|]. by apply (racers_kept wt).
  - split; [done|]. destruct Hok as [I Hrs]. split; [done|]. apply Forall_app. by split; [|apply Forall_singleton].
  - split; [done|]. destruct Hok as [I Hrs]. split; [done|]. by apply Forall_delete.
Qed.

Lemma race_reaches st st' : rtc race_step st st' → racers_ok st.1 st.2 → steps st.1 st'.1 ∧ racers_ok st'.1 st'.2.
Proof.
  induction 1 as [st|st1 st2 st3 H1 _ IH]; [done|]. intros Hok. destruct (race_ok _ _ H1 Hok) as [H12 Hok2].
  destruct (IH Hok2) as [H23 Hok3]. split; [by etransitivity|done].
Qed.

(** C5 Workers that meet on a job agree.  Any number of workers create or look up the rows of
    their jobs, interleaved with each other between any two statements and with the rest of the
    program, and die anywhere; the sequences of the server are ahead of the rows.  The tables are at every moment those of a program whose workers
    take turns with whole functions.  A worker that ends has a document and a run, never an
    exception; their key has one document in the tables and that document one run, with the id
    that the key determines, and they are what this worker and every other worker of the key
    hold.  Each turn of a worker brings it nearer to its end, from at most four. *)
Theorem concurrent_jobs_agree wt0 wt rs :
  empty_system wt0 → rtc race_step (wt0, []) (wt, rs) →
  steps wt0 wt
  ∧ (∀ x r, x ∈ rs → rc_phase x = Finished r →
       ∃ doc run, r = Ok (doc, run) ∧ document_id run = doc_id doc
         ∧ run_id run = deterministic_run_id (idempotency_key (rc_job x))
         ∧ found_at (idempotency_key (rc_job x)) (doc_id doc) (w_db wt.1))
  ∧ (∀ x w, x ∈ rs → turns_left (advance (rc_job x) (rc_phase x) w).1 ≤ pred (turns_left (rc_phase x))).
Proof.
  intros H0 H. destruct (race_reaches _ _ H) as [Hs [I Hrs]].
  { split; [by apply empty_safe|done]. }
  split; [exact Hs|]. split; [|intros; apply advance_shortens].
  intros x r Hx Hr. rewrite Forall_forall in Hrs. specialize (Hrs x Hx). rewrite Hr in Hrs.
  destruct Hrs as (doc & run & -> & Hk & Hdoc & Hrun). exists doc, run. split_and!; [done..|].
  by apply (keyed_found_at _ _ _ _ I).
Qed.
End Race.

(** ** Example *)

(** Two workers look for the rows of a job before either has made them: the first makes them, the
    second is refused and finds them. *)
Definition numberedb (key : string) (w : world) : bool :=
  negb (existsb (λ x, Z.eqb (doc_id x) (doc_seq (w_env w))) (documents (w_db w)))
  && negb (existsb (λ r, Z.eqb (run_pk r) (run_seq (w_env w))) (workflow_runs (w_db w)))
  && (negb (has_run (deterministic_run_id key) (w_db w)) || negb (is_nil (documents_with_key key (w_db w)))).

Lemma numberedb_ok key w : numberedb key w = true → numbered key w.
Proof.
  unfold numberedb. rewrite !Bool.andb_true_iff. intros [[Hd Hr] Hn]. split.
  - intros (x & Ex & Hx)%list_elem_of_fmap. pose proof (existsb_negb_notin _ _ Hd x Hx) as Hne.
    cbn in Hne. by rewrite <- Ex, Z.eqb_refl in Hne.
  - intros (x & Ex & Hx)%list_elem_of_fmap. pose proof (existsb_negb_notin _ _ Hr x Hx) as Hne.
    cbn in Hne. by rewrite <- Ex, Z.eqb_refl in Hne.
  - intros H. rewrite H in Hn. cbn in Hn. destruct (documents_with_key key (w_db w)) as [|doc l] eqn:Ed; [done|].
    exists (doc_id doc). apply keyed_with_key. rewrite Ed. apply list_elem_of_here.
Qed.

Section Turns.
Context {R : Redis} `{JC : JobCodec} `{E : GraphEngine} (model_fields : schema → json → option coerced)
        (triage_fields : json → option (string * string * float)) (sla_hours : Z).

Definition take_turn (st : (world * threads) * list racer) (k : nat) : (world * threads) * list racer :=
  match st.2 !! k with
  | Some x => let gw := advance (rc_job x) (rc_phase x) st.1.1 in
              ((gw.2, st.1.2), <[k := mk_racer (rc_job x) gw.1]> st.2)
  | None => st
  end.

Fixpoint turns_allowed (ks : list nat) (st : (world * threads) * list racer) : bool :=
  match ks with
  | [] => true
  | k :: ks =>
      match st.2 !! k with
      | Some x => numberedb (idempotency_key (rc_job x)) st.1.1 && turns_allowed ks (take_turn st k)
      | None => false
      end
  end.

Lemma take_turns ks : ∀ st, turns_allowed ks st = true →
  rtc (race_step model_fields triage_fields sla_hours) st (fold_left take_turn ks st).
Proof.
  induction ks as [|k ks IH]; intros [[w t] rs] H; [done|]. cbn [turns_allowed fst snd] in H. cbn [fold_left].
  destruct (rs !! k) as [x|] eqn:Ek; [|done]. apply Bool.andb_true_iff in H as [Hn H].
  eapply rtc_l; [|by apply IH]. unfold take_turn. cbn [fst snd]. rewrite Ek.
  apply jr_turn; [done|by apply numberedb_ok].
Qed.
End Turns.

Definition demo_racer : racer := mk_racer demo_job Look.
Definition demo_race : (world * threads (GraphEngine:=reference_engine)) * list racer :=
  fold_left take_turn [0; 1; 0; 1; 1; 1] (demo_start, [demo_racer; demo_racer]).

Definition rows_found (x : racer) : option (Z * string) :=
  match rc_phase x with Finished (Ok (doc, run)) => Some (doc_id doc, run_id run) | _ => None end.

Example demo_race_ends :
  rows_found <$> demo_race.2
  = replicate 2 (Some (1%Z, deterministic_run_id (idempotency_key demo_job)))
  ∧ length (documents (w_db demo_race.1.1)) = 1.
Proof. vm_compute. by split. Qed.

Lemma demo_race_runs :
  rtc (race_step (R:=reference_redis) demo_fields demo_triage 72) (demo_start, []) demo_race.
Proof.
  eapply rtc_l; [apply (jr_start demo_fields demo_triage 72 demo_job)|].
  eapply rtc_l; [apply (jr_start demo_fields demo_triage 72 demo_job)|].
  apply (take_turns demo_fields demo_triage 72 [0; 1; 0; 1; 1; 1] (demo_start, [demo_racer; demo_racer])).
  vm_compute. reflexivity.
Qed.

Lemma concurrent_jobs_agree_witness :
  Forall (λ x, ∀ r, rc_phase x = Finished r → ∃ doc run, r = Ok (doc, run) ∧ document_id run = doc_id doc
            ∧ run_id run = deterministic_run_id (idempotency_key (rc_job x))
            ∧ found_at (idempotency_key (rc_job x)) (doc_id doc) (w_db demo_race.1.1)) demo_race.2.
Proof.
  assert (Ed : (demo_race.1, demo_race.2) = demo_race) by (symmetry; apply surjective_pairing).
  destruct (concurrent_jobs_agree (R:=reference_redis) demo_fields demo_triage 72 demo_start demo_race.1 demo_race.2
    demo_start_empty) as (_ & H & _).
  - rewrite Ed. exact demo_race_runs.
  - apply Forall_forall. intros x Hx r. by apply H.
Defined.
