(* ===== verification/Schema.v ===== *)
(** * The schema: what the migrations build

    The operations of [alembic.op] on the catalog of the database, the [upgrade] and
    [downgrade] of every revision of [alembic/versions/] as the list of the operations it
    calls, and the tables that the classes of [app/models/] declare.

    An operation raises what PostgreSQL answers: the table or the column that is not
    there, the name that is taken, the key a foreign key still needs.  The statements of a
    migration that change rows are in [Migrations] and [LoadNumbers], they leave the catalog
    alone.  A name PostgreSQL makes up (of a primary key, of an unnamed foreign key) is not
    kept. *)

From S2P Require Import Prelude PyText.
From Stdlib Require Import Ascii.
Local Open Scope string_scope.
Local Open Scope list_scope.
Local Open Scope nat_scope.

(** ** Tables *)

Inductive sql_type :=
  | TInteger | TFloat | TBoolean | TDate | TText | TJsonb | TUuid
  | TTimestamptz
  | TVarchar (length : option nat).

Inductive sql_default := Now | Literal (text : string).

Record column := mk_column {
  column_name : string;
  column_type : sql_type;
  nullable : bool;
  server_default : option sql_default;
  primary_key : bool
}.

Inductive on_delete := CASCADE | SET_NULL.

Record foreign_key := mk_foreign_key {
  fk_name : option string;
  fk_columns : list string;
  fk_table : string;
  fk_targets : list string;
  fk_on_delete : on_delete
}.

(** The conditions of CHECK constraints. *)
Inductive condition :=
  | In_values (col : string) (values : list string)
  | Equals_value (col value : string)
  | Normalized_load_number (col : string).

Record check_constraint := mk_check { check_name : string; check_condition : condition }.

Record unique_constraint := mk_unique { unique_name : string; unique_columns : list string }.

(** [postgresql_where]: the one predicate of the partial indexes is that a column is set. *)
Record index := mk_index {
  index_name : string;
  index_columns : list string;
  index_unique : bool;
  index_not_null : option string
}.

Record table := mk_table {
  table_name : string;
  columns : list column;
  foreign_keys : list foreign_key;
  uniques : list unique_constraint;
  check_constraints : list check_constraint;
  indexes : list index
}.

Definition catalog : Type := list table.

#[export] Instance sql_type_eq_dec : EqDecision sql_type.
Proof. solve_decision. Defined.
#[export] Instance sql_default_eq_dec : EqDecision sql_default.
Proof. solve_decision. Defined.
#[export] Instance column_eq_dec : EqDecision column.
Proof. solve_decision. Defined.
#[export] Instance on_delete_eq_dec : EqDecision on_delete.
Proof. solve_decision. Defined.
#[export] Instance foreign_key_eq_dec : EqDecision foreign_key.
Proof. solve_decision. Defined.
#[export] Instance condition_eq_dec : EqDecision condition.
Proof. solve_decision. Defined.
#[export] Instance check_eq_dec : EqDecision check_constraint.
Proof. solve_decision. Defined.
#[export] Instance unique_eq_dec : EqDecision unique_constraint.
Proof. solve_decision. Defined.
#[export] Instance index_eq_dec : EqDecision index.
Proof. solve_decision. Defined.
#[export] Instance table_eq_dec : EqDecision table.
Proof. solve_decision. Defined.

(** ** Writing tables down *)

Definition Column (name : string) (ty : sql_type) : column := mk_column name ty true None false.
Definition not_null (c : column) : column :=
  mk_column (column_name c) (column_type c) false (server_default c) (primary_key c).
Definition with_default (d : sql_default) (c : column) : column :=
  mk_column (column_name c) (column_type c) (nullable c) (Some d) (primary_key c).
Definition primary (c : column) : column :=
  mk_column (column_name c) (column_type c) false (server_default c) true.

Definition String_ : sql_type := TVarchar None.
Definition String_of (n : nat) : sql_type := TVarchar (Some n).
Definition timestamp_now (name : string) : column :=
  not_null (with_default Now (Column name TTimestamptz)).
Definition references (col tbl target : string) (d : on_delete) : foreign_key :=
  mk_foreign_key None [col] tbl [target] d.

(** ** The operations of [alembic.op] *)

Inductive op :=
  | create_table (name : string) (cols : list column) (fks : list foreign_key)
                 (uqs : list unique_constraint) (cks : list check_constraint)
  | drop_table (name : string)
  | add_column (tbl : string) (c : column)
  | drop_column (tbl col : string)
  | alter_column (tbl col : string) (null : bool) (default : option sql_default)
  | create_index (tbl : string) (ix : index)
  | drop_index (name tbl : string)
  | create_foreign_key (tbl : string) (fk : foreign_key)
  | create_check_constraint (tbl : string) (ck : check_constraint)
  | drop_constraint (name tbl : string).

Definition ProgrammingError {A} (m : string) : res A :=
  Raise (Exn (OtherError "ProgrammingError") m).

Definition find_table (name : string) (c : catalog) : option table :=
  find_first (λ t, String.eqb (table_name t) name) c.

Definition replace_table (t : table) (c : catalog) : catalog :=
  (λ x, if String.eqb (table_name x) (table_name t) then t else x) <$> c.

Definition column_names (t : table) : list string := column_name <$> columns t.

Definition has_columns (cols : list string) (t : table) : bool :=
  forallb (λ col, in_strs col (column_names t)) cols.

(** The keys a foreign key can point to: the primary key, the UNIQUE constraints and the
    unique indexes that are not partial. *)
Definition target_keys (t : table) : list (list string) :=
  (column_name <$> List.filter primary_key (columns t))
  :: (unique_columns <$> uniques t)
  ++ (index_columns <$> List.filter (λ ix, index_unique ix && negb (bool_decide (is_Some (index_not_null ix))))
                          (indexes t)).

Definition fk_resolves (c : catalog) (fk : foreign_key) : bool :=
  match find_table (fk_table fk) c with
  | Some t => existsb (λ key, bool_decide (key = fk_targets fk)) (target_keys t)
  | None => false
  end.

(** Every foreign key names columns of its table and a key of its target. *)
Definition fks_valid (c : catalog) : bool :=
  forallb (λ t, forallb (λ fk, has_columns (fk_columns fk) t && fk_resolves c fk) (foreign_keys t)) c.

(** A change that would leave a foreign key without its target is refused. *)
Definition keeping_fks (c : catalog) : res catalog :=
  if fks_valid c then Ok c else ProgrammingError "other objects depend on it".

Definition on_table (name : string) (c : catalog) (f : table → res table) : res catalog :=
  match find_table name c with
  | None => ProgrammingError ("relation " +:+ name +:+ " does not exist")
  | Some t => match f t with
              | Raise e => Raise e
              | Ok t' => keeping_fks (replace_table t' c)
              end
  end.

Definition insist_ddl {A} (b : bool) (m : string) (r : res A) : res A :=
  if b then r else ProgrammingError m.

(** The names of the relations: tables and indexes share one name space. *)
Definition relation_names (c : catalog) : list string :=
  c ≫= (λ t, table_name t :: (unique_name <$> uniques t) ++ (index_name <$> indexes t)).

Definition constraint_names (t : table) : list string :=
  omap fk_name (foreign_keys t) ++ (unique_name <$> uniques t) ++ (check_name <$> check_constraints t).

Definition condition_column (e : condition) : string :=
  match e with In_values c _ | Equals_value c _ | Normalized_load_number c => c end.

Definition no_duplicates (l : list string) : bool := bool_decide (NoDup l).

Definition set_columns (cs : list column) (t : table) : table :=
  mk_table (table_name t) cs (foreign_keys t) (uniques t) (check_constraints t) (indexes t).
Definition set_foreign_keys (l : list foreign_key) (t : table) : table :=
  mk_table (table_name t) (columns t) l (uniques t) (check_constraints t) (indexes t).
Definition set_uniques (l : list unique_constraint) (t : table) : table :=
  mk_table (table_name t) (columns t) (foreign_keys t) l (check_constraints t) (indexes t).
Definition set_checks (l : list check_constraint) (t : table) : table :=
  mk_table (table_name t) (columns t) (foreign_keys t) (uniques t) l (indexes t).
Definition set_indexes (l : list index) (t : table) : table :=
  mk_table (table_name t) (columns t) (foreign_keys t) (uniques t) (check_constraints t) l.

(** [DROP COLUMN] drops what the table declares over the column. *)
Definition without_column (col : string) (t : table) : table :=
  mk_table (table_name t)
    (List.filter (λ c, negb (String.eqb (column_name c) col)) (columns t))
    (List.filter (λ fk, negb (in_strs col (fk_columns fk))) (foreign_keys t))
    (List.filter (λ u, negb (in_strs col (unique_columns u))) (uniques t))
    (List.filter (λ k, negb (String.eqb (condition_column (check_condition k)) col)) (check_constraints t))
    (List.filter (λ ix, negb (in_strs col (index_columns ix))) (indexes t)).

Definition altered (col : string) (null : bool) (d : option sql_default) (c : column) : column :=
  if String.eqb (column_name c) col
  then mk_column (column_name c) (column_type c) null
         (match d with Some _ => d | None => server_default c end) (primary_key c)
  else c.

(** [ALTER TABLE ... DROP CONSTRAINT], by its name, whatever its kind. *)
Definition without_constraint (name : string) (t : table) : table :=
  set_checks (List.filter (λ k, negb (String.eqb (check_name k) name)) (check_constraints t))
    (set_uniques (List.filter (λ u, negb (String.eqb (unique_name u) name)) (uniques t))
      (set_foreign_keys (List.filter (λ fk, negb (bool_decide (fk_name fk = Some name)))
                           (foreign_keys t)) t)).

Definition table_of (name : string) (cols : list column) (fks : list foreign_key)
    (uqs : list unique_constraint) (cks : list check_constraint) : table :=
  mk_table name cols fks uqs cks [].

Definition well_declared (t : table) : bool :=
  no_duplicates (column_names t) && no_duplicates (constraint_names t)
  && forallb (λ u, has_columns (unique_columns u) t) (uniques t)
  && forallb (λ k, in_strs (condition_column (check_condition k)) (column_names t)) (check_constraints t).

Definition apply_op (o : op) (c : catalog) : res catalog :=
  match o with
  | create_table name cols fks uqs cks =>
      let t := table_of name cols fks uqs cks in
      insist_ddl (no_duplicates (relation_names (c ++ [t]))) (name +:+ " already exists")
        (insist_ddl (well_declared t) "column does not exist" (keeping_fks (c ++ [t])))
  | drop_table name =>
      match find_table name c with
      | None => ProgrammingError ("table " +:+ name +:+ " does not exist")
      | Some _ => keeping_fks (List.filter (λ t, negb (String.eqb (table_name t) name)) c)
      end
  | add_column tbl col =>
      on_table tbl c (λ t,
        insist_ddl (negb (in_strs (column_name col) (column_names t))) "column already exists"
          (Ok (set_columns (columns t ++ [col]) t)))
  | drop_column tbl col =>
      on_table tbl c (λ t,
        insist_ddl (in_strs col (column_names t)) "column does not exist" (Ok (without_column col t)))
  | alter_column tbl col null d =>
      on_table tbl c (λ t,
        insist_ddl (in_strs col (column_names t)) "column does not exist"
          (Ok (set_columns (altered col null d <$> columns t) t)))
  | create_index tbl ix =>
      insist_ddl (negb (in_strs (index_name ix) (relation_names c))) "relation already exists"
        (on_table tbl c (λ t,
          insist_ddl (has_columns (index_columns ix) t) "column does not exist"
            (Ok (set_indexes (indexes t ++ [ix]) t))))
  | drop_index name tbl =>
      on_table tbl c (λ t,
        insist_ddl (in_strs name (index_name <$> indexes t)) "index does not exist"
          (Ok (set_indexes (List.filter (λ ix, negb (String.eqb (index_name ix) name)) (indexes t)) t)))
  | create_foreign_key tbl fk =>
      on_table tbl c (λ t,
        insist_ddl (no_duplicates (option_list (fk_name fk) ++ constraint_names t)) "constraint already exists"
          (Ok (set_foreign_keys (foreign_keys t ++ [fk]) t)))
  | create_check_constraint tbl ck =>
      on_table tbl c (λ t,
        let t' := set_checks (check_constraints t ++ [ck]) t in
        insist_ddl (well_declared t') "constraint already exists" (Ok t'))
  | drop_constraint name tbl =>
      on_table tbl c (λ t,
        insist_ddl (in_strs name (constraint_names t)) "constraint does not exist"
          (Ok (without_constraint name t)))
  end.

Fixpoint apply_ops (l : list op) (c : catalog) : res catalog :=
  match l with
  | [] => Ok c
  | o :: l' => match apply_op o c with Raise e => Raise e | Ok c' => apply_ops l' c' end
  end.

(** ** The revisions of [alembic/versions/] *)

Record revision := mk_revision {
  revision_id : string;
  down_revision : option string;
  upgrade_ops : list op;
  downgrade_ops : list op
}.

Definition plain_index (name col : string) : index := mk_index name [col] false None.
Definition unique_index (name col : string) : index := mk_index name [col] true None.
Definition partial_unique_index (name col : string) : index := mk_index name [col] true (Some col).

(** *** 202606160001 *)

Definition upgrade_202606160001 : list op := [
  create_table "documents"
    [primary (Column "id" TInteger);
     not_null (Column "filename" String_);
     not_null (Column "doc_type" String_);
     not_null (Column "status" String_);
     Column "raw_text" TText;
     Column "extracted_data" TJsonb;
     timestamp_now "created_at"] [] [] [];
  create_table "workflow_runs"
    [primary (Column "id" TInteger);
     not_null (Column "document_id" TInteger);
     not_null (Column "status" String_);
     Column "interrupt_payload" TJsonb;
     timestamp_now "created_at";
     timestamp_now "updated_at"]
    [references "document_id" "documents" "id" CASCADE] [] [];
  create_index "workflow_runs" (plain_index "ix_workflow_runs_document_id" "document_id")].

Definition downgrade_202606160001 : list op := [
  drop_index "ix_workflow_runs_document_id" "workflow_runs";
  drop_table "workflow_runs";
  drop_table "documents"].

(** *** 202606180001 *)

Definition upgrade_202606180001 : list op := [
  add_column "workflow_runs" (Column "run_id" (String_of 36));
  alter_column "workflow_runs" "run_id" false None;
  create_index "workflow_runs" (unique_index "ix_workflow_runs_run_id" "run_id")].

Definition downgrade_202606180001 : list op := [
  drop_index "ix_workflow_runs_run_id" "workflow_runs";
  drop_column "workflow_runs" "run_id"].

(** *** 202606180002 *)

Definition upgrade_202606180002 : list op := [
  create_table "rate_confirmations"
    [primary (Column "id" TUuid);
     not_null (Column "load_number" String_);
     not_null (Column "carrier_name" String_);
     not_null (Column "origin" String_);
     not_null (Column "destination" String_);
     not_null (Column "agreed_rate" TFloat);
     not_null (with_default (Literal "USD") (Column "currency" String_));
     not_null (Column "shipment_date" TDate);
     timestamp_now "created_at"] [] [] [];
  create_index "rate_confirmations" (unique_index "ix_rate_confirmations_load_number" "load_number")].

Definition downgrade_202606180002 : list op := [
  drop_index "ix_rate_confirmations_load_number" "rate_confirmations";
  drop_table "rate_confirmations"].

(** *** 202606180003 *)

Definition upgrade_202606180003 : list op := [
  create_table "notifications"
    [primary (Column "id" TInteger);
     timestamp_now "sent_at";
     not_null (Column "total_count" TInteger);
     not_null (Column "complete_count" TInteger);
     not_null (Column "awaiting_review_count" TInteger);
     not_null (Column "failed_count" TInteger)] [] [] [];
  create_index "notifications" (plain_index "ix_notifications_sent_at" "sent_at")].

Definition downgrade_202606180003 : list op := [
  drop_index "ix_notifications_sent_at" "notifications";
  drop_table "notifications"].

(** *** 202606180004 *)

Definition upgrade_202606180004 : list op := [
  create_table "shipments"
    [primary (Column "id" TUuid);
     not_null (Column "load_number" String_);
     Column "carrier_name" String_;
     not_null (with_default (Literal "false") (Column "has_invoice" TBoolean));
     not_null (with_default (Literal "false") (Column "has_rate_con" TBoolean));
     not_null (with_default (Literal "false") (Column "has_bol" TBoolean));
     not_null (with_default (Literal "false") (Column "has_pod" TBoolean));
     Column "invoice_id" TInteger;
     Column "rate_con_id" TInteger;
     Column "bol_id" TInteger;
     Column "pod_id" TInteger;
     not_null (with_default (Literal "pending") (Column "reconciliation_status" String_));
     timestamp_now "created_at";
     timestamp_now "updated_at"]
    [references "invoice_id" "documents" "id" SET_NULL;
     references "rate_con_id" "documents" "id" SET_NULL;
     references "bol_id" "documents" "id" SET_NULL;
     references "pod_id" "documents" "id" SET_NULL] [] [];
  create_index "shipments" (unique_index "ix_shipments_load_number" "load_number");
  add_column "documents" (Column "shipment_id" TUuid);
  create_foreign_key "documents"
    (mk_foreign_key (Some "fk_documents_shipment_id_shipments") ["shipment_id"] "shipments" ["id"] SET_NULL);
  create_index "documents" (plain_index "ix_documents_shipment_id" "shipment_id")].

Definition downgrade_202606180004 : list op := [
  drop_index "ix_documents_shipment_id" "documents";
  drop_constraint "fk_documents_shipment_id_shipments" "documents";
  drop_column "documents" "shipment_id";
  drop_index "ix_shipments_load_number" "shipments";
  drop_table "shipments"].

(** *** 202606180005 *)

Definition upgrade_202606180005 : list op := [
  create_table "reconciliation_results"
    [primary (Column "id" TUuid);
     not_null (Column "shipment_id" TUuid);
     Column "run_id" (String_of 36);
     not_null (Column "checks" TJsonb);
     not_null (Column "missing_docs" TJsonb);
     not_null (Column "exception_reasons" TJsonb);
     timestamp_now "created_at"]
    [references "shipment_id" "shipments" "id" CASCADE;
     references "run_id" "workflow_runs" "run_id" SET_NULL] [] [];
  create_index "reconciliation_results" (plain_index "ix_reconciliation_results_shipment_id" "shipment_id");
  create_index "reconciliation_results" (plain_index "ix_reconciliation_results_run_id" "run_id")].

Definition downgrade_202606180005 : list op := [
  drop_index "ix_reconciliation_results_run_id" "reconciliation_results";
  drop_index "ix_reconciliation_results_shipment_id" "reconciliation_results";
  drop_table "reconciliation_results"].

(** *** 202607010001 *)

Definition upgrade_202607010001 : list op := [
  create_table "workflow_audit_logs"
    [primary (Column "id" TInteger);
     not_null (Column "run_id" (String_of 36));
     not_null (Column "event_type" (String_of 32));
     Column "payload" TJsonb;
     Column "actor" (String_of 255);
     timestamp_now "created_at"]
    [references "run_id" "workflow_runs" "run_id" CASCADE] [] [];
  create_index "workflow_audit_logs" (plain_index "ix_workflow_audit_logs_run_id" "run_id")].

Definition downgrade_202607010001 : list op := [
  drop_index "ix_workflow_audit_logs_run_id" "workflow_audit_logs";
  drop_table "workflow_audit_logs"].

(** *** 202607190001 *)

Definition upgrade_202607190001 : list op := [
  add_column "documents" (Column "source_type" (String_of 32));
  add_column "documents" (Column "source_idempotency_key" (String_of 64));
  add_column "documents" (Column "source_message_id" (String_of 255));
  add_column "documents" (Column "source_part_id" (String_of 255));
  add_column "documents" (Column "source_enqueued_at" TTimestamptz);
  add_column "documents" (Column "content_sha256" (String_of 64));
  create_index "documents" (unique_index "ix_documents_source_idempotency_key" "source_idempotency_key");
  create_index "reconciliation_results" (partial_unique_index "uq_reconciliation_results_run_id" "run_id");
  create_index "workflow_audit_logs"
    (mk_index "uq_workflow_audit_logs_run_event" ["run_id"; "event_type"] true None)].

Definition downgrade_202607190001 : list op := [
  drop_index "uq_workflow_audit_logs_run_event" "workflow_audit_logs";
  drop_index "uq_reconciliation_results_run_id" "reconciliation_results";
  drop_index "ix_documents_source_idempotency_key" "documents";
  drop_column "documents" "content_sha256";
  drop_column "documents" "source_enqueued_at";
  drop_column "documents" "source_part_id";
  drop_column "documents" "source_message_id";
  drop_column "documents" "source_idempotency_key";
  drop_column "documents" "source_type"].

(** *** 202607190002 *)

Definition upgrade_202607190002 : list op := [
  add_column "workflow_runs" (Column "processing_status" (String_of 32));
  add_column "workflow_runs" (Column "posting_status" (String_of 32));
  create_table "review_decisions"
    [primary (Column "id" TUuid);
     not_null (Column "run_id" (String_of 36));
     not_null (Column "disposition" (String_of 16));
     timestamp_now "decided_at";
     Column "reviewer_id" (String_of 255)]
    [references "run_id" "workflow_runs" "run_id" CASCADE]
    [mk_unique "uq_review_decisions_run_id" ["run_id"]]
    [mk_check "ck_review_decisions_disposition" (In_values "disposition" ["approved"; "rejected"])];
  create_index "review_decisions" (plain_index "ix_review_decisions_run_id" "run_id")]
  ++ ((λ column_name, add_column "notifications"
                        (not_null (with_default (Literal "0") (Column column_name TInteger))))
      <$> ["approved_count"; "rejected_count"; "ready_for_posting_count"])
  ++ [
  alter_column "workflow_runs" "processing_status" false (Some (Literal "pending"));
  alter_column "workflow_runs" "posting_status" false (Some (Literal "not_ready"));
  create_check_constraint "workflow_runs"
    (mk_check "ck_workflow_runs_processing_status"
       (In_values "processing_status"
          ["pending"; "running"; "retrying"; "awaiting_review"; "complete"; "failed"]));
  create_check_constraint "workflow_runs"
    (mk_check "ck_workflow_runs_posting_status"
       (In_values "posting_status"
          ["not_ready"; "ready_for_posting"; "posting"; "posted"; "payment_scheduled"; "paid";
           "blocked"; "failed"]));
  create_check_constraint "shipments"
    (mk_check "ck_shipments_reconciliation_status"
       (In_values "reconciliation_status" ["pending"; "partial"; "reconciled"; "exception"]))].

Definition downgrade_202607190002 : list op := [
  drop_constraint "ck_shipments_reconciliation_status" "shipments";
  drop_constraint "ck_workflow_runs_posting_status" "workflow_runs";
  drop_constraint "ck_workflow_runs_processing_status" "workflow_runs"]
  ++ (drop_column "notifications" <$> ["ready_for_posting_count"; "rejected_count"; "approved_count"])
  ++ [
  drop_index "ix_review_decisions_run_id" "review_decisions";
  drop_table "review_decisions";
  drop_column "workflow_runs" "posting_status";
  drop_column "workflow_runs" "processing_status"].

(** *** 202607190003 *)

Definition upgrade_202607190003 : list op := [
  create_check_constraint "shipments"
    (mk_check "ck_shipments_load_number_normalized" (Normalized_load_number "load_number"));
  create_check_constraint "rate_confirmations"
    (mk_check "ck_rate_confirmations_load_number_normalized" (Normalized_load_number "load_number"))].

Definition downgrade_202607190003 : list op := [
  drop_constraint "ck_rate_confirmations_load_number_normalized" "rate_confirmations";
  drop_constraint "ck_shipments_load_number_normalized" "shipments"].

(** *** 202607190004 *)

Definition upgrade_202607190004 : list op := [
  add_column "reconciliation_results"
    (not_null (with_default (Literal "legacy") (Column "evaluation_source" (String_of 32))));
  add_column "reconciliation_results" (Column "evaluation_key" (String_of 255));
  create_index "reconciliation_results"
    (plain_index "ix_reconciliation_results_evaluation_key" "evaluation_key");
  create_index "reconciliation_results"
    (partial_unique_index "uq_reconciliation_results_evaluation_key" "evaluation_key");
  create_table "shipment_exceptions"
    [primary (Column "id" TUuid);
     not_null (Column "shipment_id" TUuid);
     not_null (Column "kind" (String_of 64));
     not_null (Column "status" (String_of 16));
     not_null (Column "missing_docs" TJsonb);
     not_null (Column "reason_codes" TJsonb);
     not_null (Column "deadline_at" TTimestamptz);
     not_null (Column "version" TInteger);
     not_null (Column "opened_at" TTimestamptz);
     Column "resolved_at" TTimestamptz;
     timestamp_now "updated_at"]
    [references "shipment_id" "shipments" "id" CASCADE]
    [mk_unique "uq_shipment_exceptions_shipment_kind" ["shipment_id"; "kind"]]
    [mk_check "ck_shipment_exceptions_kind" (Equals_value "kind" "missing_required_documents");
     mk_check "ck_shipment_exceptions_status" (In_values "status" ["active"; "resolved"])];
  create_index "shipment_exceptions" (plain_index "ix_shipment_exceptions_shipment_id" "shipment_id");
  create_index "shipment_exceptions" (plain_index "ix_shipment_exceptions_status" "status");
  create_table "shipment_exception_events"
    [primary (Column "id" TUuid);
     not_null (Column "exception_id" TUuid);
     Column "reconciliation_result_id" TUuid;
     not_null (Column "version" TInteger);
     not_null (Column "transition" (String_of 16));
     Column "before_state" TJsonb;
     not_null (Column "after_state" TJsonb);
     not_null (Column "occurred_at" TTimestamptz);
     not_null (with_default (Literal "pending") (Column "notification_status" (String_of 16)));
     not_null (with_default (Literal "0") (Column "notification_attempt_count" TInteger));
     Column "notification_last_error" TText;
     Column "notification_sent_at" TTimestamptz]
    [references "exception_id" "shipment_exceptions" "id" CASCADE;
     references "reconciliation_result_id" "reconciliation_results" "id" SET_NULL]
    [mk_unique "uq_shipment_exception_events_version" ["exception_id"; "version"]]
    [mk_check "ck_shipment_exception_events_transition"
       (In_values "transition" ["opened"; "changed"; "resolved"]);
     mk_check "ck_shipment_exception_events_notification_status"
       (In_values "notification_status" ["pending"; "sending"; "sent"; "failed"])];
  create_index "shipment_exception_events"
    (plain_index "ix_shipment_exception_events_exception_id" "exception_id");
  create_index "shipment_exception_events"
    (plain_index "ix_shipment_exception_events_reconciliation_result_id" "reconciliation_result_id");
  create_index "shipment_exception_events"
    (plain_index "ix_shipment_exception_events_notification_status" "notification_status")].

Definition downgrade_202607190004 : list op := [
  drop_table "shipment_exception_events";
  drop_table "shipment_exceptions";
  drop_index "uq_reconciliation_results_evaluation_key" "reconciliation_results";
  drop_index "ix_reconciliation_results_evaluation_key" "reconciliation_results";
  drop_column "reconciliation_results" "evaluation_key";
  drop_column "reconciliation_results" "evaluation_source"].

(** *** The chain *)

Definition revisions : list revision := [
  mk_revision "202606160001" None upgrade_202606160001 downgrade_202606160001;
  mk_revision "202606180001" (Some "202606160001") upgrade_202606180001 downgrade_202606180001;
  mk_revision "202606180002" (Some "202606180001") upgrade_202606180002 downgrade_202606180002;
  mk_revision "202606180003" (Some "202606180002") upgrade_202606180003 downgrade_202606180003;
  mk_revision "202606180004" (Some "202606180003") upgrade_202606180004 downgrade_202606180004;
  mk_revision "202606180005" (Some "202606180004") upgrade_202606180005 downgrade_202606180005;
  mk_revision "202607010001" (Some "202606180005") upgrade_202607010001 downgrade_202607010001;
  mk_revision "202607190001" (Some "202607010001") upgrade_202607190001 downgrade_202607190001;
  mk_revision "202607190002" (Some "202607190001") upgrade_202607190002 downgrade_202607190002;
  mk_revision "202607190003" (Some "202607190002") upgrade_202607190003 downgrade_202607190003;
  mk_revision "202607190004" (Some "202607190003") upgrade_202607190004 downgrade_202607190004].

(** The version table of [alembic] and the catalog. *)
Definition migrated : Type := option string * catalog.

Definition upgrade_step (r : revision) (s : migrated) : res migrated :=
  if decide (down_revision r = s.1) then
    match apply_ops (upgrade_ops r) s.2 with
    | Ok c => Ok (Some (revision_id r), c)
    | Raise e => Raise e
    end
  else ProgrammingError "not the next revision".

Definition downgrade_step (r : revision) (s : migrated) : res migrated :=
  if decide (s.1 = Some (revision_id r)) then
    match apply_ops (downgrade_ops r) s.2 with
    | Ok c => Ok (down_revision r, c)
    | Raise e => Raise e
    end
  else ProgrammingError "not the current revision".

Fixpoint upgrades (l : list revision) (s : migrated) : res migrated :=
  match l with
  | [] => Ok s
  | r :: l' => match upgrade_step r s with Raise e => Raise e | Ok s' => upgrades l' s' end
  end.

(** The revisions of [l], the last one first. *)
Fixpoint downgrades (l : list revision) (s : migrated) : res migrated :=
  match l with
  | [] => Ok s
  | r :: l' => match downgrades l' s with Raise e => Raise e | Ok s' => downgrade_step r s' end
  end.

(** What the first [n] revisions build of an empty database. *)
Definition built (n : nat) : migrated :=
  match upgrades (take n revisions) (None, []) with Ok s => s | Raise _ => (None, []) end.

Definition head_catalog : catalog := (built (length revisions)).2.

(** ** The classes of [app/models/]

    [mapped_column(..., index=True)] declares the index [ix_<table>_<column>], unique when
    the column is; [Mapped[T | None]] is a column that may be null. *)

Record mapped_column := mk_mapped {
  mapped : column;
  mapped_foreign_key : option (string * string * on_delete);
  mapped_unique : bool;
  mapped_index : bool
}.

Definition plain (c : column) : mapped_column := mk_mapped c None false false.
Definition ForeignKey (tbl target : string) (d : on_delete) (m : mapped_column) : mapped_column :=
  mk_mapped (mapped m) (Some (tbl, target, d)) (mapped_unique m) (mapped_index m).
Definition indexed (m : mapped_column) : mapped_column :=
  mk_mapped (mapped m) (mapped_foreign_key m) (mapped_unique m) true.
Definition unique_indexed (m : mapped_column) : mapped_column :=
  mk_mapped (mapped m) (mapped_foreign_key m) true true.

Definition mapped_class (tablename : string) (table_indexes : list index)
    (uqs : list unique_constraint) (cks : list check_constraint) (cols : list mapped_column) : table :=
  mk_table tablename (mapped <$> cols)
    (omap (λ m, (λ '(tbl, target, d), references (column_name (mapped m)) tbl target d)
                <$> mapped_foreign_key m) cols)
    uqs cks
    (table_indexes
     ++ omap (λ m, if mapped_index m
                   then Some (mk_index ("ix_" +:+ tablename +:+ "_" +:+ column_name (mapped m))
                                [column_name (mapped m)] (mapped_unique m) None)
                   else None) cols).

Definition Document_table : table := mapped_class "documents" [] [] [] [
  plain (primary (Column "id" TInteger));
  plain (not_null (Column "filename" String_));
  plain (not_null (Column "doc_type" String_));
  plain (not_null (Column "status" String_));
  plain (Column "raw_text" TText);
  plain (Column "extracted_data" TJsonb);
  plain (Column "source_type" (String_of 32));
  unique_indexed (plain (Column "source_idempotency_key" (String_of 64)));
  plain (Column "source_message_id" (String_of 255));
  plain (Column "source_part_id" (String_of 255));
  plain (Column "source_enqueued_at" TTimestamptz);
  plain (Column "content_sha256" (String_of 64));
  indexed (ForeignKey "shipments" "id" SET_NULL (plain (Column "shipment_id" TUuid)));
  plain (timestamp_now "created_at")].

Definition Notification_table : table := mapped_class "notifications" [] [] [] [
  plain (primary (Column "id" TInteger));
  plain (timestamp_now "sent_at");
  plain (not_null (Column "total_count" TInteger));
  plain (not_null (Column "complete_count" TInteger));
  plain (not_null (Column "awaiting_review_count" TInteger));
  plain (not_null (Column "failed_count" TInteger));
  plain (not_null (with_default (Literal "0") (Column "approved_count" TInteger)));
  plain (not_null (with_default (Literal "0") (Column "rejected_count" TInteger)));
  plain (not_null (with_default (Literal "0") (Column "ready_for_posting_count" TInteger)))].

Definition RateConfirmation_table : table := mapped_class "rate_confirmations" [] []
  [mk_check "ck_rate_confirmations_load_number_normalized" (Normalized_load_number "load_number")] [
  plain (primary (Column "id" TUuid));
  unique_indexed (plain (not_null (Column "load_number" String_)));
  plain (not_null (Column "carrier_name" String_));
  plain (not_null (Column "origin" String_));
  plain (not_null (Column "destination" String_));
  plain (not_null (Column "agreed_rate" TFloat));
  plain (not_null (with_default (Literal "USD") (Column "currency" String_)));
  plain (not_null (Column "shipment_date" TDate));
  plain (timestamp_now "created_at")].

Definition ReconciliationResult_table : table := mapped_class "reconciliation_results"
  [partial_unique_index "uq_reconciliation_results_run_id" "run_id";
   partial_unique_index "uq_reconciliation_results_evaluation_key" "evaluation_key"] [] [] [
  plain (primary (Column "id" TUuid));
  indexed (ForeignKey "shipments" "id" CASCADE (plain (not_null (Column "shipment_id" TUuid))));
  indexed (ForeignKey "workflow_runs" "run_id" SET_NULL (plain (Column "run_id" (String_of 36))));
  plain (not_null (with_default (Literal "legacy") (Column "evaluation_source" (String_of 32))));
  indexed (plain (Column "evaluation_key" (String_of 255)));
  plain (not_null (Column "checks" TJsonb));
  plain (not_null (Column "missing_docs" TJsonb));
  plain (not_null (Column "exception_reasons" TJsonb));
  plain (timestamp_now "created_at")].

Definition ReviewDecision_table : table := mapped_class "review_decisions" [] []
  [mk_check "ck_review_decisions_disposition" (In_values "disposition" ["approved"; "rejected"])] [
  plain (primary (Column "id" TUuid));
  unique_indexed (ForeignKey "workflow_runs" "run_id" CASCADE
                    (plain (not_null (Column "run_id" (String_of 36)))));
  plain (not_null (Column "disposition" (String_of 16)));
  plain (timestamp_now "decided_at");
  plain (Column "reviewer_id" (String_of 255))].

Definition Shipment_table : table := mapped_class "shipments" [] []
  [mk_check "ck_shipments_load_number_normalized" (Normalized_load_number "load_number")] [
  plain (primary (Column "id" TUuid));
  unique_indexed (plain (not_null (Column "load_number" String_)));
  plain (Column "carrier_name" String_);
  plain (not_null (with_default (Literal "false") (Column "has_invoice" TBoolean)));
  plain (not_null (with_default (Literal "false") (Column "has_rate_con" TBoolean)));
  plain (not_null (with_default (Literal "false") (Column "has_bol" TBoolean)));
  plain (not_null (with_default (Literal "false") (Column "has_pod" TBoolean)));
  ForeignKey "documents" "id" SET_NULL (plain (Column "invoice_id" TInteger));
  ForeignKey "documents" "id" SET_NULL (plain (Column "rate_con_id" TInteger));
  ForeignKey "documents" "id" SET_NULL (plain (Column "bol_id" TInteger));
  ForeignKey "documents" "id" SET_NULL (plain (Column "pod_id" TInteger));
  plain (not_null (with_default (Literal "pending") (Column "reconciliation_status" String_)));
  plain (timestamp_now "created_at");
  plain (timestamp_now "updated_at")].

Definition ShipmentException_table : table := mapped_class "shipment_exceptions"
  [plain_index "ix_shipment_exceptions_status" "status"]
  [mk_unique "uq_shipment_exceptions_shipment_kind" ["shipment_id"; "kind"]]
  [mk_check "ck_shipment_exceptions_kind" (Equals_value "kind" "missing_required_documents");
   mk_check "ck_shipment_exceptions_status" (In_values "status" ["active"; "resolved"])] [
  plain (primary (Column "id" TUuid));
  indexed (ForeignKey "shipments" "id" CASCADE (plain (not_null (Column "shipment_id" TUuid))));
  plain (not_null (Column "kind" (String_of 64)));
  plain (not_null (Column "status" (String_of 16)));
  plain (not_null (Column "missing_docs" TJsonb));
  plain (not_null (Column "reason_codes" TJsonb));
  plain (not_null (Column "deadline_at" TTimestamptz));
  plain (not_null (Column "version" TInteger));
  plain (not_null (Column "opened_at" TTimestamptz));
  plain (Column "resolved_at" TTimestamptz);
  plain (timestamp_now "updated_at")].

Definition ShipmentExceptionEvent_table : table := mapped_class "shipment_exception_events"
  [plain_index "ix_shipment_exception_events_notification_status" "notification_status"]
  [mk_unique "uq_shipment_exception_events_version" ["exception_id"; "version"]]
  [mk_check "ck_shipment_exception_events_transition"
     (In_values "transition" ["opened"; "changed"; "resolved"]);
   mk_check "ck_shipment_exception_events_notification_status"
     (In_values "notification_status" ["pending"; "sending"; "sent"; "failed"])] [
  plain (primary (Column "id" TUuid));
  indexed (ForeignKey "shipment_exceptions" "id" CASCADE
             (plain (not_null (Column "exception_id" TUuid))));
  indexed (ForeignKey "reconciliation_results" "id" SET_NULL
             (plain (Column "reconciliation_result_id" TUuid)));
  plain (not_null (Column "version" TInteger));
  plain (not_null (Column "transition" (String_of 16)));
  plain (Column "before_state" TJsonb);
  plain (not_null (Column "after_state" TJsonb));
  plain (not_null (Column "occurred_at" TTimestamptz));
  plain (not_null (with_default (Literal "pending") (Column "notification_status" (String_of 16))));
  plain (not_null (with_default (Literal "0") (Column "notification_attempt_count" TInteger)));
  plain (Column "notification_last_error" TText);
  plain (Column "notification_sent_at" TTimestamptz)].

Definition WorkflowAuditLog_table : table := mapped_class "workflow_audit_logs"
  [mk_index "uq_workflow_audit_logs_run_event" ["run_id"; "event_type"] true None] [] [] [
  plain (primary (Column "id" TInteger));
  indexed (ForeignKey "workflow_runs" "run_id" CASCADE
             (plain (not_null (Column "run_id" (String_of 36)))));
  plain (not_null (Column "event_type" (String_of 32)));
  plain (Column "payload" TJsonb);
  plain (Column "actor" (String_of 255));
  plain (timestamp_now "created_at")].

Definition WorkflowRun_table : table := mapped_class "workflow_runs" [] [] [] [
  plain (primary (Column "id" TInteger));
  unique_indexed (plain (not_null (Column "run_id" (String_of 36))));
  indexed (ForeignKey "documents" "id" CASCADE (plain (not_null (Column "document_id" TInteger))));
  plain (not_null (Column "status" String_));
  plain (not_null (with_default (Literal "pending") (Column "processing_status" (String_of 32))));
  plain (not_null (with_default (Literal "not_ready") (Column "posting_status" (String_of 32))));
  plain (Column "interrupt_payload" TJsonb);
  plain (timestamp_now "created_at");
  plain (timestamp_now "updated_at")].

(** [Base.metadata] *)
Definition metadata : catalog := [
  Document_table; Notification_table; RateConfirmation_table; ReconciliationResult_table;
  ReviewDecision_table; Shipment_table; ShipmentException_table; ShipmentExceptionEvent_table;
  WorkflowAuditLog_table; WorkflowRun_table].

(** ** The differences of two catalogs

    The order of the columns and the names of the foreign keys mean nothing. *)

Inductive difference :=
  | Missing_table (t : string)
  | Missing_column (t : string) (c : column)
  | Missing_foreign_key (t : string) (fk : foreign_key)
  | Missing_unique (t : string) (u : unique_constraint)
  | Missing_check (t : string) (k : check_constraint)
  | Missing_index (t : string) (ix : index).

Definition unnamed (fk : foreign_key) : foreign_key :=
  mk_foreign_key None (fk_columns fk) (fk_table fk) (fk_targets fk) (fk_on_delete fk).

Definition lacking {A} `{EqDecision A} (have want : list A) : list A :=
  List.filter (λ a, negb (bool_decide (a ∈ have))) want.

(** What [want] has that [have] lacks. *)
Definition table_lacks (have want : table) : list difference :=
  (Missing_column (table_name want) <$> lacking (columns have) (columns want))
  ++ (Missing_foreign_key (table_name want)
      <$> lacking (unnamed <$> foreign_keys have) (unnamed <$> foreign_keys want))
  ++ (Missing_unique (table_name want) <$> lacking (uniques have) (uniques want))
  ++ (Missing_check (table_name want) <$> lacking (check_constraints have) (check_constraints want))
  ++ (Missing_index (table_name want) <$> lacking (indexes have) (indexes want)).

Definition catalog_lacks (have want : catalog) : list difference :=
  want ≫= (λ t, match find_table (table_name t) have with
                | None => [Missing_table (table_name t)]
                | Some t' => table_lacks t' t
                end).

(** ** Upgrades and downgrades *)

Definition reaches (r : res migrated) (s : migrated) : bool :=
  match r with Ok s' => bool_decide (s' = s) | Raise _ => false end.

Lemma reaches_true r s : reaches r s = true → r = Ok s.
Proof. destruct r as [s'|]; cbn; [|done]. by intros <-%bool_decide_eq_true_1. Qed.

Lemma built_steps :
  forallb id (imap (λ n r, reaches (upgrade_step r (built n)) (built (S n))
                           && reaches (downgrade_step r (built (S n))) (built n)) revisions) = true.
Proof. vm_compute. reflexivity. Qed.

Lemma built_step n r :
  revisions !! n = Some r →
  upgrade_step r (built n) = Ok (built (S n)) ∧ downgrade_step r (built (S n)) = Ok (built n).
Proof.
  intros Hr. pose proof built_steps as H. rewrite forallb_forall in H.
  assert (Hb : reaches (upgrade_step r (built n)) (built (S n))
               && reaches (downgrade_step r (built (S n))) (built n) = true).
  { apply H. apply list_elem_of_In, elem_of_lookup_imap. by exists n, r. }
  apply andb_prop in Hb as [Hu Hd]. split; by apply reaches_true.
Qed.

(** The revisions from number [i] on, [k] of them. *)
Definition between (i k : nat) : list revision := take k (drop i revisions).

Lemma between_S i k r : revisions !! i = Some r → between i (S k) = r :: between (S i) k.
Proof. intros Hr. unfold between. by rewrite (drop_S _ _ _ Hr). Qed.

Lemma between_steps k : ∀ i, i + k ≤ length revisions →
  upgrades (between i k) (built i) = Ok (built (i + k))
  ∧ downgrades (between i k) (built (i + k)) = Ok (built i).
Proof.
  induction k as [|k IH]; intros i Hk; [by rewrite Nat.add_0_r|].
  destruct (lookup_lt_is_Some_2 revisions i) as [r Hr]; [lia|].
  rewrite (between_S _ _ _ Hr). destruct (built_step i r Hr) as [Hu Hd].
  destruct (IH (S i)) as [IHu IHd]; [lia|]. replace (i + S k) with (S i + k) by lia.
  cbn [upgrades downgrades]. by rewrite Hu, IHd.
Qed.

Lemma built_sound : forallb (λ n, fks_valid (built n).2 && forallb well_declared (built n).2
                                  && no_duplicates (relation_names (built n).2))
                      (seq 0 (S (length revisions))) = true.
Proof. vm_compute. reflexivity. Qed.


