(* ===== verification/SchemaRows.v ===== *)
(** * The rows the schema admits

    The rows of [Database] as rows of the catalog that the migrations build ([Schema]), the
    constraints of a table as a test of a new row, and the agreement of the two: an insert of
    [Database] goes through exactly when the table admits the row.

    A row is a function from the names of the columns; [None] is [NULL].  The length limits
    of text columns and the range of integers are not kept. *)

From S2P Require Import Prelude PyText LoadNumbers PyFloat DateTime Json Database Shipments Schema.
From Stdlib Require Import Ascii.
Local Open Scope string_scope.
Local Open Scope list_scope.
Local Open Scope nat_scope.

(** ** Values and rows *)

Inductive sql_value :=
  | VInteger (z : Z) | VFloat (f : float) | VBoolean (b : bool) | VDate (d : date)
  | VText (s : string) | VJsonb (j : json) | VUuid (u : uuid) | VTime (t : datetime).

Definition row : Type := string → option sql_value.

(** The columns of a row, by name; a column that is not listed is [NULL]. *)
Definition row_of (l : list (string * option sql_value)) : row := λ col, mjoin (dict_get col l).

Definition value_has_type (ty : sql_type) (v : sql_value) : bool :=
  match ty, v with
  | TInteger, VInteger _ | TFloat, VFloat _ | TBoolean, VBoolean _ | TDate, VDate _
  | TText, VText _ | TVarchar _, VText _ | TJsonb, VJsonb _ | TUuid, VUuid _
  | TTimestamptz, VTime _ => true
  | _, _ => false
  end.

(** The values that are keys. *)
Definition value_eqb (v w : sql_value) : bool :=
  match v, w with
  | VInteger a, VInteger b => Z.eqb a b
  | VText a, VText b => String.eqb a b
  | VUuid a, VUuid b => N.eqb a b
  | _, _ => false
  end.

Definition string_array (l : list string) : json := JArr (JStr <$> l).

Definition document_row (d : Document) : row := row_of [
  ("id", Some (VInteger (doc_id d))); ("filename", Some (VText (filename d)));
  ("doc_type", Some (VText (doc_type d))); ("status", Some (VText (doc_status d)));
  ("raw_text", VText <$> raw_text d); ("extracted_data", VJsonb <$> extracted_data d);
  ("source_type", VText <$> source_type d);
  ("source_idempotency_key", VText <$> source_idempotency_key d);
  ("source_message_id", VText <$> source_message_id d);
  ("source_part_id", VText <$> source_part_id d);
  ("source_enqueued_at", VTime <$> source_enqueued_at d);
  ("content_sha256", VText <$> content_sha256 d);
  ("shipment_id", VUuid <$> doc_shipment_id d); ("created_at", Some (VTime (doc_created_at d)))].

Definition run_row (r : WorkflowRun) : row := row_of [
  ("id", Some (VInteger (run_pk r))); ("run_id", Some (VText (run_id r)));
  ("document_id", Some (VInteger (document_id r))); ("status", Some (VText (status r)));
  ("processing_status", Some (VText (processing_status r)));
  ("posting_status", Some (VText (posting_status r)));
  ("interrupt_payload", VJsonb <$> interrupt_payload r);
  ("created_at", Some (VTime (run_created_at r)))].

Definition decision_row (v : ReviewDecision) : row := row_of [
  ("id", Some (VUuid (decision_id v))); ("run_id", Some (VText (decision_run_id v)));
  ("disposition", Some (VText (disposition v))); ("decided_at", Some (VTime (decided_at v)));
  ("reviewer_id", VText <$> reviewer_id v)].

Definition audit_row (a : WorkflowAuditLog) : row := row_of [
  ("id", Some (VInteger (audit_id a))); ("run_id", Some (VText (audit_run_id a)));
  ("event_type", Some (VText (event_type a))); ("payload", VJsonb <$> audit_payload a);
  ("actor", VText <$> actor a); ("created_at", Some (VTime (audit_created_at a)))].

Definition rate_confirmation_row (rc : RateConfirmation) : row := row_of [
  ("id", Some (VUuid (rc_id rc))); ("load_number", Some (VText (rc_load_number rc)));
  ("carrier_name", Some (VText (rc_carrier_name rc))); ("origin", Some (VText (origin rc)));
  ("destination", Some (VText (destination rc))); ("agreed_rate", Some (VFloat (agreed_rate rc)));
  ("currency", Some (VText (currency rc))); ("shipment_date", Some (VDate (shipment_date rc)));
  ("created_at", Some (VTime (rc_created_at rc)))].

Definition shipment_row (s : Shipment) : row := row_of [
  ("id", Some (VUuid (shipment_id s))); ("load_number", Some (VText (load_number s)));
  ("carrier_name", VText <$> carrier_name s); ("has_invoice", Some (VBoolean (has_invoice s)));
  ("has_rate_con", Some (VBoolean (has_rate_con s))); ("has_bol", Some (VBoolean (has_bol s)));
  ("has_pod", Some (VBoolean (has_pod s))); ("invoice_id", VInteger <$> invoice_id s);
  ("rate_con_id", VInteger <$> rate_con_id s); ("bol_id", VInteger <$> bol_id s);
  ("pod_id", VInteger <$> pod_id s);
  ("reconciliation_status", Some (VText (reconciliation_status s)));
  ("created_at", Some (VTime (created_at s)))].

Definition result_row (r : ReconciliationResult) : row := row_of [
  ("id", Some (VUuid (result_id r))); ("shipment_id", Some (VUuid (result_shipment_id r)));
  ("run_id", VText <$> result_run_id r); ("evaluation_source", Some (VText (evaluation_source r)));
  ("evaluation_key", VText <$> evaluation_key r); ("checks", Some (VJsonb (JArr (checks r))));
  ("missing_docs", Some (VJsonb (string_array (missing_docs r))));
  ("exception_reasons", Some (VJsonb (string_array (exception_reasons r))));
  ("created_at", Some (VTime (result_created_at r)))].

Definition exception_row (e : ShipmentException) : row := row_of [
  ("id", Some (VUuid (exc_id e))); ("shipment_id", Some (VUuid (exc_shipment_id e)));
  ("kind", Some (VText (kind e))); ("status", Some (VText (exc_status e)));
  ("missing_docs", Some (VJsonb (string_array (exc_missing_docs e))));
  ("reason_codes", Some (VJsonb (string_array (reason_codes e))));
  ("deadline_at", Some (VTime (deadline_at e))); ("version", Some (VInteger (version e)));
  ("opened_at", Some (VTime (opened_at e))); ("resolved_at", VTime <$> resolved_at e)].

Definition exception_state_json (st : exception_state) : json := JObj [
  ("status", JStr (st_status st)); ("missing_docs", string_array (st_missing_docs st));
  ("reason_codes", string_array (st_reason_codes st)); ("deadline_at", JStr (st_deadline_at st))].

Definition event_row (e : ShipmentExceptionEvent) : row := row_of [
  ("id", Some (VUuid (event_id e))); ("exception_id", Some (VUuid (event_exception_id e)));
  ("reconciliation_result_id", VUuid <$> event_result_id e);
  ("version", Some (VInteger (event_version e))); ("transition", Some (VText (transition e)));
  ("before_state", (λ st, VJsonb (exception_state_json st)) <$> before_state e);
  ("after_state", Some (VJsonb (exception_state_json (after_state e))));
  ("occurred_at", Some (VTime (occurred_at e)));
  ("notification_status", Some (VText (notification_status e)));
  ("notification_attempt_count", Some (VInteger (notification_attempt_count e)));
  ("notification_last_error", VText <$> notification_last_error e);
  ("notification_sent_at", VTime <$> notification_sent_at e)].

Definition notification_row (n : Notification) : row := row_of [
  ("id", Some (VInteger (notif_id n))); ("sent_at", Some (VTime (sent_at n)));
  ("total_count", Some (VInteger (total_count n)));
  ("complete_count", Some (VInteger (complete_count n)));
  ("awaiting_review_count", Some (VInteger (awaiting_review_count n)));
  ("failed_count", Some (VInteger (failed_count n)));
  ("approved_count", Some (VInteger (approved_count n)));
  ("rejected_count", Some (VInteger (rejected_count n)));
  ("ready_for_posting_count", Some (VInteger (ready_for_posting_count n)))].

(** The rows of every table, by its name. *)
Definition table_rows (d : database) (tbl : string) : list row :=
  default [] (dict_get tbl [
    ("documents", document_row <$> documents d); ("workflow_runs", run_row <$> workflow_runs d);
    ("review_decisions", decision_row <$> review_decisions d);
    ("workflow_audit_logs", audit_row <$> audit_logs d);
    ("rate_confirmations", rate_confirmation_row <$> rate_confirmations d);
    ("shipments", shipment_row <$> shipments d);
    ("reconciliation_results", result_row <$> reconciliation_results d);
    ("shipment_exceptions", exception_row <$> shipment_exceptions d);
    ("shipment_exception_events", event_row <$> exception_events d);
    ("notifications", notification_row <$> notifications d)]).

(** ** The constraints of a table *)

(** A column without a value takes its default. *)
Definition column_admits (r : row) (c : column) : bool :=
  match r (column_name c) with
  | Some v => value_has_type (column_type c) v
  | None => nullable c || bool_decide (is_Some (server_default c))
  end.

(** A condition that is unknown, of a [NULL], does not refuse the row. *)
Definition condition_holds (r : row) (e : condition) : bool :=
  match r (condition_column e) with
  | None => true
  | Some (VText s) =>
      match e with
      | In_values _ values => in_strs s values
      | Equals_value _ v => String.eqb s v
      | Normalized_load_number _ => ck_load_number_normalized s
      end
  | Some _ => false
  end.

Definition checks_hold (t : table) (r : row) : bool :=
  forallb (λ k, condition_holds r (check_condition k)) (check_constraints t).

(** Rows collide on a key when none of its columns is [NULL] and all are equal. *)
Definition same_key (key : list string) (r r' : row) : bool :=
  forallb (λ col, match r col, r' col with Some a, Some b => value_eqb a b | _, _ => false end) key.

(** The columns no two rows agree on; the predicate of a partial index is that its column
    is set, which rows that agree on it satisfy. *)
Definition unique_keys (t : table) : list (list string) :=
  (column_name <$> List.filter primary_key (columns t))
  :: (unique_columns <$> uniques t)
  ++ (index_columns <$> List.filter index_unique (indexes t)).

Definition keys_free (t : table) (rows : list row) (r : row) : bool :=
  forallb (λ key, negb (existsb (same_key key r) rows)) (unique_keys t).

(** The columns of the foreign key and those of its target hold the same values, or the
    key is [NULL]. *)
Definition refers (cols targets : list string) (r r' : row) : bool :=
  forallb (λ ct, match r ct.1, r' ct.2 with Some a, Some b => value_eqb a b | _, _ => false end)
    (combine cols targets).

Definition fk_holds (rows : string → list row) (r : row) (fk : foreign_key) : bool :=
  existsb (λ col, match r col with None => true | Some _ => false end) (fk_columns fk)
  || existsb (refers (fk_columns fk) (fk_targets fk) r) (rows (fk_table fk)).

Definition table_admits (rows : string → list row) (t : table) (r : row) : bool :=
  forallb (column_admits r) (columns t)
  && checks_hold t r
  && keys_free t (rows (table_name t)) r
  && forallb (fk_holds rows r) (foreign_keys t).

Definition admits (c : catalog) (rows : string → list row) (tbl : string) (r : row) : bool :=
  match find_table tbl c with Some t => table_admits rows t r | None => false end.

(** ** The catalog, evaluated *)

#[local] Arguments in_strs : simpl never.

Definition head_tables : catalog := Eval vm_compute in head_catalog.

Lemma head_evaluated : head_catalog = head_tables.
Proof. vm_compute. reflexivity. Qed.

Lemma existsb_rows {A} (f : A → row) (q : row → bool) (p : A → bool) (l : list A) (rows : list row) :
  rows = f <$> l → (∀ x, q (f x) = p x) → existsb q rows = existsb p l.
Proof.
  intros -> H. induction l as [|x l IH]; [done|]. rewrite fmap_cons. cbn [existsb]. by rewrite H, IH.
Qed.

Lemma option_column {A} (f : A → sql_value) (o : option A) (r : row) (c : column) :
  r (column_name c) = f <$> o → nullable c = true → (∀ a, value_has_type (column_type c) (f a) = true) →
  column_admits r c = true.
Proof. intros Hr Hn Ht. unfold column_admits. rewrite Hr. destruct o; cbn; [apply Ht|by rewrite Hn]. Qed.

(** A key that may be null. *)
Lemma option_key {A} (f : A → row) (g : A → option string) (col : string) (r : row)
    (o : option string) (l : list A) (rows : list row) :
  rows = f <$> l → (∀ x, f x col = VText <$> g x) → r col = VText <$> o →
  negb (existsb (same_key [col] r) rows)
  = match o with
    | None => true
    | Some k => negb (existsb (λ x, sql_eq String.eqb (g x) k) l)
    end.
Proof.
  intros -> Hf Hr. unfold same_key. destruct o as [k|].
  - f_equal. eapply existsb_rows; [reflexivity|]. intros x. cbn. rewrite Hr, Hf.
    destruct (g x); cbn; [|done]. by rewrite andb_true_r, String.eqb_sym.
  - apply negb_true_iff, existsb_none. intros x _. cbn. by rewrite Hr.
Qed.

(** A foreign key that may be null. *)
Lemma option_fk {A K} (mk : K → sql_value) (f : A → row) (p : K → A → bool) (col target : string)
    (rows : string → list row) (r : row) (o : option K) (l : list A) (name : option string) tbl od :
  rows tbl = f <$> l → r col = mk <$> o →
  (∀ k x, refers [col] [target] (λ _, Some (mk k)) (f x) = p k x) →
  fk_holds rows r (mk_foreign_key name [col] tbl [target] od)
  = match o with None => true | Some k => existsb (p k) l end.
Proof.
  intros Hrows Hr Hp. unfold fk_holds. cbn [fk_columns fk_table fk_targets existsb]. rewrite Hr.
  destruct o as [k|]; cbn [fmap option_fmap option_map orb]; [|done].
  eapply existsb_rows; [exact Hrows|]. intros x. rewrite <- Hp. unfold refers. cbn. by rewrite Hr.
Qed.

(** The tests of one table on a row, evaluated: the columns that may be null by cases, a key
    or a foreign key as the test on the rows of the model. *)
Ltac columns_test :=
  repeat match goal with
  | |- _ && _ = true => apply andb_true_intro; split
  end;
  first [reflexivity | eapply option_column; [reflexivity|reflexivity|intros; reflexivity]].
Ltac key_test :=
  eapply existsb_rows; [reflexivity|]; intros ?; unfold same_key, refers; simpl; rewrite ?andb_true_r;
  try reflexivity;
  repeat match goal with
  | |- _ && _ = _ && _ => f_equal
  | |- Z.eqb _ _ = _ => apply Z.eqb_sym
  | |- N.eqb _ _ = _ => apply N.eqb_sym
  | |- String.eqb _ _ = _ => apply String.eqb_sym
  end.
Lemma table_admits_parts rows t r ck keys fks :
  forallb (column_admits r) (columns t) = true → checks_hold t r = ck →
  keys_free t (rows (table_name t)) r = keys → forallb (fk_holds rows r) (foreign_keys t) = fks →
  table_admits rows t r = ck && keys && fks.
Proof. intros H1 <- <- <-. unfold table_admits. by rewrite H1. Qed.

Ltac table_test :=
  rewrite head_evaluated; apply table_admits_parts;
  [ simpl; columns_test
  | unfold checks_hold; simpl; rewrite ?andb_true_r; try reflexivity
  | unfold keys_free; simpl; rewrite ?andb_true_r; repeat apply (f_equal2 andb); try (apply f_equal; key_test)
  | simpl; rewrite ?andb_true_r; try (unfold fk_holds; simpl; first [reflexivity | key_test]) ].

Section Admitted_rows.
Context (d : database).

Lemma admits_run r :
  admits head_catalog (table_rows d) "workflow_runs" (run_row r)
  = ck_workflow_run r
    && (negb (existsb (λ x, Z.eqb (run_pk x) (run_pk r)) (workflow_runs d))
        && negb (has_run (run_id r) d))
    && existsb (λ x, Z.eqb (doc_id x) (document_id r)) (documents d).
Proof. table_test. Qed.

Lemma admits_document r :
  doc_shipment_id r = None →
  admits head_catalog (table_rows d) "documents" (document_row r)
  = true
    && (negb (existsb (λ x, Z.eqb (doc_id x) (doc_id r)) (documents d))
        && match source_idempotency_key r with
           | None => true
           | Some k => negb (existsb (λ x, sql_eq String.eqb (source_idempotency_key x) k) (documents d))
           end)
    && true.
Proof.
  intros Hs. table_test.
  - by apply (option_key document_row source_idempotency_key).
  - assert (E : document_row r "shipment_id" = None) by (cbn; by rewrite Hs). unfold fk_holds. cbn [fk_columns existsb]. by rewrite E.
Qed.

Lemma admits_decision r :
  admits head_catalog (table_rows d) "review_decisions" (decision_row r)
  = ck_review_decision r
    && (negb (existsb (λ x, N.eqb (decision_id x) (decision_id r)) (review_decisions d))
        && negb (existsb (λ x, String.eqb (decision_run_id x) (decision_run_id r)) (review_decisions d)))
    && has_run (decision_run_id r) d.
Proof. table_test. Qed.

Lemma admits_rate_confirmation r :
  admits head_catalog (table_rows d) "rate_confirmations" (rate_confirmation_row r)
  = ck_rate_confirmation r
    && (negb (existsb (λ x, N.eqb (rc_id x) (rc_id r)) (rate_confirmations d))
        && negb (existsb (λ x, String.eqb (rc_load_number x) (rc_load_number r)) (rate_confirmations d)))
    && true.
Proof. table_test. Qed.

Lemma admits_result r :
  admits head_catalog (table_rows d) "reconciliation_results" (result_row r)
  = true
    && (negb (existsb (λ x, N.eqb (result_id x) (result_id r)) (reconciliation_results d))
        && (match result_run_id r with
            | None => true
            | Some k => negb (existsb (λ x, sql_eq String.eqb (result_run_id x) k)
                                (reconciliation_results d))
            end
            && match evaluation_key r with
               | None => true
               | Some k => negb (existsb (λ x, sql_eq String.eqb (evaluation_key x) k)
                                   (reconciliation_results d))
               end))
    && (has_shipment (result_shipment_id r) d
        && match result_run_id r with None => true | Some k => has_run k d end).
Proof.
  table_test.
  - by apply (option_key result_row result_run_id).
  - by apply (option_key result_row evaluation_key).
  - apply f_equal2; [unfold fk_holds; simpl; key_test|].
    eapply (option_fk VText run_row (λ k x, String.eqb (run_id x) k)); [reflexivity..|].
    intros k x. unfold refers. cbn. by rewrite andb_true_r, String.eqb_sym.
Qed.

Lemma admits_exception r :
  admits head_catalog (table_rows d) "shipment_exceptions" (exception_row r)
  = ck_exception r
    && (negb (existsb (λ x, N.eqb (exc_id x) (exc_id r)) (shipment_exceptions d))
        && negb (existsb (λ x, N.eqb (exc_shipment_id x) (exc_shipment_id r)
                               && String.eqb (kind x) (kind r)) (shipment_exceptions d)))
    && has_shipment (exc_shipment_id r) d.
Proof. table_test. Qed.

Lemma admits_event r :
  match event_result_id r with
  | None => true
  | Some k => existsb (λ x, N.eqb (result_id x) k) (reconciliation_results d)
  end = true →
  admits head_catalog (table_rows d) "shipment_exception_events" (event_row r)
  = ck_event r
    && (negb (existsb (λ x, N.eqb (event_id x) (event_id r)) (exception_events d))
        && negb (existsb (λ x, N.eqb (event_exception_id x) (event_exception_id r)
                               && Z.eqb (event_version x) (event_version r)) (exception_events d)))
    && existsb (λ x, N.eqb (exc_id x) (event_exception_id r)) (shipment_exceptions d).
Proof.
  intros Hr. table_test. rewrite <- (andb_true_r (existsb (λ x, N.eqb (exc_id x) _) _)).
  apply f_equal2; [unfold fk_holds; simpl; key_test|]. etransitivity; [|exact Hr].
  eapply (option_fk VUuid result_row (λ k x, N.eqb (result_id x) k)); [reflexivity..|].
  intros k x. unfold refers. cbn. by rewrite andb_true_r, N.eqb_sym.
Qed.

(** A shipment refers to documents by keys that may be null. *)
Definition document_there (o : option Z) : bool :=
  match o with None => true | Some k => existsb (λ x, Z.eqb (doc_id x) k) (documents d) end.

Lemma admits_shipment r :
  admits head_catalog (table_rows d) "shipments" (shipment_row r)
  = ck_shipment r
    && (negb (existsb (λ x, N.eqb (shipment_id x) (shipment_id r)) (shipments d))
        && negb (existsb (λ x, String.eqb (load_number x) (load_number r)) (shipments d)))
    && (document_there (invoice_id r)
        && (document_there (rate_con_id r) && (document_there (bol_id r) && document_there (pod_id r)))).
Proof.
  table_test.
  - unfold ck_shipment. by rewrite andb_comm.
  - repeat apply f_equal2.
    all: eapply (option_fk VInteger document_row (λ k x, Z.eqb (doc_id x) k)); [reflexivity..|].
    all: intros k x; unfold refers; cbn; by rewrite andb_true_r, Z.eqb_sym.
Qed.

Lemma admits_audit r :
  admits head_catalog (table_rows d) "workflow_audit_logs" (audit_row r)
  = true
    && (negb (existsb (λ x, Z.eqb (audit_id x) (audit_id r)) (audit_logs d))
        && negb (existsb (λ x, String.eqb (audit_run_id x) (audit_run_id r)
                               && String.eqb (event_type x) (event_type r)) (audit_logs d)))
    && has_run (audit_run_id r) d.
Proof. table_test. Qed.

Lemma admits_notification r :
  admits head_catalog (table_rows d) "notifications" (notification_row r)
  = true && negb (existsb (λ x, Z.eqb (notif_id x) (notif_id r)) (notifications d)) && true.
Proof. table_test. Qed.
End Admitted_rows.

(** ** The inserts and the schema *)

(** An insert does what the table of the schema says: the row the table admits is appended
    to it, every other row is refused with [IntegrityError]; nothing else changes. *)
Definition insert_agrees {A} (m : M session A) (s : session) (tbl : string) (r : row) : Prop :=
  match m s with
  | (Ok _, s') =>
      admits head_catalog (table_rows (working s)) tbl r = true
      ∧ (∀ t, table_rows (working s') t
              = table_rows (working s) t ++ (if String.eqb t tbl then [r] else []))
      ∧ committed s' = committed s
  | (Raise e, s') =>
      admits head_catalog (table_rows (working s)) tbl r = false
      ∧ exn_cls e = IntegrityError ∧ working s' = working s ∧ committed s' = committed s
  end.

(** A row written back passes the CHECK constraints of its table, or is refused. *)
Definition update_agrees (m : M session unit) (s : session) (tbl : string) (r : row) : Prop :=
  ∃ t, find_table tbl head_catalog = Some t ∧
    match m s with
    | (Ok _, _) => checks_hold t r = true
    | (Raise e, s') => checks_hold t r = false ∧ exn_cls e = IntegrityError ∧ s' = s
    end.

Ltac rows_put :=
  let t := fresh "t" in
  intros t;
  match goal with |- context [String.eqb t ?x] => destruct (String.eqb_spec t x) as [->|] end;
  [ cbn; by rewrite fmap_app
  | rewrite app_nil_r; unfold table_rows; cbn [dict_get];
    repeat (match goal with |- context [String.eqb t ?x] => destruct (String.eqb_spec t x) end;
            [done|]); done ].

(** Evaluate an insert, one constraint after the other. *)
Ltac insert_test :=
  session_unfold;
  repeat (match goal with |- context [if ?b then (λ _, _) else _] => destruct b end; simpl);
  rewrite ?andb_false_r;
  first [ split; [done|split; [rows_put|done]] | by repeat split ].

Lemma document_agrees mk s :
  (∀ i now, doc_id (mk i now) = i) → (∀ i now, doc_shipment_id (mk i now) = None) →
  insert_agrees (insert_document mk) s "documents" (document_row (mk (doc_seq (senv s)) (clock (senv s)))).
Proof. intros Hi Hs. unfold insert_agrees. rewrite admits_document, Hi by done. insert_test. Qed.

Lemma run_agrees mk s :
  (∀ i now, run_pk (mk i now) = i) →
  insert_agrees (insert_run mk) s "workflow_runs" (run_row (mk (run_seq (senv s)) (clock (senv s)))).
Proof. intros Hi. unfold insert_agrees. rewrite admits_run, Hi. insert_test. Qed.

Lemma decision_agrees mk s :
  (∀ i now, decision_id (mk i now) = i) →
  insert_agrees (insert_decision mk) s "review_decisions" (decision_row (mk (fresh_uuid s) (clock (senv s)))).
Proof. intros Hi. unfold insert_agrees, fresh_uuid. rewrite admits_decision, Hi. insert_test. Qed.

Lemma rate_confirmation_agrees mk s :
  (∀ i now, rc_id (mk i now) = i) →
  insert_agrees (insert_rate_confirmation mk) s "rate_confirmations"
    (rate_confirmation_row (mk (fresh_uuid s) (clock (senv s)))).
Proof. intros Hi. unfold insert_agrees, fresh_uuid. rewrite admits_rate_confirmation, Hi. insert_test. Qed.

Lemma result_agrees mk s :
  (∀ i now, result_id (mk i now) = i) →
  insert_agrees (insert_result mk) s "reconciliation_results" (result_row (mk (fresh_uuid s) (clock (senv s)))).
Proof. intros Hi. unfold insert_agrees, fresh_uuid. rewrite admits_result, Hi. insert_test. Qed.

Lemma exception_agrees mk s :
  (∀ i, exc_id (mk i) = i) →
  insert_agrees (insert_exception mk) s "shipment_exceptions" (exception_row (mk (fresh_uuid s))).
Proof. intros Hi. unfold insert_agrees, fresh_uuid. rewrite admits_exception, Hi. insert_test. Qed.

Lemma event_agrees mk s :
  (∀ i, event_id (mk i) = i) →
  (∀ i k, event_result_id (mk i) = Some k → k ∈ result_id <$> reconciliation_results (working s)) →
  insert_agrees (insert_event mk) s "shipment_exception_events" (event_row (mk (fresh_uuid s))).
Proof.
  intros Hi Hr. unfold insert_agrees, fresh_uuid. rewrite admits_event, Hi; [insert_test|].
  destruct (event_result_id _) as [k|] eqn:E; [|done]. apply Hr, list_elem_of_fmap in E as (x & -> & Hx).
  apply existsb_exists. exists x. by rewrite <- list_elem_of_In, N.eqb_refl.
Qed.

(** [INSERT ... ON CONFLICT (load_number) DO NOTHING], of a number that is free. *)
Lemma shipment_agrees ln s :
  existsb (λ x, String.eqb (load_number x) ln) (shipments (working s)) = false →
  insert_agrees (insert_shipment_do_nothing ln) s "shipments"
    (shipment_row (new_shipment ln (fresh_uuid s) (clock (senv s)))).
Proof.
  intros Hln. unfold insert_agrees, fresh_uuid, insert_shipment_do_nothing. rewrite admits_shipment.
  cbn [new_shipment load_number shipment_id invoice_id rate_con_id bol_id pod_id document_there]. rewrite Hln.
  insert_test.
Qed.

(** The audit log: an event the run does not have yet, under the next number. *)
Lemma audit_agrees rid ev payload who s :
  existsb (λ a, String.eqb (audit_run_id a) rid && String.eqb (event_type a) ev) (audit_logs (working s)) = false →
  (∀ a, a ∈ audit_logs (working s) → (audit_id a < audit_seq (senv s))%Z) →
  insert_agrees (log_audit_event rid ev payload who) s "workflow_audit_logs"
    (audit_row (mkWorkflowAuditLog (audit_seq (senv s)) rid ev payload (Some who) (clock (senv s)))).
Proof.
  intros Hev Hid. unfold insert_agrees, log_audit_event. rewrite admits_audit.
  cbn [audit_id audit_run_id event_type]. rewrite Hev, existsb_none.
  2:{ intros a Ha. apply Z.eqb_neq. specialize (Hid a Ha). lia. }
  insert_test.
Qed.

Lemma notification_agrees mk s :
  (∀ i now, notif_id (mk i now) = i) →
  (∀ n, n ∈ notifications (working s) → (notif_id n < notif_seq (senv s))%Z) →
  insert_agrees (insert_notification mk) s "notifications"
    (notification_row (mk (notif_seq (senv s)) (clock (senv s)))).
Proof.
  intros Hi Hid. unfold insert_agrees. rewrite admits_notification, Hi, existsb_none.
  2:{ intros n Hn. apply Z.eqb_neq. specialize (Hid n Hn). lia. }
  insert_test.
Qed.

Ltac update_test :=
  eexists; split; [rewrite head_evaluated; reflexivity|];
  unfold save_run, save_shipment, save_exception, save_event; session_unfold;
  match goal with |- context [if ?b then _ else _] =>
    let E := fresh in destruct b eqn:E; unfold checks_hold; simpl; rewrite andb_true_r;
    [|split; [|done]]; first [exact E | rewrite andb_comm; exact E]
  end.

Lemma updates_agree s :
  (∀ r, update_agrees (save_run r) s "workflow_runs" (run_row r))
  ∧ (∀ r, update_agrees (save_shipment r) s "shipments" (shipment_row r))
  ∧ (∀ r, update_agrees (save_exception r) s "shipment_exceptions" (exception_row r))
  ∧ (∀ r, update_agrees (save_event r) s "shipment_exception_events" (event_row r)).
Proof. split; [|split; [|split]]; intros r; update_test. Qed.

(** ** What the models leave to the migrations *)

(** The conditions the catalog tests and the classes do not declare. *)
Definition undeclared (tbl : string) : list condition :=
  omap (λ df, match df with
              | Missing_check t k => if String.eqb t tbl then Some (check_condition k) else None
              | _ => None
              end) (catalog_lacks metadata head_catalog).

Definition same_set {A} `{EqDecision A} (l l' : list A) : bool :=
  forallb (λ a, bool_decide (a ∈ l')) l && forallb (λ a, bool_decide (a ∈ l)) l'.

Lemma forallb_set {A} `{EqDecision A} (f : A → bool) (l l' : list A) :
  same_set l l' = true → forallb f l = forallb f l'.
Proof.
  intros [H H']%andb_prop. rewrite !forallb_forall in H, H'. apply Bool.eq_iff_eq_true.
  rewrite !forallb_forall. split; intros Hf a Ha.
  - apply Hf, list_elem_of_In. apply (bool_decide_eq_true_1 _ (H' a Ha)).
  - apply Hf, list_elem_of_In. apply (bool_decide_eq_true_1 _ (H a Ha)).
Qed.

(** Two tables with the same tests, but for some conditions of the first. *)
Definition same_tests (extra : list condition) (t t' : table) : bool :=
  String.eqb (table_name t) (table_name t')
  && same_set (columns t) (columns t')
  && same_set (check_condition <$> check_constraints t) ((check_condition <$> check_constraints t') ++ extra)
  && same_set (unique_keys t) (unique_keys t')
  && same_set (unnamed <$> foreign_keys t) (unnamed <$> foreign_keys t').

Lemma forallb_fmap {A B} (f : B → bool) (g : A → B) (l : list A) :
  forallb f (g <$> l) = forallb (f ∘ g) l.
Proof. induction l as [|a l IH]; [done|]. rewrite fmap_cons. cbn [forallb]. by rewrite IH. Qed.

Lemma same_tests_admit extra t t' rows r :
  same_tests extra t t' = true →
  table_admits rows t r = table_admits rows t' r && forallb (condition_holds r) extra.
Proof.
  intros [[[[Hn Hc]%andb_prop Hk]%andb_prop Hu]%andb_prop Hf]%andb_prop.
  apply String.eqb_eq in Hn. unfold table_admits, checks_hold, keys_free.
  rewrite Hn, (forallb_set _ _ _ Hc), (forallb_set _ _ _ Hu).
  assert (E : ∀ l, forallb (fk_holds rows r) l = forallb (fk_holds rows r) (unnamed <$> l))
    by (intros l; by rewrite forallb_fmap).
  rewrite (E (foreign_keys t)), (E (foreign_keys t')), (forallb_set _ _ _ Hf).
  rewrite <- !(forallb_fmap (condition_holds r) check_condition), (forallb_set _ _ _ Hk), forallb_app.
  destruct (forallb (column_admits r) _), (forallb (condition_holds r) (check_condition <$> _)),
    (forallb (condition_holds r) extra), (forallb _ (unique_keys t')); cbn; try done;
    by destruct (forallb _ _).
Qed.

(** Every table of the catalog against its class. *)
Definition declared_alike (tbl : string) : bool :=
  match find_table tbl head_catalog, find_table tbl metadata with
  | Some t, Some t' => same_tests (undeclared tbl) t t'
  | None, None => true
  | _, _ => false
  end.

#[local] Opaque head_catalog metadata.

Lemma tables_declared_alike : forallb (declared_alike ∘ table_name) (head_catalog ++ metadata) = true.
Proof. vm_compute. reflexivity. Qed.

Lemma declared_table t : t ∈ head_catalog ++ metadata → declared_alike (table_name t) = true.
Proof.
  pose proof tables_declared_alike as H. rewrite forallb_forall in H.
  intros Ht%list_elem_of_In. exact (H t Ht).
Qed.

Lemma find_table_name (tbl : string) (c : catalog) t :
  find_table tbl c = Some t → t ∈ c ∧ table_name t = tbl.
Proof.
  unfold find_table, find_first. intros [Ht He%String.eqb_eq]%find_some. by rewrite <- list_elem_of_In in Ht.
Qed.

(** C39 The migrations and the classes: from an empty database the migrations, in their
    order, reach the last revision without an error; the catalog they build has every
    table, column, foreign key and constraint the classes of app/models/ declare, and, for
    any rows whatever, a table admits a row exactly when the class declares it so and the row
    passes the three CHECK constraints that only the migrations know. *)
Theorem migrations_build_models :
  upgrades revisions (None, []) = Ok (Some "202607190004", head_catalog)
  ∧ catalog_lacks head_catalog metadata
    = [Missing_index "review_decisions" (unique_index "ix_review_decisions_run_id" "run_id")]
  ∧ (∀ tbl rows r, admits head_catalog rows tbl r
       = admits metadata rows tbl r && forallb (condition_holds r) (undeclared tbl))
  ∧ undeclared "shipments"
    = [In_values "reconciliation_status" ["pending"; "partial"; "reconciled"; "exception"]]
  ∧ undeclared "workflow_runs"
    = [In_values "processing_status"
         ["pending"; "running"; "retrying"; "awaiting_review"; "complete"; "failed"];
       In_values "posting_status"
         ["not_ready"; "ready_for_posting"; "posting"; "posted"; "payment_scheduled"; "paid";
          "blocked"; "failed"]]
  ∧ (∀ tbl, tbl ≠ "shipments" → tbl ≠ "workflow_runs" → undeclared tbl = []).
Proof.
  split; [vm_compute; reflexivity|]. split; [vm_compute; reflexivity|].
  split; [|split; [vm_compute; reflexivity|split; [vm_compute; reflexivity|]]].
  - intros tbl rows r. unfold admits.
    destruct (find_table tbl head_catalog) as [t|] eqn:Eh.
    + destruct (find_table_name _ _ _ Eh) as [Ht En].
      pose proof (declared_table t (proj2 (elem_of_app _ _ _) (or_introl Ht))) as Hd.
      rewrite En in Hd. unfold declared_alike in Hd. rewrite Eh in Hd.
      destruct (find_table tbl metadata) as [t'|]; [|done]. by apply same_tests_admit.
    + destruct (find_table tbl metadata) as [t'|] eqn:Em; [|done].
      destruct (find_table_name _ _ _ Em) as [Ht En].
      pose proof (declared_table t' (proj2 (elem_of_app _ _ _) (or_intror Ht))) as Hd.
      rewrite En in Hd. unfold declared_alike in Hd. by rewrite Eh, Em in Hd.
  - intros tbl Hs Hw. unfold undeclared.
    assert (E : catalog_lacks metadata head_catalog = ltac:(let l := eval vm_compute in (catalog_lacks metadata head_catalog) in exact l))
      by (vm_compute; reflexivity).
    rewrite E. cbn [omap list_omap]. apply String.eqb_neq in Hs, Hw. rewrite String.eqb_sym in Hs, Hw.
    by rewrite Hs, Hw.
Qed.


(** At a database with one document: its run is admitted, a second row of the same run id is
    not, and an unknown status is refused. *)
Definition one_document : session :=
  on_working (on_documents (λ _, [mkDocument 0 "a.pdf" "invoice" "received" None None None None None None
                                    None None None 0]))
    (session_on empty_database 0).

