(* ===== verification/Vocabulary.v ===== *)
(** * The vocabulary of the statuses

    [app/schemas/business_state.py]: the four enumerations of the separate dimensions of the
    business state.  The code writes statuses as text; here it is shown that the text the
    tables admit is that of the enumerations, no more and no less, so that every row and
    every answer can be read back as a member. *)

From S2P Require Import Prelude PyText DateTime PyFloat Json LoadNumbers Database MissingDocs Shipments BusinessState.
From Stdlib Require Import Ascii.
Local Open Scope string_scope.
Local Open Scope list_scope.
Local Open Scope nat_scope.

(** A [StrEnum]: its members in order, and their values. *)
Class StrEnum (E : Type) := { members : list E; value : E → string }.

(** [E(text)]: the first member of the value; [None] is [ValueError]. *)
Definition of_value {E} `{StrEnum E} (text : string) : option E :=
  find_first (λ m, String.eqb (value m) text) members.

Inductive ProcessingStatus := PENDING | RUNNING | RETRYING | AWAITING_REVIEW | COMPLETE | FAILED.

#[global] Instance processing_values : StrEnum ProcessingStatus := {
  members := [PENDING; RUNNING; RETRYING; AWAITING_REVIEW; COMPLETE; FAILED];
  value s := match s with
             | PENDING => "pending" | RUNNING => "running" | RETRYING => "retrying"
             | AWAITING_REVIEW => "awaiting_review" | COMPLETE => "complete" | FAILED => "failed"
             end
}.

Module Reconciled.
Inductive ReconciliationStatus := PENDING | PARTIAL | RECONCILED | EXCEPTION.

#[global] Instance reconciliation_values : StrEnum ReconciliationStatus := {
  members := [PENDING; PARTIAL; RECONCILED; EXCEPTION];
  value s := match s with
             | PENDING => "pending" | PARTIAL => "partial" | RECONCILED => "reconciled"
             | EXCEPTION => "exception"
             end
}.
End Reconciled.

Module Reviewed.
Inductive ReviewDisposition := NOT_REQUIRED | PENDING | APPROVED | REJECTED | UNKNOWN.

#[global] Instance disposition_values : StrEnum ReviewDisposition := {
  members := [NOT_REQUIRED; PENDING; APPROVED; REJECTED; UNKNOWN];
  value s := match s with
             | NOT_REQUIRED => "not_required" | PENDING => "pending" | APPROVED => "approved"
             | REJECTED => "rejected" | UNKNOWN => "unknown"
             end
}.
End Reviewed.

Module Posted.
Inductive PostingStatus :=
  | NOT_READY | READY_FOR_POSTING | POSTING | POSTED | PAYMENT_SCHEDULED | PAID | BLOCKED | FAILED.

#[global] Instance posting_values : StrEnum PostingStatus := {
  members := [NOT_READY; READY_FOR_POSTING; POSTING; POSTED; PAYMENT_SCHEDULED; PAID; BLOCKED; FAILED];
  value s := match s with
             | NOT_READY => "not_ready" | READY_FOR_POSTING => "ready_for_posting"
             | POSTING => "posting" | POSTED => "posted" | PAYMENT_SCHEDULED => "payment_scheduled"
             | PAID => "paid" | BLOCKED => "blocked" | FAILED => "failed"
             end
}.
End Posted.

(** What makes an enumeration usable as a code: every member is listed, once, by its value. *)
Class StrEnumLaws (E : Type) `{StrEnum E} := {
  members_all (m : E) : m ∈ members;
  values_differ : NoDup (value <$> members)
}.

Ltac enumerated :=
  split; [intros []; cbn; repeat first [apply list_elem_of_here | apply list_elem_of_further]
         | apply (bool_decide_unpack _); reflexivity].

#[global] Instance processing_laws : StrEnumLaws ProcessingStatus. Proof. enumerated. Qed.
#[global] Instance reconciliation_laws : StrEnumLaws Reconciled.ReconciliationStatus.
Proof. enumerated. Qed.
#[global] Instance disposition_laws : StrEnumLaws Reviewed.ReviewDisposition. Proof. enumerated. Qed.
#[global] Instance posting_laws : StrEnumLaws Posted.PostingStatus. Proof. enumerated. Qed.

Section Enum.
Context {E} `{StrEnumLaws E}.

Lemma of_value_sound text (m : E) : of_value text = Some m → value m = text.
Proof using Type. intros [_ Hm]%find_first_Some. by apply String.eqb_eq. Qed.

Lemma value_inj (m m' : E) : value m = value m' → m = m'.
Proof using All.
  intros Hv. apply (NoDup_fmap_inj value members); [apply values_differ|apply members_all..|exact Hv].
Qed.

(** Round trip. *)
Lemma of_value_value (m : E) : of_value (value m) = Some m.
Proof using All.
  destruct (of_value (value m)) as [m'|] eqn:Ef.
  - by apply of_value_sound, value_inj in Ef as ->.
  - exfalso. unfold of_value in Ef. rewrite find_first_None in Ef.
    specialize (Ef m (members_all m)). by rewrite String.eqb_refl in Ef.
Qed.

(** A list of texts that is the list of values admits exactly the members. *)
Lemma in_values text : in_strs text (value <$> (members : list E)) = true ↔ is_Some (of_value (E:=E) text).
Proof using All.
  rewrite in_strs_In, list_elem_of_fmap. split.
  - intros (m & -> & _). rewrite of_value_value. eauto.
  - intros [m Hm%of_value_sound]. exists m. split; [done|apply members_all].
Qed.
End Enum.

(** ** The constraints and the answers *)

(** The rows the tables admit are those whose statuses are members. *)
Theorem run_statuses_are_members run :
  ck_workflow_run run = true ↔
    is_Some (of_value (E:=ProcessingStatus) (processing_status run))
    ∧ is_Some (of_value (E:=Posted.PostingStatus) (posting_status run)).
Proof. unfold ck_workflow_run. rewrite andb_true_iff. by rewrite <- !in_values. Qed.

Theorem shipment_status_is_member sh :
  ck_shipment sh = true ↔
    ck_load_number_normalized (load_number sh) = true
    ∧ is_Some (of_value (E:=Reconciled.ReconciliationStatus) (reconciliation_status sh)).
Proof. unfold ck_shipment. rewrite andb_true_iff. by rewrite <- in_values. Qed.

(** Of the five dispositions a stored decision has one of two. *)
Theorem decision_is_member dec :
  ck_review_decision dec = true ↔
    of_value (disposition dec) = Some Reviewed.APPROVED ∨ of_value (disposition dec) = Some Reviewed.REJECTED.
Proof.
  unfold ck_review_decision. rewrite in_strs_In. split.
  - intros [-> | ->%list_elem_of_singleton]%elem_of_cons; [by left|by right].
  - intros [H|H]; apply of_value_sound in H as <-; cbn;
      [apply list_elem_of_here|apply list_elem_of_further, list_elem_of_here].
Qed.

(** What the API answers for a review is a member, for every decision the table admits. *)
Theorem review_disposition_is_member run dec reconciliation :
  (∀ d, dec = Some d → ck_review_decision d = true) →
  is_Some (of_value (E:=Reviewed.ReviewDisposition) (review_disposition run dec reconciliation)).
Proof.
  intros Hd. unfold review_disposition. destruct dec as [d|].
  - destruct (proj1 (decision_is_member d) (Hd d eq_refl)) as [-> | ->]; eauto.
  - destruct (String.eqb _ "awaiting_review"); [done|]. by destruct (_ && _).
Qed.

(** The processing status the API answers is the one of the row. *)
Theorem processing_status_is_member run :
  ck_workflow_run run = true →
  is_Some (of_value (E:=ProcessingStatus) (processing_status_of run))
  ∧ processing_status_of run = processing_status run.
Proof.
  intros [[m Hm] _]%run_statuses_are_members.
  pose proof (of_value_sound _ _ Hm) as Hv. unfold processing_status_of. rewrite <- Hv.
  destruct m; cbn; eauto.
Qed.
